(** * YAY: the lexer, parser and dumper of libyay, embedded in Rocq

    Sources: src/python/libyay/{errors,lexer,parser,dumper}.py.

    Python text is a sequence of Unicode code points, so a [str] is a
    [list Z] here; [lit] turns an ASCII literal into one.  Exceptions are
    values of [Exn], and code that may raise lives in the state-and-error
    monad [M].  Loops are recursions on a fuel counter; [loads] computes the
    fuel from the input's size.

    What belongs to the Python interpreter and not to the repository is a
    parameter of the development ([Host]): the Unicode database behind
    [str.isdigit], [str.isalpha], [str.isalnum] and [repr], and the
    conversions between floats and decimal text ([float()], [repr]).  On
    ASCII the character classes are written out.  The interpreter's resource
    guards (recursion limit, [int_max_str_digits]) are not modelled. *)

From Stdlib Require Import ZArith List String Ascii Bool Lia.
From Stdlib Require Import Floats.SpecFloat.
Import ListNotations.
Open Scope Z_scope.
Set Warnings "-register-all".

(** ** Python strings *)

Definition str := list Z.

Definition ord (a : ascii) : Z := Z.of_nat (nat_of_ascii a).
Arguments ord a%_char.

Definition lit (s : string) : str := map ord (list_ascii_of_string s).
Arguments lit s%_string.

Definition NL : Z := 10.
Definition TAB : Z := 9.
Definition CR : Z := 13.
Definition BS : Z := 8.
Definition FF : Z := 12.
Definition DQUOTE : Z := 34.

Definition str_eqb (a b : str) : bool :=
  if list_eq_dec Z.eq_dec a b then true else false.

(** [sep.join(parts)] *)
Fixpoint join (sep : str) (parts : list str) : str :=
  match parts with
  | [] => []
  | [p] => p
  | p :: rest => p ++ sep ++ join sep rest
  end.

(** [s.split("\n")]: always at least one piece. *)
Fixpoint split_nl_aux (s : str) (cur : str) : list str :=
  match s with
  | [] => [rev cur]
  | c :: rest =>
      if c =? NL then rev cur :: split_nl_aux rest []
      else split_nl_aux rest (c :: cur)
  end.

Definition split_nl (s : str) : list str := split_nl_aux s [].

(** [s.endswith(" ")] *)
Definition endswith_space (s : str) : bool :=
  match rev s with
  | c :: _ => c =? ord " "
  | [] => false
  end.

(** [s.startswith(" ")] *)
Definition startswith_space (s : str) : bool :=
  match s with
  | c :: _ => c =? ord " "
  | [] => false
  end.

(** [ch.isspace()]: the white-space characters of the Unicode database. *)
Definition isspace (c : Z) : bool :=
  ((9 <=? c) && (c <=? 13)) || ((28 <=? c) && (c <=? 32))
  || (c =? 133) || (c =? 160) || (c =? 5760)
  || ((8192 <=? c) && (c <=? 8202))
  || (c =? 8232) || (c =? 8233) || (c =? 8239) || (c =? 8287) || (c =? 12288).

(** [bool(s.strip())]: some character is not white space. *)
Definition strip_nonempty (s : str) : bool := existsb (fun c => negb (isspace c)) s.

(** [s[i:]] *)
Definition slice_from (i : nat) (s : str) : str := skipn i s.

Definition is_lower_hex (c : Z) : bool :=
  ((ord "0" <=? c) && (c <=? ord "9")) || ((ord "a" <=? c) && (c <=? ord "f")).

Definition is_upper_hex_letter (c : Z) : bool :=
  (ord "A" <=? c) && (c <=? ord "F").

Definition ascii_digit (c : Z) : bool := (ord "0" <=? c) && (c <=? ord "9").

Definition ascii_alpha (c : Z) : bool :=
  ((ord "a" <=? c) && (c <=? ord "z")) || ((ord "A" <=? c) && (c <=? ord "Z")).

(** The value of a hexadecimal digit, either case. *)
Definition hex_value (c : Z) : Z :=
  if ascii_digit c then c - ord "0"
  else if (ord "a" <=? c) && (c <=? ord "f") then c - ord "a" + 10
  else c - ord "A" + 10.

(** [int(s, 16)] on a string of hexadecimal digits. *)
Definition int_of_hex (s : str) : Z :=
  fold_left (fun acc c => 16 * acc + hex_value c) s 0.

(** [bytes.fromhex(s)] on an even number of lowercase hexadecimal digits. *)
Fixpoint fromhex (s : str) : list Z :=
  match s with
  | hi :: lo :: rest => (16 * hex_value hi + hex_value lo) :: fromhex rest
  | _ => []
  end.

Definition lower_hex_digit (d : Z) : Z :=
  if d <? 10 then ord "0" + d else ord "a" + (d - 10).

Definition upper_hex_digit (d : Z) : Z :=
  if d <? 10 then ord "0" + d else ord "A" + (d - 10).

(** [b.hex()] *)
Definition bytes_hex (b : list Z) : str :=
  flat_map (fun x => [lower_hex_digit (x / 16); lower_hex_digit (x mod 16)]) b.

(** The digits of [n] in [base], most significant first, at least [width]
    of them: the formats [{n:04X}] and [{n:04x}]. *)
Fixpoint digits_aux (fuel : nat) (base : Z) (digit : Z -> Z) (n : Z) (acc : str) : str :=
  match fuel with
  | O => acc
  | S f =>
      if n <? base then digit n :: acc
      else digits_aux f base digit (n / base) (digit (n mod base) :: acc)
  end.

Definition pad_left (width : nat) (s : str) : str :=
  repeat (ord "0") (width - List.length s) ++ s.

Definition format_04X (n : Z) : str :=
  pad_left 4 (digits_aux (Z.to_nat n + 1) 16 upper_hex_digit n []).

Definition format_04x (n : Z) : str :=
  pad_left 4 (digits_aux (Z.to_nat n + 1) 16 lower_hex_digit n []).

(** [str(n)] for an integer. *)
Definition str_of_int (n : Z) : str :=
  let d := digits_aux (Z.to_nat (Z.abs n) + 1) 10 (fun d => ord "0" + d) (Z.abs n) [] in
  if n <? 0 then ord "-" :: d else d.

(** [int(s)] on an optional minus sign and ASCII digits. *)
Definition int_of_decimal (s : str) : Z :=
  match s with
  | c :: rest =>
      if c =? ord "-" then - fold_left (fun acc d => 10 * acc + (d - ord "0")) rest 0
      else fold_left (fun acc d => 10 * acc + (d - ord "0")) s 0
  | [] => 0
  end.

(** ** The interpreter *)

Record Host := {
  (** [str.isdigit], [str.isalpha], [str.isalnum] from U+0080 on *)
  uni_isdigit : Z -> bool;
  uni_isalpha : Z -> bool;
  uni_isalnum : Z -> bool;
  (** [int(s)] when [s] holds a digit of another script *)
  uni_int : str -> option Z;
  (** [repr(ch)] of a character that is not printable ASCII *)
  uni_repr : Z -> str;
  (** [float(s)]; [None] is [ValueError] *)
  float_of_str : str -> option spec_float;
  (** [repr(x)] of a finite float *)
  repr_float : spec_float -> str
}.

(** ** Values, tokens, errors *)

Inductive Value :=
| VNone
| VBool (b : bool)
| VInt (n : Z)
| VFloat (x : spec_float)
| VStr (s : str)
| VBytes (b : list Z)
| VList (items : list Value)
| VDict (items : list (str * Value)).

Inductive Kind :=
| NULL | BOOL | INT | FLOAT | STRING | BYTES | IDENT | DASH | COLON | COMMA
| LBRACKET | RBRACKET | LBRACE | RBRACE | INDENT | NEWLINE | EOF.

Definition Kind_eqb (a b : Kind) : bool :=
  match a, b with
  | NULL, NULL | BOOL, BOOL | INT, INT | FLOAT, FLOAT | STRING, STRING
  | BYTES, BYTES | IDENT, IDENT | DASH, DASH | COLON, COLON | COMMA, COMMA
  | LBRACKET, LBRACKET | RBRACKET, RBRACKET | LBRACE, LBRACE | RBRACE, RBRACE
  | INDENT, INDENT | NEWLINE, NEWLINE | EOF, EOF => true
  | _, _ => false
  end.

Definition Kind_name (k : Kind) : str :=
  match k with
  | NULL => lit "NULL" | BOOL => lit "BOOL" | INT => lit "INT"
  | FLOAT => lit "FLOAT" | STRING => lit "STRING" | BYTES => lit "BYTES"
  | IDENT => lit "IDENT" | DASH => lit "DASH" | COLON => lit "COLON"
  | COMMA => lit "COMMA" | LBRACKET => lit "LBRACKET" | RBRACKET => lit "RBRACKET"
  | LBRACE => lit "LBRACE" | RBRACE => lit "RBRACE" | INDENT => lit "INDENT"
  | NEWLINE => lit "NEWLINE" | EOF => lit "EOF"
  end.

(** errors.py: [YaySyntaxError(message, line, col)]; the other constructors
    are the built-in exceptions the code can raise. *)
Inductive Exn :=
| YaySyntaxError (message : str) (line col : Z)
| NameError (name : str)
| TypeError (message : str).

Inductive Result (A : Type) :=
| Ok (a : A)
| Raise (e : Exn)
| OutOfFuel.
Arguments Ok {A} a.
Arguments Raise {A} e.
Arguments OutOfFuel {A}.

(** ** The state-and-error monad *)

Definition M (S A : Type) : Type := S -> Result (A * S).

Definition ret {S A} (a : A) : M S A := fun st => Ok (a, st).

Definition bind {S A B} (m : M S A) (k : A -> M S B) : M S B :=
  fun st =>
    match m st with
    | Ok (a, st') => k a st'
    | Raise e => Raise e
    | OutOfFuel => OutOfFuel
    end.

Definition raise {S A} (e : Exn) : M S A := fun _ => Raise e.
Definition out_of_fuel {S A} : M S A := fun _ => OutOfFuel.
Definition get {S} : M S S := fun st => Ok (st, st).
Definition put {S} (st : S) : M S unit := fun _ => Ok (tt, st).

Declare Scope monad_scope.
Delimit Scope monad_scope with monad.
Notation "x <- c ;; k" := (bind c (fun x => k))
  (at level 61, c at next level, right associativity) : monad_scope.
Notation "c ;;; k" := (bind c (fun _ => k))
  (at level 61, right associativity) : monad_scope.
Open Scope monad_scope.

(** [if cond: raise e] *)
Definition raise_if {S} (cond : bool) (e : Exn) : M S unit :=
  if cond then raise e else ret tt.

(** A message part in double quotes. *)
Definition dq (s : str) : str := [DQUOTE] ++ s ++ [DQUOTE].

Module Token.

Record t := mk {
  kind : Kind;
  value : Value;
  line : Z;
  col : Z
}.

End Token.

(** ** lexer.py *)

Module Lexer.

(** The attributes of a [Lexer] that the code reads ([indent_stack] and
    [pending_tokens] are set in [__init__] and never used). *)
Record t := mk {
  source : str;
  pos : nat;
  line : Z;
  col : Z;
  at_line_start : bool;
  current_line_indent : Z;
  _last_token : option Token.t
}.

Definition set_cursor (p : nat) (l c : Z) (als : bool) (st : t) : t :=
  mk (source st) p l c als (current_line_indent st) (_last_token st).

Definition set_at_line_start (b : bool) : M t unit :=
  fun st => Ok (tt, set_cursor (pos st) (line st) (col st) b st).

Definition set_current_line_indent (n : Z) : M t unit :=
  fun st => Ok (tt, mk (source st) (pos st) (line st) (col st) (at_line_start st) n (_last_token st)).

(** [emit] of [tokenize]: remember the token, hand it on. *)
Definition emit (tok : Token.t) : M t Token.t :=
  fun st => Ok (tok, mk (source st) (pos st) (line st) (col st) (at_line_start st)
                        (current_line_indent st) (Some tok)).

(** [raise self.error(message)] *)
Definition error {A} (message : str) : M t A :=
  fun st => Raise (YaySyntaxError message (line st) (col st)).

(** [raise YaySyntaxError(message, self.line, c)] *)
Definition error_at_col {A} (message : str) (c : Z) : M t A :=
  fun st => Raise (YaySyntaxError message (line st) c).

Definition _is_allowed_code_point (cp : Z) : bool :=
  (cp =? 0x000A)
  || ((0x0020 <=? cp) && (cp <=? 0x007E))
  || ((0x00A0 <=? cp) && (cp <=? 0xD7FF))
  || ((0xE000 <=? cp) && (cp <=? 0xFFFD) && negb ((0xFDD0 <=? cp) && (cp <=? 0xFDEF)))
  || ((0x10000 <=? cp) && (cp <=? 0x10FFFF) && (Z.land cp 0xFFFF <? 0xFFFE)).

(** The loop over the code points of [_validate_source]. *)
Fixpoint check_code_points (s : str) (line col : Z) : Result unit :=
  match s with
  | [] => Ok tt
  | cp :: rest =>
      if negb (_is_allowed_code_point cp) then
        if cp =? 0x09 then Raise (YaySyntaxError (lit "Tab not allowed (use spaces)") line col)
        else if (0xD800 <=? cp) && (cp <=? 0xDFFF) then
          Raise (YaySyntaxError (lit "Illegal surrogate") line col)
        else Raise (YaySyntaxError (lit "Forbidden code point U+" ++ format_04X cp) line col)
      else if cp =? 0x0A then check_code_points rest (line + 1) 1
      else check_code_points rest line (col + 1)
  end.

(** The loop over the lines of [_validate_source]; [n] is [len(lines)]. *)
Fixpoint check_trailing_spaces (lines : list str) (i n : nat) : Result unit :=
  match lines with
  | [] => Ok tt
  | line_str :: rest =>
      if endswith_space line_str
         && negb ((i =? n - 1)%nat && str_eqb line_str [])
      then Raise (YaySyntaxError (lit "Unexpected trailing space")
                    (Z.of_nat i + 1) (Z.of_nat (List.length line_str)))
      else check_trailing_spaces rest (S i) n
  end.

Definition _validate_source (source : str) : Result unit :=
  if (3 <=? List.length source)%nat
     && (match source with c :: _ => c =? 0xFEFF | [] => false end
         || str_eqb (firstn 3 source) [0xEF; 0xBB; 0xBF])
  then Raise (YaySyntaxError (lit "Illegal BOM") 1 1)
  else
    match check_code_points source 1 1 with
    | Ok _ =>
        let lines := split_nl source in
        check_trailing_spaces lines 0 (List.length lines)
    | r => r
    end.

(** [Lexer(source)] *)
Definition __init__ (source : str) : Result t :=
  match _validate_source source with
  | Ok _ => Ok (mk source 0 1 1 true 0 None)
  | Raise e => Raise e
  | OutOfFuel => OutOfFuel
  end.

(** [self.peek(offset)]; [None] is the empty string past the end. *)
Definition peek (offset : nat) : M t (option Z) :=
  fun st => Ok (nth_error (source st) (pos st + offset), st).

(** [self.advance()]: the consumed characters, none at the end of input. *)
Definition advance : M t str :=
  fun st =>
    match nth_error (source st) (pos st) with
    | Some ch =>
        if ch =? NL then Ok ([ch], set_cursor (S (pos st)) (line st + 1) 1 true st)
        else Ok ([ch], set_cursor (S (pos st)) (line st) (col st + 1) (at_line_start st) st)
    | None => Ok ([], set_cursor (S (pos st)) (line st) (col st) (at_line_start st) st)
    end.

(** [ch == c] for a peeked [ch]. *)
Definition ch_is (ch : option Z) (c : Z) : bool :=
  match ch with
  | Some x => x =? c
  | None => false
  end.

Definition is_empty (ch : option Z) : bool :=
  match ch with
  | Some _ => false
  | None => true
  end.

(** [ch in "+-"]: the empty string is in every string. *)
Definition in_plus_minus (ch : option Z) : bool :=
  match ch with
  | Some x => (x =? ord "+") || (x =? ord "-")
  | None => true
  end.

Definition nonempty_list {A} (l : list A) : bool :=
  match l with
  | [] => false
  | _ => true
  end.

Definition nonempty (s : str) : bool :=
  match s with
  | [] => false
  | _ => true
  end.

Section WithHost.

Variable host : Host.

Definition isdigit (ch : option Z) : bool :=
  match ch with
  | Some c => if c <? 128 then ascii_digit c else uni_isdigit host c
  | None => false
  end.

Definition isalpha (ch : option Z) : bool :=
  match ch with
  | Some c => if c <? 128 then ascii_alpha c else uni_isalpha host c
  | None => false
  end.

Definition isalnum (ch : option Z) : bool :=
  match ch with
  | Some c => if c <? 128 then ascii_alpha c || ascii_digit c else uni_isalnum host c
  | None => false
  end.

(** [repr(ch)] of a one-character string. *)
Definition repr_char (c : Z) : str :=
  if (0x20 <=? c) && (c <=? 0x7E) then
    if c =? ord "'" then dq [c]
    else if c =? ord "\" then lit "'\\'"
    else [ord "'"; c; ord "'"]
  else uni_repr host c.

(** [int(num_str)]; [None] is [ValueError]. *)
Definition py_int (s : str) : option Z :=
  if forallb (fun c => c <? 128) s then
    let body := match s with
                | c :: r => if c =? ord "-" then r else s
                | [] => []
                end in
    if nonempty body && forallb ascii_digit body then Some (int_of_decimal s) else None
  else uni_int host s.

(** [str(tok.value)] for the tokens [read_identifier] returns. *)
Definition str_of_token_value (v : Value) : str :=
  match v with
  | VNone => lit "None"
  | VBool true => lit "True"
  | VBool false => lit "False"
  | VStr s => s
  | VFloat S754_nan => lit "nan"
  | VFloat (S754_infinity false) => lit "inf"
  | VFloat (S754_infinity true) => lit "-inf"
  | VFloat x => repr_float host x
  | VInt n => str_of_int n
  | _ => []
  end.

Fixpoint skip_to_eol (fuel : nat) : M t unit :=
  match fuel with
  | O => out_of_fuel
  | S f =>
      ch <- peek 0 ;;
      if negb (is_empty ch) && negb (ch_is ch NL) then advance ;;; skip_to_eol f
      else ret tt
  end.

(** [while self.peek() and self.peek() != "\n": chars.append(self.advance())] *)
Fixpoint read_to_eol (fuel : nat) (chars : str) : M t str :=
  match fuel with
  | O => out_of_fuel
  | S f =>
      ch <- peek 0 ;;
      if negb (is_empty ch) && negb (ch_is ch NL) then
        r <- advance ;; read_to_eol f (chars ++ r)
      else ret chars
  end.

(** [while self.peek() == " ": self.advance(); spaces += 1] *)
Fixpoint count_spaces (fuel : nat) (spaces : Z) : M t Z :=
  match fuel with
  | O => out_of_fuel
  | S f =>
      ch <- peek 0 ;;
      if ch_is ch (ord " ") then advance ;;; count_spaces f (spaces + 1)
      else ret spaces
  end.

Definition read_indent (fuel : nat) : M t Z :=
  spaces <- count_spaces fuel 0 ;;
  ch <- peek 0 ;;
  if ch_is ch TAB then error (lit "Tab not allowed (use spaces)")
  else ret spaces.

(** Back to the start of a line: [self.pos = line_start] and so on. *)
Definition rewind (line_start : nat) (line_start_line : Z) : M t unit :=
  fun st => Ok (tt, set_cursor line_start line_start_line 1 true st).

(** [if self.peek() == "\n": self.advance(); self.at_line_start = True] *)
Definition eat_newline : M t unit :=
  ch <- peek 0 ;;
  if ch_is ch NL then advance ;;; set_at_line_start true else ret tt.

(** [while lines and lines[-1] == "": lines.pop()] *)
Fixpoint drop_leading_empty (rev_lines : list str) : list str :=
  match rev_lines with
  | [] :: rest => drop_leading_empty rest
  | _ => rev_lines
  end.

Definition trim_trailing_empty (lines : list str) : list str :=
  rev (drop_leading_empty (rev lines)).

(** The [while self.pos < len(self.source)] loop of
    [_read_block_string_content]. *)
Fixpoint block_string_lines (fuel : nat) (base_indent : Z) (lines : list str)
  : M t (list str) :=
  match fuel with
  | O => out_of_fuel
  | S f =>
      st <- get ;;
      if (pos st <? List.length (source st))%nat then
        let line_start := pos st in
        let line_start_line := line st in
        spaces <- count_spaces f 0 ;;
        ch <- peek 0 ;;
        if (spaces <=? base_indent) && negb (ch_is ch NL || is_empty ch) then
          rewind line_start line_start_line ;;; ret lines
        else if ch_is ch NL then
          advance ;;; set_at_line_start true ;;;
          block_string_lines f base_indent (lines ++ [[]])
        else if is_empty ch then ret lines
        else
          let content_indent := spaces - base_indent in
          let extra_spaces :=
            if 2 <=? content_indent
            then repeat (ord " ") (Z.to_nat (content_indent - 2)) else [] in
          line_chars <- read_to_eol f extra_spaces ;;
          eat_newline ;;;
          block_string_lines f base_indent (lines ++ [line_chars])
      else ret lines
  end.

Definition _read_block_string_content (fuel : nat) (start_line start_col : Z)
  (same_line : bool) : M t Token.t :=
  st <- get ;;
  let base_indent := current_line_indent st in
  lines <- (if same_line then
              first_line <- read_to_eol fuel [] ;;
              eat_newline ;;;
              ret [first_line]
            else ret []) ;;
  lines <- block_string_lines fuel base_indent lines ;;
  let lines := trim_trailing_empty lines in
  let result := join [NL] lines in
  if same_line then ret (Token.mk STRING (VStr (result ++ [NL])) start_line start_col)
  else if nonempty result then
    ret (Token.mk STRING (VStr ([NL] ++ result ++ [NL])) start_line start_col)
  else
    error (lit "Empty block string not allowed (use " ++ dq [] ++ lit " or "
           ++ dq (lit "\n") ++ lit " explicitly)").

Definition _read_backtick_block_string (fuel : nat) : M t Token.t :=
  st <- get ;;
  let start_line := line st in
  let start_col := col st in
  advance ;;;
  next_ch <- peek 0 ;;
  if ch_is next_ch NL then
    advance ;;; set_at_line_start true ;;;
    _read_block_string_content fuel start_line start_col false
  else if ch_is next_ch (ord " ") then
    advance ;;;
    _read_block_string_content fuel start_line start_col true
  else error (lit "Expected space or newline after '`'").

(** One line of hexadecimal digits of [_read_block_bytes] (the loop is
    written twice there). *)
Fixpoint read_hex_line (fuel : nat) (hex_chars : str) : M t str :=
  match fuel with
  | O => out_of_fuel
  | S f =>
      ch <- peek 0 ;;
      match ch with
      | None => ret hex_chars
      | Some c =>
          if c =? NL then ret hex_chars
          else if c =? ord "#" then skip_to_eol f ;;; ret hex_chars
          else if c =? ord " " then advance ;;; read_hex_line f hex_chars
          else if is_lower_hex c then
            r <- advance ;; read_hex_line f (hex_chars ++ r)
          else if is_upper_hex_letter c then
            error (lit "Uppercase hex digit (use lowercase)")
          else error (lit "Invalid character in byte array: " ++ repr_char c)
      end
  end.

(** The continuation lines of [_read_block_bytes]. *)
Fixpoint block_bytes_lines (fuel : nat) (base_indent : Z) (hex_chars : str) : M t str :=
  match fuel with
  | O => out_of_fuel
  | S f =>
      st <- get ;;
      if (pos st <? List.length (source st))%nat then
        let line_start := pos st in
        let line_start_line := line st in
        spaces <- count_spaces f 0 ;;
        ch <- peek 0 ;;
        if (spaces <=? base_indent) && negb (ch_is ch NL || is_empty ch) then
          rewind line_start line_start_line ;;; ret hex_chars
        else if ch_is ch NL then
          rewind line_start line_start_line ;;; ret hex_chars
        else if is_empty ch then ret hex_chars
        else
          hex_chars <- read_hex_line f hex_chars ;;
          eat_newline ;;;
          block_bytes_lines f base_indent hex_chars
      else ret hex_chars
  end.

(** The end of [_read_block_bytes] and [read_bytes]: the digits to bytes
    ([bytes.fromhex] cannot fail on an even count of lowercase digits). *)
Definition bytes_token (hex_str : str) (start_line start_col : Z) : M t Token.t :=
  if negb (Nat.even (List.length hex_str)) then
    error (lit "Odd number of hex digits in byte literal")
  else ret (Token.mk BYTES (VBytes (fromhex hex_str)) start_line start_col).

Definition _read_block_bytes (fuel : nat) : M t Token.t :=
  st <- get ;;
  let start_line := line st in
  let start_col := col st in
  advance ;;;
  next_ch <- peek 0 ;;
  r <- (if ch_is next_ch (ord " ") then
          advance ;;;
          ch <- peek 0 ;;
          if ch_is ch (ord "#") then
            skip_to_eol fuel ;;; n <- peek 0 ;; ret (n, true)
          else ret (next_ch, false)
        else ret (next_ch, false)) ;;
  let '(next_ch, has_content) := r in
  (if ch_is next_ch NL || is_empty next_ch then
     if negb has_content && (start_col =? 1) then
       error (lit "Expected hex or comment in hex block")
     else if ch_is next_ch NL then advance ;;; set_at_line_start true
     else ret tt
   else ret tt) ;;;
  st <- get ;;
  let base_indent := current_line_indent st in
  hex_chars <- read_hex_line fuel [] ;;
  eat_newline ;;;
  hex_chars <- block_bytes_lines fuel base_indent hex_chars ;;
  bytes_token hex_chars start_line start_col.

(** The digits of a [\u{...}] escape. *)
Fixpoint read_unicode_hex (fuel : nat) (hex_chars : str) : M t str :=
  match fuel with
  | O => out_of_fuel
  | S f =>
      ch <- peek 0 ;;
      match ch with
      | None => ret hex_chars
      | Some h =>
          if h =? ord "}" then ret hex_chars
          else if negb (is_lower_hex h || is_upper_hex_letter h) then
            error (lit "Bad Unicode escape")
          else
            r <- advance ;;
            let hex_chars := hex_chars ++ r in
            if (6 <? List.length hex_chars)%nat then error (lit "Bad Unicode escape")
            else read_unicode_hex f hex_chars
      end
  end.

(** The simple escapes of a double-quoted string. *)
Definition simple_escape (esc : Z) : option Z :=
  if esc =? ord "n" then Some NL
  else if esc =? ord "r" then Some CR
  else if esc =? ord "t" then Some TAB
  else if esc =? ord "b" then Some BS
  else if esc =? ord "f" then Some FF
  else if esc =? ord "\" then Some (ord "\")
  else if esc =? ord "/" then Some (ord "/")
  else if esc =? DQUOTE then Some DQUOTE
  else None.

Fixpoint double_quoted_chars (fuel : nat) (chars : str) : M t str :=
  match fuel with
  | O => out_of_fuel
  | S f =>
      ch <- peek 0 ;;
      match ch with
      | None => error (lit "Unterminated string")
      | Some c =>
          if c =? DQUOTE then advance ;;; ret chars
          else if c =? ord "\" then
            advance ;;;
            esc <- peek 0 ;;
            match esc with
            | None => error (lit "Unterminated escape sequence")
            | Some e =>
                match simple_escape e with
                | Some x => advance ;;; double_quoted_chars f (chars ++ [x])
                | None =>
                    if e =? ord "u" then
                      advance ;;;
                      ch <- peek 0 ;;
                      if negb (ch_is ch (ord "{")) then error (lit "Bad escaped character")
                      else
                        advance ;;;
                        hex_chars <- read_unicode_hex f [] ;;
                        ch <- peek 0 ;;
                        if negb (ch_is ch (ord "}")) then error (lit "Bad Unicode escape")
                        else
                          advance ;;;
                          if negb (nonempty hex_chars) then error (lit "Bad Unicode escape")
                          else
                            let codepoint := int_of_hex hex_chars in
                            if (0xD800 <=? codepoint) && (codepoint <=? 0xDFFF) then
                              error (lit "Illegal surrogate")
                            else if 0x10FFFF <? codepoint then
                              error (lit "Unicode code point out of range")
                            else double_quoted_chars f (chars ++ [codepoint])
                    else error (lit "Bad escaped character")
                end
            end
          else if c <? 0x20 then
            if (c =? NL) || (c =? CR) then error (lit "Unterminated string")
            else error (lit "Bad character in string")
          else r <- advance ;; double_quoted_chars f (chars ++ r)
      end
  end.

Definition _read_double_quoted_string (fuel : nat) (start_line start_col : Z)
  : M t Token.t :=
  chars <- double_quoted_chars fuel [] ;;
  ret (Token.mk STRING (VStr chars) start_line start_col).

Fixpoint single_quoted_chars (fuel : nat) (chars : str) : M t str :=
  match fuel with
  | O => out_of_fuel
  | S f =>
      ch <- peek 0 ;;
      match ch with
      | None => error (lit "Unterminated string")
      | Some c =>
          if c =? ord "'" then
            advance ;;;
            ch <- peek 0 ;;
            if ch_is ch (ord "'") then
              advance ;;; single_quoted_chars f (chars ++ [ord "'"])
            else ret chars
          else if c <? 0x20 then
            if (c =? NL) || (c =? CR) then error (lit "Unterminated string")
            else error (lit "Bad character in string")
          else r <- advance ;; single_quoted_chars f (chars ++ r)
      end
  end.

Definition _read_single_quoted_string (fuel : nat) (start_line start_col : Z)
  : M t Token.t :=
  chars <- single_quoted_chars fuel [] ;;
  ret (Token.mk STRING (VStr chars) start_line start_col).

Definition read_string (fuel : nat) (quote : Z) : M t Token.t :=
  st <- get ;;
  let start_line := line st in
  let start_col := col st in
  advance ;;;
  if quote =? DQUOTE then _read_double_quoted_string fuel start_line start_col
  else _read_single_quoted_string fuel start_line start_col.

(** The [while True] loop of [read_number]: the characters of the number
    and the flags [has_dot] and [has_exponent]. *)
Fixpoint read_number_loop (fuel : nat) (chars : str) (has_dot has_exponent : bool)
  (last_was_space : bool) (space_col : Z) : M t (str * bool * bool) :=
  match fuel with
  | O => out_of_fuel
  | S f =>
      ch <- peek 0 ;;
      if isdigit ch then
        r <- advance ;;
        read_number_loop f (chars ++ r) has_dot has_exponent false space_col
      else if ch_is ch (ord ".") then
        if has_dot || has_exponent then ret (chars, has_dot, has_exponent)
        else if last_was_space then
          error_at_col (lit "Unexpected space in number") space_col
        else
          r <- advance ;;
          ch2 <- peek 0 ;;
          if ch_is ch2 (ord " ") then error (lit "Unexpected space in number")
          else read_number_loop f (chars ++ r) true has_exponent last_was_space space_col
      else if ch_is ch (ord "e") && negb has_exponent && nonempty chars then
        r <- advance ;;
        ch2 <- peek 0 ;;
        if in_plus_minus ch2 then
          r2 <- advance ;;
          read_number_loop f (chars ++ r ++ r2) has_dot true last_was_space space_col
        else read_number_loop f (chars ++ r) has_dot true last_was_space space_col
      else if ch_is ch (ord "E") && negb has_exponent && nonempty chars then
        error (lit "Uppercase exponent (use lowercase 'e')")
      else if ch_is ch (ord " ") then
        next_ch <- peek 1 ;;
        if isdigit next_ch then
          st <- get ;;
          advance ;;;
          read_number_loop f chars has_dot has_exponent true (col st)
        else if ch_is next_ch (ord ".") then error (lit "Unexpected space in number")
        else ret (chars, has_dot, has_exponent)
      else ret (chars, has_dot, has_exponent)
  end.

Definition read_number (fuel : nat) : M t Token.t :=
  st <- get ;;
  let start_line := line st in
  let start_col := col st in
  ch <- peek 0 ;;
  chars <- (if ch_is ch (ord "-") then advance else ret []) ;;
  r <- read_number_loop fuel chars false false false 0 ;;
  let '(num_str, has_dot, has_exponent) := r in
  if has_dot || has_exponent then
    match float_of_str host num_str with
    | Some x => ret (Token.mk FLOAT (VFloat x) start_line start_col)
    | None => error (lit "Invalid float: " ++ num_str)
    end
  else
    match py_int num_str with
    | Some n => ret (Token.mk INT (VInt n) start_line start_col)
    | None => error (lit "Invalid integer: " ++ num_str)
    end.

(** [for _ in range(n): self.advance()] *)
Fixpoint advance_n (n : nat) : M t unit :=
  match n with
  | O => ret tt
  | S k => advance ;;; advance_n k
  end.

(** The spaces from [pos] on, in [read_bytes]. *)
Fixpoint spaces_at (s : str) : nat :=
  match s with
  | c :: rest => if c =? ord " " then S (spaces_at rest) else O
  | [] => O
  end.

(** The [while True] loop of [read_bytes].  Its last branch reads
    [block_mode], a name bound nowhere in lexer.py: evaluating it raises
    [NameError], and the two statements after it are never reached. *)
Fixpoint read_bytes_loop (fuel : nat) (allow_multiline : bool) (start_line start_col : Z)
  (hex_chars : str) (last_was_space : bool) (space_col : Z) : M t str :=
  match fuel with
  | O => out_of_fuel
  | S f =>
      ch <- peek 0 ;;
      match ch with
      | None =>
          if allow_multiline then ret hex_chars
          else error (lit "Unterminated byte array")
      | Some c =>
          if c =? ord ">" then
            if last_was_space then
              error_at_col (lit "Unexpected space before " ++ dq (lit ">")) space_col
            else advance ;;; ret hex_chars
          else if c =? ord " " then
            st <- get ;;
            advance ;;;
            read_bytes_loop f allow_multiline start_line start_col hex_chars true (col st)
          else if c =? NL then
            if allow_multiline then
              advance ;;; set_at_line_start true ;;;
              st <- get ;;
              let spaces := spaces_at (skipn (pos st) (source st)) in
              if (spaces <? 2)%nat then ret hex_chars
              else
                advance_n spaces ;;; set_at_line_start false ;;;
                read_bytes_loop f allow_multiline start_line start_col hex_chars false space_col
            else raise (YaySyntaxError (lit "Unmatched angle bracket") start_line start_col)
          else if c =? ord "#" then
            skip_to_eol f ;;;
            read_bytes_loop f allow_multiline start_line start_col hex_chars false space_col
          else if is_lower_hex c then
            r <- advance ;;
            read_bytes_loop f allow_multiline start_line start_col (hex_chars ++ r) false space_col
          else if is_upper_hex_letter c then
            error (lit "Uppercase hex digit (use lowercase)")
          else raise (NameError (lit "block_mode"))
      end
  end.

Definition read_bytes (fuel : nat) (already_consumed_open allow_multiline : bool)
  : M t Token.t :=
  st <- get ;;
  let start_line := line st in
  let start_col := col st in
  (if negb already_consumed_open then advance ;;; ret tt else ret tt) ;;;
  hex_chars <- read_bytes_loop fuel allow_multiline start_line start_col [] false 0 ;;
  bytes_token hex_chars start_line start_col.

Fixpoint identifier_chars (fuel : nat) (chars : str) : M t str :=
  match fuel with
  | O => out_of_fuel
  | S f =>
      ch <- peek 0 ;;
      if isalnum ch || ch_is ch (ord "_") || ch_is ch (ord "-") then
        r <- advance ;; identifier_chars f (chars ++ r)
      else ret chars
  end.

Definition read_identifier (fuel : nat) : M t Token.t :=
  st <- get ;;
  let start_line := line st in
  let start_col := col st in
  name <- identifier_chars fuel [] ;;
  if str_eqb name (lit "null") then ret (Token.mk NULL VNone start_line start_col)
  else if str_eqb name (lit "true") then ret (Token.mk BOOL (VBool true) start_line start_col)
  else if str_eqb name (lit "false") then ret (Token.mk BOOL (VBool false) start_line start_col)
  else if str_eqb name (lit "infinity") then
    ret (Token.mk FLOAT (VFloat (S754_infinity false)) start_line start_col)
  else if str_eqb name (lit "nan") then
    ret (Token.mk FLOAT (VFloat S754_nan) start_line start_col)
  else ret (Token.mk IDENT (VStr name) start_line start_col).

(** How one pass through the body of [tokenize]'s loop ends: [continue],
    [break], or on to the next statement, each with the tokens yielded so
    far. *)
Inductive Flow :=
| Continue (toks : list Token.t)
| Break (toks : list Token.t)
| Fall (toks : list Token.t).

(** [yield emit(tok)] followed by [continue]. *)
Definition yield_continue (toks : list Token.t) (tok : Token.t) : M t Flow :=
  tok <- emit tok ;; ret (Continue (toks ++ [tok])).

(** The [if self.at_line_start:] block of [tokenize]. *)
Definition line_start (fuel : nat) (toks : list Token.t) : M t Flow :=
  st <- get ;;
  if at_line_start st then
    set_at_line_start false ;;;
    indent <- read_indent fuel ;;
    ch <- peek 0 ;;
    if ch_is ch NL then
      advance ;;; set_at_line_start true ;;; ret (Continue toks)
    else if ch_is ch (ord "#") then
      skip_to_eol fuel ;;;
      ch <- peek 0 ;;
      (if ch_is ch NL then advance ;;; ret tt else ret tt) ;;;
      set_at_line_start true ;;; ret (Continue toks)
    else if is_empty ch then ret (Break toks)
    else
      set_current_line_indent indent ;;;
      st <- get ;;
      tok <- emit (Token.mk INDENT (VInt indent) (line st) 1) ;;
      ret (Fall (toks ++ [tok]))
  else ret (Fall toks).

(** A one-character token: [yield emit(Token(kind, ch, self.line, self.col))],
    [self.advance()], [continue]. *)
Definition punctuation (toks : list Token.t) (k : Kind) (c : Z) : M t Flow :=
  st <- get ;;
  tok <- emit (Token.mk k (VStr [c]) (line st) (col st)) ;;
  advance ;;;
  ret (Continue (toks ++ [tok])).

(** The [if ch == "<":] block of [tokenize]. *)
Definition angle_bracket (fuel : nat) (toks : list Token.t) : M t Flow :=
  st <- get ;;
  let start_col := col st in
  advance ;;;
  next_ch <- peek 0 ;;
  match next_ch with
  | None => error_at_col (lit "Unmatched angle bracket") start_col
  | Some n =>
      if n =? ord ">" then
        advance ;;;
        st <- get ;;
        yield_continue toks (Token.mk BYTES (VBytes []) (line st) (col st - 2))
      else if n =? NL then error_at_col (lit "Unmatched angle bracket") start_col
      else if is_upper_hex_letter n then error (lit "Uppercase hex digit (use lowercase)")
      else if (n =? ord " ") || is_lower_hex n then
        tok <- read_bytes fuel true false ;;
        yield_continue toks tok
      else error (lit "Invalid character after '<': " ++ repr_char n)
  end.

(** The [if ch == "-":] block of [tokenize]. *)
Definition minus (fuel : nat) (toks : list Token.t) : M t Flow :=
  next_ch <- peek 1 ;;
  if isdigit next_ch || ch_is next_ch (ord ".") then
    tok <- read_number fuel ;; yield_continue toks tok
  else if ch_is next_ch (ord "i") then
    advance ;;;
    tok <- read_identifier fuel ;;
    match Token.kind tok, Token.value tok with
    | FLOAT, VFloat (S754_infinity false) =>
        yield_continue toks
          (Token.mk FLOAT (VFloat (S754_infinity true)) (Token.line tok) (Token.col tok - 1))
    | _, v => error (lit "Unexpected: -" ++ str_of_token_value v)
    end
  else punctuation toks DASH (ord "-").

(** The rest of the loop body of [tokenize], from [ch = self.peek()]. *)
Definition scan (fuel : nat) (toks : list Token.t) : M t Flow :=
  ch <- peek 0 ;;
  match ch with
  | None => ret (Break toks)
  | Some c =>
      if c =? NL then
        st <- get ;;
        tok <- emit (Token.mk NEWLINE (VStr [NL]) (line st) (col st)) ;;
        advance ;;; set_at_line_start true ;;;
        ret (Continue (toks ++ [tok]))
      else if c =? ord " " then advance ;;; ret (Continue toks)
      else if c =? ord "#" then skip_to_eol fuel ;;; ret (Continue toks)
      else if c =? TAB then error (lit "Tab not allowed (use spaces)")
      else if (c =? DQUOTE) || (c =? ord "'") then
        tok <- read_string fuel c ;; yield_continue toks tok
      else if c =? ord "`" then
        tok <- _read_backtick_block_string fuel ;; yield_continue toks tok
      else if c =? ord ">" then
        tok <- _read_block_bytes fuel ;; yield_continue toks tok
      else if c =? ord "<" then angle_bracket fuel toks
      else if isdigit ch || (c =? ord ".") then
        tok <- read_number fuel ;; yield_continue toks tok
      else if c =? ord "-" then minus fuel toks
      else if c =? ord ":" then punctuation toks COLON c
      else if c =? ord "," then punctuation toks COMMA c
      else if c =? ord "[" then punctuation toks LBRACKET c
      else if c =? ord "]" then punctuation toks RBRACKET c
      else if c =? ord "{" then punctuation toks LBRACE c
      else if c =? ord "}" then punctuation toks RBRACE c
      else if isalpha ch || (c =? ord "_") then
        tok <- read_identifier fuel ;; yield_continue toks tok
      else
        st <- get ;;
        if match _last_token st with
           | Some last => Kind_eqb (Token.kind last) LBRACE || Kind_eqb (Token.kind last) COMMA
           | None => false
           end
        then error (lit "Invalid key")
        else error (lit "Unexpected character " ++ dq [c])
  end.

(** The [while self.pos < len(self.source)] loop of [tokenize]. *)
Fixpoint tokenize_loop (fuel : nat) (toks : list Token.t) : M t (list Token.t) :=
  match fuel with
  | O => out_of_fuel
  | S f =>
      st <- get ;;
      if (pos st <? List.length (source st))%nat then
        r <- line_start f toks ;;
        match r with
        | Continue toks => tokenize_loop f toks
        | Break toks => ret toks
        | Fall toks =>
            r <- scan f toks ;;
            match r with
            | Continue toks => tokenize_loop f toks
            | Break toks => ret toks
            | Fall toks => ret toks
            end
        end
      else ret toks
  end.

(** [list(self.tokenize())] *)
Definition tokenize (fuel : nat) : M t (list Token.t) :=
  fun st0 =>
    (toks <- tokenize_loop fuel [] ;;
     st <- get ;;
     toks <- (if negb (at_line_start st) then
                tok <- emit (Token.mk NEWLINE (VStr [NL]) (line st) (col st)) ;;
                ret (toks ++ [tok])
              else ret toks) ;;
     st <- get ;;
     tok <- emit (Token.mk EOF VNone (line st) (col st)) ;;
     ret (toks ++ [tok]))
      (mk (source st0) (pos st0) (line st0) (col st0) (at_line_start st0)
          (current_line_indent st0) None).

End WithHost.

(** Every loop of the lexer consumes a character in each pass, so this is
    fuel enough for any source. *)
Definition fuel_for (source : str) : nat := 2 * List.length source + 4.

End Lexer.

(** ** Python dictionaries: insertion-ordered, keys unique *)

Definition Dict := list (str * Value).

(** [obj[key] = value]: a key already present keeps its place and takes
    the new value; a new key goes last. *)
Fixpoint dict_set (obj : Dict) (key : str) (v : Value) : Dict :=
  match obj with
  | [] => [(key, v)]
  | (k, old) :: rest =>
      if str_eqb k key then (k, v) :: rest
      else (k, old) :: dict_set rest key v
  end.


Definition int_value (v : Value) : Z :=
  match v with
  | VInt n => n
  | _ => 0
  end.

Definition str_value (v : Value) : str :=
  match v with
  | VStr s => s
  | _ => []
  end.

(** ** parser.py *)

Module Parser.

Record t := mk {
  source : str;
  source_lines : list str;
  tokens : list Token.t;
  pos : nat
}.

(** [self.peek(offset)]: past the end it is the last token, [EOF]. *)
Definition peek (offset : nat) : M t Token.t :=
  fun st =>
    Ok (nth (pos st + offset) (tokens st) (last (tokens st) (Token.mk EOF VNone 1 1)), st).

(** [self.advance()] *)
Definition advance : M t Token.t :=
  token <- peek 0 ;;
  fun st => Ok (token, mk (source st) (source_lines st) (tokens st) (S (pos st))).

(** [raise self.error(message)]: at the current token. *)
Definition error {A} (message : str) : M t A :=
  token <- peek 0 ;;
  raise (YaySyntaxError message (Token.line token) (Token.col token)).

Definition kind_is (k : Kind) (offset : nat) : M t bool :=
  token <- peek offset ;; ret (Kind_eqb (Token.kind token) k).

(** [self.source_lines[line - 1] if line <= len(self.source_lines) else ""],
    for a line number from a token (1 or more). *)
Definition line_content (line : Z) : M t str :=
  fun st =>
    Ok (if line <=? Z.of_nat (List.length (source_lines st))
        then nth (Z.to_nat (line - 1)) (source_lines st) []
        else [], st).

Definition char_at (line col : Z) : M t (option Z) :=
  fun st =>
    Ok (if (line <? 1) || (Z.of_nat (List.length (source_lines st)) <? line) then None
        else
          let line_content := nth (Z.to_nat (line - 1)) (source_lines st) [] in
          if (col <? 1) || (Z.of_nat (List.length line_content) <? col) then None
          else nth_error line_content (Z.to_nat (col - 1)), st).

Definition check_no_space_after (token : Token.t) (char : str) : M t unit :=
  let next_col := Token.col token + Z.of_nat (List.length char) in
  ch <- char_at (Token.line token) next_col ;;
  raise_if (Lexer.ch_is ch (ord " "))
    (YaySyntaxError (lit "Unexpected space after " ++ dq char) (Token.line token) next_col).

Definition check_no_space_before (token : Token.t) (char : str) : M t unit :=
  let prev_col := Token.col token - 1 in
  ch <- char_at (Token.line token) prev_col ;;
  raise_if ((1 <=? prev_col) && Lexer.ch_is ch (ord " "))
    (YaySyntaxError (lit "Unexpected space before " ++ dq char) (Token.line token) prev_col).

(** The inner [for j in range(i + 1, len(s))] loop of
    [validate_inline_syntax]: the value of [next_is_closing_with_space]
    when it ends.  [n] counts the indices left. *)
Fixpoint lookahead (n : nat) (s : str) (j : nat) (open_char close_char : Z)
  (depth lookahead_depth : Z) (in_s in_d esc : bool) : bool :=
  match n with
  | O => false
  | S n' =>
      match nth_error s j with
      | None => false
      | Some cj =>
          let next := lookahead n' s (S j) open_char close_char depth in
          if esc then next lookahead_depth in_s in_d false
          else if in_s then
            if cj =? ord "\" then next lookahead_depth in_s in_d true
            else if cj =? ord "'" then next lookahead_depth false in_d esc
            else next lookahead_depth in_s in_d esc
          else if in_d then
            if cj =? ord "\" then next lookahead_depth in_s in_d true
            else if cj =? DQUOTE then next lookahead_depth in_s false esc
            else next lookahead_depth in_s in_d esc
          else if cj =? ord "'" then next lookahead_depth true in_d esc
          else if cj =? DQUOTE then next lookahead_depth in_s true esc
          else if cj =? open_char then next (lookahead_depth + 1) in_s in_d esc
          else if cj =? close_char then
            if lookahead_depth =? depth then
              (0 <? j)%nat && Lexer.ch_is (nth_error s (j - 1)) (ord " ")
            else if 0 <? lookahead_depth then next (lookahead_depth - 1) in_s in_d esc
            else next lookahead_depth in_s in_d esc
          else if (cj =? ord ",") && (lookahead_depth =? depth) then false
          else next lookahead_depth in_s in_d esc
      end
  end.

(** The [for i, ch in enumerate(s)] loop of [validate_inline_syntax]. *)
Fixpoint validate_loop (n : nat) (s : str) (i : nat) (line start_col : Z)
  (open_char close_char : Z) (in_single in_double escape : bool) (depth : Z)
  : Result unit :=
  match n with
  | O => Ok tt
  | S n' =>
      match nth_error s i with
      | None => Ok tt
      | Some ch =>
          let next := validate_loop n' s (S i) line start_col open_char close_char in
          let zi := Z.of_nat i in
          if escape then next in_single in_double false depth
          else if in_single then
            if ch =? ord "\" then next in_single in_double true depth
            else if ch =? ord "'" then next false in_double escape depth
            else next in_single in_double escape depth
          else if in_double then
            if ch =? ord "\" then next in_single in_double true depth
            else if ch =? DQUOTE then next in_single false escape depth
            else next in_single in_double escape depth
          else if ch =? ord "'" then next true in_double escape depth
          else if ch =? DQUOTE then next in_single true escape depth
          else if ch =? open_char then
            if Lexer.ch_is (nth_error s (i + 1)) (ord " ") then
              Raise (YaySyntaxError (lit "Unexpected space after " ++ dq [open_char])
                       line (start_col + zi + 1))
            else next in_single in_double escape (depth + 1)
          else if ch =? close_char then
            if (0 <? i)%nat && Lexer.ch_is (nth_error s (i - 1)) (ord " ") then
              Raise (YaySyntaxError (lit "Unexpected space before " ++ dq [close_char])
                       line (start_col + zi - 1))
            else next in_single in_double escape (if 0 <? depth then depth - 1 else depth)
          else if ch =? ord "," then
            if (0 <? i)%nat && Lexer.ch_is (nth_error s (i - 1)) (ord " ") then
              Raise (YaySyntaxError (lit "Unexpected space before " ++ dq (lit ","))
                       line (start_col + zi - 1))
            else if match nth_error s (i + 1) with
                    | Some x => negb (x =? ord " ") && negb (x =? close_char)
                    | None => false
                    end
                    && negb (lookahead n' s (i + 1) open_char close_char depth depth
                               false false false)
            then Raise (YaySyntaxError (lit "Expected space after " ++ dq (lit ","))
                          line (start_col + zi + 1))
            else if Lexer.ch_is (nth_error s (i + 1)) (ord " ")
                    && Lexer.ch_is (nth_error s (i + 2)) (ord " ")
            then Raise (YaySyntaxError (lit "Unexpected space after " ++ dq (lit ","))
                          line (start_col + zi + 2))
            else next in_single in_double escape depth
          else next in_single in_double escape depth
      end
  end.

Definition validate_inline_syntax (line start_col : Z) (open_char close_char : Z)
  : M t unit :=
  line_content <- line_content line ;;
  let s := if start_col <=? Z.of_nat (List.length line_content)
           then skipn (Z.to_nat (start_col - 1)) line_content else [] in
  match validate_loop (List.length s) s 0 line start_col open_char close_char
          false false false 0 with
  | Ok _ => ret tt
  | Raise e => raise e
  | OutOfFuel => out_of_fuel
  end.

(** [self.expect(kind)] *)
Definition expect (k : Kind) : M t Token.t :=
  token <- peek 0 ;;
  if negb (Kind_eqb (Token.kind token) k) then
    error (lit "Expected " ++ Kind_name k ++ lit ", got " ++ Kind_name (Token.kind token))
  else advance.

(** [while self.peek().kind == "NEWLINE": self.advance()] *)
Fixpoint skip_leading_newlines (fuel : nat) : M t unit :=
  match fuel with
  | O => out_of_fuel
  | S f =>
      b <- kind_is NEWLINE 0 ;;
      if b then advance ;;; skip_leading_newlines f else ret tt
  end.

Fixpoint skip_newlines (fuel : nat) : M t unit :=
  match fuel with
  | O => out_of_fuel
  | S f =>
      token <- peek 0 ;;
      match Token.kind token with
      | NEWLINE | INDENT => advance ;;; skip_newlines f
      | _ => ret tt
      end
  end.

Definition parse_key : M t str :=
  token <- peek 0 ;;
  match Token.kind token with
  | IDENT | STRING => advance ;;; ret (str_value (Token.value token))
  | k => error (lit "Expected key, got " ++ Kind_name k)
  end.

(** The [while True] loop of [parse_concatenated_strings]. *)
Fixpoint concatenated_parts (fuel : nat) (base_indent : Z) (parts : list str)
  : M t (list str) :=
  match fuel with
  | O => out_of_fuel
  | S f =>
      token <- peek 0 ;;
      r <- (if Kind_eqb (Token.kind token) NEWLINE then
              advance ;;;
              indent_token <- peek 0 ;;
              if negb (Kind_eqb (Token.kind indent_token) INDENT) then ret None
              else if int_value (Token.value indent_token) <? base_indent then ret None
              else advance ;;; token <- peek 0 ;; ret (Some token)
            else ret (Some token)) ;;
      match r with
      | None => ret parts
      | Some token =>
          if negb (Kind_eqb (Token.kind token) STRING) then ret parts
          else advance ;;; concatenated_parts f base_indent (parts ++ [str_value (Token.value token)])
      end
  end.

(** [None] when fewer than two strings were read. *)
Definition parse_concatenated_strings (fuel : nat) (base_indent : Z) : M t (option str) :=
  parts <- concatenated_parts fuel base_indent [] ;;
  if (List.length parts <? 2)%nat then ret None
  else ret (Some (List.concat parts)).

(** [Expected space after "c"] unless the character after [token] is one
    space, [Unexpected space after "c"] if two follow: the check after a
    colon. *)
Definition check_one_space_after_colon (colon : Token.t) : M t unit :=
  let next_col := Token.col colon + 1 in
  ch <- char_at (Token.line colon) next_col ;;
  raise_if (negb (Lexer.ch_is ch (ord " ")))
    (YaySyntaxError (lit "Expected space after " ++ dq (lit ":")) (Token.line colon) next_col) ;;;
  ch <- char_at (Token.line colon) (next_col + 1) ;;
  raise_if (Lexer.ch_is ch (ord " "))
    (YaySyntaxError (lit "Unexpected space after " ++ dq (lit ":"))
       (Token.line colon) (next_col + 1)).

(** The check of [parse_object_value] on a [STRING] token: a backtick
    block string with content on the key's line. *)
Definition check_block_string_leader (token : Token.t) : M t unit :=
  line_content <- line_content (Token.line token) ;;
  if Token.col token <=? Z.of_nat (List.length line_content) then
    let char_at_token :=
      if 0 <? Token.col token
      then nth_error line_content (Z.to_nat (Token.col token - 1)) else None in
    if Lexer.ch_is char_at_token (ord "`") then
      let rest_of_line := skipn (Z.to_nat (Token.col token)) line_content in
      raise_if (startswith_space rest_of_line && strip_nonempty rest_of_line)
        (YaySyntaxError (lit "Expected newline after block leader in property")
           (Token.line token) (Token.col token))
    else ret tt
  else ret tt.

(** The check of [parse_object_value] on a [BYTES] token: a block byte
    array with digits on the key's line. *)
Definition check_block_bytes_leader (token : Token.t) : M t unit :=
  line_content <- line_content (Token.line token) ;;
  if Token.col token <=? Z.of_nat (List.length line_content) then
    let char_at_token :=
      if 0 <? Token.col token
      then nth_error line_content (Z.to_nat (Token.col token - 1)) else None in
    if Lexer.ch_is char_at_token (ord ">") then
      let rest_of_line := skipn (Z.to_nat (Token.col token)) line_content in
      let rest_of_line :=
        if startswith_space rest_of_line then skipn 1 rest_of_line else rest_of_line in
      raise_if (match rest_of_line with
                | c :: _ => is_lower_hex c
                | [] => false
                end)
        (YaySyntaxError (lit "Expected newline after block leader in property")
           (Token.line token) (Token.col token))
    else ret tt
  else ret tt.

(** [raise YaySyntaxError(f'Unexpected character "{first_char}"', ...)] for
    a bare word. *)
Definition bare_word {A} (token : Token.t) : M t A :=
  let first_char := match str_value (Token.value token) with
                    | c :: _ => [c]
                    | [] => lit "?"
                    end in
  raise (YaySyntaxError (lit "Unexpected character " ++ dq first_char)
           (Token.line token) (Token.col token)).

(** The recursive descent.  Each [while] loop is a function of its own,
    named after the method with [_loop].  The inline forms come first:
    they call no block form. *)
Fixpoint parse_inline_array (fuel : nat) : M t (list Value) :=
  match fuel with
  | O => out_of_fuel
  | S f =>
      lbracket <- peek 0 ;;
      expect LBRACKET ;;;
      b <- kind_is NEWLINE 0 ;;
      raise_if b (YaySyntaxError (lit "Unexpected newline in inline array")
                    (Token.line lbracket) (Token.col lbracket)) ;;;
      validate_inline_syntax (Token.line lbracket) (Token.col lbracket) (ord "[") (ord "]") ;;;
      items <- parse_inline_array_loop f lbracket [] ;;
      expect RBRACKET ;;;
      ret items
  end

with parse_inline_array_loop (fuel : nat) (lbracket : Token.t) (items : list Value)
  : M t (list Value) :=
  match fuel with
  | O => out_of_fuel
  | S f =>
      token <- peek 0 ;;
      match Token.kind token with
      | RBRACKET => ret items
      | EOF => error (lit "Unterminated array")
      | NEWLINE =>
          raise (YaySyntaxError (lit "Unexpected newline in inline array")
                   (Token.line lbracket) (Token.col lbracket))
      | _ =>
          item <- parse_inline_value f ;;
          let items := items ++ [item] in
          token <- peek 0 ;;
          match Token.kind token with
          | COMMA => advance ;;; parse_inline_array_loop f lbracket items
          | RBRACKET => parse_inline_array_loop f lbracket items
          | k => error (lit "Expected ',' or ']', got " ++ Kind_name k)
          end
      end
  end

with parse_inline_object (fuel : nat) : M t Dict :=
  match fuel with
  | O => out_of_fuel
  | S f =>
      lbrace <- peek 0 ;;
      expect LBRACE ;;;
      b <- kind_is NEWLINE 0 ;;
      raise_if b (YaySyntaxError (lit "Unexpected newline in inline object")
                    (Token.line lbrace) (Token.col lbrace)) ;;;
      validate_inline_syntax (Token.line lbrace) (Token.col lbrace) (ord "{") (ord "}") ;;;
      obj <- parse_inline_object_loop f lbrace [] ;;
      expect RBRACE ;;;
      ret obj
  end

with parse_inline_object_loop (fuel : nat) (lbrace : Token.t) (obj : Dict) : M t Dict :=
  match fuel with
  | O => out_of_fuel
  | S f =>
      token <- peek 0 ;;
      match Token.kind token with
      | RBRACE => ret obj
      | EOF => error (lit "Unterminated object")
      | NEWLINE =>
          raise (YaySyntaxError (lit "Unexpected newline in inline object")
                   (Token.line lbrace) (Token.col lbrace))
      | _ =>
          key <- parse_key ;;
          colon <- peek 0 ;;
          raise_if (negb (Kind_eqb (Token.kind colon) COLON))
            (YaySyntaxError (lit "Expected colon after key")
               (Token.line lbrace) (Token.col lbrace)) ;;;
          expect COLON ;;;
          check_no_space_before colon (lit ":") ;;;
          check_one_space_after_colon colon ;;;
          v <- parse_inline_value f ;;
          let obj := dict_set obj key v in
          token <- peek 0 ;;
          match Token.kind token with
          | COMMA => advance ;;; parse_inline_object_loop f lbrace obj
          | RBRACE => parse_inline_object_loop f lbrace obj
          | k => error (lit "Expected ',' or '}', got " ++ Kind_name k)
          end
      end
  end

with parse_inline_value (fuel : nat) : M t Value :=
  match fuel with
  | O => out_of_fuel
  | S f =>
      token <- peek 0 ;;
      match Token.kind token with
      | NULL => advance ;;; ret VNone
      | BOOL | INT | FLOAT | STRING | BYTES => advance ;;; ret (Token.value token)
      | LBRACKET => l <- parse_inline_array f ;; ret (VList l)
      | LBRACE => d <- parse_inline_object f ;; ret (VDict d)
      | k => error (lit "Expected value, got " ++ Kind_name k)
      end
  end.

(** The block forms. *)
Fixpoint parse_block_array (fuel : nat) (base_indent : Z) : M t (list Value) :=
  match fuel with
  | O => out_of_fuel
  | S f => parse_block_array_loop f base_indent []
  end

with parse_block_array_loop (fuel : nat) (base_indent : Z) (items : list Value)
  : M t (list Value) :=
  match fuel with
  | O => out_of_fuel
  | S f =>
      token <- peek 0 ;;
      r <- (if Kind_eqb (Token.kind token) INDENT then
              let indent := int_value (Token.value token) in
              if indent <? base_indent then ret None
              else if (base_indent <? indent) && Lexer.nonempty_list items then ret None
              else advance ;;; token <- peek 0 ;; ret (Some token)
            else ret (Some token)) ;;
      match r with
      | None => ret items
      | Some token =>
          if negb (Kind_eqb (Token.kind token) DASH) then ret items
          else
            let dash_token := token in
            advance ;;;
            let next_col := Token.col dash_token + 1 in
            ch <- char_at (Token.line dash_token) next_col ;;
            raise_if (negb (Lexer.ch_is ch (ord " ")))
              (YaySyntaxError (lit "Expected space after " ++ dq (lit "-"))
                 (Token.line dash_token) next_col) ;;;
            ch <- char_at (Token.line dash_token) (next_col + 1) ;;
            raise_if (Lexer.ch_is ch (ord " "))
              (if (base_indent =? 0) && (Token.col dash_token =? 1)
               then YaySyntaxError (lit "Unexpected leading space") (Token.line dash_token) 1
               else YaySyntaxError (lit "Unexpected space after " ++ dq (lit "-"))
                      (Token.line dash_token) (Token.col dash_token)) ;;;
            item <- parse_array_item f (base_indent + 2) ;;
            b <- kind_is NEWLINE 0 ;;
            (if b then advance ;;; ret tt else ret tt) ;;;
            parse_block_array_loop f base_indent (items ++ [item])
      end
  end

with parse_array_item (fuel : nat) (item_indent : Z) : M t Value :=
  match fuel with
  | O => out_of_fuel
  | S f =>
      token <- peek 0 ;;
      match Token.kind token with
      | DASH => l <- parse_block_array f item_indent ;; ret (VList l)
      | NULL | BOOL | INT | FLOAT | STRING | BYTES => parse_inline_value f
      | LBRACKET => l <- parse_inline_array f ;; ret (VList l)
      | LBRACE => d <- parse_inline_object f ;; ret (VDict d)
      | IDENT =>
          b <- kind_is COLON 1 ;;
          if b then d <- parse_block_object f item_indent ;; ret (VDict d)
          else bare_word token
      | k => error (lit "Expected array item value, got " ++ Kind_name k)
      end
  end

with parse_block_object (fuel : nat) (base_indent : Z) : M t Dict :=
  match fuel with
  | O => out_of_fuel
  | S f => parse_block_object_loop f base_indent base_indent []
  end

with parse_block_object_loop (fuel : nat) (base_indent current_indent : Z) (obj : Dict)
  : M t Dict :=
  match fuel with
  | O => out_of_fuel
  | S f =>
      token <- peek 0 ;;
      r <- (if Kind_eqb (Token.kind token) INDENT then
              let indent := int_value (Token.value token) in
              if indent <? base_indent then ret None
              else if (base_indent <? indent) && Lexer.nonempty_list obj then ret None
              else advance ;;; token <- peek 0 ;; ret (Some (token, indent))
            else ret (Some (token, current_indent))) ;;
      match r with
      | None => ret obj
      | Some (token, current_indent) =>
          b <- kind_is COLON 1 ;;
          if negb (Kind_eqb (Token.kind token) IDENT || Kind_eqb (Token.kind token) STRING)
          then ret obj
          else if negb b then ret obj
          else
            key_token <- peek 0 ;;
            key <- parse_key ;;
            colon <- peek 0 ;;
            expect COLON ;;;
            check_no_space_before colon (lit ":") ;;;
            next_token <- peek 0 ;;
            (if negb (Kind_eqb (Token.kind next_token) NEWLINE)
             then check_one_space_after_colon colon else ret tt) ;;;
            v <- parse_object_value f current_indent ;;
            let obj := dict_set obj key v in
            b <- kind_is NEWLINE 0 ;;
            (if b then advance ;;; ret tt else ret tt) ;;;
            parse_block_object_loop f base_indent current_indent obj
      end
  end

with parse_object_value (fuel : nat) (key_indent : Z) : M t Value :=
  match fuel with
  | O => out_of_fuel
  | S f =>
      token <- peek 0 ;;
      match Token.kind token with
      | LBRACE =>
          next_token <- peek 1 ;;
          if Kind_eqb (Token.kind next_token) RBRACE then
            raise_if (negb (Token.col next_token =? Token.col token + 1))
              (YaySyntaxError (lit "Unexpected space after " ++ dq (lit "{"))
                 (Token.line token) (Token.col token + 1)) ;;;
            advance ;;; advance ;;; ret (VDict [])
          else d <- parse_inline_object f ;; ret (VDict d)
      | NULL | BOOL | INT | FLOAT => parse_inline_value f
      | STRING => check_block_string_leader token ;;; parse_inline_value f
      | BYTES => check_block_bytes_leader token ;;; parse_inline_value f
      | LBRACKET => l <- parse_inline_array f ;; ret (VList l)
      | NEWLINE =>
          advance ;;;
          indent_token <- peek 0 ;;
          if negb (Kind_eqb (Token.kind indent_token) INDENT) then
            error (lit "Expected value after property")
          else
            let child_indent := int_value (Token.value indent_token) in
            if child_indent <? key_indent then
              error (lit "Expected indentation for nested value")
            else
              advance ;;;
              next_token <- peek 0 ;;
              b <- kind_is COLON 1 ;;
              match Token.kind next_token with
              | DASH => l <- parse_block_array f child_indent ;; ret (VList l)
              | IDENT =>
                  if b then d <- parse_block_object f child_indent ;; ret (VDict d)
                  else error (lit "Unexpected indent")
              | STRING =>
                  if b then d <- parse_block_object f child_indent ;; ret (VDict d)
                  else
                    result <- parse_concatenated_strings f child_indent ;;
                    match result with
                    | Some s => ret (VStr s)
                    | None => error (lit "Unexpected indent")
                    end
              | _ => error (lit "Unexpected indent")
              end
      | k => error (lit "Expected value after colon, got " ++ Kind_name k)
      end
  end.

Definition parse_value (fuel : nat) (min_indent : Z) : M t Value :=
  match fuel with
  | O => out_of_fuel
  | S f =>
      token <- peek 0 ;;
      match Token.kind token with
      | NULL => advance ;;; ret VNone
      | BOOL | INT | FLOAT => advance ;;; ret (Token.value token)
      | STRING =>
          b <- kind_is COLON 1 ;;
          if b then d <- parse_block_object f min_indent ;; ret (VDict d)
          else advance ;;; ret (Token.value token)
      | BYTES => advance ;;; ret (Token.value token)
      | LBRACKET => l <- parse_inline_array f ;; ret (VList l)
      | LBRACE => d <- parse_inline_object f ;; ret (VDict d)
      | DASH => l <- parse_block_array f min_indent ;; ret (VList l)
      | IDENT =>
          if negb (Lexer.nonempty (str_value (Token.value token))) then
            error (lit "Empty identifier")
          else
            next <- peek 1 ;;
            match Token.kind next with
            | COLON => d <- parse_block_object f min_indent ;; ret (VDict d)
            | IDENT =>
                raise (YaySyntaxError (lit "Invalid key character") (Token.line token)
                         (Token.col token
                          + Z.of_nat (List.length (str_value (Token.value token)))))
            | _ => bare_word token
            end
      | k => error (lit "Unexpected token: " ++ Kind_name k)
      end
  end.

(** [Parser.parse]; [fuel] bounds the depth of the descent. *)
Definition parse (fuel : nat) : M t Value :=
  st <- get ;;
  let has_content := strip_nonempty (source st) in
  skip_leading_newlines fuel ;;;
  token <- peek 0 ;;
  (if Kind_eqb (Token.kind token) INDENT then
     raise_if (0 <? int_value (Token.value token))
       (YaySyntaxError (lit "Unexpected indent") (Token.line token) 1) ;;;
     advance ;;; ret tt
   else ret tt) ;;;
  b <- kind_is EOF 0 ;;
  if b then
    raise_if has_content (YaySyntaxError (lit "No value found in document") 1 1) ;;;
    ret VNone
  else
    result <- parse_value fuel 0 ;;
    skip_newlines fuel ;;;
    b <- kind_is EOF 0 ;;
    if negb b then error (lit "Unexpected extra content")
    else ret result.

(** Every call of the descent and every pass of its loops goes one level
    down in fuel; a token is consumed at least every fourth level. *)
Definition fuel_for (tokens : list Token.t) : nat := 4 * List.length tokens + 16.

End Parser.

(** [loads(s)]: [Parser(s)] validates and tokenizes the source, then
    [parser.parse()]. *)
Definition loads (host : Host) (s : str) : Result Value :=
  match Lexer.__init__ s with
  | Ok lexer =>
      match Lexer.tokenize host (Lexer.fuel_for s) lexer with
      | Ok (tokens, _) =>
          match Parser.parse (Parser.fuel_for tokens) (Parser.mk s (split_nl s) tokens 0) with
          | Ok (v, _) => Ok v
          | Raise e => Raise e
          | OutOfFuel => OutOfFuel
          end
      | Raise e => Raise e
      | OutOfFuel => OutOfFuel
      end
  | Raise e => Raise e
  | OutOfFuel => OutOfFuel
  end.

(** ** dumper.py *)

Module Dumper.

Section WithHost.

Variable host : Host.

Definition _is_simple_key (key : str) : bool :=
  match key with
  | [] => false
  | c :: _ =>
      (Lexer.isalpha host (Some c) || (c =? ord "_"))
      && forallb (fun c => Lexer.isalnum host (Some c) || (c =? ord "_")) key
  end.

Definition _needs_double_quote (s : str) : bool :=
  existsb (fun ch =>
             (ch =? NL) || (ch =? CR) || (ch =? TAB) || (ch =? BS) || (ch =? FF)
             || (ch =? ord "\") || (ch <? 0x20)) s.

Definition _escape_double_quoted (s : str) : str :=
  flat_map (fun ch =>
              if ch =? DQUOTE then [ord "\"; DQUOTE]
              else if ch =? ord "\" then lit "\\"
              else if ch =? NL then lit "\n"
              else if ch =? CR then lit "\r"
              else if ch =? TAB then lit "\t"
              else if ch =? BS then lit "\b"
              else if ch =? FF then lit "\f"
              else if ch <? 0x20 then lit "\u" ++ format_04x ch
              else [ch]) s.

(** [s.replace("'", "''")] *)
Definition _escape_single_quoted (s : str) : str :=
  flat_map (fun ch => if ch =? ord "'" then lit "''" else [ch]) s.

Definition contains (c : Z) (s : str) : bool := existsb (fun x => x =? c) s.

(** The [float] case of [_format_value]. *)
Definition format_float (x : spec_float) : str :=
  match x with
  | S754_nan => lit "nan"
  | S754_infinity neg => if neg then lit "-infinity" else lit "infinity"
  | _ =>
      let s := repr_float host x in
      if negb (contains (ord ".") s) && negb (contains (ord "e") s)
         && negb (contains (ord "E") s)
      then s ++ lit ".0" else s
  end.

(** The [str] case of [_format_value]. *)
Definition format_str (s : str) : str :=
  if _needs_double_quote s then dq (_escape_double_quoted s)
  else if contains (ord "'") s && negb (contains DQUOTE s) then dq s
  else [ord "'"] ++ _escape_single_quoted s ++ [ord "'"].

Definition key_str (k : str) : str :=
  if _is_simple_key k then k else [ord "'"] ++ _escape_single_quoted k ++ [ord "'"].

(** [isinstance(v, dict) and v], [isinstance(v, list) and v] *)
Definition nonempty_dict (v : Value) : bool :=
  match v with
  | VDict (_ :: _) => true
  | _ => false
  end.

Definition nonempty_array (v : Value) : bool :=
  match v with
  | VList (_ :: _) => true
  | _ => false
  end.

(** ["  " * indent] *)
Definition prefix_of (indent : nat) : str := repeat (ord " ") (2 * indent).

Fixpoint _format_value (v : Value) (indent : nat) (inline : bool) {struct v} : str :=
  let prefix := prefix_of indent in
  match v with
  | VNone => lit "null"
  | VBool b => if b then lit "true" else lit "false"
  | VInt n => str_of_int n
  | VFloat x => format_float x
  | VStr s => format_str s
  | VBytes b => lit "<" ++ bytes_hex b ++ lit ">"
  | VList items =>
      if inline || negb (Lexer.nonempty_list items) then
        lit "[" ++ join (lit ", ") (map (fun item => _format_value item 0 true) items)
        ++ lit "]"
      else
        join [NL]
          (flat_map
             (fun item =>
                if nonempty_dict item || nonempty_array item then
                  let item_str := _format_value item (indent + 1) false in
                  if nonempty_array item then
                    [prefix ++ lit "- " ++ _format_value item 0 true]
                  else
                    (prefix ++ lit "-")
                    :: map (fun line => prefix ++ lit "  " ++ line)
                         (filter strip_nonempty (split_nl item_str))
                else [prefix ++ lit "- " ++ _format_value item 0 true])
             items)
  | VDict items =>
      if inline || negb (Lexer.nonempty_list items) then
        lit "{"
        ++ join (lit ", ")
             (map (fun kv => key_str (fst kv) ++ lit ": " ++ _format_value (snd kv) 0 true)
                items)
        ++ lit "}"
      else
        join [NL]
          (flat_map
             (fun kv =>
                if nonempty_dict (snd kv) || nonempty_array (snd kv) then
                  [prefix ++ key_str (fst kv) ++ lit ":";
                   _format_value (snd kv) (indent + 1) false]
                else
                  [prefix ++ key_str (fst kv) ++ lit ": " ++ _format_value (snd kv) 0 true])
             items)
  end.

(** [dumps(obj, indent=indent)] *)
Definition dumps (obj : Value) (indent : bool) : str :=
  _format_value obj 0 (negb indent).

End WithHost.

End Dumper.

(** A host whose Unicode tables are empty beyond ASCII and whose float
    conversions know the three special values only. *)
Definition ascii_host : Host := {|
  uni_isdigit := fun _ => false;
  uni_isalpha := fun _ => false;
  uni_isalnum := fun _ => false;
  uni_int := fun _ => None;
  uni_repr := fun c => [ord "'"; c; ord "'"];
  float_of_str := fun _ => None;
  repr_float := fun _ => lit "0.0"
|}.

(** ** Comparing results *)

Definition Exn_eqb (a b : Exn) : bool :=
  match a, b with
  | YaySyntaxError m l c, YaySyntaxError m' l' c' => str_eqb m m' && (l =? l') && (c =? c')
  | NameError n, NameError n' => str_eqb n n'
  | TypeError m, TypeError m' => str_eqb m m'
  | _, _ => false
  end.

(** The run ended by raising exactly [e]. *)
Definition raises {A} (r : Result A) (e : Exn) : bool :=
  match r with
  | Raise e' => Exn_eqb e' e
  | _ => false
  end.




(** * Vocabulary of the properties *)

(** The value of the spec's emitter scenario, [{greeting: "hi\n"}]. *)
Definition greeting : Value := VDict [(lit "greeting", VStr (lit "hi" ++ [NL]))].

(** A character of one line of text: allowed in a source, not a newline. *)
Definition plain (x : Z) : bool := Lexer._is_allowed_code_point x && negb (x =? NL).

(** An octet. *)
Definition is_byte (x : Z) : bool := (0 <=? x) && (x <? 256).

(** What may stand between [<] and [>]: lowercase hex digits and spaces. *)
Definition hex_or_space (c : Z) : bool := is_lower_hex c || (c =? ord " ").

(** The inline byte array with [content] between the brackets. *)
Definition inline_bytes (content : str) : str := ord "<" :: content ++ [ord ">"].

(** The token [read_bytes] makes of it. *)
Definition bytes_tok (content : str) : Token.t :=
  Token.mk BYTES (VBytes (fromhex (filter is_lower_hex content))) 1 2.

(** [last_was_space] of [read_bytes] after [content]. *)
Definition ends_in_space (content : str) (lws : bool) : bool :=
  fold_left (fun _ c => c =? ord " ") content lws.

(** [space_col] of [read_bytes] after [content], read from column [col]. *)
Fixpoint last_space_col (content : str) (space_col col : Z) : Z :=
  match content with
  | [] => space_col
  | c :: rest => last_space_col rest (if c =? ord " " then col else space_col) (col + 1)
  end.

(** A run of ASCII digits, at least one. *)
Definition is_digits (g : str) : bool := Lexer.nonempty g && forallb ascii_digit g.

(** Runs of digits with one space between neighbours: [1 000 000]. *)
Definition grouped (groups : list str) : str := join (lit " ") groups.

(** A document of one comment line: [#], the comment's text, a newline. *)
Definition comment_line (text : str) : str := ord "#" :: text ++ [NL].

(** A character of a source line for which [read_bytes] has no case: not a
    lowercase hex digit, a space, [>], [#] or one of [ABCDEF]. *)
Definition unknown_in_bytes (c : Z) : bool :=
  plain c && negb (hex_or_space c) && negb (c =? ord ">") && negb (c =? ord "#")
  && negb (is_upper_hex_letter c).

(** An array holding one object, [[{a: 1}]]. *)
Definition nested_object : Value := VList [VDict [(lit "a", VInt 1)]].

(** Induction on value trees, with the hypothesis for every item of an
    array and every value of an object. *)
Section ValueInduction.

Variable P : Value -> Prop.
Hypothesis HNone : P VNone.
Hypothesis HBool : forall b, P (VBool b).
Hypothesis HInt : forall n, P (VInt n).
Hypothesis HFloat : forall x, P (VFloat x).
Hypothesis HStr : forall s, P (VStr s).
Hypothesis HBytes : forall b, P (VBytes b).
Hypothesis HList : forall items, Forall P items -> P (VList items).
Hypothesis HDict : forall items, Forall (fun kv => P (snd kv)) items -> P (VDict items).


End ValueInduction.

(** Object keys written bare: the first character a letter or [_], the
    others letters, digits, [_] or [-], ASCII all, and no keyword. *)
Definition key_start (c : Z) : bool := ascii_alpha c || (c =? ord "_").

Definition key_char (c : Z) : bool :=
  ascii_alpha c || ascii_digit c || (c =? ord "_") || (c =? ord "-").

Definition is_keyword (k : str) : bool :=
  str_eqb k (lit "null") || str_eqb k (lit "true") || str_eqb k (lit "false")
  || str_eqb k (lit "infinity") || str_eqb k (lit "nan").

Definition is_key (k : str) : bool :=
  match k with
  | c :: _ => key_start c
  | [] => false
  end && forallb key_char k && negb (is_keyword k).

(** An entry of an object in source text: a bare key and the digits of an
    integer value. *)
Definition Entry : Type := (str * str)%type.

Definition entry_ok (e : Entry) : bool := is_key (fst e) && is_digits (snd e).

(** [key: 123] *)
Definition entry_text (e : Entry) : str := fst e ++ lit ": " ++ snd e.


(** An inline object: [{key: 1, other: 2}]. *)
Definition inline_object (entries : list Entry) : str :=
  lit "{" ++ join (lit ", ") (map entry_text entries) ++ lit "}".

(** The object the parser builds from the entries, one assignment
    [obj[key] = value] after the other. *)
Definition assign (obj : Dict) (e : Entry) : Dict :=
  dict_set obj (fst e) (VInt (int_of_decimal (snd e))).

Definition parsed_entries (entries : list Entry) : Dict := fold_left assign entries [].

(** The tokens of the entry [e] on line [l], its key at column [c]. *)
Definition entry_tokens (l c : Z) (e : Entry) : list Token.t :=
  let k := Z.of_nat (List.length (fst e)) in
  [Token.mk IDENT (VStr (fst e)) l c;
   Token.mk COLON (VStr (lit ":")) l (c + k);
   Token.mk INT (VInt (int_of_decimal (snd e))) l (c + k + 2)].

(** Where [read_number] stops after the digits of an entry: a newline, a comma or a closing brace. *)
Definition ends_number (x : Z) : bool := (x =? NL) || (x =? ord ",") || (x =? ord "}").

(** The kind of a one-character token. *)
Definition punctuation_kind (c : Z) : option Kind :=
  if c =? ord ":" then Some COLON
  else if c =? ord "," then Some COMMA
  else if c =? ord "{" then Some LBRACE
  else if c =? ord "}" then Some RBRACE
  else None.

(** The tokens of a line of a block object, and of the lines of one from
    line [l] on. *)
Definition line_tokens (l : Z) (e : Entry) : list Token.t :=
  Token.mk INDENT (VInt 0) l 1 :: entry_tokens l 1 e
  ++ [Token.mk NEWLINE (VStr [NL]) l (1 + Z.of_nat (List.length (entry_text e)))].

Fixpoint block_tokens (l : Z) (entries : list Entry) : list Token.t :=
  match entries with
  | [] => []
  | e :: rest => line_tokens l e ++ block_tokens (l + 1) rest
  end.


(** What follows the first entry of an inline object: [, key: 1] for each
    further entry, then the closing brace. *)
Fixpoint inline_rest (rest : list Entry) : str :=
  match rest with
  | [] => lit "}"
  | e :: rest' => lit ", " ++ entry_text e ++ inline_rest rest'
  end.

(** Its tokens, the first of them at column [c] of line 1. *)
Fixpoint inline_rest_tokens (c : Z) (rest : list Entry) : list Token.t :=
  match rest with
  | [] => [Token.mk RBRACE (VStr (lit "}")) 1 c]
  | e :: rest' =>
      Token.mk COMMA (VStr (lit ",")) 1 c :: entry_tokens 1 (c + 2) e
      ++ inline_rest_tokens (c + 2 + Z.of_nat (List.length (entry_text e))) rest'
  end.

(** The tokens of the inline object of the entries [e :: rest]. *)
Definition inline_tokens (e : Entry) (rest : list Entry) : list Token.t :=
  let c := 1 + Z.of_nat (List.length (inline_object (e :: rest))) in
  Token.mk INDENT (VInt 0) 1 1 :: Token.mk LBRACE (VStr (lit "{")) 1 1
  :: entry_tokens 1 2 e
  ++ inline_rest_tokens (2 + Z.of_nat (List.length (entry_text e))) rest
  ++ [Token.mk NEWLINE (VStr [NL]) 1 c; Token.mk EOF VNone 1 c].

(** A character [validate_inline_syntax] passes over outside a string:
    no quote, brace or comma. *)
Definition quiet (c : Z) : bool :=
  negb (c =? ord "'") && negb (c =? DQUOTE) && negb (c =? ord "{")
  && negb (c =? ord "}") && negb (c =? ord ",").

(** ** Vocabulary of the further properties *)

(** The test [_validate_source] makes for a byte-order mark. *)
Definition starts_with_bom (s : str) : bool :=
  (3 <=? List.length s)%nat
  && (match s with c :: _ => c =? 0xFEFF | [] => false end
      || str_eqb (firstn 3 s) [0xEF; 0xBB; 0xBF]).

(** No line of the text ends in a space. *)
Definition no_trailing_space (s : str) : bool :=
  forallb (fun l => negb (endswith_space l)) (split_nl s).

(** The line and the column of the character that follows the text [pre]:
    one more than the newlines of [pre], one more than the characters
    after its last newline. *)
Definition line_of (pre : str) : Z := 1 + Z.of_nat (count_occ Z.eq_dec pre NL).

Definition col_of (pre : str) : Z := 1 + Z.of_nat (List.length (last (split_nl pre) [])).

(** Not a control character: U+0020 or above. *)
Definition printable (c : Z) : bool := 0x20 <=? c.

(** [null], a boolean or an integer. *)
Definition scalar (v : Value) : bool :=
  match v with
  | VNone | VBool _ | VInt _ => true
  | _ => false
  end.

(** The number a string of decimal digits spells. *)
Definition dec_value (s : str) : Z := fold_left (fun acc d => 10 * acc + (d - ord "0")) s 0.

(** The control characters [dumps] writes as [\n], [\r], [\t], [\b], [\f]. *)
Definition escaped_control (c : Z) : bool :=
  (c =? NL) || (c =? CR) || (c =? TAB) || (c =? BS) || (c =? FF).

(** A character of a string that [dumps] writes so that [loads] reads it
    back: an allowed code point from U+0020 on, or one of the five control
    characters with an escape of their own. *)
Definition text_char (c : Z) : bool := plain c || escaped_control c.

(** A key [dumps] writes bare and [loads] reads as a key: a letter or an
    underscore, then letters, digits and underscores; not a keyword. *)
Definition simple_key (k : str) : bool := is_key k && negb (Dumper.contains (ord "-") k).

(** No string of the list occurs in it twice. *)
Fixpoint distinct (ks : list str) : bool :=
  match ks with
  | [] => true
  | k :: rest => negb (existsb (str_eqb k) rest) && distinct rest
  end.

(** The object with the integer [n] under the key [k], for each [(k, n)]. *)
Definition int_dict (kvs : list (str * Z)) : Dict :=
  map (fun kv => (fst kv, VInt (snd kv))) kvs.

(** Its entries as [dumps] writes them. *)
Definition entries_of (kvs : list (str * Z)) : list Entry :=
  map (fun kv => (fst kv, str_of_int (snd kv))) kvs.

(** A block object as [dumps] writes it: a newline between the lines, none
    after the last. *)
Definition joined_object (entries : list Entry) : str := join [NL] (map entry_text entries).

(** The tokens [tokenize] has yielded when it reaches the end of such a
    text whose first line is [e], on line [l]: every line but the last
    with its [NEWLINE]. *)
Fixpoint joined_tokens (l : Z) (e : Entry) (rest : list Entry) : list Token.t :=
  match rest with
  | [] => Token.mk INDENT (VInt 0) l 1 :: entry_tokens l 1 e
  | e' :: rest' => line_tokens l e ++ joined_tokens (l + 1) e' rest'
  end.

(** Not-a-number or an infinity: the floats [dumps] writes as words. *)
Definition special_float (x : spec_float) : bool :=
  match x with
  | S754_nan | S754_infinity _ => true
  | _ => false
  end.

(** An inline array of integers, each a run of digits: [[1, 20, 3]]. *)
Definition inline_array (items : list str) : str :=
  lit "[" ++ join (lit ", ") items ++ lit "]".

(** What follows its first item: [, digits] for each further item, then
    the closing bracket. *)
Fixpoint array_rest (rest : list str) : str :=
  match rest with
  | [] => lit "]"
  | ds :: rest' => lit ", " ++ ds ++ array_rest rest'
  end.

(** The tokens of that, the first of them at column [c] of line 1. *)
Fixpoint array_rest_tokens (c : Z) (rest : list str) : list Token.t :=
  match rest with
  | [] => [Token.mk RBRACKET (VStr (lit "]")) 1 c]
  | ds :: rest' =>
      Token.mk COMMA (VStr (lit ",")) 1 c
      :: Token.mk INT (VInt (int_of_decimal ds)) 1 (c + 2)
      :: array_rest_tokens (c + 2 + Z.of_nat (List.length ds)) rest'
  end.

(** The tokens of the inline array of the items [ds :: rest]. *)
Definition inline_array_tokens (ds : str) (rest : list str) : list Token.t :=
  let c := 1 + Z.of_nat (List.length (inline_array (ds :: rest))) in
  Token.mk INDENT (VInt 0) 1 1 :: Token.mk LBRACKET (VStr (lit "[")) 1 1
  :: Token.mk INT (VInt (int_of_decimal ds)) 1 2
  :: array_rest_tokens (2 + Z.of_nat (List.length ds)) rest
  ++ [Token.mk NEWLINE (VStr [NL]) 1 c; Token.mk EOF VNone 1 c].

(** The integers the items spell. *)
Definition int_items (items : list str) : list Value :=
  map (fun ds => VInt (int_of_decimal ds)) items.

(** Where [read_number] stops after the digits of an item of an array: a
    comma or the closing bracket. *)
Definition ends_item (x : Z) : bool := (x =? ord ",") || (x =? ord "]").

(** A line of a block array of integers: [- digits]. *)
Definition item_text (ds : str) : str := lit "- " ++ ds.

(** A block array as [dumps] writes it: a newline between the lines, none
    after the last. *)
Definition block_array (items : list str) : str := join [NL] (map item_text items).

(** The tokens of the line of the item [ds], on line [l]. *)
Definition item_tokens (l : Z) (ds : str) : list Token.t :=
  [Token.mk INDENT (VInt 0) l 1; Token.mk DASH (VStr (lit "-")) l 1;
   Token.mk INT (VInt (int_of_decimal ds)) l 3].

Definition item_newline (l : Z) (ds : str) : Token.t :=
  Token.mk NEWLINE (VStr [NL]) l (3 + Z.of_nat (List.length ds)).

(** The tokens [tokenize] has yielded when it reaches the end of a block
    array whose first line is that of [ds], on line [l]: every line but
    the last with its [NEWLINE]. *)
Fixpoint open_array_tokens (l : Z) (ds : str) (rest : list str) : list Token.t :=
  match rest with
  | [] => item_tokens l ds
  | ds' :: rest' => item_tokens l ds ++ item_newline l ds :: open_array_tokens (l + 1) ds' rest'
  end.

(** The tokens of the lines of a block array, each with its [NEWLINE]. *)
Fixpoint block_array_tokens (l : Z) (items : list str) : list Token.t :=
  match items with
  | [] => []
  | ds :: rest => item_tokens l ds ++ item_newline l ds :: block_array_tokens (l + 1) rest
  end.

(** A control character without an escape of its own: [dumps] writes it
    as [\u] and four hexadecimal digits. *)
Definition raw_control (c : Z) : bool :=
  (0 <=? c) && (c <? 0x20) && negb (escaped_control c).

(** A character of a string whose [dumps] text passes [_validate_source]. *)
Definition dumped_char (c : Z) : bool := text_char c || raw_control c.

(** An inline array with a space after its opening bracket. *)
Definition spaced_array (items : list str) : str :=
  lit "[ " ++ join (lit ", ") items ++ lit "]".

(** A block string whose text is on the line of its backtick. *)
Definition block_line (text : str) : str := lit "` " ++ text.
(** * Properties *)

(** ** Reasoning about the lexer *)

Lemma skipn_cons_nth (s : str) : forall p c r,
  skipn p s = c :: r -> nth_error s p = Some c /\ skipn (S p) s = r.
Proof.
  induction s as [|x s IH]; intros p c r H.
  - destruct p; discriminate.
  - destruct p as [|p].
    + simpl in H. inversion H; subst. split; reflexivity.
    + simpl in H. apply IH in H. exact H.
Qed.

Lemma is_lower_hex_range c : is_lower_hex c = true -> (48 <= c <= 57) \/ (97 <= c <= 102).
Proof.
  unfold is_lower_hex, ord. simpl. intros H.
  apply orb_true_iff in H. destruct H as [H|H]; apply andb_true_iff in H; destruct H as [H1 H2];
    apply Z.leb_le in H1; apply Z.leb_le in H2; lia.
Qed.

(** Reduce the projections of a lexer state, and nothing else. *)
Ltac lex_norm :=
  cbn [Lexer.set_cursor Lexer.source Lexer.pos Lexer.line Lexer.col Lexer.at_line_start
       Lexer.current_line_indent Lexer._last_token].

Lemma bind_Ok {S A B} (m : M S A) (k : A -> M S B) st a st' :
  m st = Ok (a, st') -> bind m k st = k a st'.
Proof. intros H. unfold bind. rewrite H. reflexivity. Qed.

Lemma bind_Raise {S A B} (m : M S A) (k : A -> M S B) st e :
  m st = Raise e -> bind m k st = Raise e.
Proof. intros H. unfold bind. rewrite H. reflexivity. Qed.

Lemma peek_at src p l c als cli lt x r :
  skipn p src = x :: r ->
  Lexer.peek 0 (Lexer.mk src p l c als cli lt) = Ok (Some x, Lexer.mk src p l c als cli lt).
Proof.
  intros H. apply skipn_cons_nth in H. destruct H as [Hn _].
  unfold Lexer.peek. simpl. rewrite Nat.add_0_r, Hn. reflexivity.
Qed.

Lemma peek_end src p l c als cli lt :
  skipn p src = [] ->
  Lexer.peek 0 (Lexer.mk src p l c als cli lt) = Ok (None, Lexer.mk src p l c als cli lt).
Proof.
  intros H. unfold Lexer.peek. simpl. rewrite Nat.add_0_r.
  replace (nth_error src p) with (@None Z); [reflexivity|].
  symmetry. apply nth_error_None.
  destruct (Nat.le_gt_cases (List.length src) p) as [Hle|Hgt]; [exact Hle|].
  exfalso. assert (Hl : List.length (skipn p src) = (List.length src - p)%nat) by apply length_skipn.
  rewrite H in Hl. simpl in Hl. lia.
Qed.

Lemma advance_at src p l c als cli lt x r :
  skipn p src = x :: r -> x <> NL ->
  Lexer.advance (Lexer.mk src p l c als cli lt)
  = Ok ([x], Lexer.mk src (S p) l (c + 1) als cli lt).
Proof.
  intros H Hx. apply skipn_cons_nth in H. destruct H as [Hn _].
  unfold Lexer.advance. simpl. rewrite Hn.
  apply Z.eqb_neq in Hx. rewrite Hx. reflexivity.
Qed.

Lemma skipn_next (src : str) p x r : skipn p src = x :: r -> skipn (S p) src = r.
Proof. intros H. apply skipn_cons_nth in H. tauto. Qed.

Lemma skipn_past (src : str) g : forall p tail,
  skipn p src = g ++ tail -> skipn (List.length g + p) src = tail.
Proof.
  induction g as [|x g IH]; intros p tail H; [exact H|].
  cbn [app] in H. apply skipn_next in H. apply IH in H.
  cbn [List.length]. rewrite Nat.add_succ_comm. exact H.
Qed.

Lemma skipn_lt (src : str) p x r : skipn p src = x :: r -> (p < List.length src)%nat.
Proof.
  intros H. assert (Hl : List.length (skipn p src) = (List.length src - p)%nat) by apply length_skipn.
  rewrite H in Hl. simpl in Hl. lia.
Qed.

(** The start of a line whose first character opens a token. *)
Lemma line_start_token f toks src p l c cli lt x r :
  skipn p src = x :: r ->
  x <> ord " " -> x <> TAB -> x <> NL -> x <> ord "#" ->
  Lexer.line_start (S f) toks (Lexer.mk src p l c true cli lt)
  = Ok (Lexer.Fall (toks ++ [Token.mk INDENT (VInt 0) l 1]),
        Lexer.mk src p l c false 0 (Some (Token.mk INDENT (VInt 0) l 1))).
Proof.
  intros Hs H1 H2 H3 H4.
  unfold Lexer.line_start.
  erewrite bind_Ok by reflexivity. cbn [Lexer.at_line_start].
  erewrite bind_Ok by reflexivity.
  unfold Lexer.read_indent. cbn [Lexer.count_spaces Lexer.set_cursor Lexer.pos Lexer.line Lexer.col Lexer.source Lexer.current_line_indent Lexer._last_token].
  erewrite bind_Ok.
  2:{ erewrite bind_Ok.
      2:{ erewrite bind_Ok by (eapply peek_at; eassumption).
          unfold Lexer.ch_is. apply Z.eqb_neq in H1. rewrite H1. reflexivity. }
      erewrite bind_Ok by (eapply peek_at; eassumption).
      unfold Lexer.ch_is. apply Z.eqb_neq in H2. rewrite H2. reflexivity. }
  erewrite bind_Ok by (eapply peek_at; eassumption).
  unfold Lexer.ch_is, Lexer.is_empty.
  apply Z.eqb_neq in H3. rewrite H3. apply Z.eqb_neq in H4. rewrite H4.
  reflexivity.
Qed.

Lemma scan_angle host f toks src p l c als cli lt r :
  skipn p src = ord "<" :: r ->
  Lexer.scan host f toks (Lexer.mk src p l c als cli lt)
  = Lexer.angle_bracket host f toks (Lexer.mk src p l c als cli lt).
Proof.
  intros Hs. unfold Lexer.scan.
  erewrite bind_Ok by (eapply peek_at; eassumption).
  reflexivity.
Qed.

Lemma plain_not_newline x : plain x = true -> x <> NL.
Proof.
  unfold plain. intros H. apply andb_true_iff in H. destruct H as [_ H].
  apply negb_true_iff in H. apply Z.eqb_neq. exact H.
Qed.

Lemma check_code_points_plain s : forall l c,
  forallb plain s = true -> Lexer.check_code_points s l c = Ok tt.
Proof.
  induction s as [|x s IH]; intros l c H; [reflexivity|].
  simpl in H. apply andb_true_iff in H. destruct H as [Hx Hs].
  unfold plain in Hx. apply andb_true_iff in Hx. destruct Hx as [Ha Hn].
  cbn [Lexer.check_code_points]. rewrite Ha. cbn [negb].
  change 0x0A with NL. apply negb_true_iff in Hn. rewrite Hn.
  apply IH. exact Hs.
Qed.

Lemma split_nl_aux_plain s : forall cur,
  forallb plain s = true -> split_nl_aux s cur = [rev cur ++ s].
Proof.
  induction s as [|x s IH]; intros cur H.
  - simpl. rewrite app_nil_r. reflexivity.
  - simpl in H. apply andb_true_iff in H. destruct H as [Hx Hs].
    unfold plain in Hx. apply andb_true_iff in Hx. destruct Hx as [_ Hn].
    apply negb_true_iff in Hn. simpl. rewrite Hn. rewrite IH by exact Hs.
    simpl. rewrite <- app_assoc. reflexivity.
Qed.

Lemma split_nl_plain s : forallb plain s = true -> split_nl s = [s].
Proof. intros H. unfold split_nl. rewrite split_nl_aux_plain by exact H. reflexivity. Qed.

Lemma str_eqb_head_neq a b (x y : str) : a <> b -> str_eqb (a :: x) (b :: y) = false.
Proof.
  intros H. unfold str_eqb. destruct (list_eq_dec Z.eq_dec (a :: x) (b :: y)) as [E|E].
  - inversion E. contradiction.
  - reflexivity.
Qed.

(** A one-line source that does not start with a byte-order mark and does
    not end in a space passes [_validate_source]. *)
Lemma validate_plain s :
  forallb plain s = true ->
  match s with
  | a :: _ => a <> 0xFEFF /\ a <> 0xEF
  | [] => True
  end ->
  endswith_space s = false ->
  Lexer._validate_source s = Ok tt.
Proof.
  intros Hall Hhead Hend. unfold Lexer._validate_source.
  assert (Hbom : (3 <=? List.length s)%nat
                 && (match s with c :: _ => c =? 0xFEFF | [] => false end
                     || str_eqb (firstn 3 s) [0xEF; 0xBB; 0xBF]) = false).
  { destruct s as [|a s']; [reflexivity|]. destruct Hhead as [H1 H2].
    apply Z.eqb_neq in H1. rewrite H1. cbn [firstn].
    rewrite str_eqb_head_neq by exact H2. apply andb_false_r. }
  rewrite Hbom.
  rewrite check_code_points_plain by exact Hall.
  rewrite split_nl_plain by exact Hall.
  cbn [Lexer.check_trailing_spaces List.length]. rewrite Hend. reflexivity.
Qed.

Lemma endswith_space_snoc s z : endswith_space (s ++ [z]) = (z =? ord " ").
Proof. unfold endswith_space. rewrite rev_unit. reflexivity. Qed.

(** ** Inline byte arrays *)

Ltac lex_unfold :=
  unfold bind, Lexer.peek, Lexer.advance, Lexer.error, Lexer.error_at_col, get, ret, raise,
         Lexer.set_cursor; simpl.

Lemma read_bytes_loop_space f sl sc acc lws scol src p l c als cli lt r :
  skipn p src = ord " " :: r ->
  Lexer.read_bytes_loop (S f) false sl sc acc lws scol (Lexer.mk src p l c als cli lt)
  = Lexer.read_bytes_loop f false sl sc acc true c (Lexer.mk src (S p) l (c + 1) als cli lt).
Proof.
  intros H. apply skipn_cons_nth in H. destruct H as [Hn _].
  simpl. lex_unfold. rewrite Nat.add_0_r, Hn. simpl. rewrite Hn. reflexivity.
Qed.

Lemma read_bytes_loop_hex f sl sc acc lws scol src p l c als cli lt h r :
  is_lower_hex h = true ->
  skipn p src = h :: r ->
  Lexer.read_bytes_loop (S f) false sl sc acc lws scol (Lexer.mk src p l c als cli lt)
  = Lexer.read_bytes_loop f false sl sc (acc ++ [h]) false scol
      (Lexer.mk src (S p) l (c + 1) als cli lt).
Proof.
  intros Hh H. apply skipn_cons_nth in H. destruct H as [Hn _].
  pose proof (is_lower_hex_range h Hh) as R.
  simpl. lex_unfold. rewrite Nat.add_0_r, Hn. simpl.
  unfold ord; simpl.
  replace (h =? 62) with false by (symmetry; apply Z.eqb_neq; lia).
  replace (h =? 32) with false by (symmetry; apply Z.eqb_neq; lia).
  replace (h =? NL) with false by (symmetry; apply Z.eqb_neq; unfold NL; lia).
  replace (h =? 35) with false by (symmetry; apply Z.eqb_neq; lia).
  rewrite Hh. simpl. rewrite Hn.
  replace (h =? NL) with false by (symmetry; apply Z.eqb_neq; unfold NL; lia).
  reflexivity.
Qed.

Lemma read_bytes_loop_close f sl sc acc lws scol src p l c als cli lt r :
  skipn p src = ord ">" :: r ->
  Lexer.read_bytes_loop (S f) false sl sc acc lws scol (Lexer.mk src p l c als cli lt)
  = if lws then Raise (YaySyntaxError (lit "Unexpected space before " ++ dq (lit ">")) l scol)
    else Ok (acc, Lexer.mk src (S p) l (c + 1) als cli lt).
Proof.
  intros H. apply skipn_cons_nth in H. destruct H as [Hn _].
  simpl. lex_unfold. rewrite Nat.add_0_r, Hn. simpl.
  destruct lws; [reflexivity|]. simpl. rewrite Hn. reflexivity.
Qed.

Lemma read_bytes_loop_content content : forall fuel sl sc acc lws scol src p l c als cli lt tail,
  forallb hex_or_space content = true ->
  skipn p src = content ++ tail ->
  Lexer.read_bytes_loop (List.length content + fuel) false sl sc acc lws scol
    (Lexer.mk src p l c als cli lt)
  = Lexer.read_bytes_loop fuel false sl sc (acc ++ filter is_lower_hex content)
      (ends_in_space content lws) (last_space_col content scol c)
      (Lexer.mk src (List.length content + p) l (c + Z.of_nat (List.length content)) als cli lt).
Proof.
  induction content as [|x content IH]; intros fuel sl sc acc lws scol src p l c als cli lt tail Hall Hs.
  - simpl. rewrite app_nil_r, Z.add_0_r. reflexivity.
  - simpl in Hall. apply andb_true_iff in Hall. destruct Hall as [Hx Hall].
    simpl in Hs. pose proof (skipn_cons_nth _ _ _ _ Hs) as [_ Hs'].
    unfold hex_or_space in Hx. apply orb_true_iff in Hx.
    change (List.length (x :: content) + fuel)%nat with (S (List.length content + fuel)).
    destruct Hx as [Hx|Hx].
    + rewrite (read_bytes_loop_hex _ _ _ _ _ _ _ _ _ _ _ _ _ _ _ Hx Hs).
      rewrite (IH _ _ _ _ _ _ _ _ _ _ _ _ _ tail Hall Hs').
      pose proof (is_lower_hex_range x Hx) as R.
      simpl. rewrite Hx.
      replace (x =? ord " ") with false by (symmetry; apply Z.eqb_neq; unfold ord; simpl; lia).
      rewrite <- app_assoc. simpl.
      f_equal. f_equal; [lia|lia].
    + apply Z.eqb_eq in Hx. subst x.
      rewrite (read_bytes_loop_space _ _ _ _ _ _ _ _ _ _ _ _ _ _ Hs).
      rewrite (IH _ _ _ _ _ _ _ _ _ _ _ _ _ tail Hall Hs').
      simpl. f_equal. f_equal; [lia|lia].
Qed.

Lemma hex_or_space_cases c :
  hex_or_space c = true -> is_lower_hex c = true \/ c = ord " ".
Proof.
  unfold hex_or_space. intros H. apply orb_true_iff in H.
  destruct H as [H|H]; [left; exact H | right; apply Z.eqb_eq; exact H].
Qed.

Lemma hex_or_space_range c : hex_or_space c = true -> c = 32 \/ (48 <= c <= 57) \/ (97 <= c <= 102).
Proof.
  intros H. apply hex_or_space_cases in H. destruct H as [H|H].
  - right. apply is_lower_hex_range. exact H.
  - left. exact H.
Qed.


Lemma hex_or_space_plain c : hex_or_space c = true -> plain c = true.
Proof.
  intros H. apply hex_or_space_range in H. unfold plain, Lexer._is_allowed_code_point, NL.
  apply andb_true_iff. split.
  - assert (H1 : (0x0020 <=? c) && (c <=? 0x007E) = true).
    { apply andb_true_iff. split; apply Z.leb_le; lia. }
    rewrite H1. rewrite orb_true_r. reflexivity.
  - apply negb_true_iff. apply Z.eqb_neq. lia.
Qed.

Lemma ends_in_space_app content x lws :
  ends_in_space (content ++ [x]) lws = (x =? ord " ").
Proof. unfold ends_in_space. rewrite fold_left_app. reflexivity. Qed.


(** *** The source validator on one line of text *)

Section InlineBytes.
Variable host : Host.
Variable content : str.
Hypothesis content_ok : forallb hex_or_space content = true.
Hypothesis content_nonempty : content <> [].



Lemma angle_bracket_content f toks als cli lt :
  (List.length content < f)%nat ->
  Lexer.angle_bracket host f toks (Lexer.mk (inline_bytes content) 0 1 1 als cli lt)
  = if ends_in_space content false then
      Raise (YaySyntaxError (lit "Unexpected space before " ++ dq (lit ">")) 1
               (last_space_col content 0 2))
    else if negb (Nat.even (List.length (filter is_lower_hex content))) then
      Raise (YaySyntaxError (lit "Odd number of hex digits in byte literal") 1
               (Z.of_nat (List.length content) + 3))
    else Ok (Lexer.Continue (toks ++ [(bytes_tok content)]),
             Lexer.mk (inline_bytes content) (List.length content + 2) 1 (Z.of_nat (List.length content) + 3)
               als cli (Some (bytes_tok content))).
Proof.
  intros Hfuel.
  destruct content as [|x content'] eqn:Hc; [congruence|]. rewrite <- Hc in *.
  assert (Hx : hex_or_space x = true).
  { rewrite Hc in content_ok. simpl in content_ok. apply andb_true_iff in content_ok. tauto. }
  pose proof (hex_or_space_range x Hx) as Rx.
  assert (H0 : skipn 0 (inline_bytes content) = ord "<" :: content ++ [ord ">"]) by reflexivity.
  assert (H1 : skipn 1 (inline_bytes content) = x :: content' ++ [ord ">"]).
  { unfold inline_bytes. rewrite Hc. reflexivity. }
  assert (H1' : skipn 1 (inline_bytes content) = content ++ [ord ">"]) by reflexivity.
  unfold Lexer.angle_bracket.
  erewrite bind_Ok by reflexivity. cbn [Lexer.col].
  erewrite bind_Ok by (eapply advance_at; [eassumption | discriminate]).
  erewrite bind_Ok by (eapply peek_at; eassumption).
  cbv beta iota.
  replace (x =? ord ">") with false by (symmetry; apply Z.eqb_neq; unfold ord; simpl; lia).
  replace (x =? NL) with false by (symmetry; apply Z.eqb_neq; unfold NL; lia).
  replace (is_upper_hex_letter x) with false.
  2:{ symmetry. unfold is_upper_hex_letter, ord. simpl.
      apply andb_false_iff. destruct (Z.leb_spec 65 x); [right|left; reflexivity].
      apply Z.leb_gt. lia. }
  fold (hex_or_space x) in *. unfold hex_or_space in Hx. rewrite orb_comm in Hx. rewrite Hx.
  assert (Hloop : Lexer.read_bytes_loop f false 1 (1 + 1) [] false 0
                    (Lexer.mk (inline_bytes content) 1 1 (1 + 1) als cli lt)
                  = if ends_in_space content false then
                      Raise (YaySyntaxError (lit "Unexpected space before " ++ dq (lit ">")) 1
                               (last_space_col content 0 2))
                    else Ok (filter is_lower_hex content,
                             Lexer.mk (inline_bytes content) (List.length content + 2) 1
                               (Z.of_nat (List.length content) + 3) als cli lt)).
  { replace f with (List.length content + S (f - List.length content - 1))%nat by lia.
    erewrite (read_bytes_loop_content content) by eassumption.
    erewrite read_bytes_loop_close.
    2:{ unfold inline_bytes. change (ord "<" :: content ++ [ord ">"]) with ([ord "<"] ++ content ++ [ord ">"]).
        rewrite skipn_app. rewrite skipn_all2 by (simpl; lia).
        replace (List.length content + 1 - List.length [ord "<"])%nat with (List.length content) by (simpl; lia).
        rewrite skipn_app. rewrite skipn_all. rewrite Nat.sub_diag. reflexivity. }
    simpl app. change (1 + 1) with 2.
    destruct (ends_in_space content false); [reflexivity|].
    f_equal. f_equal. f_equal; lia. }
  unfold Lexer.read_bytes.
  destruct (ends_in_space content false) eqn:He.
  - erewrite bind_Raise; [reflexivity|].
    erewrite bind_Ok by reflexivity. cbn [Lexer.line Lexer.col negb].
    erewrite bind_Ok by reflexivity.
    erewrite bind_Raise; [reflexivity|]. exact Hloop.
  - destruct (Nat.even (List.length (filter is_lower_hex content))) eqn:Hev; cbn [negb].
    + erewrite bind_Ok.
      2:{ erewrite bind_Ok by reflexivity. cbn [Lexer.line Lexer.col negb].
          erewrite bind_Ok by reflexivity.
          erewrite bind_Ok by exact Hloop.
          unfold Lexer.bytes_token. rewrite Hev. reflexivity. }
      reflexivity.
    + erewrite bind_Raise; [reflexivity|].
      erewrite bind_Ok by reflexivity. cbn [Lexer.line Lexer.col negb].
      erewrite bind_Ok by reflexivity.
      erewrite bind_Ok by exact Hloop.
      unfold Lexer.bytes_token. rewrite Hev. reflexivity.
Qed.

Lemma tokenize_inline_bytes fuel :
  ends_in_space content false = false ->
  Nat.even (List.length (filter is_lower_hex content)) = true ->
  (List.length content + 3 <= fuel)%nat ->
  exists st,
  Lexer.tokenize host fuel (Lexer.mk (inline_bytes content) 0 1 1 true 0 None)
  = Ok ([Token.mk INDENT (VInt 0) 1 1; (bytes_tok content);
         Token.mk NEWLINE (VStr [NL]) 1 (Z.of_nat (List.length content) + 3);
         Token.mk EOF VNone 1 (Z.of_nat (List.length content) + 3)], st).
Proof.
  intros Hend Heven Hfuel.
  destruct fuel as [|f]; [lia|].
  destruct f as [|f]; [lia|].
  assert (Hlen : List.length (inline_bytes content) = (List.length content + 2)%nat).
  { unfold inline_bytes. simpl. rewrite length_app. simpl. lia. }
  eexists. unfold Lexer.tokenize. cbn [Lexer.source Lexer.pos Lexer.line Lexer.col Lexer.at_line_start Lexer.current_line_indent].
  erewrite bind_Ok.
  2:{ cbn [Lexer.tokenize_loop].
      erewrite bind_Ok by reflexivity. cbn [Lexer.source Lexer.pos].
      rewrite Hlen. replace (0 <? List.length content + 2)%nat with true by (symmetry; apply Nat.ltb_lt; lia).
      erewrite bind_Ok.
      2:{ eapply line_start_token; [reflexivity | discriminate ..]. }
      cbv beta iota.
      erewrite bind_Ok.
      2:{ erewrite scan_angle by reflexivity.
          rewrite angle_bracket_content by lia. rewrite Hend, Heven. reflexivity. }
      cbv beta iota.
      destruct f as [|f]; [lia|].
      cbn [Lexer.tokenize_loop].
      erewrite bind_Ok by reflexivity. cbn [Lexer.source Lexer.pos].
      rewrite Hlen. rewrite Nat.ltb_irrefl. reflexivity. }
  erewrite bind_Ok by reflexivity. cbn [Lexer.at_line_start negb Lexer.line Lexer.col].
  erewrite bind_Ok by reflexivity.
  erewrite bind_Ok by reflexivity. cbn [Lexer.at_line_start negb Lexer.line Lexer.col].
  reflexivity.
Qed.

Lemma parse_inline_bytes lines c :
  exists st,
  Parser.parse 32
    (Parser.mk (inline_bytes content) lines
       [Token.mk INDENT (VInt 0) 1 1; (bytes_tok content);
        Token.mk NEWLINE (VStr [NL]) 1 c; Token.mk EOF VNone 1 c] 0)
  = Ok (VBytes (fromhex (filter is_lower_hex content)), st).
Proof.
  eexists. unfold inline_bytes. vm_compute. reflexivity.
Qed.

Lemma inline_bytes_validates : Lexer._validate_source (inline_bytes content) = Ok tt.
Proof.
  unfold inline_bytes. apply validate_plain.
  - cbn [forallb]. rewrite forallb_app. cbn [forallb].
    apply andb_true_iff. split; [reflexivity|].
    apply andb_true_iff. split; [|reflexivity].
    apply forallb_forall. intros x Hx. apply hex_or_space_plain.
    rewrite forallb_forall in content_ok. apply content_ok. exact Hx.
  - split; discriminate.
  - change (ord "<" :: content ++ [ord ">"]) with ((ord "<" :: content) ++ [ord ">"]).
    rewrite endswith_space_snoc. reflexivity.
Qed.

Lemma inline_bytes_length : List.length (inline_bytes content) = (List.length content + 2)%nat.
Proof. unfold inline_bytes. simpl. rewrite length_app. simpl. lia. Qed.

Lemma loads_inline_bytes :
  ends_in_space content false = false ->
  Nat.even (List.length (filter is_lower_hex content)) = true ->
  loads host (inline_bytes content) = Ok (VBytes (fromhex (filter is_lower_hex content))).
Proof.
  intros Hend Heven. unfold loads, Lexer.__init__. rewrite inline_bytes_validates.
  destruct (tokenize_inline_bytes (Lexer.fuel_for (inline_bytes content)) Hend Heven) as [st Htok].
  { unfold Lexer.fuel_for. rewrite inline_bytes_length. lia. }
  rewrite Htok.
  destruct (parse_inline_bytes (split_nl (inline_bytes content)) (Z.of_nat (List.length content) + 3)) as [st' Hp].
  change (Parser.fuel_for _) with 32%nat. rewrite Hp. reflexivity.
Qed.

Lemma loads_inline_bytes_trailing_space :
  ends_in_space content false = true ->
  loads host (inline_bytes content)
  = Raise (YaySyntaxError (lit "Unexpected space before " ++ dq (lit ">")) 1
             (last_space_col content 0 2)).
Proof.
  intros Hend. unfold loads, Lexer.__init__. rewrite inline_bytes_validates.
  assert (Hf : exists f, Lexer.fuel_for (inline_bytes content) = S (S f) /\ (List.length content < f)%nat).
  { exists (2 * List.length (inline_bytes content) + 2)%nat. unfold Lexer.fuel_for. rewrite inline_bytes_length. lia. }
  destruct Hf as [f [Hf Hlt]]. rewrite Hf.
  replace (Lexer.tokenize host (S (S f)) (Lexer.mk (inline_bytes content) 0 1 1 true 0 None))
    with (@Raise (list Token.t * Lexer.t)
            (YaySyntaxError (lit "Unexpected space before " ++ dq (lit ">")) 1
               (last_space_col content 0 2))); [reflexivity|].
  symmetry. unfold Lexer.tokenize.
  cbn [Lexer.source Lexer.pos Lexer.line Lexer.col Lexer.at_line_start Lexer.current_line_indent].
  erewrite bind_Raise; [reflexivity|].
  cbn [Lexer.tokenize_loop].
  erewrite bind_Ok by reflexivity. cbn [Lexer.source Lexer.pos].
  rewrite inline_bytes_length.
  replace (0 <? List.length content + 2)%nat with true by (symmetry; apply Nat.ltb_lt; lia).
  erewrite bind_Ok.
  2:{ eapply line_start_token; [reflexivity | discriminate ..]. }
  cbv beta iota.
  erewrite bind_Raise; [reflexivity|].
  erewrite scan_angle by reflexivity.
  rewrite angle_bracket_content by lia. rewrite Hend. reflexivity.
Qed.
End InlineBytes.
Lemma lower_hex_digit_ok d :
  0 <= d < 16 -> is_lower_hex (lower_hex_digit d) = true /\ hex_value (lower_hex_digit d) = d.
Proof.
  intros H.
  assert (E : d = 0 \/ d = 1 \/ d = 2 \/ d = 3 \/ d = 4 \/ d = 5 \/ d = 6 \/ d = 7 \/ d = 8
              \/ d = 9 \/ d = 10 \/ d = 11 \/ d = 12 \/ d = 13 \/ d = 14 \/ d = 15) by lia.
  repeat (destruct E as [E|E]; [subst d; split; reflexivity|]).
  subst d; split; reflexivity.
Qed.

Lemma byte_digits x :
  is_byte x = true -> 0 <= x / 16 < 16 /\ 0 <= x mod 16 < 16 /\ 16 * (x / 16) + x mod 16 = x.
Proof.
  unfold is_byte. intros H. apply andb_true_iff in H. destruct H as [H1 H2].
  apply Z.leb_le in H1. apply Z.ltb_lt in H2.
  assert (Hd := Z.div_mod x 16 ltac:(lia)).
  assert (Hm := Z.mod_pos_bound x 16 ltac:(lia)).
  split; [|split; lia].
  split; [apply Z.div_pos; lia | apply Z.div_lt_upper_bound; lia].
Qed.

Lemma fromhex_bytes_hex b : forallb is_byte b = true -> fromhex (bytes_hex b) = b.
Proof.
  induction b as [|x b IH]; intros H; [reflexivity|].
  simpl in H. apply andb_true_iff in H. destruct H as [Hx Hb].
  destruct (byte_digits x Hx) as [Hhi [Hlo Hsum]].
  destruct (lower_hex_digit_ok _ Hhi) as [_ Vhi].
  destruct (lower_hex_digit_ok _ Hlo) as [_ Vlo].
  unfold bytes_hex. cbn [flat_map app fromhex]. fold (bytes_hex b).
  rewrite Vhi, Vlo, Hsum, IH by exact Hb. reflexivity.
Qed.

Lemma bytes_hex_all_hex b : forallb is_byte b = true -> forallb is_lower_hex (bytes_hex b) = true.
Proof.
  induction b as [|x b IH]; intros H; [reflexivity|].
  simpl in H. apply andb_true_iff in H. destruct H as [Hx Hb].
  destruct (byte_digits x Hx) as [Hhi [Hlo _]].
  destruct (lower_hex_digit_ok _ Hhi) as [Ihi _].
  destruct (lower_hex_digit_ok _ Hlo) as [Ilo _].
  unfold bytes_hex. cbn [flat_map app forallb]. fold (bytes_hex b).
  rewrite Ihi, Ilo, IH by exact Hb. reflexivity.
Qed.

Lemma bytes_hex_length b : List.length (bytes_hex b) = (2 * List.length b)%nat.
Proof.
  induction b as [|x b IH]; [reflexivity|].
  unfold bytes_hex. cbn [flat_map app List.length]. fold (bytes_hex b). rewrite IH. lia.
Qed.

Lemma filter_all (f : Z -> bool) s : forallb f s = true -> filter f s = s.
Proof.
  induction s as [|x s IH]; intros H; [reflexivity|].
  simpl in H. apply andb_true_iff in H. destruct H as [Hx Hs].
  simpl. rewrite Hx, IH by exact Hs. reflexivity.
Qed.

Lemma filter_hex_spaces n : filter is_lower_hex (repeat (ord " ") n) = [].
Proof. induction n as [|n IH]; [reflexivity|]. simpl. exact IH. Qed.

Lemma spaces_ok n : forallb hex_or_space (repeat (ord " ") n) = true.
Proof. induction n as [|n IH]; [reflexivity|]. simpl. exact IH. Qed.

Lemma hex_is_hex_or_space s : forallb is_lower_hex s = true -> forallb hex_or_space s = true.
Proof.
  intros H. apply forallb_forall. intros x Hx. rewrite forallb_forall in H.
  unfold hex_or_space. rewrite (H x Hx). reflexivity.
Qed.

Lemma ends_in_space_hex pre s lws :
  s <> [] -> forallb is_lower_hex s = true -> ends_in_space (pre ++ s) lws = false.
Proof.
  intros Hne Hall. destruct (exists_last Hne) as [s' [x E]]. subst s.
  rewrite app_assoc, ends_in_space_app.
  rewrite forallb_app in Hall. apply andb_true_iff in Hall. destruct Hall as [_ Hx].
  simpl in Hx. rewrite andb_true_r in Hx. apply is_lower_hex_range in Hx.
  apply Z.eqb_neq. unfold ord. simpl. lia.
Qed.

Lemma repeat_snoc (x : Z) n : repeat x (S n) = repeat x n ++ [x].
Proof. induction n as [|n IH]; [reflexivity|]. simpl. simpl in IH. rewrite <- IH. reflexivity. Qed.

Lemma last_space_col_snoc pre : forall scol c,
  last_space_col (pre ++ [ord " "]) scol c = c + Z.of_nat (List.length pre).
Proof.
  induction pre as [|x pre IH]; intros scol c.
  - simpl. lia.
  - cbn [app last_space_col List.length]. rewrite IH. lia.
Qed.

(** C10 *)
Theorem inline_bytes_space_after_open :
  forall host (n : nat) (b : list Z),
    (1 <= n)%nat -> b <> [] -> forallb is_byte b = true ->
    loads host (lit "<" ++ repeat (ord " ") n ++ bytes_hex b ++ lit ">") = Ok (VBytes b)
    /\ loads host (lit "<" ++ bytes_hex b ++ repeat (ord " ") n ++ lit ">")
       = Raise (YaySyntaxError (lit "Unexpected space before " ++ dq (lit ">")) 1
                  (Z.of_nat (2 * List.length b + n) + 1)).
Proof.
  intros host n b Hn Hb Hbytes.
  assert (Hhex := bytes_hex_all_hex b Hbytes).
  assert (Hne : bytes_hex b <> []).
  { intros E. apply (f_equal (@List.length Z)) in E. rewrite bytes_hex_length in E.
    destruct b; [congruence | simpl in E; lia]. }
  split.
  - replace (lit "<" ++ repeat (ord " ") n ++ bytes_hex b ++ lit ">")
      with (inline_bytes (repeat (ord " ") n ++ bytes_hex b)).
    2:{ unfold inline_bytes. cbn [lit map list_ascii_of_string app]. rewrite <- app_assoc. reflexivity. }
    rewrite loads_inline_bytes.
    + rewrite filter_app, filter_hex_spaces, filter_all by exact Hhex.
      cbn [app]. rewrite fromhex_bytes_hex by exact Hbytes. reflexivity.
    + rewrite forallb_app, spaces_ok, hex_is_hex_or_space by exact Hhex. reflexivity.
    + intros E. apply app_eq_nil in E. tauto.
    + apply ends_in_space_hex; assumption.
    + rewrite filter_app, filter_hex_spaces, filter_all by exact Hhex.
      cbn [app]. rewrite bytes_hex_length. rewrite Nat.even_mul. reflexivity.
  - replace (lit "<" ++ bytes_hex b ++ repeat (ord " ") n ++ lit ">")
      with (inline_bytes (bytes_hex b ++ repeat (ord " ") n)).
    2:{ unfold inline_bytes. cbn [lit map list_ascii_of_string app]. rewrite <- app_assoc. reflexivity. }
    destruct n as [|n]; [lia|]. rewrite repeat_snoc.
    rewrite loads_inline_bytes_trailing_space.
    + rewrite app_assoc, last_space_col_snoc. rewrite length_app, bytes_hex_length, repeat_length.
      f_equal. f_equal. lia.
    + rewrite forallb_app, hex_is_hex_or_space by exact Hhex.
      rewrite <- repeat_snoc. apply spaces_ok.
    + intros E. apply app_eq_nil in E. tauto.
    + rewrite app_assoc, ends_in_space_app. reflexivity.
Qed.

Lemma inline_bytes_space_after_open_witness :
  loads ascii_host (lit "< de>") = Ok (VBytes [0xde])
  /\ loads ascii_host (lit "<de >")
     = Raise (YaySyntaxError (lit "Unexpected space before " ++ dq (lit ">")) 1 4).
Proof.
  exact (inline_bytes_space_after_open ascii_host 1 [0xde] (le_n 1)
           ltac:(discriminate) eq_refl).
Defined.

(** ** An unknown character in an inline byte array *)

Lemma unknown_in_bytes_cases c :
  unknown_in_bytes c = true ->
  plain c = true /\ is_lower_hex c = false /\ c <> ord " " /\ c <> ord ">"
  /\ c <> ord "#" /\ is_upper_hex_letter c = false /\ c <> NL.
Proof.
  unfold unknown_in_bytes, hex_or_space. intros H.
  apply andb_true_iff in H. destruct H as [H Hu].
  apply andb_true_iff in H. destruct H as [H Hh].
  apply andb_true_iff in H. destruct H as [H Hg].
  apply andb_true_iff in H. destruct H as [Hp Hs].
  apply negb_true_iff in Hu, Hh, Hg, Hs.
  apply orb_false_iff in Hs. destruct Hs as [Hl Hs].
  apply Z.eqb_neq in Hh, Hg, Hs.
  pose proof (plain_not_newline c Hp). tauto.
Qed.

Lemma read_bytes_loop_unknown f sl sc acc lws scol src p l c als cli lt bad r :
  unknown_in_bytes bad = true ->
  skipn p src = bad :: r ->
  Lexer.read_bytes_loop (S f) false sl sc acc lws scol (Lexer.mk src p l c als cli lt)
  = Raise (NameError (lit "block_mode")).
Proof.
  intros Hbad Hs.
  destruct (unknown_in_bytes_cases bad Hbad) as [_ [Hh [H1 [H2 [H3 [Hu H4]]]]]].
  cbn [Lexer.read_bytes_loop].
  erewrite bind_Ok by (eapply peek_at; exact Hs). cbv beta iota.
  apply Z.eqb_neq in H1, H2, H3, H4. rewrite H1, H2, H3, H4, Hh, Hu. reflexivity.
Qed.

Lemma endswith_space_app pre s : s <> [] -> endswith_space (pre ++ s) = endswith_space s.
Proof.
  intros Hne. destruct (exists_last Hne) as [s' [z E]]. subst s.
  rewrite app_assoc, !endswith_space_snoc. reflexivity.
Qed.

(** After [<] and a hex digit or a space, [tokenize] calls [read_bytes]. *)
Lemma angle_bracket_enters host f toks src l c als cli lt x r :
  skipn 0 src = ord "<" :: x :: r ->
  hex_or_space x = true ->
  Lexer.angle_bracket host f toks (Lexer.mk src 0 l c als cli lt)
  = (tok <- Lexer.read_bytes f true false ;; Lexer.yield_continue toks tok)
      (Lexer.mk src 1 l (c + 1) als cli lt).
Proof.
  intros Hs Hx. pose proof (hex_or_space_range x Hx) as Rx.
  unfold Lexer.angle_bracket.
  erewrite bind_Ok by reflexivity. cbn [Lexer.col].
  erewrite bind_Ok by (eapply advance_at; [exact Hs | discriminate]).
  erewrite bind_Ok by (eapply peek_at; eapply skipn_next; exact Hs).
  cbv beta iota.
  replace (x =? ord ">") with false by (symmetry; apply Z.eqb_neq; unfold ord; simpl; lia).
  replace (x =? NL) with false by (symmetry; apply Z.eqb_neq; unfold NL; lia).
  replace (is_upper_hex_letter x) with false.
  2:{ symmetry. unfold is_upper_hex_letter, ord. simpl.
      apply andb_false_iff. destruct (Z.leb_spec 65 x); [right|left; reflexivity].
      apply Z.leb_gt. lia. }
  unfold hex_or_space in Hx. rewrite orb_comm in Hx. rewrite Hx. reflexivity.
Qed.

Section UnknownCharacter.

Variable host : Host.
Variables (content : str) (bad : Z) (tail : str).
Hypothesis content_ok : forallb hex_or_space content = true.
Hypothesis content_nonempty : content <> [].
Hypothesis bad_unknown : unknown_in_bytes bad = true.
Hypothesis tail_plain : forallb plain tail = true.
Hypothesis tail_end : endswith_space (bad :: tail) = false.

Lemma unknown_source_validates :
  Lexer._validate_source (ord "<" :: content ++ bad :: tail) = Ok tt.
Proof.
  destruct (unknown_in_bytes_cases bad bad_unknown) as [Hp _].
  apply validate_plain.
  - cbn [forallb]. rewrite forallb_app. cbn [forallb]. rewrite Hp, tail_plain.
    replace (forallb plain content) with true; [reflexivity|].
    symmetry. apply forallb_forall. intros x Hx. apply hex_or_space_plain.
    rewrite forallb_forall in content_ok. apply content_ok. exact Hx.
  - split; discriminate.
  - change (ord "<" :: content ++ bad :: tail) with ((ord "<" :: content) ++ bad :: tail).
    rewrite endswith_space_app by discriminate. exact tail_end.
Qed.

Lemma tokenize_unknown fuel :
  (List.length content + 3 <= fuel)%nat ->
  Lexer.tokenize host fuel (Lexer.mk (ord "<" :: content ++ bad :: tail) 0 1 1 true 0 None)
  = Raise (NameError (lit "block_mode")).
Proof.
  intros Hfuel.
  destruct content as [|x content'] eqn:Hc; [congruence|]. rewrite <- Hc in *.
  assert (Hx : hex_or_space x = true).
  { rewrite Hc in content_ok. cbn [forallb] in content_ok.
    apply andb_true_iff in content_ok. tauto. }
  set (src := ord "<" :: content ++ bad :: tail).
  assert (Hs0 : skipn 0 src = ord "<" :: x :: content' ++ bad :: tail)
    by (unfold src; rewrite Hc; reflexivity).
  assert (Hs1 : skipn 1 src = content ++ bad :: tail) by reflexivity.
  destruct fuel as [|f]; [lia|].
  destruct f as [|f]; [lia|].
  unfold Lexer.tokenize. lex_norm.
  erewrite bind_Raise; [reflexivity|].
  cbn [Lexer.tokenize_loop].
  erewrite bind_Ok by reflexivity. lex_norm.
  replace (0 <? List.length src)%nat with true
    by (symmetry; apply Nat.ltb_lt; unfold src; simpl; lia).
  erewrite bind_Ok.
  2:{ eapply line_start_token; [exact Hs0 | discriminate ..]. }
  cbv beta iota.
  erewrite bind_Raise; [reflexivity|].
  erewrite scan_angle by exact Hs0.
  erewrite angle_bracket_enters by (try exact Hx; exact Hs0).
  erewrite bind_Raise; [reflexivity|].
  unfold Lexer.read_bytes.
  erewrite bind_Ok by reflexivity. lex_norm. cbn [negb].
  erewrite bind_Ok by reflexivity.
  erewrite bind_Raise; [reflexivity|].
  replace (S f) with (List.length content + S (f - List.length content))%nat by lia.
  erewrite (read_bytes_loop_content content) by eassumption.
  eapply read_bytes_loop_unknown; [exact bad_unknown|].
  apply skipn_past. exact Hs1.
Qed.

Lemma loads_unknown :
  loads host (ord "<" :: content ++ bad :: tail) = Raise (NameError (lit "block_mode")).
Proof.
  unfold loads, Lexer.__init__. rewrite unknown_source_validates.
  rewrite tokenize_unknown; [reflexivity|].
  unfold Lexer.fuel_for. cbn [List.length]. rewrite length_app. lia.
Qed.

End UnknownCharacter.

(** C6, on the code.  In an inline byte array, after at least one hex
    digit or space, a character that [read_bytes] has no case for makes
    [loads] raise [NameError] (the name [block_mode] is not defined), not
    [YaySyntaxError]; [<dz>] is such an input. *)
Theorem inline_bytes_unknown_character :
  forall host content bad tail,
    content <> [] ->
    forallb hex_or_space content = true ->
    unknown_in_bytes bad = true ->
    forallb plain tail = true ->
    endswith_space (bad :: tail) = false ->
    loads host (ord "<" :: content ++ bad :: tail) = Raise (NameError (lit "block_mode")).
Proof.
  intros host content bad tail Hne Hok Hbad Hplain Hend.
  apply loads_unknown; assumption.
Qed.

Lemma inline_bytes_unknown_character_witness :
  loads ascii_host (lit "<dz>") = Raise (NameError (lit "block_mode")).
Proof.
  exact (inline_bytes_unknown_character ascii_host (lit "d") (ord "z") (lit ">")
           ltac:(discriminate) eq_refl eq_refl eq_refl eq_refl).
Defined.
(** ** Digit grouping *)

Lemma ascii_digit_range d : ascii_digit d = true -> 48 <= d <= 57.
Proof.
  unfold ascii_digit, ord. simpl. intros H. apply andb_true_iff in H.
  destruct H as [H1 H2]. apply Z.leb_le in H1. apply Z.leb_le in H2. lia.
Qed.

Lemma isdigit_ascii host d : ascii_digit d = true -> Lexer.isdigit host (Some d) = true.
Proof.
  intros H. pose proof (ascii_digit_range d H) as R. unfold Lexer.isdigit.
  replace (d <? 128) with true by (symmetry; apply Z.ltb_lt; lia). exact H.
Qed.

Lemma peek1_at src p l c als cli lt x y r :
  skipn p src = x :: y :: r ->
  Lexer.peek 1 (Lexer.mk src p l c als cli lt) = Ok (Some y, Lexer.mk src p l c als cli lt).
Proof.
  intros H. apply skipn_cons_nth in H. destruct H as [_ H].
  apply skipn_cons_nth in H. destruct H as [Hn _].
  unfold Lexer.peek. cbn [Lexer.source Lexer.pos]. rewrite Nat.add_1_r, Hn. reflexivity.
Qed.

Section ReadNumber.

Variable host : Host.

Lemma read_number_loop_digit f chars hd he lws scol src p l c als cli lt d r :
  ascii_digit d = true ->
  skipn p src = d :: r ->
  Lexer.read_number_loop host (S f) chars hd he lws scol (Lexer.mk src p l c als cli lt)
  = Lexer.read_number_loop host f (chars ++ [d]) hd he false scol
      (Lexer.mk src (S p) l (c + 1) als cli lt).
Proof.
  intros Hd Hs. pose proof (ascii_digit_range d Hd) as R.
  cbn [Lexer.read_number_loop].
  erewrite bind_Ok by (eapply peek_at; eassumption).
  rewrite isdigit_ascii by exact Hd.
  erewrite bind_Ok by (eapply advance_at; [eassumption | unfold NL; lia]).
  reflexivity.
Qed.

Lemma read_number_loop_digits g : forall f chars hd he lws scol src p l c als cli lt tail,
  forallb ascii_digit g = true ->
  skipn p src = g ++ tail ->
  Lexer.read_number_loop host (List.length g + f) chars hd he lws scol
    (Lexer.mk src p l c als cli lt)
  = Lexer.read_number_loop host f (chars ++ g) hd he
      (if Lexer.nonempty g then false else lws) scol
      (Lexer.mk src (List.length g + p) l (c + Z.of_nat (List.length g)) als cli lt).
Proof.
  induction g as [|d g IH]; intros f chars hd he lws scol src p l c als cli lt tail Hall Hs.
  - cbn [List.length Nat.add Lexer.nonempty]. rewrite app_nil_r, Z.add_0_r. reflexivity.
  - cbn [forallb] in Hall. apply andb_true_iff in Hall. destruct Hall as [Hd Hall].
    cbn [app] in Hs.
    change (List.length (d :: g) + f)%nat with (S (List.length g + f)).
    rewrite (read_number_loop_digit _ _ _ _ _ _ _ _ _ _ _ _ _ _ _ Hd Hs).
    rewrite (IH _ _ _ _ _ _ _ _ _ _ _ _ _ tail Hall (skipn_next _ _ _ _ Hs)).
    cbn [Lexer.nonempty List.length]. rewrite <- app_assoc. cbn [app].
    destruct (Lexer.nonempty g); f_equal; f_equal; lia.
Qed.

(** A space with a digit after it is a grouping space: it is consumed and
    adds nothing to the number. *)
Lemma read_number_loop_space f chars hd he lws scol src p l c als cli lt d r :
  ascii_digit d = true ->
  skipn p src = ord " " :: d :: r ->
  Lexer.read_number_loop host (S f) chars hd he lws scol (Lexer.mk src p l c als cli lt)
  = Lexer.read_number_loop host f chars hd he true c
      (Lexer.mk src (S p) l (c + 1) als cli lt).
Proof.
  intros Hd Hs. cbn [Lexer.read_number_loop].
  erewrite bind_Ok by (eapply peek_at; eassumption).
  change (Lexer.isdigit host (Some (ord " "))) with false. cbv beta iota.
  change (Lexer.ch_is (Some (ord " ")) (ord ".")) with false.
  change (Lexer.ch_is (Some (ord " ")) (ord "e")) with false.
  change (Lexer.ch_is (Some (ord " ")) (ord "E")) with false.
  change (Lexer.ch_is (Some (ord " ")) (ord " ")) with true.
  cbn [andb].
  erewrite bind_Ok by (eapply peek1_at; eassumption).
  rewrite isdigit_ascii by exact Hd.
  erewrite bind_Ok by reflexivity.
  erewrite bind_Ok by (eapply advance_at; [eassumption | discriminate]).
  reflexivity.
Qed.

(** At the end of the input the number ends. *)
Lemma read_number_loop_end f chars hd he lws scol src p l c als cli lt :
  skipn p src = [] ->
  Lexer.read_number_loop host (S f) chars hd he lws scol (Lexer.mk src p l c als cli lt)
  = Ok ((chars, hd, he), Lexer.mk src p l c als cli lt).
Proof.
  intros Hs. cbn [Lexer.read_number_loop].
  erewrite bind_Ok by (eapply peek_end; eassumption).
  reflexivity.
Qed.

Lemma grouped_cons g g' rest :
  grouped (g :: g' :: rest) = g ++ ord " " :: grouped (g' :: rest).
Proof. reflexivity. Qed.

(** The loop of [read_number] over grouped digits that run to the end of
    the input: the digits, without the spaces. *)
Lemma read_number_loop_grouped groups : forall f chars lws scol src p l c als cli lt,
  groups <> [] ->
  forallb is_digits groups = true ->
  skipn p src = grouped groups ->
  (List.length (grouped groups) < f)%nat ->
  Lexer.read_number_loop host f chars false false lws scol (Lexer.mk src p l c als cli lt)
  = Ok ((chars ++ List.concat groups, false, false),
        Lexer.mk src (List.length (grouped groups) + p) l
          (c + Z.of_nat (List.length (grouped groups))) als cli lt).
Proof.
  induction groups as [|g groups IH]; intros f chars lws scol src p l c als cli lt Hne Hall Hs Hf;
    [congruence|].
  cbn [forallb] in Hall. apply andb_true_iff in Hall. destruct Hall as [Hg Hall].
  unfold is_digits in Hg. apply andb_true_iff in Hg. destruct Hg as [Hgne Hgd].
  destruct groups as [|g' rest].
  - cbn [grouped join] in *. cbn [List.concat]. rewrite app_nil_r.
    replace f with (List.length g + S (f - List.length g - 1))%nat by lia.
    rewrite (read_number_loop_digits g _ _ _ _ _ _ _ _ _ _ _ _ _ [] Hgd)
      by (rewrite app_nil_r; exact Hs).
    apply read_number_loop_end.
    apply skipn_past. rewrite app_nil_r. exact Hs.
  - rewrite grouped_cons in Hs, Hf |- *.
    rewrite length_app in Hf. cbn [List.length] in Hf.
    assert (Hd' : exists d g'', g' = d :: g'' /\ ascii_digit d = true).
    { cbn [forallb] in Hall. apply andb_true_iff in Hall. destruct Hall as [Hg' _].
      unfold is_digits in Hg'. apply andb_true_iff in Hg'. destruct Hg' as [Hn' Hd'].
      destruct g' as [|d g'']; [discriminate|]. exists d, g''. split; [reflexivity|].
      cbn [forallb] in Hd'. apply andb_true_iff in Hd'. tauto. }
    destruct Hd' as [d [g'' [Eg' Hd]]].
    replace f with (List.length g + S (f - List.length g - 1))%nat by lia.
    rewrite (read_number_loop_digits g _ _ _ _ _ _ _ _ _ _ _ _ _ _ Hgd Hs).
    assert (Hs' : skipn (List.length g + p) src = ord " " :: grouped (g' :: rest)).
    { apply skipn_past. exact Hs. }
    assert (Hs'' : skipn (List.length g + p) src = ord " " :: d :: (g'' ++ match rest with [] => [] | _ => ord " " :: grouped rest end)).
    { rewrite Hs'. rewrite Eg'. destruct rest; [cbn [grouped join]; rewrite app_nil_r; reflexivity|].
      rewrite grouped_cons. reflexivity. }
    rewrite (read_number_loop_space _ _ _ _ _ _ _ _ _ _ _ _ _ _ _ Hd Hs'').
    rewrite (IH _ _ _ _ _ _ _ _ _ _ _ ltac:(discriminate) Hall (skipn_next _ _ _ _ Hs')) by lia.
    cbn [List.concat]. rewrite <- app_assoc.
    f_equal. f_equal. rewrite length_app. cbn [List.length]. f_equal; lia.
Qed.

End ReadNumber.

Lemma is_digits_head g :
  is_digits g = true -> exists d r, g = d :: r /\ ascii_digit d = true.
Proof.
  unfold is_digits. intros H. apply andb_true_iff in H. destruct H as [Hn Hd].
  destruct g as [|d r]; [discriminate|]. exists d, r. split; [reflexivity|].
  cbn [forallb] in Hd. apply andb_true_iff in Hd. tauto.
Qed.

Lemma concat_digits groups :
  groups <> [] -> forallb is_digits groups = true -> is_digits (List.concat groups) = true.
Proof.
  intros Hne Hall. destruct groups as [|g groups]; [congruence|].
  cbn [forallb] in Hall. apply andb_true_iff in Hall. destruct Hall as [Hg Hall].
  destruct (is_digits_head g Hg) as [d [r [E Hd]]].
  unfold is_digits. apply andb_true_iff. split.
  - cbn [List.concat]. rewrite E. reflexivity.
  - apply forallb_forall. intros x Hx. apply in_concat in Hx. destruct Hx as [g0 [Hin Hx]].
    assert (Hg0 : is_digits g0 = true).
    { destruct Hin as [Hin|Hin]; [subst g0; exact Hg|].
      rewrite forallb_forall in Hall. apply Hall. exact Hin. }
    unfold is_digits in Hg0. apply andb_true_iff in Hg0. destruct Hg0 as [_ Hg0].
    rewrite forallb_forall in Hg0. apply Hg0. exact Hx.
Qed.

Lemma grouped_head groups :
  groups <> [] -> forallb is_digits groups = true ->
  exists d r, grouped groups = d :: r /\ ascii_digit d = true.
Proof.
  intros Hne Hall. destruct groups as [|g groups]; [congruence|].
  cbn [forallb] in Hall. apply andb_true_iff in Hall. destruct Hall as [Hg _].
  destruct (is_digits_head g Hg) as [d [r [E Hd]]]. subst g.
  destruct groups as [|g' rest].
  - exists d, r. split; [reflexivity | exact Hd].
  - rewrite grouped_cons. eexists d, _. split; [reflexivity | exact Hd].
Qed.

(** [int()] of a run of ASCII digits is its decimal value. *)
Lemma py_int_digits host s : is_digits s = true -> Lexer.py_int host s = Some (int_of_decimal s).
Proof.
  intros H. pose proof H as H'. unfold is_digits in H. apply andb_true_iff in H. destruct H as [Hn Hd].
  unfold Lexer.py_int.
  assert (Hascii : forallb (fun c => c <? 128) s = true).
  { apply forallb_forall. intros x Hx. rewrite forallb_forall in Hd.
    apply Z.ltb_lt. pose proof (ascii_digit_range x (Hd x Hx)). lia. }
  rewrite Hascii.
  destruct (is_digits_head s H') as [d [r [E Hdd]]]. subst s.
  replace (d =? ord "-") with false
    by (symmetry; apply Z.eqb_neq; pose proof (ascii_digit_range d Hdd); unfold ord; simpl; lia).
  rewrite Hn, Hd. reflexivity.
Qed.

Lemma scan_digit host f toks src p l c als cli lt d r :
  ascii_digit d = true ->
  skipn p src = d :: r ->
  Lexer.scan host f toks (Lexer.mk src p l c als cli lt)
  = (tok <- Lexer.read_number host f ;; Lexer.yield_continue toks tok)
      (Lexer.mk src p l c als cli lt).
Proof.
  intros Hd Hs. pose proof (ascii_digit_range d Hd) as R.
  unfold Lexer.scan.
  erewrite bind_Ok by (eapply peek_at; eassumption).
  assert (E : d = 48 \/ d = 49 \/ d = 50 \/ d = 51 \/ d = 52 \/ d = 53 \/ d = 54 \/ d = 55
              \/ d = 56 \/ d = 57) by lia.
  repeat (destruct E as [E|E]; [subst d; reflexivity|]).
  subst d; reflexivity.
Qed.

Section Grouped.

Variable host : Host.
Variable groups : list str.
Hypothesis groups_nonempty : groups <> [].
Hypothesis groups_digits : forallb is_digits groups = true.

Lemma read_number_grouped f l c als cli lt :
  (List.length (grouped groups) < f)%nat ->
  Lexer.read_number host f (Lexer.mk (grouped groups) 0 l c als cli lt)
  = Ok (Token.mk INT (VInt (int_of_decimal (List.concat groups))) l c,
        Lexer.mk (grouped groups) (List.length (grouped groups)) l
          (c + Z.of_nat (List.length (grouped groups))) als cli lt).
Proof.
  intros Hf.
  destruct (grouped_head groups groups_nonempty groups_digits) as [d [r [E Hd]]].
  unfold Lexer.read_number.
  erewrite bind_Ok by reflexivity. cbn [Lexer.line Lexer.col].
  erewrite bind_Ok by (eapply peek_at; cbn [skipn]; exact E).
  replace (Lexer.ch_is (Some d) (ord "-")) with false
    by (symmetry; apply Z.eqb_neq; pose proof (ascii_digit_range d Hd); unfold ord; simpl; lia).
  erewrite bind_Ok by reflexivity.
  erewrite bind_Ok
    by (apply (read_number_loop_grouped host groups);
        [exact groups_nonempty | exact groups_digits | reflexivity | exact Hf]).
  cbv beta iota. cbn [orb app].
  rewrite py_int_digits by (apply concat_digits; assumption).
  rewrite Nat.add_0_r. reflexivity.
Qed.

Lemma tokenize_grouped fuel :
  (List.length (grouped groups) + 3 <= fuel)%nat ->
  exists st,
    Lexer.tokenize host fuel (Lexer.mk (grouped groups) 0 1 1 true 0 None)
    = Ok ([Token.mk INDENT (VInt 0) 1 1;
           Token.mk INT (VInt (int_of_decimal (List.concat groups))) 1 1;
           Token.mk NEWLINE (VStr [NL]) 1 (1 + Z.of_nat (List.length (grouped groups)));
           Token.mk EOF VNone 1 (1 + Z.of_nat (List.length (grouped groups)))], st).
Proof.
  intros Hfuel.
  destruct (grouped_head groups groups_nonempty groups_digits) as [d [r [E Hd]]].
  pose proof (ascii_digit_range d Hd) as R.
  assert (Hpos : (0 < List.length (grouped groups))%nat) by (rewrite E; simpl; lia).
  destruct fuel as [|f]; [lia|].
  destruct f as [|f]; [lia|].
  eexists. unfold Lexer.tokenize.
  cbn [Lexer.source Lexer.pos Lexer.line Lexer.col Lexer.at_line_start Lexer.current_line_indent].
  erewrite bind_Ok.
  2:{ cbn [Lexer.tokenize_loop].
      erewrite bind_Ok by reflexivity. cbn [Lexer.source Lexer.pos].
      replace (0 <? List.length (grouped groups))%nat with true
        by (symmetry; apply Nat.ltb_lt; exact Hpos).
      erewrite bind_Ok.
      2:{ eapply line_start_token; [cbn [skipn]; exact E | unfold ord, TAB, NL; simpl; lia ..]. }
      cbv beta iota.
      erewrite bind_Ok.
      2:{ erewrite scan_digit by (try exact Hd; cbn [skipn]; exact E).
          erewrite bind_Ok by (apply read_number_grouped; lia).
          reflexivity. }
      cbv beta iota.
      destruct f as [|f]; [lia|].
      cbn [Lexer.tokenize_loop].
      erewrite bind_Ok by reflexivity. cbn [Lexer.source Lexer.pos].
      rewrite Nat.ltb_irrefl. reflexivity. }
  erewrite bind_Ok by reflexivity. cbn [Lexer.at_line_start negb Lexer.line Lexer.col].
  erewrite bind_Ok by reflexivity.
  erewrite bind_Ok by reflexivity. cbn [Lexer.at_line_start negb Lexer.line Lexer.col].
  reflexivity.
Qed.

Lemma grouped_plain : forallb plain (grouped groups) = true.
Proof.
  clear groups_nonempty. revert groups_digits.
  induction groups as [|g gs IH]; intros Hall; [reflexivity|].
  cbn [forallb] in Hall. apply andb_true_iff in Hall. destruct Hall as [Hg Hall].
  assert (Hgp : forallb plain g = true).
  { unfold is_digits in Hg. apply andb_true_iff in Hg. destruct Hg as [_ Hg].
    apply forallb_forall. intros x Hx. rewrite forallb_forall in Hg.
    pose proof (ascii_digit_range x (Hg x Hx)) as R.
    unfold plain, Lexer._is_allowed_code_point, NL. apply andb_true_iff. split.
    - assert (H1 : (0x0020 <=? x) && (x <=? 0x007E) = true)
        by (apply andb_true_iff; split; apply Z.leb_le; lia).
      rewrite H1, orb_true_r. reflexivity.
    - apply negb_true_iff. apply Z.eqb_neq. lia. }
  destruct gs as [|g' rest].
  - cbn [grouped join]. exact Hgp.
  - rewrite grouped_cons. rewrite forallb_app. cbn [forallb]. rewrite Hgp.
    rewrite (IH Hall). reflexivity.
Qed.

Lemma grouped_ends_in_digit : endswith_space (grouped groups) = false.
Proof.
  clear groups_nonempty. revert groups_digits.
  induction groups as [|g gs IH]; intros Hall; [reflexivity|].
  cbn [forallb] in Hall. apply andb_true_iff in Hall. destruct Hall as [Hg Hall].
  destruct gs as [|g' rest].
  - cbn [grouped join].
    unfold is_digits in Hg. apply andb_true_iff in Hg. destruct Hg as [Hn Hd].
    assert (Hne : g <> []) by (destruct g; [discriminate | congruence]).
    destruct (exists_last Hne) as [g0 [z E]]. subst g.
    rewrite endswith_space_snoc. rewrite forallb_app in Hd.
    apply andb_true_iff in Hd. destruct Hd as [_ Hz]. cbn [forallb] in Hz.
    rewrite andb_true_r in Hz. pose proof (ascii_digit_range z Hz).
    apply Z.eqb_neq. unfold ord. simpl. lia.
  - rewrite grouped_cons. specialize (IH Hall).
    unfold endswith_space in *.
    change (g ++ ord " " :: grouped (g' :: rest)) with (g ++ [ord " "] ++ grouped (g' :: rest)).
    rewrite !rev_app_distr.
    destruct (rev (grouped (g' :: rest))) as [|z zs] eqn:Er.
    + exfalso. apply (f_equal (@List.length Z)) in Er. rewrite length_rev in Er.
      cbn [forallb] in Hall. apply andb_true_iff in Hall. destruct Hall as [Hg' _].
      destruct (is_digits_head g' Hg') as [d [r' [E _]]]. subst g'.
      destruct rest; [cbn [grouped join] in Er | rewrite grouped_cons in Er]; simpl in Er; lia.
    + cbn [app]. exact IH.
Qed.

Lemma grouped_validates : Lexer._validate_source (grouped groups) = Ok tt.
Proof.
  apply validate_plain.
  - exact grouped_plain.
  - destruct (grouped_head groups groups_nonempty groups_digits) as [d [r [E Hd]]].
    rewrite E. pose proof (ascii_digit_range d Hd). split; lia.
  - exact grouped_ends_in_digit.
Qed.

Lemma parse_number src lines n c :
  exists st,
    Parser.parse 32
      (Parser.mk src lines
         [Token.mk INDENT (VInt 0) 1 1; Token.mk INT (VInt n) 1 1;
          Token.mk NEWLINE (VStr [NL]) 1 c; Token.mk EOF VNone 1 c] 0)
    = Ok (VInt n, st).
Proof. eexists. vm_compute. reflexivity. Qed.

Lemma loads_grouped :
  loads host (grouped groups) = Ok (VInt (int_of_decimal (List.concat groups))).
Proof.
  unfold loads, Lexer.__init__. rewrite grouped_validates.
  destruct (tokenize_grouped (Lexer.fuel_for (grouped groups))) as [st Htok].
  { unfold Lexer.fuel_for. lia. }
  rewrite Htok.
  destruct (parse_number (grouped groups) (split_nl (grouped groups))
              (int_of_decimal (List.concat groups))
              (1 + Z.of_nat (List.length (grouped groups)))) as [st' Hp].
  change (Parser.fuel_for _) with 32%nat. rewrite Hp. reflexivity.
Qed.

End Grouped.


(** ** Documents with no value *)

Lemma check_code_points_app s : forall rest l c,
  forallb plain s = true ->
  Lexer.check_code_points (s ++ rest) l c
  = Lexer.check_code_points rest l (c + Z.of_nat (List.length s)).
Proof.
  induction s as [|x s IH]; intros rest l c H.
  - cbn [app List.length]. rewrite Z.add_0_r. reflexivity.
  - cbn [forallb] in H. apply andb_true_iff in H. destruct H as [Hx Hs].
    pose proof (plain_not_newline x Hx) as Hn.
    unfold plain in Hx. apply andb_true_iff in Hx. destruct Hx as [Ha _].
    cbn [app Lexer.check_code_points]. rewrite Ha. cbn [negb].
    change 0x0A with NL. apply Z.eqb_neq in Hn. rewrite Hn.
    rewrite IH by exact Hs. cbn [List.length]. f_equal. lia.
Qed.

Lemma split_nl_aux_line s : forall rest cur,
  forallb plain s = true ->
  split_nl_aux (s ++ NL :: rest) cur = (rev cur ++ s) :: split_nl_aux rest [].
Proof.
  induction s as [|x s IH]; intros rest cur H.
  - cbn [app split_nl_aux]. rewrite Z.eqb_refl, app_nil_r. reflexivity.
  - cbn [forallb] in H. apply andb_true_iff in H. destruct H as [Hx Hs].
    pose proof (plain_not_newline x Hx) as Hn. apply Z.eqb_neq in Hn.
    cbn [app split_nl_aux]. rewrite Hn. rewrite IH by exact Hs.
    cbn [rev]. rewrite <- app_assoc. reflexivity.
Qed.

(** [skip_to_eol] over the text of a line, up to its newline. *)
Lemma skip_to_eol_line s : forall f src p l c als cli lt rest,
  forallb plain s = true ->
  skipn p src = s ++ NL :: rest ->
  Lexer.skip_to_eol (List.length s + S f) (Lexer.mk src p l c als cli lt)
  = Ok (tt, Lexer.mk src (List.length s + p) l (c + Z.of_nat (List.length s)) als cli lt).
Proof.
  induction s as [|x s IH]; intros f src p l c als cli lt rest H Hs.
  - cbn [List.length Nat.add Lexer.skip_to_eol].
    erewrite bind_Ok by (eapply peek_at; exact Hs).
    cbn [Lexer.is_empty Lexer.ch_is negb andb]. rewrite Z.eqb_refl. cbn [negb].
    rewrite Z.add_0_r. reflexivity.
  - cbn [forallb] in H. apply andb_true_iff in H. destruct H as [Hx Hall].
    pose proof (plain_not_newline x Hx) as Hn.
    cbn [app] in Hs.
    change (List.length (x :: s) + S f)%nat with (S (List.length s + S f)).
    cbn [Lexer.skip_to_eol].
    erewrite bind_Ok by (eapply peek_at; exact Hs).
    cbn [Lexer.is_empty Lexer.ch_is negb andb].
    apply Z.eqb_neq in Hn. rewrite Hn. cbn [negb]. apply Z.eqb_neq in Hn.
    erewrite bind_Ok by (eapply advance_at; [exact Hs | exact Hn]).
    rewrite (IH _ _ _ _ _ _ _ _ rest Hall (skipn_next _ _ _ _ Hs)).
    cbn [List.length]. f_equal. f_equal. f_equal; lia.
Qed.

Lemma advance_newline src p l c als cli lt r :
  skipn p src = NL :: r ->
  Lexer.advance (Lexer.mk src p l c als cli lt)
  = Ok ([NL], Lexer.mk src (S p) (l + 1) 1 true cli lt).
Proof.
  intros H. apply skipn_cons_nth in H. destruct H as [Hn _].
  unfold Lexer.advance. cbn [Lexer.source Lexer.pos]. rewrite Hn, Z.eqb_refl. reflexivity.
Qed.

Section CommentLine.

Variable host : Host.
Variable text : str.
Hypothesis text_plain : forallb plain text = true.
Hypothesis text_end : endswith_space (ord "#" :: text) = false.

Lemma comment_line_length : List.length (comment_line text) = (List.length text + 2)%nat.
Proof. unfold comment_line. cbn [List.length]. rewrite length_app. cbn [List.length]. lia. Qed.

Lemma comment_line_validates : Lexer._validate_source (comment_line text) = Ok tt.
Proof.
  unfold Lexer._validate_source, comment_line.
  change (ord "#" =? 0xFEFF) with false. cbn [firstn].
  rewrite str_eqb_head_neq by discriminate. cbn [orb]. rewrite andb_false_r.
  change (ord "#" :: text ++ [NL]) with ((ord "#" :: text) ++ [NL]).
  assert (Hp : forallb plain (ord "#" :: text) = true)
    by (cbn [forallb]; rewrite text_plain; reflexivity).
  rewrite check_code_points_app by exact Hp.
  unfold split_nl. rewrite split_nl_aux_line by exact Hp.
  cbn [Lexer.check_code_points Lexer._is_allowed_code_point].
  change (negb (Lexer._is_allowed_code_point NL)) with false. cbv beta iota.
  change (NL =? 0x0A) with true. cbv beta iota.
  cbn [split_nl_aux rev app List.length Lexer.check_trailing_spaces].
  rewrite text_end. reflexivity.
Qed.

Lemma tokenize_comment_line fuel :
  (List.length text + 4 <= fuel)%nat ->
  exists st,
    Lexer.tokenize host fuel (Lexer.mk (comment_line text) 0 1 1 true 0 None)
    = Ok ([Token.mk EOF VNone 2 1], st).
Proof.
  intros Hfuel.
  destruct fuel as [|f]; [lia|].
  destruct f as [|f]; [lia|].
  assert (Hs0 : skipn 0 (comment_line text) = ord "#" :: text ++ [NL]) by reflexivity.
  assert (Hs1 : skipn 1 (comment_line text) = text ++ NL :: []) by reflexivity.
  eexists. unfold Lexer.tokenize.
  cbn [Lexer.source Lexer.pos Lexer.line Lexer.col Lexer.at_line_start Lexer.current_line_indent].
  erewrite bind_Ok.
  2:{ cbn [Lexer.tokenize_loop].
      erewrite bind_Ok by reflexivity. cbn [Lexer.source Lexer.pos].
      rewrite comment_line_length.
      replace (0 <? List.length text + 2)%nat with true by (symmetry; apply Nat.ltb_lt; lia).
      erewrite bind_Ok.
      2:{ unfold Lexer.line_start.
          erewrite bind_Ok by reflexivity. cbn [Lexer.at_line_start].
          erewrite bind_Ok by reflexivity.
          unfold Lexer.read_indent.
          cbn [Lexer.count_spaces Lexer.set_cursor Lexer.pos Lexer.line Lexer.col Lexer.source
               Lexer.current_line_indent Lexer._last_token].
          erewrite bind_Ok.
          2:{ erewrite bind_Ok.
              2:{ erewrite bind_Ok by (eapply peek_at; exact Hs0). reflexivity. }
              erewrite bind_Ok by (eapply peek_at; exact Hs0). reflexivity. }
          erewrite bind_Ok by (eapply peek_at; exact Hs0).
          change (Lexer.ch_is (Some (ord "#")) NL) with false.
          change (Lexer.ch_is (Some (ord "#")) (ord "#")) with true. cbv beta iota.
          replace (S f) with (S (List.length text + S (f - List.length text - 1)))%nat by lia.
          cbn [Lexer.skip_to_eol].
          erewrite bind_Ok.
          2:{ erewrite bind_Ok by (eapply peek_at; exact Hs0).
              change (negb (Lexer.is_empty (Some (ord "#"))) && negb (Lexer.ch_is (Some (ord "#")) NL))
                with true. cbv beta iota.
              erewrite bind_Ok by (eapply advance_at; [exact Hs0 | discriminate]).
              eapply skip_to_eol_line; [exact text_plain | exact Hs1]. }
          erewrite bind_Ok
            by (eapply peek_at; eapply skipn_past; exact Hs1).
          change (Lexer.ch_is (Some NL) NL) with true. cbv beta iota.
          erewrite bind_Ok.
          2:{ erewrite bind_Ok
                by (eapply advance_newline; eapply skipn_past; exact Hs1).
              reflexivity. }
          reflexivity. }
      cbv beta iota.
      destruct f as [|f]; [lia|].
      cbn [Lexer.tokenize_loop]. unfold Lexer.set_at_line_start.
      erewrite bind_Ok by reflexivity. lex_norm.
      rewrite comment_line_length.
      replace (S (List.length text + 1) <? List.length text + 2)%nat with false
        by (symmetry; apply Nat.ltb_ge; lia).
      reflexivity. }
  erewrite bind_Ok by reflexivity. lex_norm. cbn [negb].
  erewrite bind_Ok by reflexivity.
  erewrite bind_Ok by reflexivity. lex_norm.
  reflexivity.
Qed.

Lemma loads_comment_line :
  loads host (comment_line text)
  = Raise (YaySyntaxError (lit "No value found in document") 1 1).
Proof.
  unfold loads, Lexer.__init__. rewrite comment_line_validates.
  destruct (tokenize_comment_line (Lexer.fuel_for (comment_line text))) as [st Htok].
  { unfold Lexer.fuel_for. rewrite comment_line_length. lia. }
  rewrite Htok. unfold comment_line. vm_compute. reflexivity.
Qed.

End CommentLine.

(** C2, amended.  Parsing the empty document returns [None] and raises
    nothing; parsing a document that is one comment line ([#], any text, a
    newline) raises "No value found in document" at line 1, column 1. *)
Theorem document_without_value :
  forall host text,
    forallb plain text = true ->
    endswith_space (ord "#" :: text) = false ->
    loads host [] = Ok VNone
    /\ loads host (comment_line text)
       = Raise (YaySyntaxError (lit "No value found in document") 1 1).
Proof.
  intros host text Hplain Hend. split.
  - vm_compute. reflexivity.
  - apply loads_comment_line; assumption.
Qed.

Lemma document_without_value_witness :
  loads ascii_host [] = Ok VNone
  /\ loads ascii_host (lit "# comment" ++ [NL])
     = Raise (YaySyntaxError (lit "No value found in document") 1 1).
Proof.
  exact (document_without_value ascii_host (lit " comment") eq_refl eq_refl).
Defined.
(** ** The byte-order mark *)

(** A source of fewer than three characters is never tested for a
    byte-order mark. *)
Lemma validate_short s :
  (List.length s < 3)%nat ->
  forallb plain s = true ->
  endswith_space s = false ->
  Lexer._validate_source s = Ok tt.
Proof.
  intros Hlen Hall Hend. unfold Lexer._validate_source.
  replace (3 <=? List.length s)%nat with false by (symmetry; apply Nat.leb_gt; exact Hlen).
  cbn [andb].
  rewrite check_code_points_plain by exact Hall.
  rewrite split_nl_plain by exact Hall.
  cbn [Lexer.check_trailing_spaces List.length]. rewrite Hend. reflexivity.
Qed.

Lemma loads_bom host c1 c2 rest :
  loads host (0xFEFF :: c1 :: c2 :: rest) = Raise (YaySyntaxError (lit "Illegal BOM") 1 1).
Proof. reflexivity. Qed.

(** [tokenize] at U+FEFF, for an interpreter that knows it as neither a
    digit nor a letter. *)
Lemma scan_bom host f src p l c als cli r :
  uni_isdigit host 0xFEFF = false ->
  uni_isalpha host 0xFEFF = false ->
  skipn p src = 0xFEFF :: r ->
  Lexer.scan host f [Token.mk INDENT (VInt 0) l 1]
    (Lexer.mk src p l c als cli (Some (Token.mk INDENT (VInt 0) l 1)))
  = Raise (YaySyntaxError (lit "Unexpected character " ++ dq [0xFEFF]) l c).
Proof.
  intros Hd Ha Hs. unfold Lexer.scan.
  erewrite bind_Ok by (eapply peek_at; exact Hs).
  unfold Lexer.isdigit, Lexer.isalpha. cbv beta iota.
  change (0xFEFF <? 128) with false. cbv beta iota. rewrite Hd, Ha.
  reflexivity.
Qed.

Lemma loads_short_bom host t :
  uni_isdigit host 0xFEFF = false ->
  uni_isalpha host 0xFEFF = false ->
  (List.length t < 2)%nat ->
  forallb plain t = true ->
  endswith_space (0xFEFF :: t) = false ->
  loads host (0xFEFF :: t)
  = Raise (YaySyntaxError (lit "Unexpected character " ++ dq [0xFEFF]) 1 1).
Proof.
  intros Hd Ha Hlen Hplain Hend.
  unfold loads, Lexer.__init__.
  rewrite validate_short; [| cbn [List.length]; lia | cbn [forallb]; rewrite Hplain; reflexivity
                           | exact Hend].
  replace (Lexer.tokenize host (Lexer.fuel_for (0xFEFF :: t))
             (Lexer.mk (0xFEFF :: t) 0 1 1 true 0 None))
    with (@Raise (list Token.t * Lexer.t)
            (YaySyntaxError (lit "Unexpected character " ++ dq [0xFEFF]) 1 1)); [reflexivity|].
  symmetry. unfold Lexer.fuel_for. cbn [List.length].
  replace (2 * S (List.length t) + 4)%nat with (S (S (2 * List.length t + 4))) by lia.
  unfold Lexer.tokenize. lex_norm.
  erewrite bind_Raise; [reflexivity|].
  cbn [Lexer.tokenize_loop].
  erewrite bind_Ok by reflexivity. lex_norm. cbn [List.length Nat.ltb Nat.leb].
  erewrite bind_Ok.
  2:{ eapply line_start_token; [reflexivity | discriminate ..]. }
  cbv beta iota.
  erewrite bind_Raise; [reflexivity|].
  cbn [app]. eapply scan_bom; [exact Hd | exact Ha | reflexivity].
Qed.

(** C5, on the code.  A source of three or more characters that starts
    with U+FEFF raises "Illegal BOM" at 1:1; a shorter one that starts with
    U+FEFF passes the validator and raises "Unexpected character" from the
    tokenizer instead (U+FEFF is neither a digit nor a letter). *)
Theorem bom_check_skips_short_sources :
  forall host,
    uni_isdigit host 0xFEFF = false ->
    uni_isalpha host 0xFEFF = false ->
    (forall c1 c2 rest,
        loads host (0xFEFF :: c1 :: c2 :: rest)
        = Raise (YaySyntaxError (lit "Illegal BOM") 1 1))
    /\ (forall t,
           (List.length t < 2)%nat ->
           forallb plain t = true ->
           endswith_space (0xFEFF :: t) = false ->
           raises (loads host (0xFEFF :: t)) (YaySyntaxError (lit "Illegal BOM") 1 1) = false
           /\ loads host (0xFEFF :: t)
              = Raise (YaySyntaxError (lit "Unexpected character " ++ dq [0xFEFF]) 1 1)).
Proof.
  intros host Hd Ha. split.
  - intros c1 c2 rest. apply loads_bom.
  - intros t Hlen Hplain Hend.
    rewrite (loads_short_bom host t Hd Ha Hlen Hplain Hend). split; reflexivity.
Qed.

Lemma bom_check_skips_short_sources_witness :
  loads ascii_host [0xFEFF; ord "1"; ord "2"] = Raise (YaySyntaxError (lit "Illegal BOM") 1 1)
  /\ loads ascii_host [0xFEFF]
     = Raise (YaySyntaxError (lit "Unexpected character " ++ dq [0xFEFF]) 1 1)
  /\ loads ascii_host [0xFEFF; ord "1"]
     = Raise (YaySyntaxError (lit "Unexpected character " ++ dq [0xFEFF]) 1 1).
Proof.
  pose proof (bom_check_skips_short_sources ascii_host eq_refl eq_refl) as [H3 Hs].
  split; [exact (H3 (ord "1") (ord "2") []) |].
  split.
  - exact (proj2 (Hs [] ltac:(cbn; lia) eq_refl eq_refl)).
  - exact (proj2 (Hs [ord "1"] ltac:(cbn; lia) eq_refl eq_refl)).
Defined.
(** ** Parsing and emitting as functions of their input *)

Lemma str_eqb_eq a b : str_eqb a b = true -> a = b.
Proof.
  unfold str_eqb. destruct (list_eq_dec Z.eq_dec a b); [trivial | discriminate].
Qed.









(** ** Objects with repeated keys *)

(** *** The lexer on keys, colons and integers *)

Lemma key_char_range c :
  key_char c = true ->
  (65 <= c <= 90) \/ (97 <= c <= 122) \/ (48 <= c <= 57) \/ c = 95 \/ c = 45.
Proof.
  unfold key_char, ascii_alpha, ascii_digit, ord. simpl. intros H.
  repeat (apply orb_true_iff in H; destruct H as [H|H]);
    try (apply andb_true_iff in H; destruct H as [H1 H2];
         apply Z.leb_le in H1; apply Z.leb_le in H2; lia);
    apply Z.eqb_eq in H; lia.
Qed.

Lemma key_start_range c :
  key_start c = true -> (65 <= c <= 90) \/ (97 <= c <= 122) \/ c = 95.
Proof.
  unfold key_start, ascii_alpha, ord. simpl. intros H.
  repeat (apply orb_true_iff in H; destruct H as [H|H]);
    try (apply andb_true_iff in H; destruct H as [H1 H2];
         apply Z.leb_le in H1; apply Z.leb_le in H2; lia);
    apply Z.eqb_eq in H; lia.
Qed.

(** Turn every test [x =? k] of the goal that the context refutes into
    [false]. *)
Ltac refute_tests :=
  repeat match goal with
         | |- context [?x =? ?k] =>
             replace (x =? k) with false
               by (symmetry; apply Z.eqb_neq; unfold ord, NL, TAB, DQUOTE; simpl; lia)
         end.

Lemma isalnum_key_char host c :
  key_char c = true ->
  Lexer.isalnum host (Some c) || Lexer.ch_is (Some c) (ord "_")
  || Lexer.ch_is (Some c) (ord "-") = true.
Proof.
  intros H. pose proof (key_char_range c H) as R.
  unfold Lexer.isalnum, Lexer.ch_is.
  replace (c <? 128) with true by (symmetry; apply Z.ltb_lt; lia).
  exact H.
Qed.

Section LexerSteps.

Variable host : Host.

(** The characters of a key, up to the colon. *)
Lemma identifier_chars_key k : forall f chars src p l c als cli lt rest,
  forallb key_char k = true ->
  skipn p src = k ++ ord ":" :: rest ->
  Lexer.identifier_chars host (List.length k + S f) chars (Lexer.mk src p l c als cli lt)
  = Ok (chars ++ k,
        Lexer.mk src (List.length k + p) l (c + Z.of_nat (List.length k)) als cli lt).
Proof.
  induction k as [|x k IH]; intros f chars src p l c als cli lt rest Hall Hs.
  - cbn [List.length Nat.add Lexer.identifier_chars].
    erewrite bind_Ok by (eapply peek_at; exact Hs).
    change (Lexer.isalnum host (Some (ord ":")) || Lexer.ch_is (Some (ord ":")) (ord "_")
            || Lexer.ch_is (Some (ord ":")) (ord "-")) with false.
    cbv beta iota. rewrite app_nil_r, Z.add_0_r. reflexivity.
  - cbn [forallb] in Hall. apply andb_true_iff in Hall. destruct Hall as [Hx Hall].
    pose proof (key_char_range x Hx) as R. cbn [app] in Hs.
    change (List.length (x :: k) + S f)%nat with (S (List.length k + S f)).
    cbn [Lexer.identifier_chars].
    erewrite bind_Ok by (eapply peek_at; exact Hs).
    rewrite isalnum_key_char by exact Hx.
    erewrite bind_Ok by (eapply advance_at; [exact Hs | unfold NL; lia]).
    rewrite (IH _ _ _ _ _ _ _ _ _ rest Hall (skipn_next _ _ _ _ Hs)).
    cbn [List.length]. rewrite <- app_assoc. f_equal. f_equal. f_equal; lia.
Qed.

Lemma read_identifier_key k f src p l c als cli lt rest :
  forallb key_char k = true ->
  is_keyword k = false ->
  skipn p src = k ++ ord ":" :: rest ->
  Lexer.read_identifier host (List.length k + S f) (Lexer.mk src p l c als cli lt)
  = Ok (Token.mk IDENT (VStr k) l c,
        Lexer.mk src (List.length k + p) l (c + Z.of_nat (List.length k)) als cli lt).
Proof.
  intros Hall Hkw Hs. unfold Lexer.read_identifier.
  erewrite bind_Ok by reflexivity. lex_norm.
  erewrite bind_Ok by (eapply identifier_chars_key; eassumption).
  cbn [app]. unfold is_keyword in Hkw.
  repeat (apply orb_false_iff in Hkw; destruct Hkw as [Hkw ?]).
  repeat match goal with H : str_eqb _ _ = false |- _ => rewrite H; clear H end.
  reflexivity.
Qed.

(** [tokenize] at the first character of a key. *)
Lemma scan_key f toks src p l c als cli lt x r :
  key_start x = true ->
  skipn p src = x :: r ->
  Lexer.scan host f toks (Lexer.mk src p l c als cli lt)
  = (tok <- Lexer.read_identifier host f ;; Lexer.yield_continue toks tok)
      (Lexer.mk src p l c als cli lt).
Proof.
  intros Hx Hs. pose proof (key_start_range x Hx) as R.
  unfold Lexer.scan.
  erewrite bind_Ok by (eapply peek_at; exact Hs).
  cbv beta iota. unfold Lexer.isdigit, Lexer.isalpha.
  replace (x <? 128) with true by (symmetry; apply Z.ltb_lt; lia).
  replace (ascii_digit x) with false.
  2:{ symmetry. unfold ascii_digit, ord. simpl. apply andb_false_iff.
      destruct (Z.leb_spec x 57); [left; apply Z.leb_gt; lia | right; reflexivity]. }
  unfold key_start in Hx. rewrite Hx.
  refute_tests. cbn [orb]. reflexivity.
Qed.

Lemma read_number_loop_stop f chars hd he lws scol src p l c als cli lt x r :
  ends_number x = true ->
  skipn p src = x :: r ->
  Lexer.read_number_loop host (S f) chars hd he lws scol (Lexer.mk src p l c als cli lt)
  = Ok ((chars, hd, he), Lexer.mk src p l c als cli lt).
Proof.
  intros Hx Hs. cbn [Lexer.read_number_loop].
  erewrite bind_Ok by (eapply peek_at; exact Hs).
  unfold ends_number in Hx.
  repeat (apply orb_true_iff in Hx; destruct Hx as [Hx|Hx]);
    apply Z.eqb_eq in Hx; subst x; reflexivity.
Qed.

Lemma read_number_digits ds f src p l c als cli lt x r :
  is_digits ds = true ->
  ends_number x = true ->
  skipn p src = ds ++ x :: r ->
  Lexer.read_number host (List.length ds + S f) (Lexer.mk src p l c als cli lt)
  = Ok (Token.mk INT (VInt (int_of_decimal ds)) l c,
        Lexer.mk src (List.length ds + p) l (c + Z.of_nat (List.length ds)) als cli lt).
Proof.
  intros Hds Hx Hs.
  destruct (is_digits_head ds Hds) as [d [ds' [E Hd]]].
  pose proof Hds as Hds'. unfold is_digits in Hds'. apply andb_true_iff in Hds'.
  destruct Hds' as [_ Hall].
  unfold Lexer.read_number.
  erewrite bind_Ok by reflexivity. lex_norm.
  erewrite bind_Ok by (eapply peek_at; rewrite Hs, E; reflexivity).
  replace (Lexer.ch_is (Some d) (ord "-")) with false
    by (symmetry; apply Z.eqb_neq; pose proof (ascii_digit_range d Hd); unfold ord; simpl; lia).
  erewrite bind_Ok by reflexivity.
  erewrite bind_Ok.
  2:{ rewrite (read_number_loop_digits host ds _ _ _ _ _ _ _ _ _ _ _ _ _ _ Hall Hs).
      eapply read_number_loop_stop; [exact Hx | apply skipn_past; exact Hs]. }
  cbv beta iota. cbn [orb app].
  rewrite py_int_digits by exact Hds. reflexivity.
Qed.

Lemma scan_number f toks src p l c als cli lt ds x r :
  is_digits ds = true ->
  ends_number x = true ->
  skipn p src = ds ++ x :: r ->
  Lexer.scan host (List.length ds + S f) toks (Lexer.mk src p l c als cli lt)
  = Ok (Lexer.Continue (toks ++ [Token.mk INT (VInt (int_of_decimal ds)) l c]),
        Lexer.mk src (List.length ds + p) l (c + Z.of_nat (List.length ds)) als cli
          (Some (Token.mk INT (VInt (int_of_decimal ds)) l c))).
Proof.
  intros Hds Hx Hs.
  destruct (is_digits_head ds Hds) as [d [ds' [E Hd]]].
  erewrite scan_digit by (try exact Hd; rewrite Hs, E; reflexivity).
  erewrite bind_Ok by (eapply read_number_digits; eassumption).
  reflexivity.
Qed.

Lemma scan_identifier f toks src p l c als cli lt k rest :
  is_key k = true ->
  skipn p src = k ++ ord ":" :: rest ->
  Lexer.scan host (List.length k + S f) toks (Lexer.mk src p l c als cli lt)
  = Ok (Lexer.Continue (toks ++ [Token.mk IDENT (VStr k) l c]),
        Lexer.mk src (List.length k + p) l (c + Z.of_nat (List.length k)) als cli
          (Some (Token.mk IDENT (VStr k) l c))).
Proof.
  intros Hk Hs. unfold is_key in Hk.
  apply andb_true_iff in Hk. destruct Hk as [Hk Hkw].
  apply andb_true_iff in Hk. destruct Hk as [Hstart Hall].
  apply negb_true_iff in Hkw.
  destruct k as [|x k']; [discriminate|].
  erewrite scan_key by (try exact Hstart; rewrite Hs; reflexivity).
  erewrite bind_Ok by (eapply read_identifier_key; eassumption).
  reflexivity.
Qed.

Lemma scan_punctuation f toks src p l c als cli lt x k r :
  punctuation_kind x = Some k ->
  skipn p src = x :: r ->
  Lexer.scan host f toks (Lexer.mk src p l c als cli lt)
  = Ok (Lexer.Continue (toks ++ [Token.mk k (VStr [x]) l c]),
        Lexer.mk src (S p) l (c + 1) als cli (Some (Token.mk k (VStr [x]) l c))).
Proof.
  intros Hk Hs.
  assert (E : Lexer.scan host f toks (Lexer.mk src p l c als cli lt)
              = Lexer.punctuation toks k x (Lexer.mk src p l c als cli lt)
              /\ x <> NL).
  { unfold Lexer.scan. erewrite bind_Ok by (eapply peek_at; exact Hs).
    unfold punctuation_kind in Hk.
    destruct (x =? ord ":") eqn:E1; [apply Z.eqb_eq in E1; inversion Hk; subst; split; [reflexivity | discriminate]|].
    destruct (x =? ord ",") eqn:E2; [apply Z.eqb_eq in E2; inversion Hk; subst; split; [reflexivity | discriminate]|].
    destruct (x =? ord "{") eqn:E3; [apply Z.eqb_eq in E3; inversion Hk; subst; split; [reflexivity | discriminate]|].
    destruct (x =? ord "}") eqn:E4; [apply Z.eqb_eq in E4; inversion Hk; subst; split; [reflexivity | discriminate]|].
    discriminate. }
  destruct E as [E Hn]. rewrite E. unfold Lexer.punctuation.
  erewrite bind_Ok by reflexivity. lex_norm.
  erewrite bind_Ok by reflexivity. lex_norm.
  erewrite bind_Ok by (eapply advance_at; [exact Hs | exact Hn]).
  reflexivity.
Qed.

Lemma scan_space f toks src p l c als cli lt r :
  skipn p src = ord " " :: r ->
  Lexer.scan host f toks (Lexer.mk src p l c als cli lt)
  = Ok (Lexer.Continue toks, Lexer.mk src (S p) l (c + 1) als cli lt).
Proof.
  intros Hs. unfold Lexer.scan. erewrite bind_Ok by (eapply peek_at; exact Hs).
  cbv beta iota. change (ord " " =? NL) with false. change (ord " " =? ord " ") with true.
  cbv beta iota.
  erewrite bind_Ok by (eapply advance_at; [exact Hs | discriminate]).
  reflexivity.
Qed.

Lemma scan_newline f toks src p l c als cli lt r :
  skipn p src = NL :: r ->
  Lexer.scan host f toks (Lexer.mk src p l c als cli lt)
  = Ok (Lexer.Continue (toks ++ [Token.mk NEWLINE (VStr [NL]) l c]),
        Lexer.mk src (S p) (l + 1) 1 true cli (Some (Token.mk NEWLINE (VStr [NL]) l c))).
Proof.
  intros Hs. unfold Lexer.scan. erewrite bind_Ok by (eapply peek_at; exact Hs).
  cbv beta iota. change (NL =? NL) with true. cbv beta iota.
  erewrite bind_Ok by reflexivity. lex_norm.
  erewrite bind_Ok by reflexivity. lex_norm.
  erewrite bind_Ok by (eapply advance_newline; exact Hs).
  erewrite bind_Ok by reflexivity.
  reflexivity.
Qed.

(** Inside a line [tokenize] goes straight to the next token. *)
Lemma line_start_inside f toks src p l c cli lt :
  Lexer.line_start f toks (Lexer.mk src p l c false cli lt)
  = Ok (Lexer.Fall toks, Lexer.mk src p l c false cli lt).
Proof. reflexivity. Qed.

(** One pass of [tokenize]'s loop that yields and continues. *)
Lemma tokenize_loop_step f toks st toks1 st1 toks2 st2 x r :
  skipn (Lexer.pos st) (Lexer.source st) = x :: r ->
  Lexer.line_start f toks st = Ok (Lexer.Fall toks1, st1) ->
  Lexer.scan host f toks1 st1 = Ok (Lexer.Continue toks2, st2) ->
  Lexer.tokenize_loop host (S f) toks st = Lexer.tokenize_loop host f toks2 st2.
Proof.
  intros Hs Hl Hsc. cbn [Lexer.tokenize_loop].
  erewrite bind_Ok by reflexivity.
  replace (Lexer.pos st <? List.length (Lexer.source st))%nat with true
    by (symmetry; apply Nat.ltb_lt; eapply skipn_lt; exact Hs).
  erewrite bind_Ok by exact Hl. cbv beta iota.
  erewrite bind_Ok by exact Hsc. reflexivity.
Qed.

Lemma tokenize_loop_end f toks st :
  skipn (Lexer.pos st) (Lexer.source st) = [] ->
  Lexer.tokenize_loop host (S f) toks st = Ok (toks, st).
Proof.
  intros Hs. cbn [Lexer.tokenize_loop].
  erewrite bind_Ok by reflexivity.
  replace (Lexer.pos st <? List.length (Lexer.source st))%nat with false; [reflexivity|].
  symmetry. apply Nat.ltb_ge.
  assert (Hl : List.length (skipn (Lexer.pos st) (Lexer.source st))
               = (List.length (Lexer.source st) - Lexer.pos st)%nat) by apply length_skipn.
  rewrite Hs in Hl. cbn [List.length] in Hl. lia.
Qed.

End LexerSteps.
(** *** The tokens of a block object *)

Lemma entry_text_length e :
  List.length (entry_text e) = (List.length (fst e) + 2 + List.length (snd e))%nat.
Proof. unfold entry_text. rewrite !length_app. cbn [lit map list_ascii_of_string List.length]. lia. Qed.

Lemma entry_ok_parts e :
  entry_ok e = true -> is_key (fst e) = true /\ is_digits (snd e) = true.
Proof. unfold entry_ok. intros H. apply andb_true_iff in H. exact H. Qed.

Lemma is_key_head k :
  is_key k = true -> exists x k', k = x :: k' /\ key_start x = true.
Proof.
  unfold is_key. intros H. apply andb_true_iff in H. destruct H as [H _].
  apply andb_true_iff in H. destruct H as [H _].
  destruct k as [|x k']; [discriminate|]. exists x, k'. split; [reflexivity | exact H].
Qed.

Section BlockLexer.

Variable host : Host.

Lemma tokenize_line e fuel toks src p l cli lt rest :
  entry_ok e = true ->
  skipn p src = entry_text e ++ NL :: rest ->
  (List.length (entry_text e) + 5 <= fuel)%nat ->
  exists cli' lt',
    Lexer.tokenize_loop host fuel toks (Lexer.mk src p l 1 true cli lt)
    = Lexer.tokenize_loop host (fuel - 5) (toks ++ line_tokens l e)
        (Lexer.mk src (S (List.length (entry_text e) + p)) (l + 1) 1 true cli' lt').
Proof.
  intros Hok Hs Hfuel. destruct e as [k ds].
  destruct (entry_ok_parts _ Hok) as [Hk Hds]. cbn [fst snd] in Hk, Hds.
  rewrite entry_text_length in Hfuel |- *. cbn [fst snd] in Hfuel |- *.
  unfold entry_text in Hs. cbn [fst snd lit map list_ascii_of_string] in Hs.
  rewrite <- app_assoc in Hs. cbn [app] in Hs.
  destruct (is_key_head k Hk) as [x [k' [Ek Hx]]].
  pose proof (key_start_range x Hx) as Rx.
  (* the five passes of the loop *)
  do 5 (destruct fuel as [|fuel]; [lia|]).
  replace (S (S (S (S (S fuel)))) - 5)%nat with fuel by lia.
  (* pass 1: INDENT and the key *)
  assert (Hs0 : skipn p src = x :: k' ++ ord ":" :: ord " " :: ds ++ NL :: rest)
    by (rewrite Hs, Ek; reflexivity).
  erewrite tokenize_loop_step.
  2:{ lex_norm. exact Hs0. }
  2:{ eapply line_start_token; [exact Hs0 | unfold ord, TAB, NL; simpl; lia ..]. }
  2:{ replace (S (S (S (S fuel)))) with (List.length k + S (S (S (S fuel)) - List.length k))%nat
        by lia.
      eapply scan_identifier; [exact Hk | exact Hs]. }
  (* pass 2: the colon *)
  pose proof (skipn_past _ _ _ _ Hs) as Hs2.
  erewrite tokenize_loop_step.
  2:{ lex_norm. exact Hs2. }
  2:{ apply line_start_inside. }
  2:{ eapply scan_punctuation with (x := ord ":"); [reflexivity | exact Hs2]. }
  (* pass 3: the space *)
  pose proof (skipn_next _ _ _ _ Hs2) as Hs3.
  erewrite tokenize_loop_step.
  2:{ lex_norm. exact Hs3. }
  2:{ apply line_start_inside. }
  2:{ eapply scan_space; exact Hs3. }
  (* pass 4: the digits *)
  pose proof (skipn_next _ _ _ _ Hs3) as Hs4.
  destruct (is_digits_head ds Hds) as [d [ds' [Ed Hd]]].
  erewrite tokenize_loop_step.
  2:{ lex_norm. rewrite Hs4, Ed. reflexivity. }
  2:{ apply line_start_inside. }
  2:{ replace (S fuel) with (List.length ds + S (S fuel - List.length ds - 1))%nat by lia.
      eapply scan_number with (x := NL); [exact Hds | reflexivity | exact Hs4]. }
  (* pass 5: the newline *)
  pose proof (skipn_past _ _ _ _ Hs4) as Hs5.
  erewrite tokenize_loop_step.
  2:{ lex_norm. exact Hs5. }
  2:{ apply line_start_inside. }
  2:{ eapply scan_newline; exact Hs5. }
  eexists _, _.
  unfold line_tokens, entry_tokens. cbn [fst snd]. rewrite entry_text_length. cbn [fst snd].
  rewrite <- !app_assoc. cbn [app].
  replace (1 + Z.of_nat (List.length k) + 1 + 1) with (1 + Z.of_nat (List.length k) + 2) by lia.
  replace (1 + Z.of_nat (List.length k) + 2 + Z.of_nat (List.length ds))
    with (1 + Z.of_nat (List.length k + 2 + List.length ds)) by lia.
  replace (S (List.length ds + S (S (List.length k + p))))
    with (S (List.length k + 2 + List.length ds + p)) by lia.
  reflexivity.
Qed.

Lemma entry_text_long e : entry_ok e = true -> (4 <= List.length (entry_text e))%nat.
Proof.
  intros H. destruct (entry_ok_parts e H) as [Hk Hd].
  destruct (is_key_head _ Hk) as [x [k' [Ek _]]].
  destruct (is_digits_head _ Hd) as [d [ds' [Ed _]]].
  rewrite entry_text_length, Ek, Ed. cbn [List.length]. lia.
Qed.




End BlockLexer.

(** *** The validator on a block object *)

Lemma key_char_plain c : key_char c = true -> plain c = true.
Proof.
  intros H. pose proof (key_char_range c H) as R.
  unfold plain, Lexer._is_allowed_code_point, NL. apply andb_true_iff. split.
  - assert (H1 : (0x0020 <=? c) && (c <=? 0x007E) = true)
      by (apply andb_true_iff; split; apply Z.leb_le; lia).
    rewrite H1, orb_true_r. reflexivity.
  - apply negb_true_iff. apply Z.eqb_neq. lia.
Qed.

Lemma digit_plain c : ascii_digit c = true -> plain c = true.
Proof.
  intros H. pose proof (ascii_digit_range c H) as R.
  unfold plain, Lexer._is_allowed_code_point, NL. apply andb_true_iff. split.
  - assert (H1 : (0x0020 <=? c) && (c <=? 0x007E) = true)
      by (apply andb_true_iff; split; apply Z.leb_le; lia).
    rewrite H1, orb_true_r. reflexivity.
  - apply negb_true_iff. apply Z.eqb_neq. lia.
Qed.

Lemma entry_text_plain e : entry_ok e = true -> forallb plain (entry_text e) = true.
Proof.
  intros H. destruct (entry_ok_parts e H) as [Hk Hd].
  unfold is_key in Hk. apply andb_true_iff in Hk. destruct Hk as [Hk _].
  apply andb_true_iff in Hk. destruct Hk as [_ Hk].
  unfold is_digits in Hd. apply andb_true_iff in Hd. destruct Hd as [_ Hd].
  unfold entry_text. rewrite !forallb_app. cbn [lit map list_ascii_of_string forallb].
  replace (forallb plain (fst e)) with true.
  2:{ symmetry. apply forallb_forall. intros x Hx. apply key_char_plain.
      rewrite forallb_forall in Hk. apply Hk. exact Hx. }
  replace (forallb plain (snd e)) with true.
  2:{ symmetry. apply forallb_forall. intros x Hx. apply digit_plain.
      rewrite forallb_forall in Hd. apply Hd. exact Hx. }
  reflexivity.
Qed.

Lemma entry_text_end e : entry_ok e = true -> endswith_space (entry_text e) = false.
Proof.
  intros H. destruct (entry_ok_parts e H) as [_ Hd].
  unfold is_digits in Hd. apply andb_true_iff in Hd. destruct Hd as [Hn Hd].
  assert (Hne : snd e <> []) by (destruct (snd e); [discriminate | congruence]).
  destruct (exists_last Hne) as [ds' [z E]].
  unfold entry_text. rewrite E, !app_assoc, endswith_space_snoc.
  rewrite E, forallb_app in Hd. apply andb_true_iff in Hd. destruct Hd as [_ Hz].
  cbn [forallb] in Hz. rewrite andb_true_r in Hz. pose proof (ascii_digit_range z Hz).
  apply Z.eqb_neq. unfold ord. simpl. lia.
Qed.



Lemma check_trailing_spaces_ok lines : forall i n,
  forallb (fun s => negb (endswith_space s)) lines = true ->
  Lexer.check_trailing_spaces lines i n = Ok tt.
Proof.
  induction lines as [|s lines IH]; intros i n Hall; [reflexivity|].
  cbn [forallb] in Hall. apply andb_true_iff in Hall. destruct Hall as [Hs Hall].
  apply negb_true_iff in Hs. cbn [Lexer.check_trailing_spaces]. rewrite Hs. cbn [andb].
  apply IH. exact Hall.
Qed.

(** *** The parser on the tokens of an entry *)

Lemma nth_skipn_tokens (toks : list Token.t) d : forall pos t r,
  skipn pos toks = t :: r -> nth pos toks d = t.
Proof.
  induction toks as [|x toks IH]; intros pos t r H.
  - destruct pos; discriminate.
  - destruct pos as [|pos]; cbn [skipn] in H.
    + inversion H. reflexivity.
    + cbn [nth]. eapply IH. exact H.
Qed.

Lemma skipn_tokens_next (toks : list Token.t) : forall pos t r,
  skipn pos toks = t :: r -> skipn (S pos) toks = r.
Proof.
  induction toks as [|x toks IH]; intros pos t r H.
  - destruct pos; discriminate.
  - destruct pos as [|pos]; cbn [skipn] in H.
    + inversion H. reflexivity.
    + cbn [skipn]. eapply IH. exact H.
Qed.

Lemma parser_peek src lines toks pos t r :
  skipn pos toks = t :: r ->
  Parser.peek 0 (Parser.mk src lines toks pos) = Ok (t, Parser.mk src lines toks pos).
Proof.
  intros H. unfold Parser.peek. cbn [Parser.pos Parser.tokens].
  rewrite Nat.add_0_r. erewrite nth_skipn_tokens by exact H. reflexivity.
Qed.

Lemma parser_peek1 src lines toks pos t u r :
  skipn pos toks = t :: u :: r ->
  Parser.peek 1 (Parser.mk src lines toks pos) = Ok (u, Parser.mk src lines toks pos).
Proof.
  intros H. unfold Parser.peek. cbn [Parser.pos Parser.tokens].
  rewrite Nat.add_1_r.
  erewrite nth_skipn_tokens by (eapply skipn_tokens_next; exact H). reflexivity.
Qed.

Lemma parser_advance src lines toks pos t r :
  skipn pos toks = t :: r ->
  Parser.advance (Parser.mk src lines toks pos) = Ok (t, Parser.mk src lines toks (S pos)).
Proof.
  intros H. unfold Parser.advance.
  erewrite bind_Ok by (eapply parser_peek; exact H). reflexivity.
Qed.

Lemma parser_kind_is src lines toks pos t r k :
  skipn pos toks = t :: r ->
  Parser.kind_is k 0 (Parser.mk src lines toks pos)
  = Ok (Kind_eqb (Token.kind t) k, Parser.mk src lines toks pos).
Proof.
  intros H. unfold Parser.kind_is.
  erewrite bind_Ok by (eapply parser_peek; exact H). reflexivity.
Qed.

Lemma parser_kind_is1 src lines toks pos t u r k :
  skipn pos toks = t :: u :: r ->
  Parser.kind_is k 1 (Parser.mk src lines toks pos)
  = Ok (Kind_eqb (Token.kind u) k, Parser.mk src lines toks pos).
Proof.
  intros H. unfold Parser.kind_is.
  erewrite bind_Ok by (eapply parser_peek1; exact H). reflexivity.
Qed.

(** [kind_is] never raises. *)
Lemma parser_kind_is_total k offset st : exists b, Parser.kind_is k offset st = Ok (b, st).
Proof. unfold Parser.kind_is, Parser.peek, bind, ret. eexists. reflexivity. Qed.

(** [char_at] inside the text: line [i + 1], column [j + 1]. *)
Lemma parser_char_at src (lines : list str) toks pos i (s : str) j x :
  nth_error lines i = Some s ->
  nth_error s j = Some x ->
  Parser.char_at (Z.of_nat i + 1) (Z.of_nat j + 1) (Parser.mk src lines toks pos)
  = Ok (Some x, Parser.mk src lines toks pos).
Proof.
  intros Hl Hc. unfold Parser.char_at. cbn [Parser.source_lines].
  assert (Hi : (i < List.length lines)%nat) by (apply nth_error_Some; congruence).
  assert (Hj : (j < List.length s)%nat) by (apply nth_error_Some; congruence).
  replace (Z.of_nat i + 1 <? 1) with false by (symmetry; apply Z.ltb_ge; lia).
  replace (Z.of_nat (List.length lines) <? Z.of_nat i + 1) with false
    by (symmetry; apply Z.ltb_ge; lia).
  cbn [orb]. cbv zeta.
  replace (Z.to_nat (Z.of_nat i + 1 - 1)) with i by lia.
  replace (nth i lines []) with s by (symmetry; exact (nth_error_nth _ _ _ Hl)).
  replace (Z.of_nat j + 1 <? 1) with false by (symmetry; apply Z.ltb_ge; lia).
  replace (Z.of_nat (List.length s) <? Z.of_nat j + 1) with false
    by (symmetry; apply Z.ltb_ge; lia).
  cbn [orb].
  replace (Z.to_nat (Z.of_nat j + 1 - 1)) with j by lia.
  rewrite Hc. reflexivity.
Qed.

(** The characters of an entry's text around its colon. *)
Lemma entry_text_chars e :
  entry_ok e = true ->
  exists z d,
    nth_error (entry_text e) (List.length (fst e) - 1) = Some z /\ z <> ord " "
    /\ nth_error (entry_text e) (List.length (fst e) + 1) = Some (ord " ")
    /\ nth_error (entry_text e) (List.length (fst e) + 2) = Some d /\ d <> ord " "
    /\ (0 < List.length (fst e))%nat.
Proof.
  intros H. destruct (entry_ok_parts e H) as [Hk Hd].
  destruct (is_digits_head _ Hd) as [d [ds' [Ed Hdd]]].
  destruct (is_key_head _ Hk) as [x [k' [Ek _]]].
  assert (Hne : fst e <> []) by (rewrite Ek; discriminate).
  destruct (exists_last Hne) as [k0 [z Ez]].
  assert (Hz : key_char z = true).
  { unfold is_key in Hk. apply andb_true_iff in Hk. destruct Hk as [Hk _].
    apply andb_true_iff in Hk. destruct Hk as [_ Hall].
    rewrite forallb_forall in Hall. apply Hall. rewrite Ez. apply in_or_app.
    right. left. reflexivity. }
  pose proof (key_char_range z Hz) as Rz. pose proof (ascii_digit_range d Hdd) as Rd.
  exists z, d. unfold entry_text. rewrite Ed.
  cbn [lit map list_ascii_of_string app].
  repeat split.
  - rewrite Ez, length_app. cbn [List.length].
    replace (List.length k0 + 1 - 1)%nat with (List.length k0) by lia.
    rewrite <- app_assoc. rewrite nth_error_app2 by lia. rewrite Nat.sub_diag. reflexivity.
  - unfold ord; simpl; lia.
  - rewrite nth_error_app2 by lia.
    replace (List.length (fst e) + 1 - List.length (fst e))%nat with 1%nat by lia. reflexivity.
  - rewrite nth_error_app2 by lia.
    replace (List.length (fst e) + 2 - List.length (fst e))%nat with 2%nat by lia. reflexivity.
  - unfold ord; simpl; lia.
  - rewrite Ek. cbn [List.length]. lia.
Qed.

(** Reduce what is read off a token, and nothing else. *)
Ltac tok_norm :=
  cbn [Token.kind Token.value Token.line Token.col Kind_eqb int_value str_value
       andb orb negb Lexer.nonempty_list Lexer.nonempty raise_if].

Lemma check_no_space_before_ok src (lines : list str) toks pos i (s : str) j z k v ch :
  nth_error lines i = Some s ->
  nth_error s j = Some z ->
  z <> ord " " ->
  Parser.check_no_space_before (Token.mk k v (Z.of_nat i + 1) (Z.of_nat j + 2)) ch
    (Parser.mk src lines toks pos)
  = Ok (tt, Parser.mk src lines toks pos).
Proof.
  intros Hl Hc Hz. unfold Parser.check_no_space_before. tok_norm.
  replace (Z.of_nat j + 2 - 1) with (Z.of_nat j + 1) by lia.
  erewrite bind_Ok by (eapply parser_char_at; eassumption).
  unfold Lexer.ch_is. apply Z.eqb_neq in Hz. rewrite Hz, andb_false_r. reflexivity.
Qed.

Lemma check_one_space_after_colon_ok src (lines : list str) toks pos i (s : str) j d k v :
  nth_error lines i = Some s ->
  nth_error s (S j) = Some (ord " ") ->
  nth_error s (S (S j)) = Some d ->
  d <> ord " " ->
  Parser.check_one_space_after_colon (Token.mk k v (Z.of_nat i + 1) (Z.of_nat j + 1))
    (Parser.mk src lines toks pos)
  = Ok (tt, Parser.mk src lines toks pos).
Proof.
  intros Hl H1 H2 Hd. unfold Parser.check_one_space_after_colon. tok_norm.
  replace (Z.of_nat j + 1 + 1) with (Z.of_nat (S j) + 1) by lia.
  erewrite bind_Ok by (eapply parser_char_at; eassumption).
  change (negb (Lexer.ch_is (Some (ord " ")) (ord " "))) with false. cbv beta iota.
  erewrite bind_Ok by reflexivity.
  replace (Z.of_nat (S j) + 1 + 1) with (Z.of_nat (S (S j)) + 1) by lia.
  erewrite bind_Ok by (eapply parser_char_at; eassumption).
  unfold Lexer.ch_is. apply Z.eqb_neq in Hd. rewrite Hd. reflexivity.
Qed.

(** One pass of the loop of [parse_block_object] over an entry, with or
    without the line's [INDENT] before it: the entry is assigned. *)
Lemma parse_block_entry (with_indent : bool) e f obj src (lines : list str) toks pos i c tail :
  entry_ok e = true ->
  nth_error lines i = Some (entry_text e) ->
  skipn pos toks
  = (if with_indent then [Token.mk INDENT (VInt 0) (Z.of_nat i + 1) 1] else [])
    ++ entry_tokens (Z.of_nat i + 1) 1 e
    ++ Token.mk NEWLINE (VStr [NL]) (Z.of_nat i + 1) c :: tail ->
  Parser.parse_block_object_loop (S (S (S f))) 0 0 obj (Parser.mk src lines toks pos)
  = Parser.parse_block_object_loop (S (S f)) 0 0 (assign obj e)
      (Parser.mk src lines toks ((if with_indent then 5 else 4) + pos)).
Proof.
  intros Hok Hl Hs.
  destruct (entry_text_chars e Hok) as [z [d [Hz [Hzn [Hsp [Hd [Hdn Hklen]]]]]]].
  set (pos1 := if with_indent then S pos else pos).
  assert (Hs1 : skipn pos1 toks
                = entry_tokens (Z.of_nat i + 1) 1 e
                  ++ Token.mk NEWLINE (VStr [NL]) (Z.of_nat i + 1) c :: tail).
  { unfold pos1. destruct with_indent; [|exact Hs].
    cbn [app] in Hs. eapply skipn_tokens_next. exact Hs. }
  unfold entry_tokens in Hs1. cbn [app] in Hs1.
  pose proof (skipn_tokens_next _ _ _ _ Hs1) as Hs2.
  pose proof (skipn_tokens_next _ _ _ _ Hs2) as Hs3.
  pose proof (skipn_tokens_next _ _ _ _ Hs3) as Hs4.
  cbn [Parser.parse_block_object_loop].
  (* the optional INDENT, then the key *)
  assert (Hstart :
            forall A (k : option (Token.t * Z) -> M Parser.t A),
              (token <- Parser.peek 0 ;;
               r <- (if Kind_eqb (Token.kind token) INDENT then
                       let indent := int_value (Token.value token) in
                       if indent <? 0 then ret None
                       else if (0 <? indent) && Lexer.nonempty_list obj then ret None
                       else Parser.advance ;;;
                            token <- Parser.peek 0 ;; ret (Some (token, indent))
                     else ret (Some (token, 0))) ;;
               k r) (Parser.mk src lines toks pos)
              = k (Some (Token.mk IDENT (VStr (fst e)) (Z.of_nat i + 1) 1, 0))
                  (Parser.mk src lines toks pos1)).
  { intros A k. unfold pos1 in *. destruct with_indent; cbn [app] in Hs.
    - erewrite bind_Ok by (eapply parser_peek; exact Hs). tok_norm.
      change (0 <? 0) with false. cbv beta iota zeta. cbn [andb].
      erewrite bind_Ok.
      2:{ erewrite bind_Ok by (eapply parser_advance; exact Hs).
          erewrite bind_Ok by (eapply parser_peek; exact Hs1).
          reflexivity. }
      reflexivity.
    - unfold entry_tokens in Hs. cbn [app] in Hs.
      erewrite bind_Ok by (eapply parser_peek; exact Hs). tok_norm.
      erewrite bind_Ok by reflexivity. reflexivity. }
  rewrite Hstart. cbv beta iota.
  erewrite bind_Ok by (eapply parser_kind_is1; exact Hs1). tok_norm.
  erewrite bind_Ok by (eapply parser_peek; exact Hs1).
  erewrite bind_Ok.
  2:{ unfold Parser.parse_key.
      erewrite bind_Ok by (eapply parser_peek; exact Hs1). tok_norm.
      erewrite bind_Ok by (eapply parser_advance; exact Hs1). reflexivity. }
  erewrite bind_Ok by (eapply parser_peek; exact Hs2).
  erewrite bind_Ok.
  2:{ unfold Parser.expect.
      erewrite bind_Ok by (eapply parser_peek; exact Hs2). tok_norm.
      eapply parser_advance; exact Hs2. }
  erewrite bind_Ok.
  2:{ replace (1 + Z.of_nat (List.length (fst e)))
        with (Z.of_nat (List.length (fst e) - 1) + 2) by lia.
      eapply check_no_space_before_ok; eassumption. }
  erewrite bind_Ok by (eapply parser_peek; exact Hs3). tok_norm.
  erewrite bind_Ok.
  2:{ replace (1 + Z.of_nat (List.length (fst e)))
        with (Z.of_nat (List.length (fst e)) + 1) by lia.
      eapply check_one_space_after_colon_ok; try eassumption.
      - rewrite <- Nat.add_1_r. exact Hsp.
      - replace (S (S (List.length (fst e)))) with (List.length (fst e) + 2)%nat by lia.
        exact Hd. }
  erewrite bind_Ok.
  2:{ cbn [Parser.parse_object_value].
      erewrite bind_Ok by (eapply parser_peek; exact Hs3). tok_norm.
      cbn [Parser.parse_inline_value].
      erewrite bind_Ok by (eapply parser_peek; exact Hs3). tok_norm.
      erewrite bind_Ok by (eapply parser_advance; exact Hs3). reflexivity. }
  erewrite bind_Ok by (eapply parser_kind_is; exact Hs4). tok_norm.
  erewrite bind_Ok.
  2:{ erewrite bind_Ok by (eapply parser_advance; exact Hs4). reflexivity. }
  unfold assign, pos1. destruct with_indent; reflexivity.
Qed.

Lemma parse_block_end f obj src lines toks pos l c :
  skipn pos toks = [Token.mk EOF VNone l c] ->
  Parser.parse_block_object_loop (S f) 0 0 obj (Parser.mk src lines toks pos)
  = Ok (obj, Parser.mk src lines toks pos).
Proof.
  intros Hs. cbn [Parser.parse_block_object_loop].
  erewrite bind_Ok by (eapply parser_peek; exact Hs). tok_norm.
  erewrite bind_Ok by reflexivity.
  destruct (parser_kind_is_total COLON 1 (Parser.mk src lines toks pos)) as [b Hb].
  erewrite bind_Ok by exact Hb. reflexivity.
Qed.

Lemma block_tokens_cons i e rest :
  block_tokens (Z.of_nat i + 1) (e :: rest)
  = [Token.mk INDENT (VInt 0) (Z.of_nat i + 1) 1]
    ++ entry_tokens (Z.of_nat i + 1) 1 e
    ++ Token.mk NEWLINE (VStr [NL]) (Z.of_nat i + 1)
         (1 + Z.of_nat (List.length (entry_text e)))
       :: block_tokens (Z.of_nat (S i) + 1) rest.
Proof.
  cbn [block_tokens]. unfold line_tokens. cbn [app]. rewrite <- app_assoc. cbn [app].
  replace (Z.of_nat i + 1 + 1) with (Z.of_nat (S i) + 1) by lia. reflexivity.
Qed.

Lemma block_tokens_length l entries :
  List.length (block_tokens l entries) = (5 * List.length entries)%nat.
Proof.
  revert l. induction entries as [|e rest IH]; intros l; [reflexivity|].
  cbn [block_tokens]. unfold line_tokens, entry_tokens.
  cbn [app List.length]. rewrite IH. lia.
Qed.

(** The loop of [parse_block_object] over the lines of entries: the
    assignments one after the other. *)
Lemma parse_block_lines rest : forall i obj f src (lines : list str) toks pos l c,
  forallb entry_ok rest = true ->
  (forall j e, nth_error rest j = Some e -> nth_error lines (i + j) = Some (entry_text e)) ->
  skipn pos toks = block_tokens (Z.of_nat i + 1) rest ++ [Token.mk EOF VNone l c] ->
  Parser.parse_block_object_loop (List.length rest + 3 + f) 0 0 obj
    (Parser.mk src lines toks pos)
  = Ok (fold_left assign rest obj,
        Parser.mk src lines toks (5 * List.length rest + pos)).
Proof.
  induction rest as [|e rest IH]; intros i obj f src lines toks pos l c Hall Hlines Hs.
  - cbn [List.length Nat.add Nat.mul fold_left]. eapply parse_block_end. exact Hs.
  - cbn [forallb] in Hall. apply andb_true_iff in Hall. destruct Hall as [He Hall].
    rewrite block_tokens_cons in Hs. rewrite <- !app_assoc in Hs. cbn [app] in Hs.
    change (List.length (e :: rest) + 3 + f)%nat with (S (List.length rest + 3 + f)).
    replace (S (List.length rest + 3 + f)) with (S (S (S (List.length rest + 1 + f)))) by lia.
    erewrite (parse_block_entry true e _ obj src lines toks pos i); [| exact He | | exact Hs].
    + replace (S (S (List.length rest + 1 + f))) with (List.length rest + 3 + f)%nat by lia.
      erewrite IH.
      * cbn [fold_left List.length]. f_equal. f_equal. f_equal. lia.
      * exact Hall.
      * intros j e' Hj. replace (S i + j)%nat with (i + S j)%nat by lia.
        apply Hlines. exact Hj.
      * unfold entry_tokens in Hs. cbn [app] in Hs.
        do 5 (apply skipn_tokens_next in Hs).
        exact Hs.
    + replace i with (i + 0)%nat at 1 by lia. apply Hlines. reflexivity.
Qed.



(** *** The tokens of an inline object *)

Lemma inline_rest_join e rest :
  join (lit ", ") (map entry_text (e :: rest)) ++ lit "}" = entry_text e ++ inline_rest rest.
Proof.
  revert e. induction rest as [|e' rest IH]; intros e; [reflexivity|].
  change (join (lit ", ") (map entry_text (e :: e' :: rest)))
    with (entry_text e ++ lit ", " ++ join (lit ", ") (map entry_text (e' :: rest))).
  rewrite <- !app_assoc. rewrite IH. reflexivity.
Qed.

Lemma inline_object_cons e rest :
  inline_object (e :: rest) = ord "{" :: entry_text e ++ inline_rest rest.
Proof. unfold inline_object. rewrite inline_rest_join. reflexivity. Qed.

Lemma inline_rest_head rest : exists x r, inline_rest rest = x :: r /\ ends_number x = true.
Proof.
  destruct rest as [|e rest].
  - exists (ord "}"), []. split; reflexivity.
  - exists (ord ","), (ord " " :: entry_text e ++ inline_rest rest). split; reflexivity.
Qed.

Section InlineLexer.

Variable host : Host.

(** The four passes of [tokenize]'s loop over an entry inside a line. *)
Lemma tokenize_entry e fuel toks src p l c cli lt x r :
  entry_ok e = true ->
  ends_number x = true ->
  skipn p src = entry_text e ++ x :: r ->
  (List.length (entry_text e) + 4 <= fuel)%nat ->
  exists lt',
    Lexer.tokenize_loop host fuel toks (Lexer.mk src p l c false cli lt)
    = Lexer.tokenize_loop host (fuel - 4) (toks ++ entry_tokens l c e)
        (Lexer.mk src (List.length (entry_text e) + p) l
           (c + Z.of_nat (List.length (entry_text e))) false cli lt').
Proof.
  intros Hok Hx Hs Hfuel. destruct e as [k ds].
  destruct (entry_ok_parts _ Hok) as [Hk Hds]. cbn [fst snd] in Hk, Hds.
  rewrite entry_text_length in Hfuel |- *. cbn [fst snd] in Hfuel |- *.
  unfold entry_text in Hs. cbn [fst snd lit map list_ascii_of_string] in Hs.
  rewrite <- !app_assoc in Hs. cbn [app] in Hs.
  destruct (is_key_head k Hk) as [z [k' [Ek Hz]]].
  do 4 (destruct fuel as [|fuel]; [lia|]).
  replace (S (S (S (S fuel))) - 4)%nat with fuel by lia.
  (* pass 1: the key *)
  erewrite tokenize_loop_step.
  2:{ lex_norm. rewrite Hs, Ek. reflexivity. }
  2:{ apply line_start_inside. }
  2:{ replace (S (S (S fuel))) with (List.length k + S (S (S fuel) - List.length k))%nat
        by lia.
      eapply scan_identifier; [exact Hk | exact Hs]. }
  (* pass 2: the colon *)
  pose proof (skipn_past _ _ _ _ Hs) as Hs2.
  erewrite tokenize_loop_step.
  2:{ lex_norm. exact Hs2. }
  2:{ apply line_start_inside. }
  2:{ eapply scan_punctuation with (x := ord ":"); [reflexivity | exact Hs2]. }
  (* pass 3: the space *)
  pose proof (skipn_next _ _ _ _ Hs2) as Hs3.
  erewrite tokenize_loop_step.
  2:{ lex_norm. exact Hs3. }
  2:{ apply line_start_inside. }
  2:{ eapply scan_space; exact Hs3. }
  (* pass 4: the digits *)
  pose proof (skipn_next _ _ _ _ Hs3) as Hs4.
  destruct (is_digits_head ds Hds) as [d [ds' [Ed Hd]]].
  erewrite tokenize_loop_step.
  2:{ lex_norm. rewrite Hs4, Ed. reflexivity. }
  2:{ apply line_start_inside. }
  2:{ replace fuel with (List.length ds + S (fuel - List.length ds - 1))%nat by lia.
      eapply scan_number with (x := x); [exact Hds | exact Hx | exact Hs4]. }
  eexists.
  unfold entry_tokens. cbn [fst snd].
  rewrite <- !app_assoc. cbn [app].
  replace (c + Z.of_nat (List.length k) + 1 + 1) with (c + Z.of_nat (List.length k) + 2) by lia.
  replace (c + Z.of_nat (List.length k) + 2 + Z.of_nat (List.length ds))
    with (c + Z.of_nat (List.length k + 2 + List.length ds)) by lia.
  replace (List.length ds + S (S (List.length k + p)))%nat
    with (List.length k + 2 + List.length ds + p)%nat by lia.
  reflexivity.
Qed.

Lemma inline_rest_length_pos rest : (1 <= List.length (inline_rest rest))%nat.
Proof. destruct rest; cbn [inline_rest lit map list_ascii_of_string app List.length]; lia. Qed.

(** The passes over what follows the first entry. *)
Lemma tokenize_rest rest : forall fuel toks src p c cli lt,
  forallb entry_ok rest = true ->
  skipn p src = inline_rest rest ->
  (List.length (inline_rest rest) + 4 <= fuel)%nat ->
  exists p' lt',
    Lexer.tokenize_loop host fuel toks (Lexer.mk src p 1 c false cli lt)
    = Ok (toks ++ inline_rest_tokens c rest,
          Lexer.mk src p' 1 (c + Z.of_nat (List.length (inline_rest rest))) false cli lt').
Proof.
  induction rest as [|e rest IH]; intros fuel toks src p c cli lt Hall Hs Hfuel.
  - cbn [inline_rest lit map list_ascii_of_string List.length] in Hs, Hfuel |- *.
    do 2 (destruct fuel as [|fuel]; [lia|]).
    erewrite tokenize_loop_step.
    2:{ lex_norm. exact Hs. }
    2:{ apply line_start_inside. }
    2:{ eapply scan_punctuation with (x := ord "}"); [reflexivity | exact Hs]. }
    rewrite tokenize_loop_end by (lex_norm; eapply skipn_next; exact Hs).
    eexists _, _. reflexivity.
  - cbn [forallb] in Hall. apply andb_true_iff in Hall. destruct Hall as [He Hall].
    pose proof (entry_text_long e He) as Hlong.
    cbn [inline_rest lit map list_ascii_of_string app] in Hs, Hfuel.
    cbn [List.length] in Hfuel. rewrite length_app in Hfuel.
    do 2 (destruct fuel as [|fuel]; [lia|]).
    (* the comma and the space *)
    erewrite tokenize_loop_step.
    2:{ lex_norm. exact Hs. }
    2:{ apply line_start_inside. }
    2:{ eapply scan_punctuation with (x := ord ","); [reflexivity | exact Hs]. }
    pose proof (skipn_next _ _ _ _ Hs) as Hs1.
    erewrite tokenize_loop_step.
    2:{ lex_norm. exact Hs1. }
    2:{ apply line_start_inside. }
    2:{ eapply scan_space; exact Hs1. }
    pose proof (skipn_next _ _ _ _ Hs1) as Hs2.
    (* the entry *)
    destruct (inline_rest_head rest) as [x [r [Ex Hx]]]. rewrite Ex in Hs2.
    destruct (tokenize_entry e fuel (toks ++ [Token.mk COMMA (VStr [ord ","]) 1 c]) src
                (S (S p)) 1 (c + 1 + 1) cli
                (Some (Token.mk COMMA (VStr [ord ","]) 1 c)) x r He Hx Hs2)
      as [lt1 H1]; [lia|].
    rewrite H1. rewrite <- Ex in Hs2.
    destruct (IH (fuel - 4)%nat
                (((toks ++ [Token.mk COMMA (VStr [ord ","]) 1 c])
                  ++ entry_tokens 1 (c + 1 + 1) e)) src
                (List.length (entry_text e) + S (S p))%nat
                (c + 1 + 1 + Z.of_nat (List.length (entry_text e))) cli lt1 Hall
                (skipn_past _ _ _ _ Hs2))
      as [p' [lt' H2]]; [lia|].
    rewrite H2. exists p', lt'.
    cbn [inline_rest_tokens inline_rest lit map list_ascii_of_string app List.length].
    rewrite length_app. rewrite <- !app_assoc. cbn [app].
    replace (c + 1 + 1) with (c + 2) by lia.
    f_equal. f_equal. f_equal. lia.
Qed.

(** The tokens [tokenize] yields for an inline object. *)
Lemma tokenize_inline_object e rest :
  forallb entry_ok (e :: rest) = true ->
  exists st,
    Lexer.tokenize host (Lexer.fuel_for (inline_object (e :: rest)))
      (Lexer.mk (inline_object (e :: rest)) 0 1 1 true 0 None)
    = Ok (inline_tokens e rest, st).
Proof.
  intros Hall. cbn [forallb] in Hall. apply andb_true_iff in Hall.
  destruct Hall as [He Hall].
  pose proof (entry_text_long e He) as Hlong.
  pose proof (inline_rest_length_pos rest) as Hpos.
  unfold inline_tokens.
  set (src := inline_object (e :: rest)).
  assert (Hs : skipn 0 src = ord "{" :: entry_text e ++ inline_rest rest)
    by (unfold src; rewrite inline_object_cons; reflexivity).
  assert (Hlen : List.length src
                 = (1 + List.length (entry_text e) + List.length (inline_rest rest))%nat).
  { unfold src. rewrite inline_object_cons. cbn [List.length]. rewrite length_app. lia. }
  unfold Lexer.tokenize. lex_norm. unfold Lexer.fuel_for. rewrite Hlen.
  set (fuel := (2 * (1 + List.length (entry_text e) + List.length (inline_rest rest)) + 4)%nat).
  assert (Hf : (List.length (entry_text e) + List.length (inline_rest rest) + 6 <= fuel)%nat)
    by (unfold fuel; lia).
  clearbody fuel.
  do 2 (destruct fuel as [|fuel]; [lia|]).
  assert (Hloop : exists p' lt',
             Lexer.tokenize_loop host (S (S fuel)) [] (Lexer.mk src 0 1 1 true 0 None)
             = Ok ([Token.mk INDENT (VInt 0) 1 1; Token.mk LBRACE (VStr [ord "{"]) 1 1]
                   ++ entry_tokens 1 2 e
                   ++ inline_rest_tokens (2 + Z.of_nat (List.length (entry_text e))) rest,
                   Lexer.mk src p' 1 (1 + Z.of_nat (List.length src)) false 0 lt')).
  { erewrite tokenize_loop_step.
    2:{ lex_norm. exact Hs. }
    2:{ eapply line_start_token; [exact Hs | discriminate ..]. }
    2:{ eapply scan_punctuation with (x := ord "{"); [reflexivity | exact Hs]. }
    pose proof (skipn_next _ _ _ _ Hs) as Hs1.
    destruct (inline_rest_head rest) as [x [r [Ex Hx]]]. rewrite Ex in Hs1.
    destruct (tokenize_entry e (S fuel) ([] ++ [Token.mk INDENT (VInt 0) 1 1]
                                          ++ [Token.mk LBRACE (VStr [ord "{"]) 1 1]) src
                1 1 (1 + 1) 0 (Some (Token.mk LBRACE (VStr [ord "{"]) 1 1)) x r He Hx Hs1)
      as [lt1 H1]; [lia|].
    cbn [app] in H1 |- *. rewrite H1. rewrite <- Ex in Hs1.
    destruct (tokenize_rest rest (S fuel - 4)%nat
                ([Token.mk INDENT (VInt 0) 1 1; Token.mk LBRACE (VStr [ord "{"]) 1 1]
                 ++ entry_tokens 1 (1 + 1) e) src
                (List.length (entry_text e) + 1)%nat
                (1 + 1 + Z.of_nat (List.length (entry_text e))) 0 lt1 Hall
                (skipn_past _ _ _ _ Hs1))
      as [p' [lt' H2]]; [lia|].
    cbn [app] in H2. rewrite H2. exists p', lt'.
    rewrite Hlen. change (1 + 1) with 2.
    f_equal. f_equal. f_equal. lia. }
  destruct Hloop as [p' [lt' Hloop]].
  eexists.
  erewrite bind_Ok by exact Hloop.
  erewrite bind_Ok by reflexivity. lex_norm. cbn [negb].
  erewrite bind_Ok.
  2:{ erewrite bind_Ok by reflexivity. reflexivity. }
  erewrite bind_Ok by reflexivity. lex_norm.
  erewrite bind_Ok by reflexivity.
  cbn [app]. rewrite <- ?app_assoc. cbn [app]. rewrite <- Hlen. reflexivity.
Qed.

End InlineLexer.

(** *** The validator on an inline object *)

Lemma inline_rest_plain rest :
  forallb entry_ok rest = true -> forallb plain (inline_rest rest) = true.
Proof.
  induction rest as [|e rest IH]; intros Hall; [reflexivity|].
  cbn [forallb] in Hall. apply andb_true_iff in Hall. destruct Hall as [He Hall].
  cbn [inline_rest lit map list_ascii_of_string app forallb].
  rewrite forallb_app, (entry_text_plain e He), (IH Hall). reflexivity.
Qed.

Lemma inline_object_plain e rest :
  forallb entry_ok (e :: rest) = true -> forallb plain (inline_object (e :: rest)) = true.
Proof.
  intros Hall. cbn [forallb] in Hall. apply andb_true_iff in Hall. destruct Hall as [He Hall].
  rewrite inline_object_cons. cbn [forallb].
  rewrite forallb_app, (entry_text_plain e He), (inline_rest_plain rest Hall). reflexivity.
Qed.

Lemma inline_object_validates e rest :
  forallb entry_ok (e :: rest) = true ->
  Lexer._validate_source (inline_object (e :: rest)) = Ok tt.
Proof.
  intros Hall. apply validate_plain.
  - apply inline_object_plain. exact Hall.
  - rewrite inline_object_cons. split; discriminate.
  - unfold inline_object. rewrite app_assoc.
    change (lit "}") with [ord "}"]. rewrite endswith_space_snoc. reflexivity.
Qed.

Lemma split_nl_inline e rest :
  forallb entry_ok (e :: rest) = true ->
  split_nl (inline_object (e :: rest)) = [inline_object (e :: rest)].
Proof. intros Hall. apply split_nl_plain. apply inline_object_plain. exact Hall. Qed.

(** *** The spacing check of an inline object *)

Lemma nth_error_in_skipn (s : str) i seg tail j :
  skipn i s = seg ++ tail -> (j < List.length seg)%nat ->
  nth_error s (i + j) = nth_error seg j.
Proof.
  intros H Hj. rewrite <- nth_error_skipn, H. apply nth_error_app1. exact Hj.
Qed.

Lemma nth_error_at_skipn (s : str) i x r : skipn i s = x :: r -> nth_error s i = Some x.
Proof.
  intros H. replace i with (i + 0)%nat by lia. rewrite <- nth_error_skipn, H. reflexivity.
Qed.

Lemma quiet_tests c :
  quiet c = true ->
  (c =? ord "'") = false /\ (c =? DQUOTE) = false /\ (c =? ord "{") = false
  /\ (c =? ord "}") = false /\ (c =? ord ",") = false.
Proof.
  unfold quiet. intros H.
  repeat (apply andb_true_iff in H; destruct H as [H ?]).
  repeat match goal with X : negb _ = true |- _ => apply negb_true_iff in X end.
  repeat split; assumption.
Qed.

(** Outside a string the loop of [validate_inline_syntax] passes over
    quiet characters. *)
Lemma validate_loop_quiet seg : forall s i line start_col depth tail,
  forallb quiet seg = true ->
  skipn i s = seg ++ tail ->
  (forall m, Parser.validate_loop m s (List.length seg + i) line start_col
               (ord "{") (ord "}") false false false depth = Ok tt) ->
  forall n, Parser.validate_loop n s i line start_col
              (ord "{") (ord "}") false false false depth = Ok tt.
Proof.
  induction seg as [|x seg IH]; intros s i line start_col depth tail Hall Hs Hnext n.
  - apply Hnext.
  - destruct n as [|n]; [reflexivity|].
    cbn [forallb] in Hall. apply andb_true_iff in Hall. destruct Hall as [Hx Hall].
    destruct (quiet_tests x Hx) as [H1 [H2 [H3 [H4 H5]]]].
    cbn [app] in Hs. cbn [Parser.validate_loop].
    rewrite (nth_error_at_skipn _ _ _ _ Hs). cbv zeta.
    rewrite H1, H2, H3, H4, H5.
    eapply IH; [exact Hall | eapply skipn_next; exact Hs |].
    intros m. cbn [List.length] in Hnext. rewrite Nat.add_succ_r. apply Hnext.
Qed.

Lemma key_char_quiet c : key_char c = true -> quiet c = true.
Proof.
  intros H. pose proof (key_char_range c H) as R. unfold quiet.
  refute_tests. reflexivity.
Qed.

Lemma digit_quiet c : ascii_digit c = true -> quiet c = true.
Proof.
  intros H. pose proof (ascii_digit_range c H) as R. unfold quiet.
  refute_tests. reflexivity.
Qed.

Lemma entry_text_quiet e : entry_ok e = true -> forallb quiet (entry_text e) = true.
Proof.
  intros H. destruct (entry_ok_parts e H) as [Hk Hd].
  unfold is_key in Hk. apply andb_true_iff in Hk. destruct Hk as [Hk _].
  apply andb_true_iff in Hk. destruct Hk as [_ Hk].
  unfold is_digits in Hd. apply andb_true_iff in Hd. destruct Hd as [_ Hd].
  unfold entry_text. rewrite !forallb_app. cbn [lit map list_ascii_of_string forallb].
  replace (forallb quiet (fst e)) with true.
  2:{ symmetry. apply forallb_forall. intros x Hx. apply key_char_quiet.
      rewrite forallb_forall in Hk. apply Hk. exact Hx. }
  replace (forallb quiet (snd e)) with true.
  2:{ symmetry. apply forallb_forall. intros x Hx. apply digit_quiet.
      rewrite forallb_forall in Hd. apply Hd. exact Hx. }
  reflexivity.
Qed.

(** An entry's text ends in a digit. *)
Lemma entry_text_last e :
  entry_ok e = true -> exists body d, entry_text e = body ++ [d] /\ d <> ord " ".
Proof.
  intros H. destruct (entry_ok_parts e H) as [_ Hd].
  unfold is_digits in Hd. apply andb_true_iff in Hd. destruct Hd as [Hn Hd].
  assert (Hne : snd e <> []) by (destruct (snd e); [discriminate | congruence]).
  destruct (exists_last Hne) as [ds' [z E]].
  exists (fst e ++ lit ": " ++ ds'), z. split.
  - unfold entry_text. rewrite E, <- !app_assoc. reflexivity.
  - rewrite E, forallb_app in Hd. apply andb_true_iff in Hd. destruct Hd as [_ Hz].
    cbn [forallb] in Hz. rewrite andb_true_r in Hz. pose proof (ascii_digit_range z Hz).
    unfold ord. simpl. lia.
Qed.

Lemma entry_text_first e :
  entry_ok e = true -> exists x r, entry_text e = x :: r /\ x <> ord " ".
Proof.
  intros H. destruct (entry_ok_parts e H) as [Hk _].
  destruct (is_key_head _ Hk) as [x [k' [Ek Hx]]].
  pose proof (key_start_range x Hx) as R.
  exists x, (k' ++ lit ": " ++ snd e). split.
  - unfold entry_text. rewrite Ek. reflexivity.
  - unfold ord. simpl. lia.
Qed.

Lemma nth_error_skipn_nil (s : str) i : skipn i s = [] -> nth_error s i = None.
Proof.
  intros H. replace i with (i + 0)%nat by lia. rewrite <- nth_error_skipn, H. reflexivity.
Qed.

(** The loop over what follows an entry: every comma has no space before
    it and one after it, the closing brace has no space before it. *)
Lemma validate_loop_rest rest : forall s i line start_col d depth,
  forallb entry_ok rest = true ->
  skipn (S i) s = inline_rest rest ->
  nth_error s i = Some d -> d <> ord " " ->
  forall n, Parser.validate_loop n s (S i) line start_col
              (ord "{") (ord "}") false false false depth = Ok tt.
Proof.
  induction rest as [|e rest IH]; intros s i line start_col d depth Hall Hs Hd Hdn n.
  - destruct n as [|n]; [reflexivity|].
    cbn [inline_rest lit map list_ascii_of_string] in Hs.
    cbn [Parser.validate_loop].
    rewrite (nth_error_at_skipn _ _ _ _ Hs). cbv zeta.
    change (ord "}" =? ord "'") with false. change (ord "}" =? DQUOTE) with false.
    change (ord "}" =? ord "{") with false. change (ord "}" =? ord "}") with true.
    cbv beta iota.
    replace (S i - 1)%nat with i by lia. rewrite Hd.
    unfold Lexer.ch_is at 1. apply Z.eqb_neq in Hdn. rewrite Hdn, andb_false_r.
    destruct n as [|n]; [reflexivity|].
    cbn [Parser.validate_loop].
    rewrite (nth_error_skipn_nil _ _ (skipn_next _ _ _ _ Hs)). reflexivity.
  - destruct n as [|n]; [reflexivity|].
    cbn [forallb] in Hall. apply andb_true_iff in Hall. destruct Hall as [He Hall].
    cbn [inline_rest lit map list_ascii_of_string app] in Hs.
    pose proof (skipn_next _ _ _ _ Hs) as Hs1.
    pose proof (skipn_next _ _ _ _ Hs1) as Hs2.
    destruct (entry_text_first e He) as [x [r [Ex Hx]]].
    destruct (entry_text_last e He) as [body [z [Ez Hz]]].
    cbn [Parser.validate_loop].
    rewrite (nth_error_at_skipn _ _ _ _ Hs). cbv zeta.
    change (ord "," =? ord "'") with false. change (ord "," =? DQUOTE) with false.
    change (ord "," =? ord "{") with false. change (ord "," =? ord "}") with false.
    change (ord "," =? ord ",") with true.
    cbv beta iota.
    replace (S i - 1)%nat with i by lia. rewrite Hd.
    unfold Lexer.ch_is at 1. apply Z.eqb_neq in Hdn. rewrite Hdn, andb_false_r.
    replace (S i + 1)%nat with (S (S i)) by lia.
    replace (S i + 2)%nat with (S (S (S i))) by lia.
    rewrite (nth_error_at_skipn _ _ _ _ Hs1).
    change (negb (ord " " =? ord " ")) with false. cbn [andb].
    assert (H3 : nth_error s (S (S (S i))) = Some x).
    { eapply nth_error_at_skipn. rewrite Hs2, Ex. reflexivity. }
    rewrite H3. unfold Lexer.ch_is.
    apply Z.eqb_neq in Hx. rewrite Hx, andb_false_r.
    (* the space, the entry, and on *)
    eapply (validate_loop_quiet (ord " " :: entry_text e)) with (tail := inline_rest rest).
    + cbn [forallb]. rewrite (entry_text_quiet e He). reflexivity.
    + exact Hs1.
    + intros m. cbn [List.length].
      replace (S (List.length (entry_text e)) + S (S i))%nat
        with (S (List.length body + S (S (S i)))).
      2:{ rewrite Ez, length_app. cbn [List.length]. lia. }
      eapply IH with (d := z).
      * exact Hall.
      * replace (S (List.length body + S (S (S i))))
          with (List.length (entry_text e) + S (S (S i)))%nat
          by (rewrite Ez, length_app; cbn [List.length]; lia).
        apply skipn_past. exact Hs2.
      * rewrite Nat.add_comm.
        erewrite (nth_error_in_skipn s (S (S (S i))) (entry_text e) (inline_rest rest))
          by (try exact Hs2; rewrite Ez, length_app; cbn [List.length]; lia).
        rewrite Ez, nth_error_app2 by lia. rewrite Nat.sub_diag. reflexivity.
      * exact Hz.
Qed.

Lemma validate_loop_inline e rest line start_col :
  forallb entry_ok (e :: rest) = true ->
  forall n, Parser.validate_loop n (inline_object (e :: rest)) 0 line start_col
              (ord "{") (ord "}") false false false 0 = Ok tt.
Proof.
  intros Hall n. cbn [forallb] in Hall. apply andb_true_iff in Hall.
  destruct Hall as [He Hall].
  set (s := inline_object (e :: rest)).
  assert (Hs : skipn 0 s = ord "{" :: entry_text e ++ inline_rest rest)
    by (unfold s; rewrite inline_object_cons; reflexivity).
  pose proof (skipn_next _ _ _ _ Hs) as Hs1.
  destruct (entry_text_first e He) as [x [r [Ex Hx]]].
  destruct (entry_text_last e He) as [body [z [Ez Hz]]].
  destruct n as [|n]; [reflexivity|].
  cbn [Parser.validate_loop].
  rewrite (nth_error_at_skipn _ _ _ _ Hs). cbv zeta.
  change (ord "{" =? ord "'") with false. change (ord "{" =? DQUOTE) with false.
  change (ord "{" =? ord "{") with true.
  cbv beta iota. cbn [Nat.add].
  assert (H1 : nth_error s 1 = Some x).
  { eapply nth_error_at_skipn. rewrite Hs1, Ex. reflexivity. }
  rewrite H1. unfold Lexer.ch_is. apply Z.eqb_neq in Hx. rewrite Hx.
  eapply (validate_loop_quiet (entry_text e)) with (tail := inline_rest rest).
  - apply entry_text_quiet. exact He.
  - exact Hs1.
  - intros m.
    replace (List.length (entry_text e) + 1)%nat with (S (List.length body + 1))
      by (rewrite Ez, length_app; cbn [List.length]; lia).
    eapply validate_loop_rest with (d := z).
    + exact Hall.
    + replace (S (List.length body + 1)) with (List.length (entry_text e) + 1)%nat
        by (rewrite Ez, length_app; cbn [List.length]; lia).
      apply skipn_past. exact Hs1.
    + rewrite Nat.add_comm.
      erewrite (nth_error_in_skipn s 1 (entry_text e) (inline_rest rest))
        by (try exact Hs1; rewrite Ez, length_app; cbn [List.length]; lia).
      rewrite Ez, nth_error_app2 by lia. rewrite Nat.sub_diag. reflexivity.
    + exact Hz.
Qed.

(** [validate_inline_syntax] at the opening brace of the object. *)
Lemma validate_inline_object e rest src toks pos :
  forallb entry_ok (e :: rest) = true ->
  Parser.validate_inline_syntax 1 1 (ord "{") (ord "}")
    (Parser.mk src [inline_object (e :: rest)] toks pos)
  = Ok (tt, Parser.mk src [inline_object (e :: rest)] toks pos).
Proof.
  intros Hall. unfold Parser.validate_inline_syntax.
  erewrite bind_Ok by reflexivity.
  cbn [Parser.source_lines List.length Z.of_nat Z.leb Z.compare Pos.compare
       Pos.compare_cont Pos.of_succ_nat Z.sub Z.add Z.opp Z.pos_sub Z.to_nat nth].
  cbv zeta.
  replace (1 <=? Z.of_nat (List.length (inline_object (e :: rest)))) with true.
  2:{ symmetry. apply Z.leb_le. rewrite inline_object_cons. cbn [List.length]. lia. }
  cbn [skipn].
  rewrite (validate_loop_inline e rest 1 1 Hall). reflexivity.
Qed.

(** *** The parser on the tokens of an inline object *)

(** One pass of the loop of [parse_inline_object] over an entry, followed
    by a comma or by the closing brace: the entry is assigned. *)
Lemma parse_inline_entry (last : bool) e f lbrace obj src (lines : list str) toks pos
      (s : str) o tl v c tail :
  entry_ok e = true ->
  nth_error lines 0 = Some s ->
  skipn o s = entry_text e ++ tl ->
  skipn pos toks
  = entry_tokens (Z.of_nat 0 + 1) (Z.of_nat o + 1) e
    ++ Token.mk (if last then RBRACE else COMMA) v 1 c :: tail ->
  Parser.parse_inline_object_loop (S (S f)) lbrace obj (Parser.mk src lines toks pos)
  = Parser.parse_inline_object_loop (S f) lbrace (assign obj e)
      (Parser.mk src lines toks ((if last then 3 else 4) + pos)).
Proof.
  intros Hok Hl Hs Ht.
  destruct (entry_text_chars e Hok) as [z [d [Hz [Hzn [Hsp [Hd [Hdn Hklen]]]]]]].
  pose proof (entry_text_length e) as Hlen.
  assert (Hz' : nth_error s (o + (List.length (fst e) - 1)) = Some z)
    by (rewrite (nth_error_in_skipn s o _ _ _ Hs) by lia; exact Hz).
  assert (Hsp' : nth_error s (S (o + List.length (fst e))) = Some (ord " ")).
  { replace (S (o + List.length (fst e))) with (o + (List.length (fst e) + 1))%nat by lia.
    rewrite (nth_error_in_skipn s o _ _ _ Hs); [exact Hsp|].
    apply nth_error_Some. rewrite Hsp. discriminate. }
  assert (Hd' : nth_error s (S (S (o + List.length (fst e)))) = Some d).
  { replace (S (S (o + List.length (fst e)))) with (o + (List.length (fst e) + 2))%nat by lia.
    rewrite (nth_error_in_skipn s o _ _ _ Hs); [exact Hd|].
    apply nth_error_Some. rewrite Hd. discriminate. }
  unfold entry_tokens in Ht. cbn [app] in Ht.
  pose proof (skipn_tokens_next _ _ _ _ Ht) as Ht2.
  pose proof (skipn_tokens_next _ _ _ _ Ht2) as Ht3.
  pose proof (skipn_tokens_next _ _ _ _ Ht3) as Ht4.
  cbn [Parser.parse_inline_object_loop].
  erewrite bind_Ok by (eapply parser_peek; exact Ht). tok_norm. cbv beta iota.
  erewrite bind_Ok.
  2:{ unfold Parser.parse_key.
      erewrite bind_Ok by (eapply parser_peek; exact Ht). tok_norm.
      erewrite bind_Ok by (eapply parser_advance; exact Ht). reflexivity. }
  erewrite bind_Ok by (eapply parser_peek; exact Ht2). tok_norm.
  erewrite bind_Ok by reflexivity.
  erewrite bind_Ok.
  2:{ unfold Parser.expect.
      erewrite bind_Ok by (eapply parser_peek; exact Ht2). tok_norm.
      eapply parser_advance; exact Ht2. }
  erewrite bind_Ok.
  2:{ replace (Z.of_nat o + 1 + Z.of_nat (List.length (fst e)))
        with (Z.of_nat (o + (List.length (fst e) - 1)) + 2) by lia.
      eapply check_no_space_before_ok; eassumption. }
  erewrite bind_Ok.
  2:{ replace (Z.of_nat o + 1 + Z.of_nat (List.length (fst e)))
        with (Z.of_nat (o + List.length (fst e)) + 1) by lia.
      eapply check_one_space_after_colon_ok; eassumption. }
  erewrite bind_Ok.
  2:{ cbn [Parser.parse_inline_value].
      erewrite bind_Ok by (eapply parser_peek; exact Ht3). tok_norm.
      erewrite bind_Ok by (eapply parser_advance; exact Ht3). reflexivity. }
  cbv zeta.
  erewrite bind_Ok by (eapply parser_peek; exact Ht4). tok_norm.
  unfold assign. destruct last; cbv beta iota.
  - reflexivity.
  - erewrite bind_Ok by (eapply parser_advance; exact Ht4). reflexivity.
Qed.

Lemma parse_inline_close f lbrace obj src lines toks pos v l c tail :
  skipn pos toks = Token.mk RBRACE v l c :: tail ->
  Parser.parse_inline_object_loop (S f) lbrace obj (Parser.mk src lines toks pos)
  = Ok (obj, Parser.mk src lines toks pos).
Proof.
  intros Ht. cbn [Parser.parse_inline_object_loop].
  erewrite bind_Ok by (eapply parser_peek; exact Ht). reflexivity.
Qed.

(** The loop of [parse_inline_object] over the entries: the assignments
    one after the other, up to the closing brace. *)
Lemma parse_inline_entries rest : forall e o obj pos f lbrace src (lines : list str) toks
                                         (s : str) tail,
  forallb entry_ok (e :: rest) = true ->
  nth_error lines 0 = Some s ->
  skipn o s = entry_text e ++ inline_rest rest ->
  skipn pos toks
  = entry_tokens 1 (Z.of_nat o + 1) e
    ++ inline_rest_tokens (Z.of_nat o + 1 + Z.of_nat (List.length (entry_text e))) rest
    ++ tail ->
  Parser.parse_inline_object_loop (List.length rest + 2 + f) lbrace obj
    (Parser.mk src lines toks pos)
  = Ok (fold_left assign (e :: rest) obj,
        Parser.mk src lines toks (4 * List.length rest + 3 + pos)).
Proof.
  induction rest as [|e' rest IH];
    intros e o obj pos f lbrace src lines toks s tail Hall Hl Hs Ht;
    cbn [forallb] in Hall; apply andb_true_iff in Hall; destruct Hall as [He Hall].
  - cbn [inline_rest_tokens app] in Ht.
    cbn [List.length Nat.add Nat.mul fold_left].
    rewrite (parse_inline_entry true e f lbrace obj src lines toks pos s o
               (inline_rest []) _ _ tail He Hl Hs Ht).
    eapply parse_inline_close.
    unfold entry_tokens in Ht. cbn [app] in Ht.
    do 3 (apply skipn_tokens_next in Ht). exact Ht.
  - cbn [inline_rest_tokens] in Ht. rewrite <- ?app_assoc in Ht. cbn [app] in Ht.
    rewrite <- ?app_assoc in Ht.
    change (List.length (e' :: rest) + 2 + f)%nat with (S (List.length rest + 2 + f)).
    replace (S (List.length rest + 2 + f)) with (S (S (List.length rest + 1 + f))) by lia.
    rewrite (parse_inline_entry false e _ lbrace obj src lines toks pos s o
               (inline_rest (e' :: rest)) _ _ _ He Hl Hs Ht).
    replace (S (List.length rest + 1 + f)) with (List.length rest + 2 + f)%nat by lia.
    cbn [inline_rest lit map list_ascii_of_string app] in Hs.
    pose proof (skipn_next _ _ _ _ (skipn_next _ _ _ _ (skipn_past _ _ _ _ Hs))) as Hs'.
    unfold entry_tokens in Ht at 1. cbn [app] in Ht.
    do 4 (apply skipn_tokens_next in Ht).
    replace (Z.of_nat o + 1 + Z.of_nat (List.length (entry_text e)) + 2)
      with (Z.of_nat (S (S (List.length (entry_text e) + o))) + 1) in Ht by lia.
    cbn [Nat.add] in Ht |- *.
    rewrite (IH e' (S (S (List.length (entry_text e) + o))) (assign obj e)
               (S (S (S (S pos)))) f lbrace src lines toks s tail Hall Hl Hs' Ht).
    cbn [fold_left List.length]. f_equal. f_equal. f_equal. lia.
Qed.

Lemma inline_rest_tokens_last rest : forall c,
  exists front c',
    inline_rest_tokens c rest = front ++ [Token.mk RBRACE (VStr (lit "}")) 1 c']
    /\ List.length front = (4 * List.length rest)%nat.
Proof.
  induction rest as [|e rest IH]; intros c.
  - exists [], c. split; reflexivity.
  - destruct (IH (c + 2 + Z.of_nat (List.length (entry_text e)))) as [front [c' [E Hlen]]].
    exists (Token.mk COMMA (VStr (lit ",")) 1 c :: entry_tokens 1 (c + 2) e ++ front), c'.
    split.
    + cbn [inline_rest_tokens]. rewrite E. cbn [app]. rewrite <- app_assoc. reflexivity.
    + unfold entry_tokens. cbn [app List.length]. rewrite Hlen. lia.
Qed.

(** [Parser.parse] on the tokens of an inline object. *)
Lemma parse_inline_document e rest f :
  forallb entry_ok (e :: rest) = true ->
  exists st,
    Parser.parse (List.length rest + 4 + f)
      (Parser.mk (inline_object (e :: rest)) [inline_object (e :: rest)]
         (inline_tokens e rest) 0)
    = Ok (VDict (parsed_entries (e :: rest)), st).
Proof.
  intros Hall.
  set (src := inline_object (e :: rest)).
  set (c := 1 + Z.of_nat (List.length src)).
  destruct (inline_rest_tokens_last rest (2 + Z.of_nat (List.length (entry_text e))))
    as [front [c' [Efront Hfront]]].
  set (tail := [Token.mk NEWLINE (VStr [NL]) 1 c; Token.mk EOF VNone 1 c]).
  set (toks := inline_tokens e rest).
  assert (Ht0 : skipn 0 toks
                = Token.mk INDENT (VInt 0) 1 1 :: Token.mk LBRACE (VStr (lit "{")) 1 1
                  :: entry_tokens 1 (Z.of_nat 1 + 1) e
                  ++ inline_rest_tokens
                       (Z.of_nat 1 + 1 + Z.of_nat (List.length (entry_text e))) rest
                  ++ tail) by reflexivity.
  pose proof (skipn_tokens_next _ _ _ _ Ht0) as Ht1.
  pose proof (skipn_tokens_next _ _ _ _ Ht1) as Ht2.
  assert (Hend : skipn (S (4 * List.length rest + 3 + 2)) toks = tail
                 /\ skipn (4 * List.length rest + 3 + 2) toks
                    = Token.mk RBRACE (VStr (lit "}")) 1 c' :: tail).
  { assert (E : toks = (Token.mk INDENT (VInt 0) 1 1 :: Token.mk LBRACE (VStr (lit "{")) 1 1
                        :: entry_tokens 1 2 e ++ front)
                       ++ Token.mk RBRACE (VStr (lit "}")) 1 c' :: tail).
    { unfold toks, inline_tokens. fold src. fold c. fold tail.
      rewrite Efront. cbn [app]. rewrite <- !app_assoc. reflexivity. }
    assert (Hl : (4 * List.length rest + 3 + 2
                  = List.length (Token.mk INDENT (VInt 0) 1 1
                                 :: Token.mk LBRACE (VStr (lit "{")) 1 1
                                 :: entry_tokens 1 2 e ++ front) + 0)%nat).
    { unfold entry_tokens. cbn [app List.length]. rewrite Hfront. lia. }
    assert (H : skipn (4 * List.length rest + 3 + 2) toks
                = Token.mk RBRACE (VStr (lit "}")) 1 c' :: tail).
    { rewrite Hl, E. rewrite skipn_app, skipn_all2 by lia.
      rewrite Nat.add_0_r, Nat.sub_diag. reflexivity. }
    split; [eapply skipn_tokens_next; exact H | exact H]. }
  destruct Hend as [Hend1 Hend0].
  replace (List.length rest + 4 + f)%nat with (S (S (List.length rest + 2 + f))) by lia.
  eexists. unfold Parser.parse.
  erewrite bind_Ok by reflexivity. cbv zeta.
  erewrite bind_Ok.
  2:{ cbn [Parser.skip_leading_newlines].
      erewrite bind_Ok by (eapply parser_kind_is; exact Ht0). tok_norm. reflexivity. }
  erewrite bind_Ok by (eapply parser_peek; exact Ht0). tok_norm.
  erewrite bind_Ok.
  2:{ change (0 <? 0) with false. cbv beta iota.
      erewrite bind_Ok by reflexivity.
      erewrite bind_Ok by (eapply parser_advance; exact Ht0). reflexivity. }
  erewrite bind_Ok by (eapply parser_kind_is; exact Ht1). tok_norm.
  erewrite bind_Ok.
  2:{ cbn [Parser.parse_value].
      erewrite bind_Ok by (eapply parser_peek; exact Ht1). tok_norm.
      erewrite bind_Ok.
      2:{ cbn [Parser.parse_inline_object].
          erewrite bind_Ok by (eapply parser_peek; exact Ht1).
          erewrite bind_Ok.
          2:{ unfold Parser.expect.
              erewrite bind_Ok by (eapply parser_peek; exact Ht1). tok_norm.
              eapply parser_advance; exact Ht1. }
          unfold entry_tokens in Ht2 at 1. cbn [app] in Ht2.
          erewrite bind_Ok by (eapply parser_kind_is; exact Ht2). tok_norm.
          erewrite bind_Ok by reflexivity.
          erewrite bind_Ok by (apply validate_inline_object; exact Hall).
          erewrite bind_Ok.
          2:{ eapply (parse_inline_entries rest e 1) with (s := src) (tail := tail).
              - exact Hall.
              - reflexivity.
              - unfold src. rewrite inline_object_cons. reflexivity.
              - exact Ht2. }
          erewrite bind_Ok.
          2:{ unfold Parser.expect.
              erewrite bind_Ok by (eapply parser_peek; exact Hend0). tok_norm.
              eapply parser_advance; exact Hend0. }
          reflexivity. }
      reflexivity. }
  erewrite bind_Ok.
  2:{ cbn [Parser.skip_newlines].
      erewrite bind_Ok by (eapply parser_peek; exact Hend1). tok_norm.
      erewrite bind_Ok by (eapply parser_advance; exact Hend1).
      erewrite bind_Ok by (eapply parser_peek; eapply skipn_tokens_next; exact Hend1).
      tok_norm. reflexivity. }
  erewrite bind_Ok
    by (eapply parser_kind_is; eapply skipn_tokens_next; exact Hend1).
  tok_norm. reflexivity.
Qed.

(** [loads] on an inline object: one assignment per entry, in order. *)
Lemma loads_inline_object host entries :
  entries <> [] ->
  forallb entry_ok entries = true ->
  loads host (inline_object entries) = Ok (VDict (parsed_entries entries)).
Proof.
  intros Hne Hall. destruct entries as [|e rest]; [contradiction Hne; reflexivity|].
  unfold loads, Lexer.__init__.
  rewrite (inline_object_validates e rest Hall).
  destruct (tokenize_inline_object host e rest Hall) as [st Htok]. rewrite Htok.
  rewrite (split_nl_inline e rest Hall).
  destruct (inline_rest_tokens_last rest (2 + Z.of_nat (List.length (entry_text e))))
    as [front [c' [Efront Hfront]]].
  replace (Parser.fuel_for _)
    with (List.length rest + 4 + (15 * List.length rest + 44))%nat.
  2:{ unfold Parser.fuel_for, inline_tokens. cbv zeta. rewrite Efront.
      unfold entry_tokens. cbn [app List.length]. rewrite !length_app.
      cbn [List.length]. rewrite Hfront. lia. }
  destruct (parse_inline_document e rest (15 * List.length rest + 44) Hall) as [st' Hp].
  rewrite Hp. reflexivity.
Qed.

(** *** The last assignment to a key is the one that stays *)







(** ** What [_validate_source] accepts and where it stops *)

Lemma endswith_space_nonempty l : endswith_space l = true -> str_eqb l [] = false.
Proof.
  destruct l as [|x l]; [discriminate|]. intros _.
  unfold str_eqb. destruct (list_eq_dec Z.eq_dec (x :: l) []); [discriminate | reflexivity].
Qed.

Lemma check_code_points_accepts s : forall l c,
  Lexer.check_code_points s l c = Ok tt <-> forallb Lexer._is_allowed_code_point s = true.
Proof.
  induction s as [|x s IH]; intros l c; cbn [Lexer.check_code_points forallb].
  - split; reflexivity.
  - destruct (Lexer._is_allowed_code_point x) eqn:Hx; cbn [negb andb].
    + destruct (x =? 10); apply IH.
    + split; [|discriminate].
      destruct (x =? 9); [discriminate|].
      destruct ((55296 <=? x) && (x <=? 57343)); discriminate.
Qed.

Lemma check_trailing_spaces_accepts lines : forall i n,
  Lexer.check_trailing_spaces lines i n = Ok tt
  <-> forallb (fun l => negb (endswith_space l)) lines = true.
Proof.
  induction lines as [|l lines IH]; intros i n; cbn [Lexer.check_trailing_spaces forallb].
  - split; reflexivity.
  - destruct (endswith_space l) eqn:Hl; cbn [negb andb].
    + rewrite (endswith_space_nonempty l Hl), andb_false_r. cbn [negb].
      split; discriminate.
    + apply IH.
Qed.

(** X1.  [_validate_source] accepts a source exactly when the source does
    not start with a byte-order mark (a test made on sources of three
    characters or more), all its code points are allowed, and none of its
    lines ends in a space. *)
Theorem validate_source_accepts :
  forall s,
    Lexer._validate_source s = Ok tt
    <-> (starts_with_bom s = false
         /\ forallb Lexer._is_allowed_code_point s = true
         /\ no_trailing_space s = true).
Proof.
  intros s. unfold Lexer._validate_source, no_trailing_space.
  fold (starts_with_bom s).
  destruct (starts_with_bom s).
  - split; [discriminate | intros [H _]; discriminate].
  - pose proof (check_code_points_accepts s 1 1) as Hcp.
    destruct (Lexer.check_code_points s 1 1) as [[]| e |].
    + rewrite check_trailing_spaces_accepts.
      split; [intros H; repeat split; [apply Hcp; reflexivity | exact H] | tauto].
    + split; [discriminate|]. intros [_ [H _]]. apply Hcp in H. discriminate.
    + split; [discriminate|]. intros [_ [H _]]. apply Hcp in H. discriminate.
Qed.

Lemma split_nl_aux_nonempty s : forall cur, split_nl_aux s cur <> [].
Proof.
  induction s as [|x s IH]; intros cur; cbn [split_nl_aux]; [discriminate|].
  destruct (x =? NL); [discriminate | apply IH].
Qed.

Lemma last_cons (a : str) l d : l <> [] -> last (a :: l) d = last l d.
Proof. destruct l; [congruence | reflexivity]. Qed.

(** The loop over the code points stops at the first one that is not
    allowed, with the line and column it has counted up to there. *)
Lemma check_code_points_stops pre : forall c post l col cur,
  forallb Lexer._is_allowed_code_point pre = true ->
  Lexer._is_allowed_code_point c = false ->
  col = 1 + Z.of_nat (List.length cur) ->
  Lexer.check_code_points (pre ++ c :: post) l col
  = Lexer.check_code_points [c] (l + Z.of_nat (count_occ Z.eq_dec pre NL))
      (1 + Z.of_nat (List.length (last (split_nl_aux pre cur) []))).
Proof.
  induction pre as [|x pre IH]; intros c post l col cur Hall Hc Hcol.
  - cbn [app count_occ split_nl_aux last Z.of_nat]. rewrite length_rev, Z.add_0_r, <- Hcol.
    cbn [Lexer.check_code_points]. rewrite Hc. reflexivity.
  - cbn [forallb] in Hall. apply andb_true_iff in Hall. destruct Hall as [Hx Hall].
    cbn [app Lexer.check_code_points]. rewrite Hx. cbn [negb].
    change 0x0A with NL. cbn [count_occ split_nl_aux].
    destruct (Z.eqb_spec x NL) as [E|E].
    + subst x. destruct (Z.eq_dec NL NL) as [_|N]; [|congruence].
      rewrite (IH c post (l + 1) 1 [] Hall Hc eq_refl).
      rewrite last_cons by apply split_nl_aux_nonempty.
      replace (l + Z.of_nat (S (count_occ Z.eq_dec pre NL)))
        with (l + 1 + Z.of_nat (count_occ Z.eq_dec pre NL)) by lia.
      reflexivity.
    + destruct (Z.eq_dec x NL) as [N|_]; [congruence|].
      rewrite (IH c post l (col + 1) (x :: cur) Hall Hc).
      * reflexivity.
      * cbn [List.length]. lia.
Qed.

Lemma loads_validation_error host s e :
  Lexer._validate_source s = Raise e -> loads host s = Raise e.
Proof. intros H. unfold loads, Lexer.__init__. rewrite H. reflexivity. Qed.

Lemma validate_stops_at_code_point pre c post :
  starts_with_bom (pre ++ c :: post) = false ->
  forallb Lexer._is_allowed_code_point pre = true ->
  Lexer._is_allowed_code_point c = false ->
  Lexer._validate_source (pre ++ c :: post)
  = Lexer.check_code_points [c] (line_of pre) (col_of pre).
Proof.
  intros Hbom Hall Hc. unfold Lexer._validate_source.
  fold (starts_with_bom (pre ++ c :: post)). rewrite Hbom.
  rewrite (check_code_points_stops pre c post 1 1 [] Hall Hc eq_refl).
  fold (split_nl pre). fold (line_of pre). fold (col_of pre).
  cbn [Lexer.check_code_points]. rewrite Hc. cbn [negb].
  destruct (c =? 9); [reflexivity|].
  destruct ((55296 <=? c) && (c <=? 57343)); reflexivity.
Qed.

(** X2.  A source whose first forbidden code point is [c], after the
    allowed text [pre], is rejected at the line and column of [c]: as a
    tab, as a surrogate, or as [Forbidden code point U+XXXX] with the code
    point in four or more uppercase hex digits.  (A source that starts with
    a byte-order mark is rejected for that first.) *)
Theorem forbidden_code_point_position :
  forall host pre c post,
    starts_with_bom (pre ++ c :: post) = false ->
    forallb Lexer._is_allowed_code_point pre = true ->
    Lexer._is_allowed_code_point c = false ->
    (c = TAB ->
     loads host (pre ++ c :: post)
     = Raise (YaySyntaxError (lit "Tab not allowed (use spaces)") (line_of pre) (col_of pre)))
    /\ (0xD800 <= c <= 0xDFFF ->
        loads host (pre ++ c :: post)
        = Raise (YaySyntaxError (lit "Illegal surrogate") (line_of pre) (col_of pre)))
    /\ (c <> TAB -> c < 0xD800 \/ 0xDFFF < c ->
        loads host (pre ++ c :: post)
        = Raise (YaySyntaxError (lit "Forbidden code point U+" ++ format_04X c)
                   (line_of pre) (col_of pre))).
Proof.
  intros host pre c post Hbom Hall Hc.
  pose proof (validate_stops_at_code_point pre c post Hbom Hall Hc) as H.
  cbn [Lexer.check_code_points] in H. rewrite Hc in H. cbn [negb] in H.
  split; [|split].
  - intros E. subst c. apply loads_validation_error. rewrite H. reflexivity.
  - intros R. apply loads_validation_error. rewrite H.
    replace (c =? 9) with false by (symmetry; apply Z.eqb_neq; lia).
    replace ((55296 <=? c) && (c <=? 57343)) with true; [reflexivity|].
    symmetry. apply andb_true_iff. split; apply Z.leb_le; lia.
  - intros N R. apply loads_validation_error. rewrite H.
    replace (c =? 9) with false by (symmetry; apply Z.eqb_neq; exact N).
    replace ((55296 <=? c) && (c <=? 57343)) with false; [reflexivity|].
    symmetry. apply andb_false_iff.
    destruct R; [left; apply Z.leb_gt; lia | right; apply Z.leb_gt; lia].
Qed.

Lemma forbidden_code_point_position_witness :
  loads ascii_host (lit "a: 1" ++ [NL] ++ lit "b:" ++ [TAB] ++ lit "2")
  = Raise (YaySyntaxError (lit "Tab not allowed (use spaces)") 2 3)
  /\ loads ascii_host (lit "a: " ++ [0x7F])
     = Raise (YaySyntaxError (lit "Forbidden code point U+007F") 1 4).
Proof.
  split.
  - exact (proj1 (forbidden_code_point_position ascii_host
                    (lit "a: 1" ++ [NL] ++ lit "b:") TAB (lit "2")
                    eq_refl eq_refl eq_refl) eq_refl).
  - exact (proj2 (proj2 (forbidden_code_point_position ascii_host
                           (lit "a: ") 0x7F [] eq_refl eq_refl eq_refl))
             ltac:(discriminate) ltac:(left; reflexivity)).
Defined.

(** The loop over the lines stops at the first line that ends in a space. *)
Lemma check_trailing_spaces_stops before : forall l after i n,
  forallb (fun l => negb (endswith_space l)) before = true ->
  endswith_space l = true ->
  Lexer.check_trailing_spaces (before ++ l :: after) i n
  = Raise (YaySyntaxError (lit "Unexpected trailing space")
             (Z.of_nat (i + List.length before) + 1) (Z.of_nat (List.length l))).
Proof.
  induction before as [|b before IH]; intros l after i n Hall Hl.
  - cbn [app Lexer.check_trailing_spaces List.length].
    rewrite Hl, (endswith_space_nonempty l Hl), andb_false_r. cbn [negb andb].
    rewrite Nat.add_0_r. reflexivity.
  - cbn [forallb] in Hall. apply andb_true_iff in Hall. destruct Hall as [Hb Hall].
    apply negb_true_iff in Hb.
    cbn [app Lexer.check_trailing_spaces]. rewrite Hb. cbn [andb].
    rewrite (IH l after (S i) n Hall Hl). cbn [List.length].
    replace (S i + List.length before)%nat with (i + S (List.length before))%nat by lia.
    reflexivity.
Qed.

(** X3.  A source of allowed code points in which a line ends in a space
    is rejected with [Unexpected trailing space] at the first such line,
    the column being the length of the line, that is the column of its
    last space. *)
Theorem trailing_space_position :
  forall host s before l after,
    starts_with_bom s = false ->
    forallb Lexer._is_allowed_code_point s = true ->
    split_nl s = before ++ l :: after ->
    forallb (fun l => negb (endswith_space l)) before = true ->
    endswith_space l = true ->
    loads host s
    = Raise (YaySyntaxError (lit "Unexpected trailing space")
               (Z.of_nat (List.length before) + 1) (Z.of_nat (List.length l))).
Proof.
  intros host s before l after Hbom Hall Hsplit Hbefore Hl.
  apply loads_validation_error. unfold Lexer._validate_source.
  fold (starts_with_bom s). rewrite Hbom.
  replace (Lexer.check_code_points s 1 1) with (@Ok unit tt)
    by (symmetry; apply check_code_points_accepts; exact Hall).
  cbv zeta. rewrite Hsplit.
  rewrite (check_trailing_spaces_stops before l after 0 _ Hbefore Hl). reflexivity.
Qed.

Lemma trailing_space_position_witness :
  loads ascii_host (lit "a: 1" ++ [NL] ++ lit "b: 2 " ++ [NL] ++ lit "c: 3 ")
  = Raise (YaySyntaxError (lit "Unexpected trailing space") 2 5).
Proof.
  exact (trailing_space_position ascii_host
           (lit "a: 1" ++ [NL] ++ lit "b: 2 " ++ [NL] ++ lit "c: 3 ")
           [lit "a: 1"] (lit "b: 2 ") [lit "c: 3 "]
           eq_refl eq_refl eq_refl eq_refl eq_refl).
Defined.

(** ** What [dumps] writes for a string *)

Lemma forallb_flat_map {A} (P : Z -> bool) (f : A -> str) l :
  (forall x, In x l -> forallb P (f x) = true) -> forallb P (flat_map f l) = true.
Proof.
  induction l as [|x l IH]; intros H; [reflexivity|].
  cbn [flat_map]. rewrite forallb_app, H by (left; reflexivity).
  apply IH. intros y Hy. apply H. right. exact Hy.
Qed.

Lemma digits_aux_printable fuel : forall n acc,
  0 <= n -> forallb printable acc = true ->
  forallb printable (digits_aux fuel 16 lower_hex_digit n acc) = true.
Proof.
  assert (Hd : forall d, 0 <= d < 16 -> printable (lower_hex_digit d) = true).
  { intros d R. unfold printable, lower_hex_digit, ord. cbn.
    destruct (d <? 10); apply Z.leb_le; lia. }
  induction fuel as [|fuel IH]; intros n acc Hn Hacc; cbn [digits_aux]; [exact Hacc|].
  destruct (Z.ltb_spec n 16).
  - cbn [forallb]. rewrite Hd by lia. exact Hacc.
  - apply IH.
    + apply Z.div_pos; lia.
    + cbn [forallb]. rewrite Hd by (apply Z.mod_pos_bound; lia). exact Hacc.
Qed.

Lemma format_04x_printable n : 0 <= n -> forallb printable (format_04x n) = true.
Proof.
  intros Hn. unfold format_04x, pad_left. rewrite forallb_app.
  rewrite digits_aux_printable by (try exact Hn; reflexivity).
  rewrite andb_true_r. apply forallb_forall. intros x Hx.
  apply repeat_spec in Hx. subst x. reflexivity.
Qed.

Lemma escape_double_quoted_printable s :
  forallb (fun c => 0 <=? c) s = true ->
  forallb printable (Dumper._escape_double_quoted s) = true.
Proof.
  intros Hs. unfold Dumper._escape_double_quoted. apply forallb_flat_map.
  intros ch Hin. rewrite forallb_forall in Hs. pose proof (Hs ch Hin) as Hch.
  apply Z.leb_le in Hch.
  destruct (ch =? DQUOTE); [reflexivity|].
  destruct (ch =? ord "\"); [reflexivity|].
  destruct (ch =? NL); [reflexivity|].
  destruct (ch =? CR); [reflexivity|].
  destruct (ch =? TAB); [reflexivity|].
  destruct (ch =? BS); [reflexivity|].
  destruct (ch =? FF); [reflexivity|].
  destruct (Z.ltb_spec ch 0x20).
  - cbn [lit map list_ascii_of_string app forallb].
    rewrite format_04x_printable by exact Hch. reflexivity.
  - cbn [forallb]. unfold printable. rewrite andb_true_r. apply Z.leb_le. lia.
Qed.

Lemma no_double_quote_needed_printable s :
  Dumper._needs_double_quote s = false -> forallb printable s = true.
Proof.
  unfold Dumper._needs_double_quote. intros H. apply forallb_forall. intros c Hc.
  assert (Hx : forall x, In x s ->
                 ((x =? NL) || (x =? CR) || (x =? TAB) || (x =? BS) || (x =? FF)
                  || (x =? ord "\") || (x <? 0x20)) = false).
  { intros x Hx. destruct ((x =? NL) || (x =? CR) || (x =? TAB) || (x =? BS) || (x =? FF)
                           || (x =? ord "\") || (x <? 0x20)) eqn:E; [|reflexivity].
    assert (Hex : existsb (fun ch => (ch =? NL) || (ch =? CR) || (ch =? TAB) || (ch =? BS)
                                     || (ch =? FF) || (ch =? ord "\") || (ch <? 0x20)) s = true)
      by (apply existsb_exists; exists x; split; assumption).
    congruence. }
  specialize (Hx c Hc). apply orb_false_iff in Hx. destruct Hx as [_ Hx].
  unfold printable. apply Z.leb_le. apply Z.ltb_ge in Hx. exact Hx.
Qed.

(** X4.  The text [dumps] writes for a string holds no control character
    (nothing below U+0020), whatever the string holds: it is quoted text
    on a single line. *)
Theorem dumps_string_has_no_control_character :
  forall host s indent,
    forallb (fun c => 0 <=? c) s = true ->
    forallb printable (Dumper.dumps host (VStr s) indent) = true.
Proof.
  intros host s indent Hs. unfold Dumper.dumps. cbn [Dumper._format_value].
  unfold Dumper.format_str.
  destruct (Dumper._needs_double_quote s) eqn:Hq.
  - unfold dq. rewrite !forallb_app.
    rewrite escape_double_quoted_printable by exact Hs. reflexivity.
  - pose proof (no_double_quote_needed_printable s Hq) as Hp.
    destruct (Dumper.contains (ord "'") s && negb (Dumper.contains DQUOTE s)).
    + unfold dq. rewrite !forallb_app, Hp. reflexivity.
    + rewrite !forallb_app. cbn [forallb]. rewrite andb_true_r.
      replace (forallb printable (Dumper._escape_single_quoted s)) with true; [reflexivity|].
      symmetry. unfold Dumper._escape_single_quoted. apply forallb_flat_map.
      intros ch Hin. rewrite forallb_forall in Hp. pose proof (Hp ch Hin) as Hch.
      destruct (ch =? ord "'"); [reflexivity|].
      cbn [forallb]. rewrite Hch. reflexivity.
Qed.

Lemma dumps_string_has_no_control_character_witness :
  forallb printable (Dumper.dumps ascii_host (VStr (lit "a" ++ [NL; 1] ++ lit "b")) true) = true.
Proof.
  exact (dumps_string_has_no_control_character ascii_host
           (lit "a" ++ [NL; 1] ++ lit "b") true eq_refl).
Defined.

(** ** [null], booleans and integers there and back *)

(** *** [str(n)] and [int(s)] *)

Lemma dec_fold s : forall a,
  fold_left (fun acc d => 10 * acc + (d - ord "0")) s a
  = a * 10 ^ Z.of_nat (List.length s) + dec_value s.
Proof.
  unfold dec_value. induction s as [|x s IH]; intros a.
  - cbn [fold_left List.length Z.of_nat]. rewrite Z.pow_0_r. lia.
  - cbn [fold_left]. rewrite IH. rewrite (IH (10 * 0 + (x - ord "0"))).
    cbn [List.length]. rewrite Nat2Z.inj_succ, Z.pow_succ_r by lia. ring.
Qed.

Lemma dec_value_cons x s :
  dec_value (x :: s) = (x - ord "0") * 10 ^ Z.of_nat (List.length s) + dec_value s.
Proof. unfold dec_value at 1. cbn [fold_left]. rewrite dec_fold. ring. Qed.

Lemma digits_aux_decimal fuel : forall n acc,
  0 <= n < Z.of_nat fuel ->
  forallb ascii_digit acc = true ->
  forallb ascii_digit (digits_aux fuel 10 (fun d => ord "0" + d) n acc) = true
  /\ Lexer.nonempty (digits_aux fuel 10 (fun d => ord "0" + d) n acc) = true
  /\ dec_value (digits_aux fuel 10 (fun d => ord "0" + d) n acc)
     = n * 10 ^ Z.of_nat (List.length acc) + dec_value acc.
Proof.
  assert (Hd : forall d, 0 <= d < 10 -> ascii_digit (ord "0" + d) = true).
  { intros d R. unfold ascii_digit, ord. cbn. apply andb_true_iff.
    split; apply Z.leb_le; lia. }
  induction fuel as [|fuel IH]; intros n acc Hn Hacc; [cbn in Hn; lia|].
  cbn [digits_aux]. destruct (Z.ltb_spec n 10).
  - repeat split.
    + cbn [forallb]. rewrite Hd by lia. exact Hacc.
    + rewrite dec_value_cons. ring.
  - assert (Hq : 0 <= n / 10 < Z.of_nat fuel).
    { split; [apply Z.div_pos; lia|].
      assert (n / 10 < n) by (apply Z.div_lt; lia). lia. }
    assert (Hm : 0 <= n mod 10 < 10) by (apply Z.mod_pos_bound; lia).
    destruct (IH (n / 10) ((ord "0" + n mod 10) :: acc) Hq) as [H1 [H2 H3]].
    { cbn [forallb]. rewrite Hd by exact Hm. exact Hacc. }
    repeat split; [exact H1 | exact H2 |].
    rewrite H3, dec_value_cons. cbn [List.length].
    rewrite Nat2Z.inj_succ, Z.pow_succ_r by lia.
    rewrite (Z.div_mod n 10) at 3 by lia. ring.
Qed.

Lemma str_of_int_digits n :
  0 <= n -> is_digits (str_of_int n) = true /\ dec_value (str_of_int n) = n.
Proof.
  intros Hn. unfold str_of_int. cbv zeta.
  replace (n <? 0) with false by (symmetry; apply Z.ltb_ge; exact Hn).
  rewrite Z.abs_eq by exact Hn.
  destruct (digits_aux_decimal (Z.to_nat n + 1) n []) as [H1 [H2 H3]];
    [lia | reflexivity |].
  split.
  - unfold is_digits. rewrite H1, H2. reflexivity.
  - rewrite H3. cbn [List.length Z.of_nat]. unfold dec_value at 1. cbn [fold_left].
    rewrite Z.pow_0_r. lia.
Qed.

Lemma int_of_decimal_digits s : is_digits s = true -> int_of_decimal s = dec_value s.
Proof.
  intros H. destruct (is_digits_head s H) as [d [r [E Hd]]]. subst s.
  pose proof (ascii_digit_range d Hd) as R. unfold int_of_decimal.
  replace (d =? ord "-") with false
    by (symmetry; apply Z.eqb_neq; unfold ord; simpl; lia).
  reflexivity.
Qed.

Lemma str_of_int_negative n :
  n < 0 -> str_of_int n = ord "-" :: str_of_int (- n).
Proof.
  intros Hn. unfold str_of_int. cbv zeta.
  replace (n <? 0) with true by (symmetry; apply Z.ltb_lt; exact Hn).
  replace (- n <? 0) with false by (symmetry; apply Z.ltb_ge; lia).
  rewrite Z.abs_opp. reflexivity.
Qed.

(** *** A minus sign and digits *)

Section NegativeInteger.

Variable host : Host.
Variable ds : str.
Hypothesis ds_digits : is_digits ds = true.

Lemma negative_validates : Lexer._validate_source (ord "-" :: ds) = Ok tt.
Proof.
  pose proof ds_digits as H. unfold is_digits in H. apply andb_true_iff in H.
  destruct H as [Hne Hall].
  apply validate_plain.
  - cbn [forallb]. apply andb_true_iff. split; [reflexivity|].
    apply forallb_forall. intros x Hx. apply digit_plain.
    rewrite forallb_forall in Hall. apply Hall. exact Hx.
  - split; discriminate.
  - change (ord "-" :: ds) with ([ord "-"] ++ ds).
    rewrite endswith_space_app by (intros E; rewrite E in Hne; discriminate).
    assert (H1 : [ds] <> []) by discriminate.
    assert (H2 : forallb is_digits [ds] = true)
      by (cbn [forallb]; rewrite ds_digits; reflexivity).
    change (endswith_space (grouped [ds]) = false).
    apply grouped_ends_in_digit; assumption.
Qed.

Lemma py_int_negative :
  Lexer.py_int host (ord "-" :: ds) = Some (- dec_value ds).
Proof.
  pose proof ds_digits as H. unfold is_digits in H. apply andb_true_iff in H.
  destruct H as [Hne Hall]. unfold Lexer.py_int.
  assert (Hascii : forallb (fun c => c <? 128) (ord "-" :: ds) = true).
  { cbn [forallb]. apply andb_true_iff. split; [reflexivity|].
    apply forallb_forall. intros x Hx. rewrite forallb_forall in Hall.
    apply Z.ltb_lt. pose proof (ascii_digit_range x (Hall x Hx)). lia. }
  rewrite Hascii. change (ord "-" =? ord "-") with true. cbv beta iota.
  rewrite Hne, Hall. reflexivity.
Qed.

Lemma read_number_negative f l c als cli lt :
  (List.length ds < f)%nat ->
  Lexer.read_number host f (Lexer.mk (ord "-" :: ds) 0 l c als cli lt)
  = Ok (Token.mk INT (VInt (- dec_value ds)) l c,
        Lexer.mk (ord "-" :: ds) (S (List.length ds)) l
          (c + 1 + Z.of_nat (List.length ds)) als cli lt).
Proof.
  intros Hf.
  pose proof ds_digits as H. unfold is_digits in H. apply andb_true_iff in H.
  destruct H as [Hne Hall].
  unfold Lexer.read_number.
  erewrite bind_Ok by reflexivity. cbn [Lexer.line Lexer.col].
  erewrite bind_Ok by (eapply peek_at; reflexivity).
  change (Lexer.ch_is (Some (ord "-")) (ord "-")) with true. cbv beta iota.
  erewrite bind_Ok by (eapply advance_at; [reflexivity | discriminate]).
  erewrite bind_Ok.
  2:{ replace f with (List.length ds + S (f - List.length ds - 1))%nat by lia.
      rewrite (read_number_loop_digits host ds _ _ _ _ _ _ (ord "-" :: ds) 1 _ _ _ _ _ []
                 Hall)
        by (cbn [skipn]; rewrite app_nil_r; reflexivity).
      eapply read_number_loop_end.
      replace (List.length ds + 1)%nat with (List.length (ord "-" :: ds))
        by (cbn [List.length]; lia).
      apply skipn_all. }
  cbv beta iota. cbn [orb app].
  rewrite py_int_negative.
  replace (List.length ds + 1)%nat with (S (List.length ds)) by lia. reflexivity.
Qed.

Lemma scan_negative f toks l c als cli lt :
  Lexer.scan host f toks (Lexer.mk (ord "-" :: ds) 0 l c als cli lt)
  = (tok <- Lexer.read_number host f ;; Lexer.yield_continue toks tok)
      (Lexer.mk (ord "-" :: ds) 0 l c als cli lt).
Proof.
  destruct (is_digits_head ds ds_digits) as [d [r [E Hd]]].
  unfold Lexer.scan.
  erewrite bind_Ok by (eapply peek_at; reflexivity).
  change (Lexer.isdigit host (Some (ord "-"))) with false.
  cbv beta iota.
  change (ord "-" =? NL) with false. change (ord "-" =? ord " ") with false.
  change (ord "-" =? ord "#") with false. change (ord "-" =? TAB) with false.
  change ((ord "-" =? DQUOTE) || (ord "-" =? ord "'")) with false.
  change (ord "-" =? ord "`") with false. change (ord "-" =? ord ">") with false.
  change (ord "-" =? ord "<") with false. change (ord "-" =? ord ".") with false.
  change (ord "-" =? ord "-") with true.
  cbv beta iota. cbn [orb]. cbv beta iota.
  unfold Lexer.minus.
  erewrite bind_Ok by (eapply peek1_at; rewrite E; reflexivity).
  rewrite isdigit_ascii by exact Hd. reflexivity.
Qed.

Lemma tokenize_negative fuel :
  (List.length ds + 4 <= fuel)%nat ->
  exists st,
    Lexer.tokenize host fuel (Lexer.mk (ord "-" :: ds) 0 1 1 true 0 None)
    = Ok ([Token.mk INDENT (VInt 0) 1 1;
           Token.mk INT (VInt (- dec_value ds)) 1 1;
           Token.mk NEWLINE (VStr [NL]) 1 (1 + 1 + Z.of_nat (List.length ds));
           Token.mk EOF VNone 1 (1 + 1 + Z.of_nat (List.length ds))], st).
Proof.
  intros Hfuel.
  do 3 (destruct fuel as [|fuel]; [lia|]).
  eexists. unfold Lexer.tokenize. lex_norm.
  erewrite bind_Ok.
  2:{ erewrite tokenize_loop_step.
      2:{ lex_norm. reflexivity. }
      2:{ eapply line_start_token; [reflexivity | discriminate ..]. }
      2:{ rewrite scan_negative.
          erewrite bind_Ok by (apply read_number_negative; lia).
          reflexivity. }
      apply tokenize_loop_end. lex_norm.
      replace (S (List.length ds)) with (List.length (ord "-" :: ds)) by reflexivity.
      apply skipn_all. }
  erewrite bind_Ok by reflexivity. lex_norm. cbn [negb].
  erewrite bind_Ok by reflexivity.
  erewrite bind_Ok by reflexivity. lex_norm.
  reflexivity.
Qed.

Lemma loads_negative : loads host (ord "-" :: ds) = Ok (VInt (- dec_value ds)).
Proof.
  unfold loads, Lexer.__init__. rewrite negative_validates.
  destruct (tokenize_negative (Lexer.fuel_for (ord "-" :: ds))) as [st Htok].
  { unfold Lexer.fuel_for. cbn [List.length]. lia. }
  rewrite Htok.
  destruct (parse_number (ord "-" :: ds) (split_nl (ord "-" :: ds)) (- dec_value ds)
              (1 + 1 + Z.of_nat (List.length ds))) as [st' Hp].
  change (Parser.fuel_for _) with 32%nat. rewrite Hp. reflexivity.
Qed.

End NegativeInteger.

Lemma loads_digits host ds : is_digits ds = true -> loads host ds = Ok (VInt (dec_value ds)).
Proof.
  intros H.
  assert (H1 : [ds] <> []) by discriminate.
  assert (H2 : forallb is_digits [ds] = true) by (cbn [forallb]; rewrite H; reflexivity).
  change ds with (grouped [ds]) at 1.
  rewrite loads_grouped by assumption.
  cbn [List.concat]. rewrite app_nil_r, int_of_decimal_digits by exact H. reflexivity.
Qed.

Lemma loads_keywords host :
  loads host (lit "null") = Ok VNone
  /\ loads host (lit "true") = Ok (VBool true)
  /\ loads host (lit "false") = Ok (VBool false).
Proof. repeat split; vm_compute; reflexivity. Qed.

(** X5.  [loads (dumps v)] is [v] for [null], the booleans and every
    integer, negative ones included, with either setting of [indent]. *)
Theorem scalar_round_trip :
  forall host v indent,
    scalar v = true -> loads host (Dumper.dumps host v indent) = Ok v.
Proof.
  intros host v indent Hv. unfold Dumper.dumps.
  destruct v as [| b | n | | | | |]; try discriminate Hv; cbn [Dumper._format_value].
  - exact (proj1 (loads_keywords host)).
  - destruct b; [exact (proj1 (proj2 (loads_keywords host)))
                | exact (proj2 (proj2 (loads_keywords host)))].
  - destruct (Z.ltb_spec n 0) as [Hn|Hn].
    + rewrite str_of_int_negative by exact Hn.
      destruct (str_of_int_digits (- n)) as [H1 H2]; [lia|].
      rewrite loads_negative by exact H1. rewrite H2. f_equal. f_equal. lia.
    + destruct (str_of_int_digits n Hn) as [H1 H2].
      rewrite loads_digits by exact H1. rewrite H2. reflexivity.
Qed.

Lemma scalar_round_trip_witness :
  loads ascii_host (Dumper.dumps ascii_host (VInt (-1204)) true) = Ok (VInt (-1204)).
Proof. exact (scalar_round_trip ascii_host (VInt (-1204)) true eq_refl). Defined.

(** ** Byte arrays: there and back, and where reading one stops *)

Lemma loads_empty_bytes host : loads host (lit "<>") = Ok (VBytes []).
Proof. vm_compute. reflexivity. Qed.

(** X6.  [loads (dumps b)] is [b] for every byte string [b], the empty one
    included, with either setting of [indent]. *)
Theorem bytes_round_trip :
  forall host b indent,
    forallb is_byte b = true ->
    loads host (Dumper.dumps host (VBytes b) indent) = Ok (VBytes b).
Proof.
  intros host b indent Hb. unfold Dumper.dumps. cbn [Dumper._format_value].
  destruct b as [|x b'].
  - exact (loads_empty_bytes host).
  - assert (Hne : bytes_hex (x :: b') <> []) by discriminate.
    set (b := x :: b') in *.
    assert (Hhex := bytes_hex_all_hex b Hb).
    change (lit "<" ++ bytes_hex b ++ lit ">") with (inline_bytes (bytes_hex b)).
    rewrite loads_inline_bytes.
    + rewrite filter_all by exact Hhex. rewrite fromhex_bytes_hex by exact Hb. reflexivity.
    + apply hex_is_hex_or_space. exact Hhex.
    + exact Hne.
    + change (bytes_hex b) with ([] ++ bytes_hex b). apply ends_in_space_hex; assumption.
    + rewrite filter_all by exact Hhex. rewrite bytes_hex_length, Nat.even_mul. reflexivity.
Qed.

Lemma bytes_round_trip_witness :
  loads ascii_host (Dumper.dumps ascii_host (VBytes [0; 0xde; 0xff]) true)
  = Ok (VBytes [0; 0xde; 0xff]).
Proof. exact (bytes_round_trip ascii_host [0; 0xde; 0xff] true eq_refl). Defined.

(** X7.  An inline byte array with an odd number of hex digits (spaces
    apart) is rejected with [Odd number of hex digits in byte literal], at
    the column after the closing bracket. *)
Theorem odd_number_of_hex_digits :
  forall host content,
    content <> [] ->
    forallb hex_or_space content = true ->
    ends_in_space content false = false ->
    Nat.even (List.length (filter is_lower_hex content)) = false ->
    loads host (inline_bytes content)
    = Raise (YaySyntaxError (lit "Odd number of hex digits in byte literal") 1
               (Z.of_nat (List.length content) + 3)).
Proof.
  intros host content Hne Hok Hend Hodd.
  unfold loads, Lexer.__init__. rewrite inline_bytes_validates by assumption.
  assert (Hf : exists f, Lexer.fuel_for (inline_bytes content) = S (S f)
                         /\ (List.length content < f)%nat).
  { exists (2 * List.length (inline_bytes content) + 2)%nat. unfold Lexer.fuel_for.
    rewrite inline_bytes_length. lia. }
  destruct Hf as [f [Hf Hlt]]. rewrite Hf.
  replace (Lexer.tokenize host (S (S f)) (Lexer.mk (inline_bytes content) 0 1 1 true 0 None))
    with (@Raise (list Token.t * Lexer.t)
            (YaySyntaxError (lit "Odd number of hex digits in byte literal") 1
               (Z.of_nat (List.length content) + 3))); [reflexivity|].
  symmetry. unfold Lexer.tokenize. lex_norm.
  erewrite bind_Raise; [reflexivity|].
  cbn [Lexer.tokenize_loop].
  erewrite bind_Ok by reflexivity. lex_norm.
  rewrite inline_bytes_length.
  replace (0 <? List.length content + 2)%nat with true by (symmetry; apply Nat.ltb_lt; lia).
  erewrite bind_Ok.
  2:{ eapply line_start_token; [reflexivity | discriminate ..]. }
  cbv beta iota.
  erewrite bind_Raise; [reflexivity|].
  erewrite scan_angle by reflexivity.
  rewrite (angle_bracket_content host content Hok Hne) by lia.
  rewrite Hend, Hodd. reflexivity.
Qed.

Lemma odd_number_of_hex_digits_witness :
  loads ascii_host (lit "<de a>")
  = Raise (YaySyntaxError (lit "Odd number of hex digits in byte literal") 1 7).
Proof.
  exact (odd_number_of_hex_digits ascii_host (lit "de a")
           ltac:(discriminate) eq_refl eq_refl eq_refl).
Defined.

Lemma bytes_source_validates content tail :
  forallb hex_or_space content = true ->
  forallb plain tail = true ->
  endswith_space (ord "<" :: content ++ tail) = false ->
  Lexer._validate_source (ord "<" :: content ++ tail) = Ok tt.
Proof.
  intros Hok Hplain Hend. apply validate_plain.
  - cbn [forallb]. rewrite forallb_app, Hplain.
    replace (forallb plain content) with true; [reflexivity|].
    symmetry. apply forallb_forall. intros x Hx. apply hex_or_space_plain.
    rewrite forallb_forall in Hok. apply Hok. exact Hx.
  - split; discriminate.
  - exact Hend.
Qed.

Section BytesStop.

Variable host : Host.
Variables (content tail : str).
Hypothesis content_ok : forallb hex_or_space content = true.
Hypothesis content_nonempty : content <> [].

(** [tokenize] raises what [read_bytes] raises after the digits and spaces
    of [content]. *)
Lemma tokenize_bytes_raises fuel e :
  (List.length content + 3 <= fuel)%nat ->
  (forall f acc lws scol lt,
     Lexer.read_bytes_loop (S f) false 1 (1 + 1) acc lws scol
       (Lexer.mk (ord "<" :: content ++ tail) (List.length content + 1) 1
          (1 + 1 + Z.of_nat (List.length content)) false 0 lt)
     = Raise e) ->
  Lexer.tokenize host fuel (Lexer.mk (ord "<" :: content ++ tail) 0 1 1 true 0 None)
  = Raise e.
Proof.
  intros Hfuel Hstop.
  destruct content as [|x content'] eqn:Hc; [congruence|]. rewrite <- Hc in *.
  assert (Hx : hex_or_space x = true).
  { rewrite Hc in content_ok. cbn [forallb] in content_ok.
    apply andb_true_iff in content_ok. tauto. }
  set (src := ord "<" :: content ++ tail) in *.
  assert (Hs0 : skipn 0 src = ord "<" :: x :: content' ++ tail)
    by (unfold src; rewrite Hc; reflexivity).
  assert (Hs1 : skipn 1 src = content ++ tail) by reflexivity.
  destruct fuel as [|f]; [lia|].
  destruct f as [|f]; [lia|].
  unfold Lexer.tokenize. lex_norm.
  erewrite bind_Raise; [reflexivity|].
  cbn [Lexer.tokenize_loop].
  erewrite bind_Ok by reflexivity. lex_norm.
  replace (0 <? List.length src)%nat with true
    by (symmetry; apply Nat.ltb_lt; unfold src; simpl; lia).
  erewrite bind_Ok.
  2:{ eapply line_start_token; [exact Hs0 | discriminate ..]. }
  cbv beta iota.
  erewrite bind_Raise; [reflexivity|].
  erewrite scan_angle by exact Hs0.
  erewrite angle_bracket_enters by (try exact Hx; exact Hs0).
  erewrite bind_Raise; [reflexivity|].
  unfold Lexer.read_bytes.
  erewrite bind_Ok by reflexivity. lex_norm. cbn [negb].
  erewrite bind_Ok by reflexivity.
  erewrite bind_Raise; [reflexivity|].
  replace (S f) with (List.length content + S (f - List.length content))%nat by lia.
  erewrite (read_bytes_loop_content content) by eassumption.
  apply Hstop.
Qed.

Lemma loads_bytes_raises e :
  forallb plain tail = true ->
  endswith_space (ord "<" :: content ++ tail) = false ->
  (forall f acc lws scol lt,
     Lexer.read_bytes_loop (S f) false 1 (1 + 1) acc lws scol
       (Lexer.mk (ord "<" :: content ++ tail) (List.length content + 1) 1
          (1 + 1 + Z.of_nat (List.length content)) false 0 lt)
     = Raise e) ->
  loads host (ord "<" :: content ++ tail) = Raise e.
Proof.
  intros Hplain Hend Hstop. unfold loads, Lexer.__init__.
  rewrite bytes_source_validates by assumption.
  rewrite (tokenize_bytes_raises _ e); [reflexivity | | exact Hstop].
  unfold Lexer.fuel_for. cbn [List.length]. rewrite length_app. lia.
Qed.

End BytesStop.

(** X8.  An inline byte array that the input ends in, with no closing
    bracket, is rejected with [Unterminated byte array] at the column
    after its last character. *)
Theorem unterminated_byte_array :
  forall host content,
    content <> [] ->
    forallb hex_or_space content = true ->
    endswith_space content = false ->
    loads host (ord "<" :: content)
    = Raise (YaySyntaxError (lit "Unterminated byte array") 1
               (Z.of_nat (List.length content) + 2)).
Proof.
  intros host content Hne Hok Hend.
  rewrite <- (app_nil_r content) at 1.
  apply loads_bytes_raises; try assumption; try reflexivity.
  - rewrite app_nil_r. change (ord "<" :: content) with ([ord "<"] ++ content).
    rewrite endswith_space_app by exact Hne. exact Hend.
  - intros f acc lws scol lt. cbn [Lexer.read_bytes_loop].
    erewrite bind_Ok.
    2:{ eapply peek_end. rewrite app_nil_r.
        replace (List.length content + 1)%nat with (List.length (ord "<" :: content))
          by (cbn [List.length]; lia).
        apply skipn_all. }
    cbv beta iota. unfold Lexer.error. lex_norm. f_equal. f_equal. lia.
Qed.

Lemma unterminated_byte_array_witness :
  loads ascii_host (lit "<de ad")
  = Raise (YaySyntaxError (lit "Unterminated byte array") 1 7).
Proof.
  exact (unterminated_byte_array ascii_host (lit "de ad")
           ltac:(discriminate) eq_refl eq_refl).
Defined.

Lemma loads_uppercase_first host u tail :
  is_upper_hex_letter u = true ->
  forallb plain tail = true ->
  endswith_space (u :: tail) = false ->
  loads host (ord "<" :: u :: tail)
  = Raise (YaySyntaxError (lit "Uppercase hex digit (use lowercase)") 1 2).
Proof.
  intros Hu Hplain Hend.
  assert (R : 65 <= u <= 70).
  { unfold is_upper_hex_letter, ord in Hu. cbn in Hu. apply andb_true_iff in Hu.
    destruct Hu as [H1 H2]. apply Z.leb_le in H1, H2. lia. }
  assert (Hup : plain u = true).
  { unfold plain, Lexer._is_allowed_code_point, NL. apply andb_true_iff. split.
    - assert (H1 : (0x0020 <=? u) && (u <=? 0x007E) = true)
        by (apply andb_true_iff; split; apply Z.leb_le; lia).
      rewrite H1, orb_true_r. reflexivity.
    - apply negb_true_iff. apply Z.eqb_neq. lia. }
  unfold loads, Lexer.__init__.
  assert (Hv : Lexer._validate_source (ord "<" :: u :: tail) = Ok tt).
  { apply (bytes_source_validates [] (u :: tail)).
    - reflexivity.
    - cbn [forallb]. rewrite Hup, Hplain. reflexivity.
    - change (ord "<" :: [] ++ u :: tail) with ([ord "<"] ++ u :: tail).
      rewrite endswith_space_app by discriminate. exact Hend. }
  rewrite Hv.
  set (src := ord "<" :: u :: tail).
  assert (Hs0 : skipn 0 src = ord "<" :: u :: tail) by reflexivity.
  replace (Lexer.tokenize host (Lexer.fuel_for src) (Lexer.mk src 0 1 1 true 0 None))
    with (@Raise (list Token.t * Lexer.t)
            (YaySyntaxError (lit "Uppercase hex digit (use lowercase)") 1 2));
    [reflexivity|].
  symmetry. unfold Lexer.tokenize, Lexer.fuel_for. lex_norm.
  erewrite bind_Raise; [reflexivity|].
  set (fuel := (2 * List.length src + 4)%nat).
  assert (Hfuel : (2 <= fuel)%nat) by (unfold fuel; lia). clearbody fuel.
  do 2 (destruct fuel as [|fuel]; [lia|]).
  cbn [Lexer.tokenize_loop].
  erewrite bind_Ok by reflexivity. lex_norm.
  replace (0 <? List.length src)%nat with true by reflexivity.
  erewrite bind_Ok.
  2:{ eapply line_start_token; [exact Hs0 | discriminate ..]. }
  cbv beta iota.
  erewrite bind_Raise; [reflexivity|].
  erewrite scan_angle by exact Hs0.
  unfold Lexer.angle_bracket.
  erewrite bind_Ok by reflexivity. lex_norm.
  erewrite bind_Ok by (eapply advance_at; [exact Hs0 | discriminate]).
  erewrite bind_Ok by (eapply peek_at; eapply skipn_next; exact Hs0).
  cbv beta iota.
  replace (u =? ord ">") with false by (symmetry; apply Z.eqb_neq; unfold ord; simpl; lia).
  replace (u =? NL) with false by (symmetry; apply Z.eqb_neq; unfold NL; lia).
  rewrite Hu. reflexivity.
Qed.

(** X9.  In an inline byte array, an uppercase hex letter ([A] to [F])
    after lowercase digits and spaces is rejected with [Uppercase hex digit
    (use lowercase)] at the letter's column. *)
Theorem uppercase_hex_digit :
  forall host content u tail,
    forallb hex_or_space content = true ->
    is_upper_hex_letter u = true ->
    forallb plain tail = true ->
    endswith_space (u :: tail) = false ->
    loads host (ord "<" :: content ++ u :: tail)
    = Raise (YaySyntaxError (lit "Uppercase hex digit (use lowercase)") 1
               (Z.of_nat (List.length content) + 2)).
Proof.
  intros host content u tail Hok Hu Hplain Hend.
  assert (R : 65 <= u <= 70).
  { unfold is_upper_hex_letter, ord in Hu. cbn in Hu. apply andb_true_iff in Hu.
    destruct Hu as [H1 H2]. apply Z.leb_le in H1, H2. lia. }
  assert (Hup : plain u = true).
  { unfold plain, Lexer._is_allowed_code_point, NL. apply andb_true_iff. split.
    - assert (H1 : (0x0020 <=? u) && (u <=? 0x007E) = true)
        by (apply andb_true_iff; split; apply Z.leb_le; lia).
      rewrite H1, orb_true_r. reflexivity.
    - apply negb_true_iff. apply Z.eqb_neq. lia. }
  destruct content as [|x content'] eqn:Hc.
  - cbn [app List.length Z.of_nat Z.add]. apply loads_uppercase_first; assumption.
  - rewrite <- Hc in *.
    apply loads_bytes_raises.
    + exact Hok.
    + rewrite Hc. discriminate.
    + cbn [forallb]. rewrite Hup, Hplain. reflexivity.
    + change (ord "<" :: content ++ u :: tail) with ((ord "<" :: content) ++ u :: tail).
      rewrite endswith_space_app by discriminate. exact Hend.
    + intros f acc lws scol lt. cbn [Lexer.read_bytes_loop].
      erewrite bind_Ok.
      2:{ eapply peek_at. rewrite Nat.add_comm.
          change (skipn (1 + List.length content) (ord "<" :: content ++ u :: tail))
            with (skipn (List.length content) (content ++ u :: tail)).
          rewrite skipn_app, skipn_all, Nat.sub_diag. reflexivity. }
      cbv beta iota.
      replace (u =? ord ">") with false by (symmetry; apply Z.eqb_neq; unfold ord; simpl; lia).
      replace (u =? ord " ") with false by (symmetry; apply Z.eqb_neq; unfold ord; simpl; lia).
      replace (u =? NL) with false by (symmetry; apply Z.eqb_neq; unfold NL; lia).
      replace (u =? ord "#") with false by (symmetry; apply Z.eqb_neq; unfold ord; simpl; lia).
      replace (is_lower_hex u) with false.
      2:{ symmetry. unfold is_lower_hex, ord. cbn. apply orb_false_iff. split.
          - apply andb_false_iff. right. apply Z.leb_gt. lia.
          - apply andb_false_iff. left. apply Z.leb_gt. lia. }
      rewrite Hu. unfold Lexer.error. lex_norm. f_equal. f_equal. lia.
Qed.

Lemma uppercase_hex_digit_witness :
  loads ascii_host (lit "<deAD>")
  = Raise (YaySyntaxError (lit "Uppercase hex digit (use lowercase)") 1 4).
Proof.
  exact (uppercase_hex_digit ascii_host (lit "de") (ord "A") (lit "D>")
           eq_refl eq_refl eq_refl eq_refl).
Defined.

(** ** Strings there and back *)

Lemma plain_printable c : plain c = true -> 0x20 <= c /\ c <> NL.
Proof.
  unfold plain, Lexer._is_allowed_code_point. intros H.
  apply andb_true_iff in H. destruct H as [Ha Hn].
  apply negb_true_iff in Hn. apply Z.eqb_neq in Hn. split; [|exact Hn].
  repeat (apply orb_true_iff in Ha; destruct Ha as [Ha|Ha]);
    repeat (apply andb_true_iff in Ha; destruct Ha as [Ha ?]);
    try (apply Z.eqb_eq in Ha; unfold NL in Hn; lia);
    apply Z.leb_le in Ha; lia.
Qed.

(** *** The loops of [read_string] *)

Lemma double_quoted_plain f chars src p l c als cli lt x r :
  plain x = true -> x <> DQUOTE -> x <> ord "\" ->
  skipn p src = x :: r ->
  Lexer.double_quoted_chars (S f) chars (Lexer.mk src p l c als cli lt)
  = Lexer.double_quoted_chars f (chars ++ [x]) (Lexer.mk src (S p) l (c + 1) als cli lt).
Proof.
  intros Hx H1 H2 Hs. destruct (plain_printable x Hx) as [R Hn].
  cbn [Lexer.double_quoted_chars].
  erewrite bind_Ok by (eapply peek_at; exact Hs). cbv beta iota.
  apply Z.eqb_neq in H1, H2. rewrite H1, H2.
  replace (x <? 32) with false by (symmetry; apply Z.ltb_ge; lia).
  erewrite bind_Ok by (eapply advance_at; [exact Hs | exact Hn]).
  reflexivity.
Qed.

Lemma double_quoted_escape f chars src p l c als cli lt e x r :
  Lexer.simple_escape e = Some x -> e <> NL ->
  skipn p src = ord "\" :: e :: r ->
  Lexer.double_quoted_chars (S f) chars (Lexer.mk src p l c als cli lt)
  = Lexer.double_quoted_chars f (chars ++ [x])
      (Lexer.mk src (S (S p)) l (c + 1 + 1) als cli lt).
Proof.
  intros He Hn Hs.
  cbn [Lexer.double_quoted_chars].
  erewrite bind_Ok by (eapply peek_at; exact Hs). cbv beta iota.
  change (ord "\" =? DQUOTE) with false. change (ord "\" =? ord "\") with true.
  cbv beta iota.
  erewrite bind_Ok by (eapply advance_at; [exact Hs | discriminate]).
  erewrite bind_Ok by (eapply peek_at; eapply skipn_next; exact Hs).
  cbv beta iota. rewrite He.
  erewrite bind_Ok by (eapply advance_at; [eapply skipn_next; exact Hs | exact Hn]).
  reflexivity.
Qed.

Lemma double_quoted_close f chars src p l c als cli lt r :
  skipn p src = DQUOTE :: r ->
  Lexer.double_quoted_chars (S f) chars (Lexer.mk src p l c als cli lt)
  = Ok (chars, Lexer.mk src (S p) l (c + 1) als cli lt).
Proof.
  intros Hs. cbn [Lexer.double_quoted_chars].
  erewrite bind_Ok by (eapply peek_at; exact Hs). cbv beta iota.
  change (DQUOTE =? DQUOTE) with true. cbv beta iota.
  erewrite bind_Ok by (eapply advance_at; [exact Hs | discriminate]).
  reflexivity.
Qed.

(** How [_escape_double_quoted] writes a character, and that the lexer's
    escapes undo it. *)
Lemma escape_text_char c s :
  text_char c = true ->
  (Dumper._escape_double_quoted (c :: s) = c :: Dumper._escape_double_quoted s
   /\ plain c = true /\ c <> DQUOTE /\ c <> ord "\")
  \/ (exists e,
        Dumper._escape_double_quoted (c :: s) = ord "\" :: e :: Dumper._escape_double_quoted s
        /\ Lexer.simple_escape e = Some c /\ e <> NL /\ plain e = true).
Proof.
  intros Hc. unfold Dumper._escape_double_quoted. cbn [flat_map].
  destruct (Z.eqb_spec c DQUOTE) as [E|N1];
    [right; exists DQUOTE; subst c; repeat split; discriminate|].
  destruct (Z.eqb_spec c (ord "\")) as [E|N2];
    [right; exists (ord "\"); subst c; repeat split; discriminate|].
  destruct (Z.eqb_spec c NL) as [E|N3];
    [right; exists (ord "n"); subst c; repeat split; discriminate|].
  destruct (Z.eqb_spec c CR) as [E|N4];
    [right; exists (ord "r"); subst c; repeat split; discriminate|].
  destruct (Z.eqb_spec c TAB) as [E|N5];
    [right; exists (ord "t"); subst c; repeat split; discriminate|].
  destruct (Z.eqb_spec c BS) as [E|N6];
    [right; exists (ord "b"); subst c; repeat split; discriminate|].
  destruct (Z.eqb_spec c FF) as [E|N7];
    [right; exists (ord "f"); subst c; repeat split; discriminate|].
  assert (Hp : plain c = true).
  { unfold text_char, escaped_control in Hc.
    apply Z.eqb_neq in N3, N4, N5, N6, N7. rewrite N3, N4, N5, N6, N7 in Hc.
    cbn [orb] in Hc. rewrite orb_false_r in Hc. exact Hc. }
  destruct (plain_printable c Hp) as [R _].
  replace (c <? 32) with false by (symmetry; apply Z.ltb_ge; lia).
  left. repeat split; assumption.
Qed.

Lemma double_quoted_chars_escaped s : forall f chars src p l c als cli lt tail,
  forallb text_char s = true ->
  skipn p src = Dumper._escape_double_quoted s ++ DQUOTE :: tail ->
  Lexer.double_quoted_chars (List.length s + S f) chars (Lexer.mk src p l c als cli lt)
  = Ok (chars ++ s,
        Lexer.mk src (S (List.length (Dumper._escape_double_quoted s) + p)) l
          (c + Z.of_nat (List.length (Dumper._escape_double_quoted s)) + 1) als cli lt).
Proof.
  induction s as [|x s IH]; intros f chars src p l c als cli lt tail Hall Hs.
  - cbn [List.length Nat.add]. cbn [Dumper._escape_double_quoted flat_map app] in Hs |- *.
    rewrite (double_quoted_close _ _ _ _ _ _ _ _ _ _ Hs).
    rewrite app_nil_r. cbn [List.length Z.of_nat Nat.add]. rewrite Z.add_0_r. reflexivity.
  - cbn [forallb] in Hall. apply andb_true_iff in Hall. destruct Hall as [Hx Hall].
    change (List.length (x :: s) + S f)%nat with (S (List.length s + S f)).
    destruct (escape_text_char x s Hx) as [[E [Hp [N1 N2]]] | [e [E [He [Hn _]]]]];
      rewrite E in Hs |- *; cbn [app] in Hs.
    + rewrite (double_quoted_plain _ _ _ _ _ _ _ _ _ _ _ Hp N1 N2 Hs).
      rewrite (IH _ _ _ _ _ _ _ _ _ tail Hall (skipn_next _ _ _ _ Hs)).
      rewrite <- app_assoc. cbn [app List.length].
      f_equal. f_equal. f_equal; lia.
    + rewrite (double_quoted_escape _ _ _ _ _ _ _ _ _ _ _ _ He Hn Hs).
      rewrite (IH _ _ _ _ _ _ _ _ _ tail Hall
                 (skipn_next _ _ _ _ (skipn_next _ _ _ _ Hs))).
      rewrite <- app_assoc. cbn [app List.length].
      f_equal. f_equal. f_equal; lia.
Qed.

Lemma single_quoted_plain f chars src p l c als cli lt x r :
  plain x = true -> x <> ord "'" ->
  skipn p src = x :: r ->
  Lexer.single_quoted_chars (S f) chars (Lexer.mk src p l c als cli lt)
  = Lexer.single_quoted_chars f (chars ++ [x]) (Lexer.mk src (S p) l (c + 1) als cli lt).
Proof.
  intros Hx H1 Hs. destruct (plain_printable x Hx) as [R Hn].
  cbn [Lexer.single_quoted_chars].
  erewrite bind_Ok by (eapply peek_at; exact Hs). cbv beta iota.
  apply Z.eqb_neq in H1. rewrite H1.
  replace (x <? 32) with false by (symmetry; apply Z.ltb_ge; lia).
  erewrite bind_Ok by (eapply advance_at; [exact Hs | exact Hn]).
  reflexivity.
Qed.

Lemma single_quoted_quote f chars src p l c als cli lt r :
  skipn p src = ord "'" :: ord "'" :: r ->
  Lexer.single_quoted_chars (S f) chars (Lexer.mk src p l c als cli lt)
  = Lexer.single_quoted_chars f (chars ++ [ord "'"])
      (Lexer.mk src (S (S p)) l (c + 1 + 1) als cli lt).
Proof.
  intros Hs. cbn [Lexer.single_quoted_chars].
  erewrite bind_Ok by (eapply peek_at; exact Hs). cbv beta iota.
  change (ord "'" =? ord "'") with true. cbv beta iota.
  erewrite bind_Ok by (eapply advance_at; [exact Hs | discriminate]).
  erewrite bind_Ok by (eapply peek_at; eapply skipn_next; exact Hs).
  change (Lexer.ch_is (Some (ord "'")) (ord "'")) with true. cbv beta iota.
  erewrite bind_Ok by (eapply advance_at; [eapply skipn_next; exact Hs | discriminate]).
  reflexivity.
Qed.

Lemma single_quoted_close f chars src p l c als cli lt :
  skipn p src = [ord "'"] ->
  Lexer.single_quoted_chars (S f) chars (Lexer.mk src p l c als cli lt)
  = Ok (chars, Lexer.mk src (S p) l (c + 1) als cli lt).
Proof.
  intros Hs. cbn [Lexer.single_quoted_chars].
  erewrite bind_Ok by (eapply peek_at; exact Hs). cbv beta iota.
  change (ord "'" =? ord "'") with true. cbv beta iota.
  erewrite bind_Ok by (eapply advance_at; [exact Hs | discriminate]).
  erewrite bind_Ok by (eapply peek_end; eapply skipn_next; exact Hs).
  reflexivity.
Qed.

Lemma single_quoted_chars_escaped s : forall f chars src p l c als cli lt,
  forallb plain s = true ->
  skipn p src = Dumper._escape_single_quoted s ++ [ord "'"] ->
  Lexer.single_quoted_chars (List.length s + S f) chars (Lexer.mk src p l c als cli lt)
  = Ok (chars ++ s,
        Lexer.mk src (S (List.length (Dumper._escape_single_quoted s) + p)) l
          (c + Z.of_nat (List.length (Dumper._escape_single_quoted s)) + 1) als cli lt).
Proof.
  induction s as [|x s IH]; intros f chars src p l c als cli lt Hall Hs.
  - cbn [List.length Nat.add]. cbn [Dumper._escape_single_quoted flat_map app] in Hs |- *.
    rewrite (single_quoted_close _ _ _ _ _ _ _ _ _ Hs).
    rewrite app_nil_r. cbn [List.length Z.of_nat Nat.add]. rewrite Z.add_0_r. reflexivity.
  - cbn [forallb] in Hall. apply andb_true_iff in Hall. destruct Hall as [Hx Hall].
    change (List.length (x :: s) + S f)%nat with (S (List.length s + S f)).
    unfold Dumper._escape_single_quoted in Hs |- *. cbn [flat_map] in Hs |- *.
    fold (Dumper._escape_single_quoted s) in Hs |- *.
    destruct (Z.eqb_spec x (ord "'")) as [E|N].
    + subst x. cbn [lit map list_ascii_of_string app] in Hs |- *.
      rewrite (single_quoted_quote _ _ _ _ _ _ _ _ _ _ Hs).
      rewrite (IH _ _ _ _ _ _ _ _ _ Hall (skipn_next _ _ _ _ (skipn_next _ _ _ _ Hs))).
      rewrite <- app_assoc. cbn [app List.length].
      f_equal. f_equal. f_equal; lia.
    + cbn [app] in Hs |- *.
      rewrite (single_quoted_plain _ _ _ _ _ _ _ _ _ _ _ Hx N Hs).
      rewrite (IH _ _ _ _ _ _ _ _ _ Hall (skipn_next _ _ _ _ Hs)).
      rewrite <- app_assoc. cbn [app List.length].
      f_equal. f_equal. f_equal; lia.
Qed.

(** *** A document that is one quoted string *)

Lemma scan_quote host f toks src p l c als cli lt q r :
  q = DQUOTE \/ q = ord "'" ->
  skipn p src = q :: r ->
  Lexer.scan host f toks (Lexer.mk src p l c als cli lt)
  = (tok <- Lexer.read_string f q ;; Lexer.yield_continue toks tok)
      (Lexer.mk src p l c als cli lt).
Proof.
  intros Hq Hs. unfold Lexer.scan.
  erewrite bind_Ok by (eapply peek_at; exact Hs).
  destruct Hq; subst q; reflexivity.
Qed.

Lemma parse_string src lines s c :
  exists st,
    Parser.parse 32
      (Parser.mk src lines
         [Token.mk INDENT (VInt 0) 1 1; Token.mk STRING (VStr s) 1 1;
          Token.mk NEWLINE (VStr [NL]) 1 c; Token.mk EOF VNone 1 c] 0)
    = Ok (VStr s, st).
Proof. eexists. vm_compute. reflexivity. Qed.

Section QuotedDocument.

Variable host : Host.
Variables (q : Z) (body s : str).
Hypothesis quote : q = DQUOTE \/ q = ord "'".
Hypothesis body_plain : forallb plain body = true.
Hypothesis body_reads :
  forall f l c als cli lt,
    (List.length body < f)%nat ->
    (if q =? DQUOTE then Lexer.double_quoted_chars f []
     else Lexer.single_quoted_chars f [])
      (Lexer.mk (q :: body ++ [q]) 1 l c als cli lt)
    = Ok (s, Lexer.mk (q :: body ++ [q]) (S (List.length body + 1)) l
               (c + Z.of_nat (List.length body) + 1) als cli lt).

Lemma quote_plain : plain q = true.
Proof. destruct quote; subst q; reflexivity. Qed.

Lemma quoted_validates : Lexer._validate_source (q :: body ++ [q]) = Ok tt.
Proof.
  apply validate_plain.
  - cbn [forallb]. rewrite forallb_app. cbn [forallb].
    rewrite quote_plain, body_plain. reflexivity.
  - destruct quote; subst q; split; discriminate.
  - change (q :: body ++ [q]) with ((q :: body) ++ [q]).
    rewrite endswith_space_snoc. destruct quote; subst q; reflexivity.
Qed.

Lemma read_string_quoted f l c als cli lt :
  (List.length body < f)%nat ->
  Lexer.read_string f q (Lexer.mk (q :: body ++ [q]) 0 l c als cli lt)
  = Ok (Token.mk STRING (VStr s) l c,
        Lexer.mk (q :: body ++ [q]) (S (List.length body + 1)) l
          (c + 1 + Z.of_nat (List.length body) + 1) als cli lt).
Proof.
  intros Hf. unfold Lexer.read_string.
  erewrite bind_Ok by reflexivity. lex_norm. cbv zeta.
  erewrite bind_Ok.
  2:{ eapply advance_at; [reflexivity | destruct quote; subst q; discriminate]. }
  pose proof (body_reads f l (c + 1) als cli lt Hf) as H.
  destruct (q =? DQUOTE).
  - unfold Lexer._read_double_quoted_string. erewrite bind_Ok by exact H. reflexivity.
  - unfold Lexer._read_single_quoted_string. erewrite bind_Ok by exact H. reflexivity.
Qed.

Lemma tokenize_quoted fuel :
  (List.length body + 4 <= fuel)%nat ->
  exists st,
    Lexer.tokenize host fuel (Lexer.mk (q :: body ++ [q]) 0 1 1 true 0 None)
    = Ok ([Token.mk INDENT (VInt 0) 1 1;
           Token.mk STRING (VStr s) 1 1;
           Token.mk NEWLINE (VStr [NL]) 1 (1 + 1 + Z.of_nat (List.length body) + 1);
           Token.mk EOF VNone 1 (1 + 1 + Z.of_nat (List.length body) + 1)], st).
Proof.
  intros Hfuel.
  do 3 (destruct fuel as [|fuel]; [lia|]).
  eexists. unfold Lexer.tokenize. lex_norm.
  erewrite bind_Ok.
  2:{ erewrite tokenize_loop_step.
      2:{ lex_norm. reflexivity. }
      2:{ eapply line_start_token;
            [reflexivity | destruct quote; subst q; discriminate ..]. }
      2:{ erewrite scan_quote by (try exact quote; reflexivity).
          erewrite bind_Ok by (apply read_string_quoted; lia).
          reflexivity. }
      apply tokenize_loop_end. lex_norm.
      replace (S (List.length body + 1)) with (List.length (q :: body ++ [q]))
        by (cbn [List.length]; rewrite length_app; cbn [List.length]; lia).
      apply skipn_all. }
  erewrite bind_Ok by reflexivity. lex_norm. cbn [negb].
  erewrite bind_Ok by reflexivity.
  erewrite bind_Ok by reflexivity. lex_norm.
  reflexivity.
Qed.

Lemma loads_quoted : loads host (q :: body ++ [q]) = Ok (VStr s).
Proof.
  unfold loads, Lexer.__init__. rewrite quoted_validates.
  destruct (tokenize_quoted (Lexer.fuel_for (q :: body ++ [q]))) as [st Htok].
  { unfold Lexer.fuel_for. cbn [List.length]. rewrite length_app. cbn [List.length]. lia. }
  rewrite Htok.
  destruct (parse_string (q :: body ++ [q]) (split_nl (q :: body ++ [q])) s
              (1 + 1 + Z.of_nat (List.length body) + 1)) as [st' Hp].
  change (Parser.fuel_for _) with 32%nat. rewrite Hp. reflexivity.
Qed.

End QuotedDocument.

(** *** What [dumps] writes is what [loads] reads *)

Lemma escape_double_quoted_plain s :
  forallb text_char s = true -> forallb plain (Dumper._escape_double_quoted s) = true.
Proof.
  induction s as [|x s IH]; intros Hall; [reflexivity|].
  cbn [forallb] in Hall. apply andb_true_iff in Hall. destruct Hall as [Hx Hall].
  destruct (escape_text_char x s Hx) as [[E [Hp _]] | [e [E [_ [_ Hp]]]]]; rewrite E.
  - cbn [forallb]. rewrite Hp. apply IH. exact Hall.
  - cbn [forallb]. rewrite Hp. apply IH. exact Hall.
Qed.

Lemma escape_double_quoted_longer s :
  forallb text_char s = true ->
  (List.length s <= List.length (Dumper._escape_double_quoted s))%nat.
Proof.
  induction s as [|x s IH]; intros Hall; [reflexivity|].
  cbn [forallb] in Hall. apply andb_true_iff in Hall. destruct Hall as [Hx Hall].
  specialize (IH Hall).
  destruct (escape_text_char x s Hx) as [[E _] | [e [E _]]]; rewrite E;
    cbn [List.length]; lia.
Qed.

Lemma escape_single_quoted_plain s :
  forallb plain s = true -> forallb plain (Dumper._escape_single_quoted s) = true.
Proof.
  intros Hall. unfold Dumper._escape_single_quoted. apply forallb_flat_map.
  intros c Hc. rewrite forallb_forall in Hall.
  destruct (c =? ord "'"); [reflexivity|].
  cbn [forallb]. rewrite (Hall c Hc). reflexivity.
Qed.

Lemma escape_single_quoted_longer s :
  (List.length s <= List.length (Dumper._escape_single_quoted s))%nat.
Proof.
  induction s as [|x s IH]; [reflexivity|].
  unfold Dumper._escape_single_quoted. cbn [flat_map].
  fold (Dumper._escape_single_quoted s). rewrite length_app.
  destruct (x =? ord "'"); cbn [lit map list_ascii_of_string List.length]; lia.
Qed.

(** A string that needs no double quotes has no character to escape. *)
Lemma no_double_quote_needed s :
  Dumper._needs_double_quote s = false ->
  forallb text_char s = true ->
  forallb plain s = true
  /\ (Dumper.contains DQUOTE s = false -> Dumper._escape_double_quoted s = s).
Proof.
  unfold Dumper._needs_double_quote, Dumper.contains.
  induction s as [|x s IH]; intros Hq Hall; [split; reflexivity|].
  cbn [existsb] in Hq. apply orb_false_iff in Hq. destruct Hq as [Hx Hq].
  cbn [forallb] in Hall. apply andb_true_iff in Hall. destruct Hall as [Ht Hall].
  destruct (IH Hq Hall) as [IH1 IH2].
  apply orb_false_iff in Hx. destruct Hx as [Hx Hlt].
  apply orb_false_iff in Hx. destruct Hx as [Hx Hbsl].
  apply orb_false_iff in Hx. destruct Hx as [Hx Hff].
  apply orb_false_iff in Hx. destruct Hx as [Hx Hbs].
  apply orb_false_iff in Hx. destruct Hx as [Hx Htab].
  apply orb_false_iff in Hx. destruct Hx as [Hnl Hcr].
  assert (Hp : plain x = true).
  { unfold text_char, escaped_control in Ht.
    rewrite Hnl, Hcr, Htab, Hbs, Hff in Ht. cbn [orb] in Ht.
    rewrite orb_false_r in Ht. exact Ht. }
  split.
  - cbn [forallb]. rewrite Hp, IH1. reflexivity.
  - intros Hd. cbn [existsb] in Hd. apply orb_false_iff in Hd. destruct Hd as [Hd1 Hd2].
    unfold Dumper._escape_double_quoted. cbn [flat_map].
    fold (Dumper._escape_double_quoted s).
    rewrite Hd1, Hbsl, Hnl, Hcr, Htab, Hbs, Hff, Hlt. cbn [app].
    rewrite IH2 by exact Hd2. reflexivity.
Qed.

(** X10.  [loads (dumps s)] is [s] for every string [s] of allowed code
    points from U+0020 on and the control characters newline, carriage
    return, tab, backspace and form feed, whichever of its three quotings
    [dumps] chooses and with either setting of [indent]. *)
Theorem string_round_trip :
  forall host s indent,
    forallb text_char s = true ->
    loads host (Dumper.dumps host (VStr s) indent) = Ok (VStr s).
Proof.
  intros host s indent Hall. unfold Dumper.dumps. cbn [Dumper._format_value].
  unfold Dumper.format_str.
  destruct (Dumper._needs_double_quote s) eqn:Hq.
  - unfold dq. cbn [app].
    apply loads_quoted.
    + left. reflexivity.
    + apply escape_double_quoted_plain. exact Hall.
    + intros f l c als cli lt Hf. change (DQUOTE =? DQUOTE) with true. cbv beta iota.
      pose proof (escape_double_quoted_longer s Hall) as Hlen.
      replace f with (List.length s + S (f - List.length s - 1))%nat by lia.
      rewrite (double_quoted_chars_escaped s _ [] _ 1 l c als cli lt [] Hall)
        by reflexivity.
      cbn [app]. reflexivity.
  - destruct (no_double_quote_needed s Hq Hall) as [Hplain Hid].
    destruct (Dumper.contains (ord "'") s && negb (Dumper.contains DQUOTE s)) eqn:Hc.
    + apply andb_true_iff in Hc. destruct Hc as [_ Hd]. apply negb_true_iff in Hd.
      specialize (Hid Hd).
      unfold dq. cbn [app].
      apply loads_quoted.
      * left. reflexivity.
      * exact Hplain.
      * intros f l c als cli lt Hf. change (DQUOTE =? DQUOTE) with true. cbv beta iota.
        replace f with (List.length s + S (f - List.length s - 1))%nat by lia.
        rewrite (double_quoted_chars_escaped s _ [] _ 1 l c als cli lt [] Hall)
          by (rewrite Hid; reflexivity).
        rewrite Hid. cbn [app]. reflexivity.
    + cbn [app].
      apply loads_quoted.
      * right. reflexivity.
      * apply escape_single_quoted_plain. exact Hplain.
      * intros f l c als cli lt Hf. change (ord "'" =? DQUOTE) with false. cbv beta iota.
        pose proof (escape_single_quoted_longer s) as Hlen.
        replace f with (List.length s + S (f - List.length s - 1))%nat by lia.
        rewrite (single_quoted_chars_escaped s _ [] _ 1 l c als cli lt Hplain)
          by reflexivity.
        cbn [app]. reflexivity.
Qed.

Lemma string_round_trip_witness :
  loads ascii_host (Dumper.dumps ascii_host (VStr (lit "it's " ++ [DQUOTE] ++ lit "b\" ++ [NL])) true)
  = Ok (VStr (lit "it's " ++ [DQUOTE] ++ lit "b\" ++ [NL])).
Proof.
  exact (string_round_trip ascii_host (lit "it's " ++ [DQUOTE] ++ lit "b\" ++ [NL]) true eq_refl).
Defined.

(** ** Objects of integers there and back *)

Lemma simple_key_is_simple host k :
  simple_key k = true -> Dumper._is_simple_key host k = true.
Proof.
  unfold simple_key, is_key, Dumper.contains. intros H.
  apply andb_true_iff in H. destruct H as [H Hdash].
  apply andb_true_iff in H. destruct H as [H _].
  apply andb_true_iff in H. destruct H as [Hstart Hall].
  apply negb_true_iff in Hdash.
  destruct k as [|c k']; [discriminate|].
  assert (Hchars : forallb (fun c => Lexer.isalnum host (Some c) || (c =? ord "_")) (c :: k')
                   = true).
  { apply forallb_forall. intros x Hx.
    rewrite forallb_forall in Hall. pose proof (Hall x Hx) as Hk.
    pose proof (key_char_range x Hk) as R.
    assert (Hnd : (x =? ord "-") = false).
    { destruct (x =? ord "-") eqn:E; [|reflexivity].
      assert (existsb (fun y => y =? ord "-") (c :: k') = true)
        by (apply existsb_exists; exists x; split; assumption).
      congruence. }
    unfold Lexer.isalnum.
    replace (x <? 128) with true by (symmetry; apply Z.ltb_lt; lia).
    unfold key_char in Hk. rewrite Hnd, orb_false_r in Hk. exact Hk. }
  unfold Dumper._is_simple_key. rewrite Hchars, andb_true_r.
  pose proof (key_start_range c Hstart) as R.
  unfold Lexer.isalpha.
  replace (c <? 128) with true by (symmetry; apply Z.ltb_lt; lia).
  exact Hstart.
Qed.

Lemma entries_of_ok kvs :
  forallb (fun kv => simple_key (fst kv) && (0 <=? snd kv)) kvs = true ->
  forallb entry_ok (entries_of kvs) = true.
Proof.
  intros H. unfold entries_of. apply forallb_forall.
  intros e He. apply in_map_iff in He. destruct He as [kv [E Hin]]. subst e.
  rewrite forallb_forall in H. specialize (H kv Hin).
  apply andb_true_iff in H. destruct H as [Hk Hn]. apply Z.leb_le in Hn.
  unfold simple_key in Hk. apply andb_true_iff in Hk. destruct Hk as [Hk _].
  unfold entry_ok. cbn [fst snd]. rewrite Hk.
  destruct (str_of_int_digits (snd kv) Hn) as [Hd _]. rewrite Hd. reflexivity.
Qed.

Lemma dumped_entry host kv :
  simple_key (fst kv) = true ->
  Dumper.key_str host (fst kv) ++ lit ": " ++ Dumper._format_value host (VInt (snd kv)) 0 true
  = entry_text (fst kv, str_of_int (snd kv)).
Proof.
  intros Hk. unfold Dumper.key_str. rewrite simple_key_is_simple by exact Hk. reflexivity.
Qed.

Lemma dumps_inline_int_dict host kvs :
  forallb (fun kv => simple_key (fst kv) && (0 <=? snd kv)) kvs = true ->
  Dumper._format_value host (VDict (int_dict kvs)) 0 true = inline_object (entries_of kvs).
Proof.
  intros H. cbn [Dumper._format_value orb]. unfold inline_object.
  f_equal. f_equal. f_equal.
  unfold int_dict, entries_of. rewrite !map_map. apply map_ext_in.
  intros kv Hin. rewrite forallb_forall in H. specialize (H kv Hin).
  apply andb_true_iff in H. destruct H as [Hk _]. cbn [fst snd].
  apply (dumped_entry host kv Hk).
Qed.

(** *** The assignments of distinct keys *)

Lemma dict_set_new obj k v :
  existsb (fun kv => str_eqb (fst kv) k) obj = false -> dict_set obj k v = obj ++ [(k, v)].
Proof.
  induction obj as [|[k0 v0] obj IH]; intros H; [reflexivity|].
  cbn [existsb fst] in H. apply orb_false_iff in H. destruct H as [H0 H].
  cbn [dict_set app]. rewrite H0, IH by exact H. reflexivity.
Qed.

Lemma str_eqb_sym a b : str_eqb a b = str_eqb b a.
Proof.
  unfold str_eqb. destruct (list_eq_dec Z.eq_dec a b), (list_eq_dec Z.eq_dec b a);
    congruence.
Qed.

Lemma parsed_distinct kvs : forall obj,
  forallb (fun kv => 0 <=? snd kv) kvs = true ->
  distinct (map fst kvs) = true ->
  (forall kv, In kv kvs -> existsb (fun o => str_eqb (fst o) (fst kv)) obj = false) ->
  fold_left assign (entries_of kvs) obj = obj ++ int_dict kvs.
Proof.
  induction kvs as [|[k n] kvs IH]; intros obj Hn Hd Hobj.
  - cbn [entries_of int_dict map fold_left]. rewrite app_nil_r. reflexivity.
  - cbn [forallb snd] in Hn. apply andb_true_iff in Hn. destruct Hn as [Hn0 Hn].
    apply Z.leb_le in Hn0.
    cbn [map fst distinct] in Hd. apply andb_true_iff in Hd. destruct Hd as [Hk Hd].
    apply negb_true_iff in Hk.
    cbn [entries_of int_dict map fold_left fst snd].
    fold (entries_of kvs). fold (int_dict kvs).
    unfold assign at 2. cbn [fst snd].
    destruct (str_of_int_digits n Hn0) as [Hdig Hval].
    rewrite int_of_decimal_digits, Hval by exact Hdig.
    rewrite dict_set_new by (apply (Hobj (k, n)); left; reflexivity).
    rewrite IH.
    + rewrite <- app_assoc. reflexivity.
    + exact Hn.
    + exact Hd.
    + intros kv Hin. rewrite existsb_app. rewrite (Hobj kv) by (right; exact Hin).
      cbn [existsb fst orb]. rewrite orb_false_r.
      destruct (str_eqb k (fst kv)) eqn:E; [|reflexivity].
      assert (existsb (str_eqb k) (map fst kvs) = true).
      { apply existsb_exists. exists (fst kv). split; [apply in_map; exact Hin | exact E]. }
      congruence.
Qed.

Lemma parsed_int_dict kvs :
  forallb (fun kv => simple_key (fst kv) && (0 <=? snd kv)) kvs = true ->
  distinct (map fst kvs) = true ->
  parsed_entries (entries_of kvs) = int_dict kvs.
Proof.
  intros H Hd. unfold parsed_entries.
  rewrite parsed_distinct; [reflexivity | | exact Hd | reflexivity].
  apply forallb_forall. intros kv Hin. rewrite forallb_forall in H.
  specialize (H kv Hin). apply andb_true_iff in H. tauto.
Qed.

Lemma loads_empty_object host : loads host (lit "{}") = Ok (VDict []).
Proof. vm_compute. reflexivity. Qed.

(** X11.  [loads (dumps d, indent = False)] is [d] for every object [d]
    that holds non-negative integers under distinct keys made of letters,
    digits and underscores (keywords apart); the order of the keys is
    kept. *)
Theorem inline_object_round_trip :
  forall host kvs,
    forallb (fun kv => simple_key (fst kv) && (0 <=? snd kv)) kvs = true ->
    distinct (map fst kvs) = true ->
    loads host (Dumper.dumps host (VDict (int_dict kvs)) false) = Ok (VDict (int_dict kvs)).
Proof.
  intros host kvs H Hd. unfold Dumper.dumps. cbn [negb].
  rewrite dumps_inline_int_dict by exact H.
  destruct kvs as [|kv kvs'].
  - exact (loads_empty_object host).
  - rewrite loads_inline_object.
    + rewrite parsed_int_dict by assumption. reflexivity.
    + discriminate.
    + apply entries_of_ok. exact H.
Qed.

Lemma inline_object_round_trip_witness :
  loads ascii_host
    (Dumper.dumps ascii_host (VDict [(lit "b_1", VInt 20); (lit "a", VInt 0)]) false)
  = Ok (VDict [(lit "b_1", VInt 20); (lit "a", VInt 0)]).
Proof.
  exact (inline_object_round_trip ascii_host [(lit "b_1", 20); (lit "a", 0)]
           eq_refl eq_refl).
Defined.

(** ** Block objects as [dumps] writes them *)

Lemma joined_object_cons e e' rest :
  joined_object (e :: e' :: rest) = entry_text e ++ NL :: joined_object (e' :: rest).
Proof. reflexivity. Qed.

Lemma last_cons_default (l : list Entry) : forall a d, last (a :: l) d = last l a.
Proof.
  induction l as [|b l IH]; intros a d; [reflexivity|].
  change (last (a :: b :: l) d) with (last (b :: l) d). rewrite !IH. reflexivity.
Qed.

Section JoinedLexer.

Variable host : Host.

(** The digits of a number that the input ends in. *)
Lemma read_number_digits_end ds f src p l c als cli lt :
  is_digits ds = true ->
  skipn p src = ds ->
  Lexer.read_number host (List.length ds + S f) (Lexer.mk src p l c als cli lt)
  = Ok (Token.mk INT (VInt (int_of_decimal ds)) l c,
        Lexer.mk src (List.length ds + p) l (c + Z.of_nat (List.length ds)) als cli lt).
Proof.
  intros Hds Hs.
  destruct (is_digits_head ds Hds) as [d [ds' [E Hd]]].
  pose proof Hds as Hds'. unfold is_digits in Hds'. apply andb_true_iff in Hds'.
  destruct Hds' as [_ Hall].
  assert (Hs' : skipn p src = ds ++ []) by (rewrite app_nil_r; exact Hs).
  unfold Lexer.read_number.
  erewrite bind_Ok by reflexivity. lex_norm.
  erewrite bind_Ok by (eapply peek_at; rewrite Hs, E; reflexivity).
  replace (Lexer.ch_is (Some d) (ord "-")) with false
    by (symmetry; apply Z.eqb_neq; pose proof (ascii_digit_range d Hd); unfold ord; simpl; lia).
  erewrite bind_Ok by reflexivity.
  erewrite bind_Ok.
  2:{ rewrite (read_number_loop_digits host ds _ _ _ _ _ _ _ _ _ _ _ _ _ _ Hall Hs').
      eapply read_number_loop_end. apply skipn_past. exact Hs'. }
  cbv beta iota. cbn [orb app].
  rewrite py_int_digits by exact Hds. reflexivity.
Qed.

Lemma scan_number_end f toks src p l c als cli lt ds :
  is_digits ds = true ->
  skipn p src = ds ->
  Lexer.scan host (List.length ds + S f) toks (Lexer.mk src p l c als cli lt)
  = Ok (Lexer.Continue (toks ++ [Token.mk INT (VInt (int_of_decimal ds)) l c]),
        Lexer.mk src (List.length ds + p) l (c + Z.of_nat (List.length ds)) als cli
          (Some (Token.mk INT (VInt (int_of_decimal ds)) l c))).
Proof.
  intros Hds Hs.
  destruct (is_digits_head ds Hds) as [d [ds' [E Hd]]].
  erewrite scan_digit by (try exact Hd; rewrite Hs, E; reflexivity).
  erewrite bind_Ok by (eapply read_number_digits_end; eassumption).
  reflexivity.
Qed.

(** The passes of [tokenize]'s loop over the last line, which no newline
    ends. *)
Lemma tokenize_last_line e fuel toks src p l cli lt :
  entry_ok e = true ->
  skipn p src = entry_text e ->
  (List.length (entry_text e) + 5 <= fuel)%nat ->
  exists lt',
    Lexer.tokenize_loop host fuel toks (Lexer.mk src p l 1 true cli lt)
    = Ok (toks ++ Token.mk INDENT (VInt 0) l 1 :: entry_tokens l 1 e,
          Lexer.mk src (List.length (entry_text e) + p) l
            (1 + Z.of_nat (List.length (entry_text e))) false 0 lt').
Proof.
  intros Hok Hs Hfuel. destruct e as [k ds].
  destruct (entry_ok_parts _ Hok) as [Hk Hds]. cbn [fst snd] in Hk, Hds.
  rewrite entry_text_length in Hfuel |- *. cbn [fst snd] in Hfuel |- *.
  unfold entry_text in Hs. cbn [fst snd lit map list_ascii_of_string] in Hs.
  cbn [app] in Hs.
  destruct (is_key_head k Hk) as [x [k' [Ek Hx]]].
  pose proof (key_start_range x Hx) as Rx.
  do 5 (destruct fuel as [|fuel]; [lia|]).
  (* pass 1: INDENT and the key *)
  assert (Hs0 : skipn p src = x :: k' ++ ord ":" :: ord " " :: ds)
    by (rewrite Hs, Ek; reflexivity).
  erewrite tokenize_loop_step.
  2:{ lex_norm. exact Hs0. }
  2:{ eapply line_start_token; [exact Hs0 | unfold ord, TAB, NL; simpl; lia ..]. }
  2:{ replace (S (S (S (S fuel)))) with (List.length k + S (S (S (S fuel)) - List.length k))%nat
        by lia.
      eapply scan_identifier; [exact Hk | exact Hs]. }
  (* pass 2: the colon *)
  pose proof (skipn_past _ _ _ _ Hs) as Hs2.
  erewrite tokenize_loop_step.
  2:{ lex_norm. exact Hs2. }
  2:{ apply line_start_inside. }
  2:{ eapply scan_punctuation with (x := ord ":"); [reflexivity | exact Hs2]. }
  (* pass 3: the space *)
  pose proof (skipn_next _ _ _ _ Hs2) as Hs3.
  erewrite tokenize_loop_step.
  2:{ lex_norm. exact Hs3. }
  2:{ apply line_start_inside. }
  2:{ eapply scan_space; exact Hs3. }
  (* pass 4: the digits, to the end of the input *)
  pose proof (skipn_next _ _ _ _ Hs3) as Hs4.
  destruct (is_digits_head ds Hds) as [d [ds' [Ed Hd]]].
  erewrite tokenize_loop_step.
  2:{ lex_norm. rewrite Hs4, Ed. reflexivity. }
  2:{ apply line_start_inside. }
  2:{ replace (S fuel) with (List.length ds + S (S fuel - List.length ds - 1))%nat by lia.
      eapply scan_number_end; [exact Hds | exact Hs4]. }
  rewrite tokenize_loop_end.
  2:{ lex_norm. assert (Hs4' : skipn (S (S (List.length k + p))) src = ds ++ [])
        by (rewrite app_nil_r; exact Hs4).
      apply (skipn_past _ _ _ _ Hs4'). }
  eexists.
  unfold entry_tokens. cbn [fst snd].
  rewrite <- !app_assoc. cbn [app].
  replace (1 + Z.of_nat (List.length k) + 1 + 1) with (1 + Z.of_nat (List.length k) + 2) by lia.
  replace (1 + Z.of_nat (List.length k) + 2 + Z.of_nat (List.length ds))
    with (1 + Z.of_nat (List.length k + 2 + List.length ds)) by lia.
  replace (List.length ds + S (S (List.length k + p)))%nat
    with (List.length k + 2 + List.length ds + p)%nat by lia.
  reflexivity.
Qed.

Lemma joined_object_length e rest :
  forallb entry_ok (e :: rest) = true ->
  (List.length (entry_text e) <= List.length (joined_object (e :: rest)))%nat.
Proof.
  intros _. destruct rest as [|e' rest]; [cbn; lia|].
  rewrite joined_object_cons, length_app. lia.
Qed.

Lemma tokenize_joined rest : forall e fuel toks src p l cli lt,
  forallb entry_ok (e :: rest) = true ->
  skipn p src = joined_object (e :: rest) ->
  (List.length (joined_object (e :: rest)) + 5 <= fuel)%nat ->
  exists p' lt',
    Lexer.tokenize_loop host fuel toks (Lexer.mk src p l 1 true cli lt)
    = Ok (toks ++ joined_tokens l e rest,
          Lexer.mk src p' (l + Z.of_nat (List.length rest))
            (1 + Z.of_nat (List.length (entry_text (last rest e)))) false 0 lt').
Proof.
  induction rest as [|e' rest IH]; intros e fuel toks src p l cli lt Hall Hs Hfuel;
    pose proof Hall as Hall'; cbn [forallb] in Hall'; apply andb_true_iff in Hall';
    destruct Hall' as [He Hrest].
  - destruct (tokenize_last_line e fuel toks src p l cli lt He Hs Hfuel) as [lt' H].
    exists (List.length (entry_text e) + p)%nat, lt'. rewrite H.
    cbn [joined_tokens List.length Z.of_nat last]. rewrite Z.add_0_r. reflexivity.
  - rewrite joined_object_cons in Hs, Hfuel. rewrite length_app in Hfuel.
    cbn [List.length] in Hfuel.
    pose proof (entry_text_long e He) as Hlong.
    destruct (tokenize_line host e fuel toks src p l cli lt (joined_object (e' :: rest)) He Hs)
      as [cli1 [lt1 H1]]; [lia|].
    rewrite H1.
    assert (Hs' : skipn (S (List.length (entry_text e) + p)) src = joined_object (e' :: rest)).
    { apply skipn_next with (x := NL). apply skipn_past. exact Hs. }
    destruct (IH e' (fuel - 5)%nat (toks ++ line_tokens l e) src _ (l + 1) cli1 lt1 Hrest Hs')
      as [p' [lt' H2]]; [lia|].
    rewrite H2. exists p', lt'.
    rewrite (last_cons_default rest e' e).
    cbn [joined_tokens List.length]. rewrite <- app_assoc.
    f_equal. f_equal. f_equal. lia.
Qed.

End JoinedLexer.

Lemma joined_tokens_newline rest : forall l e,
  joined_tokens l e rest
  ++ [Token.mk NEWLINE (VStr [NL]) (l + Z.of_nat (List.length rest))
        (1 + Z.of_nat (List.length (entry_text (last rest e))))]
  = block_tokens l (e :: rest).
Proof.
  induction rest as [|e' rest IH]; intros l e.
  - cbn [joined_tokens block_tokens List.length Z.of_nat last]. unfold line_tokens.
    rewrite Z.add_0_r, app_nil_r. reflexivity.
  - cbn [joined_tokens]. rewrite <- app_assoc.
    replace (l + Z.of_nat (List.length (e' :: rest)))
      with (l + 1 + Z.of_nat (List.length rest)) by (cbn [List.length]; lia).
    rewrite (last_cons_default rest e' e).
    rewrite IH. reflexivity.
Qed.

(** The tokens [tokenize] yields for a block object without a final
    newline: those of the object with one, the [NEWLINE] of the last line
    made up at the end of the input. *)
Lemma tokenize_joined_object host e rest :
  forallb entry_ok (e :: rest) = true ->
  exists st,
    Lexer.tokenize host (Lexer.fuel_for (joined_object (e :: rest)))
      (Lexer.mk (joined_object (e :: rest)) 0 1 1 true 0 None)
    = Ok (block_tokens 1 (e :: rest)
          ++ [Token.mk EOF VNone (1 + Z.of_nat (List.length rest))
                (1 + Z.of_nat (List.length (entry_text (last rest e))))], st).
Proof.
  intros Hall. unfold Lexer.tokenize. lex_norm.
  pose proof (joined_object_length e rest Hall) as Hlen.
  assert (Hlong : (4 <= List.length (entry_text e))%nat).
  { apply entry_text_long. cbn [forallb] in Hall. apply andb_true_iff in Hall. tauto. }
  destruct (tokenize_joined host rest e (Lexer.fuel_for (joined_object (e :: rest))) []
              (joined_object (e :: rest)) 0 1 0 None Hall eq_refl)
    as [p' [lt' H]]; [unfold Lexer.fuel_for; lia|].
  eexists.
  erewrite bind_Ok by exact H.
  erewrite bind_Ok by reflexivity. lex_norm. cbn [negb].
  erewrite bind_Ok.
  2:{ erewrite bind_Ok by reflexivity. reflexivity. }
  erewrite bind_Ok by reflexivity. lex_norm.
  erewrite bind_Ok by reflexivity.
  cbn [app]. rewrite joined_tokens_newline. reflexivity.
Qed.

(** *** The validator on it *)

Lemma check_code_points_joined rest : forall e l,
  forallb entry_ok (e :: rest) = true ->
  Lexer.check_code_points (joined_object (e :: rest)) l 1 = Ok tt.
Proof.
  induction rest as [|e' rest IH]; intros e l Hall;
    cbn [forallb] in Hall; apply andb_true_iff in Hall; destruct Hall as [He Hall].
  - apply check_code_points_plain. apply entry_text_plain. exact He.
  - rewrite joined_object_cons.
    rewrite check_code_points_app by (apply entry_text_plain; exact He).
    cbn [Lexer.check_code_points].
    change (negb (Lexer._is_allowed_code_point NL)) with false. cbv beta iota.
    change (NL =? 0x0A) with true. cbv beta iota.
    apply IH. exact Hall.
Qed.

Lemma split_nl_joined rest : forall e,
  forallb entry_ok (e :: rest) = true ->
  split_nl (joined_object (e :: rest)) = map entry_text (e :: rest).
Proof.
  unfold split_nl.
  induction rest as [|e' rest IH]; intros e Hall;
    cbn [forallb] in Hall; apply andb_true_iff in Hall; destruct Hall as [He Hall].
  - apply (split_nl_plain (entry_text e)). apply entry_text_plain. exact He.
  - rewrite joined_object_cons.
    rewrite split_nl_aux_line by (apply entry_text_plain; exact He).
    cbn [rev app]. rewrite IH by exact Hall. reflexivity.
Qed.

Lemma joined_object_validates e rest :
  forallb entry_ok (e :: rest) = true ->
  Lexer._validate_source (joined_object (e :: rest)) = Ok tt.
Proof.
  intros Hall. unfold Lexer._validate_source.
  assert (Hbom : (3 <=? List.length (joined_object (e :: rest)))%nat
                 && (match joined_object (e :: rest) with c :: _ => c =? 0xFEFF | [] => false end
                     || str_eqb (firstn 3 (joined_object (e :: rest))) [0xEF; 0xBB; 0xBF])
                 = false).
  { pose proof Hall as Hall'. cbn [forallb] in Hall'. apply andb_true_iff in Hall'.
    destruct Hall' as [He _].
    destruct (entry_ok_parts e He) as [Hk _].
    destruct (is_key_head _ Hk) as [x [k' [Ek Hx]]].
    pose proof (key_start_range x Hx) as R.
    assert (E : exists r, joined_object (e :: rest) = x :: r).
    { destruct rest as [|e' rest].
      - exists (k' ++ lit ": " ++ snd e). unfold joined_object. cbn [map join].
        unfold entry_text. rewrite Ek. reflexivity.
      - exists (k' ++ lit ": " ++ snd e ++ NL :: joined_object (e' :: rest)).
        rewrite joined_object_cons. unfold entry_text. rewrite Ek.
        cbn [app]. rewrite <- !app_assoc. reflexivity. }
    destruct E as [r E]. rewrite E. cbn [firstn].
    replace (x =? 0xFEFF) with false by (symmetry; apply Z.eqb_neq; lia).
    rewrite str_eqb_head_neq by lia. apply andb_false_r. }
  rewrite Hbom.
  rewrite check_code_points_joined by exact Hall.
  rewrite split_nl_joined by exact Hall.
  apply check_trailing_spaces_ok.
  apply forallb_forall. intros s Hs. apply in_map_iff in Hs. destruct Hs as [e0 [E Hin]].
  subst s. apply negb_true_iff. apply entry_text_end.
  rewrite forallb_forall in Hall. apply Hall. exact Hin.
Qed.

(** *** The parser on its tokens *)

Lemma parse_block_text e rest f src (lines : list str) l c :
  forallb entry_ok (e :: rest) = true ->
  (forall j e', nth_error (e :: rest) j = Some e' ->
                nth_error lines j = Some (entry_text e')) ->
  exists st,
    Parser.parse (List.length rest + 6 + f)
      (Parser.mk src lines (block_tokens 1 (e :: rest) ++ [Token.mk EOF VNone l c]) 0)
    = Ok (VDict (parsed_entries (e :: rest)), st).
Proof.
  intros Hall Hlines.
  pose proof Hall as Hall'. cbn [forallb] in Hall'. apply andb_true_iff in Hall'.
  destruct Hall' as [He Hrest].
  destruct (entry_ok_parts e He) as [Hkey _].
  destruct (is_key_head _ Hkey) as [x [k' [Ek _]]].
  set (toks := block_tokens 1 (e :: rest) ++ [Token.mk EOF VNone l c]).
  assert (Hs0 : skipn 0 toks
                = Token.mk INDENT (VInt 0) (Z.of_nat 0 + 1) 1
                  :: entry_tokens (Z.of_nat 0 + 1) 1 e
                  ++ Token.mk NEWLINE (VStr [NL]) (Z.of_nat 0 + 1)
                       (1 + Z.of_nat (List.length (entry_text e)))
                     :: block_tokens (Z.of_nat 1 + 1) rest ++ [Token.mk EOF VNone l c]).
  { unfold toks. change 1 with (Z.of_nat 0 + 1) at 1. rewrite block_tokens_cons.
    cbn [skipn app]. rewrite <- app_assoc. reflexivity. }
  pose proof (skipn_tokens_next _ _ _ _ Hs0) as Hs1.
  replace (List.length rest + 6 + f)%nat
    with (S (S (S (S (S (List.length rest + 1 + f)))))) by lia.
  set (g := (List.length rest + 1 + f)%nat).
  eexists. unfold Parser.parse.
  erewrite bind_Ok by reflexivity. cbv zeta.
  erewrite bind_Ok.
  2:{ cbn [Parser.skip_leading_newlines].
      erewrite bind_Ok by (eapply parser_kind_is; exact Hs0). tok_norm. reflexivity. }
  erewrite bind_Ok by (eapply parser_peek; exact Hs0). tok_norm.
  erewrite bind_Ok.
  2:{ change (0 <? 0) with false. cbv beta iota.
      erewrite bind_Ok by reflexivity.
      erewrite bind_Ok by (eapply parser_advance; exact Hs0). reflexivity. }
  unfold entry_tokens in Hs1. cbn [app] in Hs1.
  erewrite bind_Ok by (eapply parser_kind_is; exact Hs1). tok_norm.
  erewrite bind_Ok.
  2:{ cbn [Parser.parse_value].
      erewrite bind_Ok by (eapply parser_peek; exact Hs1). tok_norm.
      rewrite Ek. cbn [Lexer.nonempty negb]. rewrite <- Ek.
      erewrite bind_Ok by (eapply parser_peek1; exact Hs1). tok_norm.
      erewrite bind_Ok.
      2:{ cbn [Parser.parse_block_object].
          erewrite (parse_block_entry false e g [] src lines toks 1 0);
            [| exact He | apply Hlines; reflexivity
             | cbn [app]; unfold entry_tokens; cbn [app]; exact Hs1].
          unfold g.
          replace (S (S (List.length rest + 1 + f))) with (List.length rest + 3 + f)%nat by lia.
          eapply (parse_block_lines rest 1).
          - exact Hrest.
          - intros j e' Hj. apply Hlines. exact Hj.
          - do 4 (apply skipn_tokens_next in Hs1). exact Hs1. }
      reflexivity. }
  assert (Hend : skipn (5 * List.length rest + ((if false then 5 else 4) + 1)) toks
                 = [Token.mk EOF VNone l c]).
  { unfold toks.
    replace (5 * List.length rest + ((if false then 5 else 4) + 1))%nat
      with (List.length (block_tokens 1 (e :: rest)) + 0)%nat
      by (rewrite block_tokens_length; cbn [List.length]; lia).
    rewrite skipn_app, skipn_all2 by lia.
    replace (List.length (block_tokens 1 (e :: rest)) + 0
             - List.length (block_tokens 1 (e :: rest)))%nat with 0%nat by lia.
    reflexivity. }
  erewrite bind_Ok.
  2:{ cbn [Parser.skip_newlines].
      erewrite bind_Ok by (eapply parser_peek; exact Hend).
      tok_norm. reflexivity. }
  erewrite bind_Ok by (eapply parser_kind_is; exact Hend). tok_norm.
  reflexivity.
Qed.

(** [loads] on a block object with no newline after its last line. *)
Lemma loads_joined_object host e rest :
  forallb entry_ok (e :: rest) = true ->
  loads host (joined_object (e :: rest)) = Ok (VDict (parsed_entries (e :: rest))).
Proof.
  intros Hall. unfold loads, Lexer.__init__.
  rewrite (joined_object_validates e rest Hall).
  destruct (tokenize_joined_object host e rest Hall) as [st Htok]. rewrite Htok.
  rewrite (split_nl_joined rest e Hall).
  replace (Parser.fuel_for _)
    with (List.length rest + 6 + (19 * List.length rest + 34))%nat.
  2:{ unfold Parser.fuel_for. rewrite length_app, block_tokens_length.
      cbn [List.length]. lia. }
  destruct (parse_block_text e rest (19 * List.length rest + 34)
              (joined_object (e :: rest)) (map entry_text (e :: rest))
              (1 + Z.of_nat (List.length rest))
              (1 + Z.of_nat (List.length (entry_text (last rest e)))) Hall) as [st' Hp].
  { intros j e' Hj. rewrite nth_error_map, Hj. reflexivity. }
  rewrite Hp. reflexivity.
Qed.

(** *** What [dumps] writes *)

Lemma dumps_block_int_dict host kv kvs :
  forallb (fun kv => simple_key (fst kv) && (0 <=? snd kv)) (kv :: kvs) = true ->
  Dumper._format_value host (VDict (int_dict (kv :: kvs))) 0 false
  = joined_object (entries_of (kv :: kvs)).
Proof.
  intros H. cbn [int_dict map Dumper._format_value orb Lexer.nonempty_list negb].
  unfold joined_object. f_equal.
  change ((fst kv, VInt (snd kv)) :: map (fun kv0 => (fst kv0, VInt (snd kv0))) kvs)
    with (int_dict (kv :: kvs)).
  generalize dependent (kv :: kvs). clear kv kvs.
  induction l as [|kv kvs IH]; intros H; [reflexivity|].
  cbn [forallb] in H. apply andb_true_iff in H. destruct H as [Hkv H].
  apply andb_true_iff in Hkv. destruct Hkv as [Hk _].
  cbn [int_dict entries_of map flat_map fst snd Dumper.nonempty_dict Dumper.nonempty_array
       orb app].
  fold (int_dict kvs). fold (entries_of kvs). rewrite IH by exact H.
  f_equal. change (Dumper.prefix_of 0) with (@nil Z). cbn [app].
  apply (dumped_entry host kv Hk).
Qed.

(** X12.  [loads (dumps d)], with the default [indent = True], is [d] for
    every object [d] that holds non-negative integers under distinct keys
    made of letters, digits and underscores (keywords apart): [dumps]
    writes one [key: digits] line per entry, no newline after the last,
    and [loads] reads them back in order. *)
Theorem block_object_round_trip :
  forall host kvs,
    forallb (fun kv => simple_key (fst kv) && (0 <=? snd kv)) kvs = true ->
    distinct (map fst kvs) = true ->
    loads host (Dumper.dumps host (VDict (int_dict kvs)) true) = Ok (VDict (int_dict kvs)).
Proof.
  intros host kvs H Hd. unfold Dumper.dumps. cbn [negb].
  destruct kvs as [|kv kvs'].
  - exact (loads_empty_object host).
  - rewrite dumps_block_int_dict by exact H.
    change (entries_of (kv :: kvs'))
      with ((fst kv, str_of_int (snd kv)) :: entries_of kvs').
    rewrite loads_joined_object.
    + change ((fst kv, str_of_int (snd kv)) :: entries_of kvs')
        with (entries_of (kv :: kvs')).
      rewrite parsed_int_dict by assumption. reflexivity.
    + apply (entries_of_ok (kv :: kvs')). exact H.
Qed.

Lemma block_object_round_trip_witness :
  loads ascii_host
    (Dumper.dumps ascii_host (VDict [(lit "b_1", VInt 20); (lit "a", VInt 0)]) true)
  = Ok (VDict [(lit "b_1", VInt 20); (lit "a", VInt 0)]).
Proof.
  exact (block_object_round_trip ascii_host [(lit "b_1", 20); (lit "a", 0)]
           eq_refl eq_refl).
Defined.

(** ** Numbers, words and indentation that [loads] rejects *)

Lemma digits_plain ds : forallb ascii_digit ds = true -> forallb plain ds = true.
Proof.
  intros H. apply forallb_forall. intros x Hx. apply digit_plain.
  rewrite forallb_forall in H. apply H. exact Hx.
Qed.

Section UppercaseExponent.

Variable host : Host.
Variables (ds tail : str).
Hypothesis ds_digits : is_digits ds = true.
Hypothesis tail_plain : forallb plain tail = true.
Hypothesis tail_end : endswith_space (ord "E" :: tail) = false.

Lemma exponent_validates : Lexer._validate_source (ds ++ ord "E" :: tail) = Ok tt.
Proof.
  pose proof ds_digits as H. unfold is_digits in H. apply andb_true_iff in H.
  destruct H as [_ Hall].
  destruct (is_digits_head ds ds_digits) as [d [r [E Hd]]].
  pose proof (ascii_digit_range d Hd) as R.
  apply validate_plain.
  - rewrite forallb_app. cbn [forallb]. rewrite digits_plain, tail_plain by exact Hall.
    reflexivity.
  - rewrite E. cbn [app]. split; lia.
  - rewrite endswith_space_app by discriminate. exact tail_end.
Qed.

Lemma read_number_exponent f l c als cli lt :
  (List.length ds < f)%nat ->
  Lexer.read_number host f (Lexer.mk (ds ++ ord "E" :: tail) 0 l c als cli lt)
  = Raise (YaySyntaxError (lit "Uppercase exponent (use lowercase 'e')") l
             (c + Z.of_nat (List.length ds))).
Proof.
  intros Hf.
  pose proof ds_digits as H. unfold is_digits in H. apply andb_true_iff in H.
  destruct H as [Hne Hall].
  destruct (is_digits_head ds ds_digits) as [d [r [E Hd]]].
  unfold Lexer.read_number.
  erewrite bind_Ok by reflexivity. lex_norm.
  erewrite bind_Ok by (eapply peek_at; cbn [skipn]; rewrite E; reflexivity).
  replace (Lexer.ch_is (Some d) (ord "-")) with false
    by (symmetry; apply Z.eqb_neq; pose proof (ascii_digit_range d Hd); unfold ord; simpl; lia).
  erewrite bind_Ok by reflexivity.
  erewrite bind_Raise; [reflexivity|].
  replace f with (List.length ds + S (f - List.length ds - 1))%nat by lia.
  rewrite (read_number_loop_digits host ds _ _ _ _ _ _ (ds ++ ord "E" :: tail) 0 _ _ _ _ _
             (ord "E" :: tail) Hall eq_refl).
  assert (Hs : skipn (List.length ds + 0) (ds ++ ord "E" :: tail) = ord "E" :: tail).
  { rewrite Nat.add_0_r, skipn_app, skipn_all, Nat.sub_diag. reflexivity. }
  cbn [Lexer.read_number_loop].
  erewrite bind_Ok by (eapply peek_at; exact Hs).
  change (Lexer.isdigit host (Some (ord "E"))) with false.
  change (Lexer.ch_is (Some (ord "E")) (ord ".")) with false.
  change (Lexer.ch_is (Some (ord "E")) (ord "e")) with false.
  change (Lexer.ch_is (Some (ord "E")) (ord "E")) with true.
  cbn [app andb negb]. rewrite Hne. cbv beta iota.
  unfold Lexer.error. lex_norm. reflexivity.
Qed.

Lemma loads_exponent :
  loads host (ds ++ ord "E" :: tail)
  = Raise (YaySyntaxError (lit "Uppercase exponent (use lowercase 'e')") 1
             (1 + Z.of_nat (List.length ds))).
Proof.
  destruct (is_digits_head ds ds_digits) as [d [r [E Hd]]].
  pose proof (ascii_digit_range d Hd) as R.
  unfold loads, Lexer.__init__. rewrite exponent_validates.
  set (src := ds ++ ord "E" :: tail).
  assert (Hs0 : skipn 0 src = d :: r ++ ord "E" :: tail)
    by (unfold src; rewrite E; reflexivity).
  replace (Lexer.tokenize host (Lexer.fuel_for src) (Lexer.mk src 0 1 1 true 0 None))
    with (@Raise (list Token.t * Lexer.t)
            (YaySyntaxError (lit "Uppercase exponent (use lowercase 'e')") 1
               (1 + Z.of_nat (List.length ds)))); [reflexivity|].
  symmetry. unfold Lexer.tokenize. lex_norm.
  erewrite bind_Raise; [reflexivity|].
  set (fuel := Lexer.fuel_for src).
  assert (Hfuel : (List.length ds + 3 <= fuel)%nat).
  { unfold fuel, Lexer.fuel_for, src. rewrite length_app. cbn [List.length]. lia. }
  clearbody fuel.
  do 2 (destruct fuel as [|fuel]; [lia|]).
  cbn [Lexer.tokenize_loop].
  erewrite bind_Ok by reflexivity. lex_norm.
  replace (0 <? List.length src)%nat with true
    by (symmetry; apply Nat.ltb_lt; eapply skipn_lt; exact Hs0).
  erewrite bind_Ok.
  2:{ eapply line_start_token; [exact Hs0 | unfold ord, TAB, NL; simpl; lia ..]. }
  cbv beta iota.
  erewrite bind_Raise; [reflexivity|].
  erewrite scan_digit by (try exact Hd; exact Hs0).
  erewrite bind_Raise; [reflexivity|].
  apply read_number_exponent. lia.
Qed.

End UppercaseExponent.

(** X13.  A number written with an uppercase [E] after its digits is
    rejected with [Uppercase exponent (use lowercase 'e')] at the column of
    the [E]. *)
Theorem uppercase_exponent :
  forall host ds tail,
    is_digits ds = true ->
    forallb plain tail = true ->
    endswith_space (ord "E" :: tail) = false ->
    loads host (ds ++ ord "E" :: tail)
    = Raise (YaySyntaxError (lit "Uppercase exponent (use lowercase 'e')") 1
               (1 + Z.of_nat (List.length ds))).
Proof. intros host ds tail H1 H2 H3. apply loads_exponent; assumption. Qed.

Lemma uppercase_exponent_witness :
  loads ascii_host (lit "12E5")
  = Raise (YaySyntaxError (lit "Uppercase exponent (use lowercase 'e')") 1 3).
Proof. exact (uppercase_exponent ascii_host (lit "12") (lit "5") eq_refl eq_refl eq_refl). Defined.

(** *** A bare word *)

Section BareWord.

Variable host : Host.

Lemma identifier_chars_end k : forall f chars src p l c als cli lt,
  forallb key_char k = true ->
  skipn p src = k ->
  Lexer.identifier_chars host (List.length k + S f) chars (Lexer.mk src p l c als cli lt)
  = Ok (chars ++ k,
        Lexer.mk src (List.length k + p) l (c + Z.of_nat (List.length k)) als cli lt).
Proof.
  induction k as [|x k IH]; intros f chars src p l c als cli lt Hall Hs.
  - cbn [List.length Nat.add Lexer.identifier_chars].
    erewrite bind_Ok by (eapply peek_end; exact Hs).
    cbn. rewrite app_nil_r, Z.add_0_r. reflexivity.
  - cbn [forallb] in Hall. apply andb_true_iff in Hall. destruct Hall as [Hx Hall].
    pose proof (key_char_range x Hx) as R.
    change (List.length (x :: k) + S f)%nat with (S (List.length k + S f)).
    cbn [Lexer.identifier_chars].
    erewrite bind_Ok by (eapply peek_at; exact Hs).
    rewrite isalnum_key_char by exact Hx.
    erewrite bind_Ok by (eapply advance_at; [exact Hs | unfold NL; lia]).
    rewrite (IH _ _ _ _ _ _ _ _ _ Hall (skipn_next _ _ _ _ Hs)).
    cbn [List.length]. rewrite <- app_assoc. f_equal. f_equal. f_equal; lia.
Qed.

Lemma read_identifier_end k f src p l c als cli lt :
  forallb key_char k = true ->
  is_keyword k = false ->
  skipn p src = k ->
  Lexer.read_identifier host (List.length k + S f) (Lexer.mk src p l c als cli lt)
  = Ok (Token.mk IDENT (VStr k) l c,
        Lexer.mk src (List.length k + p) l (c + Z.of_nat (List.length k)) als cli lt).
Proof.
  intros Hall Hkw Hs. unfold Lexer.read_identifier.
  erewrite bind_Ok by reflexivity. lex_norm.
  erewrite bind_Ok by (eapply identifier_chars_end; eassumption).
  cbn [app]. unfold is_keyword in Hkw.
  repeat (apply orb_false_iff in Hkw; destruct Hkw as [Hkw ?]).
  repeat match goal with H : str_eqb _ _ = false |- _ => rewrite H; clear H end.
  reflexivity.
Qed.

Lemma tokenize_word k fuel :
  is_key k = true ->
  (List.length k + 4 <= fuel)%nat ->
  exists st,
    Lexer.tokenize host fuel (Lexer.mk k 0 1 1 true 0 None)
    = Ok ([Token.mk INDENT (VInt 0) 1 1;
           Token.mk IDENT (VStr k) 1 1;
           Token.mk NEWLINE (VStr [NL]) 1 (1 + Z.of_nat (List.length k));
           Token.mk EOF VNone 1 (1 + Z.of_nat (List.length k))], st).
Proof.
  intros Hk Hfuel.
  pose proof Hk as Hk'. unfold is_key in Hk'.
  apply andb_true_iff in Hk'. destruct Hk' as [Hk' Hkw].
  apply andb_true_iff in Hk'. destruct Hk' as [Hstart Hall].
  apply negb_true_iff in Hkw.
  destruct (is_key_head k Hk) as [x [k' [Ek Hx]]].
  pose proof (key_start_range x Hx) as Rx.
  do 3 (destruct fuel as [|fuel]; [lia|]).
  eexists. unfold Lexer.tokenize. lex_norm.
  erewrite bind_Ok.
  2:{ erewrite tokenize_loop_step.
      2:{ lex_norm. cbn [skipn]. exact Ek. }
      2:{ eapply line_start_token; [cbn [skipn]; exact Ek | unfold ord, TAB, NL; simpl; lia ..]. }
      2:{ erewrite scan_key by (try exact Hx; cbn [skipn]; exact Ek).
          replace (S (S fuel)) with (List.length k + S (S (S fuel) - List.length k - 1))%nat
            by lia.
          erewrite bind_Ok by (eapply read_identifier_end; [exact Hall | exact Hkw | reflexivity]).
          reflexivity. }
      apply tokenize_loop_end. lex_norm. rewrite Nat.add_0_r. apply skipn_all. }
  erewrite bind_Ok by reflexivity. lex_norm. cbn [negb].
  erewrite bind_Ok by reflexivity.
  erewrite bind_Ok by reflexivity. lex_norm.
  rewrite Nat.add_0_r. reflexivity.
Qed.

Lemma parse_word src lines x k' c :
  Parser.parse 32
    (Parser.mk src lines
       [Token.mk INDENT (VInt 0) 1 1; Token.mk IDENT (VStr (x :: k')) 1 1;
        Token.mk NEWLINE (VStr [NL]) 1 c; Token.mk EOF VNone 1 c] 0)
  = Raise (YaySyntaxError (lit "Unexpected character " ++ dq [x]) 1 1).
Proof. vm_compute. reflexivity. Qed.

End BareWord.

Lemma key_validates k : is_key k = true -> Lexer._validate_source k = Ok tt.
Proof.
  intros Hk. pose proof Hk as Hk'. unfold is_key in Hk'.
  apply andb_true_iff in Hk'. destruct Hk' as [Hk' _].
  apply andb_true_iff in Hk'. destruct Hk' as [_ Hall].
  destruct (is_key_head k Hk) as [x [k' [Ek Hx]]].
  pose proof (key_start_range x Hx) as Rx.
  assert (Hne : k <> []) by (rewrite Ek; discriminate).
  destruct (exists_last Hne) as [k0 [z Ez]].
  apply validate_plain.
  - apply forallb_forall. intros y Hy. apply key_char_plain.
    rewrite forallb_forall in Hall. apply Hall. exact Hy.
  - rewrite Ek. split; lia.
  - rewrite Ez, endswith_space_snoc.
    assert (Hz : key_char z = true).
    { rewrite forallb_forall in Hall. apply Hall. rewrite Ez. apply in_or_app.
      right. left. reflexivity. }
    pose proof (key_char_range z Hz) as Rz.
    apply Z.eqb_neq. unfold ord. simpl. lia.
Qed.

(** X14.  A bare word (letters, digits, [_] and [-] after a letter or
    [_], not a keyword) is not a value: the document that consists of it
    is rejected with [Unexpected character] and the word's first
    character in double quotes, at line 1, column 1. *)
Theorem bare_word_is_rejected :
  forall host x k',
    is_key (x :: k') = true ->
    loads host (x :: k')
    = Raise (YaySyntaxError (lit "Unexpected character " ++ dq [x]) 1 1).
Proof.
  intros host x k' Hk. unfold loads, Lexer.__init__.
  rewrite (key_validates _ Hk).
  destruct (tokenize_word host (x :: k') (Lexer.fuel_for (x :: k')) Hk) as [st Htok].
  { unfold Lexer.fuel_for. cbn [List.length]. lia. }
  rewrite Htok. change (Parser.fuel_for _) with 32%nat.
  rewrite parse_word. reflexivity.
Qed.

Lemma bare_word_is_rejected_witness :
  loads ascii_host (lit "hello")
  = Raise (YaySyntaxError (lit "Unexpected character " ++ dq (lit "h")) 1 1).
Proof. exact (bare_word_is_rejected ascii_host (ord "h") (lit "ello") eq_refl). Defined.

(** *** An indented first line *)

Lemma count_spaces_run n : forall f spaces src p l c als cli lt x r,
  x <> ord " " ->
  skipn p src = repeat (ord " ") n ++ x :: r ->
  Lexer.count_spaces (n + S f) spaces (Lexer.mk src p l c als cli lt)
  = Ok (spaces + Z.of_nat n,
        Lexer.mk src (n + p) l (c + Z.of_nat n) als cli lt).
Proof.
  induction n as [|n IH]; intros f spaces src p l c als cli lt x r Hx Hs.
  - cbn [repeat app] in Hs. cbn [Nat.add Lexer.count_spaces].
    erewrite bind_Ok by (eapply peek_at; exact Hs).
    unfold Lexer.ch_is. apply Z.eqb_neq in Hx. rewrite Hx.
    cbn [Z.of_nat]. rewrite !Z.add_0_r. reflexivity.
  - cbn [repeat app] in Hs. change (S n + S f)%nat with (S (n + S f)).
    cbn [Lexer.count_spaces].
    erewrite bind_Ok by (eapply peek_at; exact Hs).
    change (Lexer.ch_is (Some (ord " ")) (ord " ")) with true. cbv beta iota.
    erewrite bind_Ok by (eapply advance_at; [exact Hs | discriminate]).
    rewrite (IH f _ _ _ _ _ _ _ _ x r Hx (skipn_next _ _ _ _ Hs)).
    f_equal. f_equal; [lia|]. f_equal; lia.
Qed.

(** The start of a line of [n] spaces and then a token: [INDENT] with
    value [n]. *)
Lemma line_start_indented n f toks src p l c cli lt x r :
  skipn p src = repeat (ord " ") n ++ x :: r ->
  x <> ord " " -> x <> TAB -> x <> NL -> x <> ord "#" ->
  Lexer.line_start (n + S f) toks (Lexer.mk src p l c true cli lt)
  = Ok (Lexer.Fall (toks ++ [Token.mk INDENT (VInt (Z.of_nat n)) l 1]),
        Lexer.mk src (n + p) l (c + Z.of_nat n) false (Z.of_nat n)
          (Some (Token.mk INDENT (VInt (Z.of_nat n)) l 1))).
Proof.
  intros Hs H1 H2 H3 H4.
  pose proof (skipn_past _ _ _ _ Hs) as Hx. rewrite repeat_length in Hx.
  unfold Lexer.line_start.
  erewrite bind_Ok by reflexivity. lex_norm.
  erewrite bind_Ok by reflexivity. lex_norm.
  unfold Lexer.read_indent.
  erewrite bind_Ok.
  2:{ erewrite bind_Ok by (eapply count_spaces_run; [exact H1 | exact Hs]).
      erewrite bind_Ok by (eapply peek_at; exact Hx).
      unfold Lexer.ch_is. apply Z.eqb_neq in H2. rewrite H2. reflexivity. }
  erewrite bind_Ok by (eapply peek_at; exact Hx).
  unfold Lexer.ch_is, Lexer.is_empty.
  apply Z.eqb_neq in H3. rewrite H3. apply Z.eqb_neq in H4. rewrite H4.
  cbn [Z.add]. reflexivity.
Qed.

Lemma parse_indented src lines n v c c' :
  (1 <= n)%nat ->
  Parser.parse 32
    (Parser.mk src lines
       [Token.mk INDENT (VInt (Z.of_nat n)) 1 1; Token.mk INT v 1 c;
        Token.mk NEWLINE (VStr [NL]) 1 c'; Token.mk EOF VNone 1 c'] 0)
  = Raise (YaySyntaxError (lit "Unexpected indent") 1 1).
Proof.
  intros Hn.
  set (toks := [Token.mk INDENT (VInt (Z.of_nat n)) 1 1; Token.mk INT v 1 c;
                Token.mk NEWLINE (VStr [NL]) 1 c'; Token.mk EOF VNone 1 c']).
  assert (Hs0 : skipn 0 toks
                = Token.mk INDENT (VInt (Z.of_nat n)) 1 1
                  :: [Token.mk INT v 1 c; Token.mk NEWLINE (VStr [NL]) 1 c';
                      Token.mk EOF VNone 1 c']) by reflexivity.
  unfold Parser.parse.
  erewrite bind_Ok by reflexivity. cbv zeta.
  erewrite bind_Ok.
  2:{ change 32%nat with (S 31). cbn [Parser.skip_leading_newlines].
      erewrite bind_Ok by (eapply parser_kind_is; exact Hs0). tok_norm. reflexivity. }
  erewrite bind_Ok by (eapply parser_peek; exact Hs0). tok_norm.
  erewrite bind_Raise; [reflexivity|].
  replace (0 <? Z.of_nat n) with true by (symmetry; apply Z.ltb_lt; lia).
  reflexivity.
Qed.

(** X15.  A document whose first line is indented is rejected with
    [Unexpected indent] at line 1, column 1: here the line is one or more
    spaces and then an integer. *)
Theorem unexpected_indent :
  forall host n ds,
    (1 <= n)%nat ->
    is_digits ds = true ->
    loads host (repeat (ord " ") n ++ ds)
    = Raise (YaySyntaxError (lit "Unexpected indent") 1 1).
Proof.
  intros host n ds Hn Hds.
  destruct n as [|m]; [lia|]. set (n := S m) in *.
  pose proof Hds as H. unfold is_digits in H. apply andb_true_iff in H.
  destruct H as [Hne Hall].
  destruct (is_digits_head ds Hds) as [d [r [E Hd]]].
  pose proof (ascii_digit_range d Hd) as R.
  set (src := repeat (ord " ") n ++ ds).
  assert (Hlen : List.length src = (n + List.length ds)%nat)
    by (unfold src; rewrite length_app, repeat_length; reflexivity).
  assert (Hv : Lexer._validate_source src = Ok tt).
  { apply validate_plain.
    - unfold src. rewrite forallb_app, (digits_plain ds Hall).
      rewrite andb_true_r. apply forallb_forall. intros y Hy.
      apply repeat_spec in Hy. subst y. reflexivity.
    - unfold src, n. cbn [repeat app]. split; discriminate.
    - unfold src. rewrite endswith_space_app by (rewrite E; discriminate).
      assert (H1 : [ds] <> []) by discriminate.
      assert (H2 : forallb is_digits [ds] = true)
        by (cbn [forallb]; rewrite Hds; reflexivity).
      change (endswith_space (grouped [ds]) = false).
      apply grouped_ends_in_digit; assumption. }
  assert (Hs0 : skipn 0 src = repeat (ord " ") n ++ d :: r)
    by (unfold src; rewrite E; reflexivity).
  assert (Hs1 : skipn (n + 0) src = ds).
  { unfold src. rewrite Nat.add_0_r.
    rewrite <- (repeat_length (ord " ") n) at 1.
    rewrite skipn_app, skipn_all, Nat.sub_diag. reflexivity. }
  unfold loads, Lexer.__init__. rewrite Hv.
  assert (Htok : exists st c,
             Lexer.tokenize host (Lexer.fuel_for src) (Lexer.mk src 0 1 1 true 0 None)
             = Ok ([Token.mk INDENT (VInt (Z.of_nat n)) 1 1;
                    Token.mk INT (VInt (int_of_decimal ds)) 1 (1 + Z.of_nat n);
                    Token.mk NEWLINE (VStr [NL]) 1 c; Token.mk EOF VNone 1 c], st)).
  { unfold Lexer.tokenize. lex_norm.
    set (fuel := Lexer.fuel_for src).
    assert (Hfuel : (n + List.length ds + 4 <= fuel)%nat)
      by (unfold fuel, Lexer.fuel_for; rewrite Hlen; lia).
    clearbody fuel.
    do 2 (destruct fuel as [|fuel]; [lia|]).
    eexists. eexists.
    erewrite bind_Ok.
    2:{ erewrite tokenize_loop_step.
        2:{ lex_norm. unfold src, n. cbn [repeat app skipn]. reflexivity. }
        2:{ replace (S fuel) with (n + S (S fuel - n - 1))%nat by lia.
            eapply line_start_indented; [exact Hs0 | unfold ord, TAB, NL; simpl; lia ..]. }
        2:{ replace (S fuel) with (List.length ds + S (S fuel - List.length ds - 1))%nat
              by lia.
            eapply scan_number_end; [exact Hds | exact Hs1]. }
        apply tokenize_loop_end. lex_norm.
        replace (List.length ds + (n + 0))%nat with (List.length src) by lia.
        apply skipn_all. }
    erewrite bind_Ok by reflexivity. lex_norm. cbn [negb].
    erewrite bind_Ok by reflexivity.
    erewrite bind_Ok by reflexivity. lex_norm.
    reflexivity. }
  destruct Htok as [st [c Htok]]. rewrite Htok.
  change (Parser.fuel_for _) with 32%nat.
  rewrite parse_indented by exact Hn. reflexivity.
Qed.

Lemma unexpected_indent_witness :
  loads ascii_host (lit "  42") = Raise (YaySyntaxError (lit "Unexpected indent") 1 1).
Proof.
  exact (unexpected_indent ascii_host 2 (lit "42") (le_S 1 1 (le_n 1)) eq_refl).
Defined.

(** *** Floats written as words *)

Lemma loads_special_floats host :
  loads host (lit "nan") = Ok (VFloat S754_nan)
  /\ loads host (lit "infinity") = Ok (VFloat (S754_infinity false))
  /\ loads host (lit "-infinity") = Ok (VFloat (S754_infinity true)).
Proof. repeat split; vm_compute; reflexivity. Qed.

(** X16.  [loads (dumps x)] is [x] for not-a-number and the two
    infinities: they are written [nan], [infinity] and [-infinity]. *)
Theorem special_float_round_trip :
  forall host x indent,
    special_float x = true ->
    loads host (Dumper.dumps host (VFloat x) indent) = Ok (VFloat x).
Proof.
  intros host x indent Hx. unfold Dumper.dumps. cbn [Dumper._format_value].
  destruct x as [ | neg | | ]; try discriminate Hx; cbn [Dumper.format_float].
  - destruct neg.
    + exact (proj2 (proj2 (loads_special_floats host))).
    + exact (proj1 (proj2 (loads_special_floats host))).
  - exact (proj1 (loads_special_floats host)).
Qed.

Lemma special_float_round_trip_witness :
  loads ascii_host (Dumper.dumps ascii_host (VFloat (S754_infinity true)) true)
  = Ok (VFloat (S754_infinity true)).
Proof. exact (special_float_round_trip ascii_host (S754_infinity true) true eq_refl). Defined.
(** ** Counterexamples and evaluations *)

(** C2, as stated, fails on the code: the empty document does not raise
    "No value found in document". *)
Lemma empty_document_does_not_raise :
  raises (loads ascii_host []) (YaySyntaxError (lit "No value found in document") 1 1)
  = false.
Proof. vm_compute. reflexivity. Qed.

(** ** The dumper's output *)

(** C3, as stated, fails on the code: the output does not end in a
    newline character. *)
Lemma dumps_greeting_has_no_final_newline :
  str_eqb (Dumper.dumps ascii_host greeting true)
          (lit "greeting: " ++ dq (lit "hi\n") ++ [NL])
  = false.
Proof. vm_compute. reflexivity. Qed.

(** C3, amended: [dumps] of [{greeting: "hi\n"}] with [indent=True] is
    exactly the line [greeting: "hi\n"], the string in double quotes with
    its newline escaped, and no newline character after it. *)
Theorem dumps_greeting :
  forall host, Dumper.dumps host greeting true = lit "greeting: " ++ dq (lit "hi\n").
Proof. intro host. vm_compute. reflexivity. Qed.

(** ** Spacing in inline arrays *)

(** C4, as stated, fails on the code: the error is not at column 5. *)
Lemma missing_space_after_comma_not_at_col_5 :
  raises (loads ascii_host (lit "[1, 2,3]"))
         (YaySyntaxError (lit "Expected space after " ++ dq (lit ",")) 1 5)
  = false.
Proof. vm_compute. reflexivity. Qed.

(** C4, amended: parsing [[1, 2,3]] raises [Expected space after ","] at
    line 1, column 7, the column of the character that follows the
    comma. *)
Theorem missing_space_after_comma :
  forall host,
    loads host (lit "[1, 2,3]")
    = Raise (YaySyntaxError (lit "Expected space after " ++ dq (lit ",")) 1 7).
Proof. intro host. vm_compute. reflexivity. Qed.

(** C1, on the code.  [dumps] renders an object inside a block array as a
    [-] line followed by the object's lines, and [loads] rejects that
    text: after [-] it wants a space. *)
Theorem dumps_nested_object_is_rejected :
  forall host,
    Dumper.dumps host nested_object true = lit "-" ++ [NL] ++ lit "    a: 1"
    /\ loads host (Dumper.dumps host nested_object true)
       = Raise (YaySyntaxError (lit "Expected space after " ++ dq (lit "-")) 1 2).
Proof. intro host. split; vm_compute; reflexivity. Qed.

(** ** Inline arrays of integers *)

(** *** The tokens *)

Lemma array_rest_join ds rest :
  join (lit ", ") (ds :: rest) ++ lit "]" = ds ++ array_rest rest.
Proof.
  revert ds. induction rest as [|ds' rest IH]; intros ds; [reflexivity|].
  change (join (lit ", ") (ds :: ds' :: rest))
    with (ds ++ lit ", " ++ join (lit ", ") (ds' :: rest)).
  rewrite <- !app_assoc. rewrite IH. reflexivity.
Qed.

Lemma inline_array_cons ds rest :
  inline_array (ds :: rest) = ord "[" :: ds ++ array_rest rest.
Proof. unfold inline_array. rewrite array_rest_join. reflexivity. Qed.

Lemma array_rest_head rest : exists x r, array_rest rest = x :: r /\ ends_item x = true.
Proof.
  destruct rest as [|ds rest].
  - exists (ord "]"), []. split; reflexivity.
  - exists (ord ","), (ord " " :: ds ++ array_rest rest). split; reflexivity.
Qed.

Lemma array_rest_length_pos rest : (1 <= List.length (array_rest rest))%nat.
Proof. destruct rest; cbn [array_rest lit map list_ascii_of_string app List.length]; lia. Qed.

Section ArrayLexer.

Variable host : Host.

Lemma scan_bracket f toks src p l c als cli lt x k r :
  (x = ord "[" /\ k = LBRACKET) \/ (x = ord "]" /\ k = RBRACKET) ->
  skipn p src = x :: r ->
  Lexer.scan host f toks (Lexer.mk src p l c als cli lt)
  = Ok (Lexer.Continue (toks ++ [Token.mk k (VStr [x]) l c]),
        Lexer.mk src (S p) l (c + 1) als cli (Some (Token.mk k (VStr [x]) l c))).
Proof.
  intros Hk Hs.
  assert (E : Lexer.scan host f toks (Lexer.mk src p l c als cli lt)
              = Lexer.punctuation toks k x (Lexer.mk src p l c als cli lt)
              /\ x <> NL).
  { unfold Lexer.scan. erewrite bind_Ok by (eapply peek_at; exact Hs).
    destruct Hk as [[Ex Ek] | [Ex Ek]]; subst x k; split; [reflexivity | discriminate
                                                          | reflexivity | discriminate]. }
  destruct E as [E Hn]. rewrite E. unfold Lexer.punctuation.
  erewrite bind_Ok by reflexivity. lex_norm.
  erewrite bind_Ok by reflexivity. lex_norm.
  erewrite bind_Ok by (eapply advance_at; [exact Hs | exact Hn]).
  reflexivity.
Qed.

Lemma read_number_loop_item f chars hd he lws scol src p l c als cli lt x r :
  ends_item x = true ->
  skipn p src = x :: r ->
  Lexer.read_number_loop host (S f) chars hd he lws scol (Lexer.mk src p l c als cli lt)
  = Ok ((chars, hd, he), Lexer.mk src p l c als cli lt).
Proof.
  intros Hx Hs. cbn [Lexer.read_number_loop].
  erewrite bind_Ok by (eapply peek_at; exact Hs).
  unfold ends_item in Hx.
  apply orb_true_iff in Hx; destruct Hx as [Hx|Hx];
    apply Z.eqb_eq in Hx; subst x; reflexivity.
Qed.

Lemma scan_item f toks src p l c als cli lt ds x r :
  is_digits ds = true ->
  ends_item x = true ->
  skipn p src = ds ++ x :: r ->
  Lexer.scan host (List.length ds + S f) toks (Lexer.mk src p l c als cli lt)
  = Ok (Lexer.Continue (toks ++ [Token.mk INT (VInt (int_of_decimal ds)) l c]),
        Lexer.mk src (List.length ds + p) l (c + Z.of_nat (List.length ds)) als cli
          (Some (Token.mk INT (VInt (int_of_decimal ds)) l c))).
Proof.
  intros Hds Hx Hs.
  destruct (is_digits_head ds Hds) as [d [ds' [E Hd]]].
  pose proof Hds as Hds'. unfold is_digits in Hds'. apply andb_true_iff in Hds'.
  destruct Hds' as [_ Hall].
  erewrite scan_digit by (try exact Hd; rewrite Hs, E; reflexivity).
  erewrite bind_Ok.
  2:{ unfold Lexer.read_number.
      erewrite bind_Ok by reflexivity. lex_norm.
      erewrite bind_Ok by (eapply peek_at; rewrite Hs, E; reflexivity).
      replace (Lexer.ch_is (Some d) (ord "-")) with false
        by (symmetry; apply Z.eqb_neq; pose proof (ascii_digit_range d Hd);
            unfold ord; simpl; lia).
      erewrite bind_Ok by reflexivity.
      erewrite bind_Ok.
      2:{ rewrite (read_number_loop_digits host ds _ _ _ _ _ _ _ _ _ _ _ _ _ _ Hall Hs).
          eapply read_number_loop_item; [exact Hx | apply skipn_past; exact Hs]. }
      cbv beta iota. cbn [orb app].
      rewrite py_int_digits by exact Hds. reflexivity. }
  reflexivity.
Qed.

Lemma digits_length_pos ds : is_digits ds = true -> (1 <= List.length ds)%nat.
Proof.
  intros H. destruct (is_digits_head ds H) as [d [r [E _]]]. rewrite E. cbn. lia.
Qed.

(** The passes over what follows the first item. *)
Lemma tokenize_array_rest rest : forall fuel toks src p c cli lt,
  forallb is_digits rest = true ->
  skipn p src = array_rest rest ->
  (List.length (array_rest rest) + 4 <= fuel)%nat ->
  exists p' lt',
    Lexer.tokenize_loop host fuel toks (Lexer.mk src p 1 c false cli lt)
    = Ok (toks ++ array_rest_tokens c rest,
          Lexer.mk src p' 1 (c + Z.of_nat (List.length (array_rest rest))) false cli lt').
Proof.
  induction rest as [|ds rest IH]; intros fuel toks src p c cli lt Hall Hs Hfuel.
  - cbn [array_rest lit map list_ascii_of_string List.length] in Hs, Hfuel |- *.
    do 2 (destruct fuel as [|fuel]; [lia|]).
    erewrite tokenize_loop_step.
    2:{ lex_norm. exact Hs. }
    2:{ apply line_start_inside. }
    2:{ eapply scan_bracket with (x := ord "]") (k := RBRACKET);
          [right; split; reflexivity | exact Hs]. }
    rewrite tokenize_loop_end by (lex_norm; eapply skipn_next; exact Hs).
    eexists _, _. reflexivity.
  - cbn [forallb] in Hall. apply andb_true_iff in Hall. destruct Hall as [Hds Hall].
    pose proof (digits_length_pos ds Hds) as Hlong.
    cbn [array_rest lit map list_ascii_of_string app] in Hs, Hfuel.
    cbn [List.length] in Hfuel. rewrite length_app in Hfuel.
    do 3 (destruct fuel as [|fuel]; [lia|]).
    (* the comma and the space *)
    erewrite tokenize_loop_step.
    2:{ lex_norm. exact Hs. }
    2:{ apply line_start_inside. }
    2:{ eapply scan_punctuation with (x := ord ","); [reflexivity | exact Hs]. }
    pose proof (skipn_next _ _ _ _ Hs) as Hs1.
    erewrite tokenize_loop_step.
    2:{ lex_norm. exact Hs1. }
    2:{ apply line_start_inside. }
    2:{ eapply scan_space; exact Hs1. }
    pose proof (skipn_next _ _ _ _ Hs1) as Hs2.
    (* the item *)
    destruct (array_rest_head rest) as [x [r [Ex Hx]]]. rewrite Ex in Hs2.
    destruct (is_digits_head ds Hds) as [d [ds' [Ed Hd]]].
    erewrite tokenize_loop_step.
    2:{ lex_norm. rewrite Hs2, Ed. reflexivity. }
    2:{ apply line_start_inside. }
    2:{ replace fuel with (List.length ds + S (fuel - List.length ds - 1))%nat by lia.
        eapply scan_item; [exact Hds | exact Hx | exact Hs2]. }
    rewrite <- Ex in Hs2.
    destruct (IH fuel
                ((toks ++ [Token.mk COMMA (VStr [ord ","]) 1 c])
                 ++ [Token.mk INT (VInt (int_of_decimal ds)) 1 (c + 1 + 1)]) src
                (List.length ds + S (S p))%nat
                (c + 1 + 1 + Z.of_nat (List.length ds)) cli
                (Some (Token.mk INT (VInt (int_of_decimal ds)) 1 (c + 1 + 1))) Hall
                (skipn_past _ _ _ _ Hs2))
      as [p' [lt' H2]]; [lia|].
    rewrite H2. exists p', lt'.
    cbn [array_rest_tokens array_rest lit map list_ascii_of_string app List.length].
    rewrite length_app. rewrite <- !app_assoc. cbn [app].
    replace (c + 1 + 1) with (c + 2) by lia.
    f_equal. f_equal. f_equal. lia.
Qed.

(** The tokens [tokenize] yields for an inline array. *)
Lemma tokenize_inline_array ds rest :
  forallb is_digits (ds :: rest) = true ->
  exists st,
    Lexer.tokenize host (Lexer.fuel_for (inline_array (ds :: rest)))
      (Lexer.mk (inline_array (ds :: rest)) 0 1 1 true 0 None)
    = Ok (inline_array_tokens ds rest, st).
Proof.
  intros Hall. cbn [forallb] in Hall. apply andb_true_iff in Hall.
  destruct Hall as [Hds Hall].
  pose proof (digits_length_pos ds Hds) as Hlong.
  pose proof (array_rest_length_pos rest) as Hpos.
  unfold inline_array_tokens.
  set (src := inline_array (ds :: rest)).
  assert (Hs : skipn 0 src = ord "[" :: ds ++ array_rest rest)
    by (unfold src; rewrite inline_array_cons; reflexivity).
  assert (Hlen : List.length src
                 = (1 + List.length ds + List.length (array_rest rest))%nat).
  { unfold src. rewrite inline_array_cons. cbn [List.length]. rewrite length_app. lia. }
  unfold Lexer.tokenize. lex_norm. unfold Lexer.fuel_for.
  set (fuel := (2 * List.length src + 4)%nat).
  assert (Hf : (List.length ds + List.length (array_rest rest) + 6 <= fuel)%nat)
    by (unfold fuel; lia).
  clearbody fuel.
  do 2 (destruct fuel as [|fuel]; [lia|]).
  assert (Hloop : exists p' lt',
             Lexer.tokenize_loop host (S (S fuel)) [] (Lexer.mk src 0 1 1 true 0 None)
             = Ok ([Token.mk INDENT (VInt 0) 1 1; Token.mk LBRACKET (VStr [ord "["]) 1 1;
                    Token.mk INT (VInt (int_of_decimal ds)) 1 2]
                   ++ array_rest_tokens (2 + Z.of_nat (List.length ds)) rest,
                   Lexer.mk src p' 1 (1 + Z.of_nat (List.length src)) false 0 lt')).
  { erewrite tokenize_loop_step.
    2:{ lex_norm. exact Hs. }
    2:{ eapply line_start_token; [exact Hs | discriminate ..]. }
    2:{ eapply scan_bracket with (x := ord "[") (k := LBRACKET);
          [left; split; reflexivity | exact Hs]. }
    pose proof (skipn_next _ _ _ _ Hs) as Hs1.
    destruct (array_rest_head rest) as [x [r [Ex Hx]]]. rewrite Ex in Hs1.
    destruct (is_digits_head ds Hds) as [d [ds' [Ed Hd]]].
    erewrite tokenize_loop_step.
    2:{ lex_norm. rewrite Hs1, Ed. reflexivity. }
    2:{ apply line_start_inside. }
    2:{ replace fuel with (List.length ds + S (fuel - List.length ds - 1))%nat by lia.
        eapply scan_item; [exact Hds | exact Hx | exact Hs1]. }
    rewrite <- Ex in Hs1.
    destruct (tokenize_array_rest rest fuel
                [Token.mk INDENT (VInt 0) 1 1; Token.mk LBRACKET (VStr [ord "["]) 1 1;
                 Token.mk INT (VInt (int_of_decimal ds)) 1 (1 + 1)] src
                (List.length ds + 1)%nat
                (1 + 1 + Z.of_nat (List.length ds)) 0
                (Some (Token.mk INT (VInt (int_of_decimal ds)) 1 (1 + 1))) Hall
                (skipn_past _ _ _ _ Hs1))
      as [p' [lt' H2]]; [lia|].
    cbn [app]. rewrite H2. exists p', lt'.
    rewrite Hlen. change (1 + 1) with 2. cbn [app].
    f_equal. f_equal. f_equal. lia. }
  destruct Hloop as [p' [lt' Hloop]].
  eexists.
  erewrite bind_Ok by exact Hloop.
  erewrite bind_Ok by reflexivity. lex_norm. cbn [negb].
  erewrite bind_Ok.
  2:{ erewrite bind_Ok by reflexivity. reflexivity. }
  erewrite bind_Ok by reflexivity. lex_norm.
  erewrite bind_Ok by reflexivity.
  cbn [app]. rewrite <- ?app_assoc. cbn [app]. reflexivity.
Qed.

End ArrayLexer.

(** *** The validator *)

Lemma array_rest_plain rest :
  forallb is_digits rest = true -> forallb plain (array_rest rest) = true.
Proof.
  induction rest as [|ds rest IH]; intros Hall; [reflexivity|].
  cbn [forallb] in Hall. apply andb_true_iff in Hall. destruct Hall as [Hds Hall].
  unfold is_digits in Hds. apply andb_true_iff in Hds. destruct Hds as [_ Hds].
  cbn [array_rest lit map list_ascii_of_string app forallb].
  rewrite forallb_app, (digits_plain ds Hds), (IH Hall). reflexivity.
Qed.

Lemma inline_array_plain ds rest :
  forallb is_digits (ds :: rest) = true -> forallb plain (inline_array (ds :: rest)) = true.
Proof.
  intros Hall. cbn [forallb] in Hall. apply andb_true_iff in Hall. destruct Hall as [Hds Hall].
  unfold is_digits in Hds. apply andb_true_iff in Hds. destruct Hds as [_ Hds].
  rewrite inline_array_cons. cbn [forallb].
  rewrite forallb_app, (digits_plain ds Hds), (array_rest_plain rest Hall). reflexivity.
Qed.

Lemma inline_array_validates ds rest :
  forallb is_digits (ds :: rest) = true ->
  Lexer._validate_source (inline_array (ds :: rest)) = Ok tt.
Proof.
  intros Hall. apply validate_plain.
  - apply inline_array_plain. exact Hall.
  - rewrite inline_array_cons. split; discriminate.
  - unfold inline_array. rewrite app_assoc.
    change (lit "]") with [ord "]"]. rewrite endswith_space_snoc. reflexivity.
Qed.

(** *** The spacing check *)

Lemma validate_array_step n s i line start_col depth x :
  nth_error s i = Some x ->
  x <> ord "'" -> x <> DQUOTE -> x <> ord "[" -> x <> ord "]" -> x <> ord "," ->
  Parser.validate_loop (S n) s i line start_col (ord "[") (ord "]") false false false depth
  = Parser.validate_loop n s (S i) line start_col (ord "[") (ord "]") false false false depth.
Proof.
  intros Hx H1 H2 H3 H4 H5. cbn [Parser.validate_loop]. rewrite Hx. cbv zeta.
  apply Z.eqb_neq in H1, H2, H3, H4, H5. rewrite H1, H2, H3, H4, H5. reflexivity.
Qed.

Lemma validate_array_digits seg : forall s i line start_col depth tail,
  forallb ascii_digit seg = true ->
  skipn i s = seg ++ tail ->
  (forall m, Parser.validate_loop m s (List.length seg + i) line start_col
               (ord "[") (ord "]") false false false depth = Ok tt) ->
  forall n, Parser.validate_loop n s i line start_col
              (ord "[") (ord "]") false false false depth = Ok tt.
Proof.
  induction seg as [|x seg IH]; intros s i line start_col depth tail Hall Hs Hnext n.
  - apply Hnext.
  - destruct n as [|n]; [reflexivity|].
    cbn [forallb] in Hall. apply andb_true_iff in Hall. destruct Hall as [Hx Hall].
    pose proof (ascii_digit_range x Hx) as R. cbn [app] in Hs.
    rewrite (validate_array_step n s i line start_col depth x
               (nth_error_at_skipn _ _ _ _ Hs))
      by (unfold ord, DQUOTE; simpl; lia).
    eapply IH; [exact Hall | eapply skipn_next; exact Hs |].
    intros m. cbn [List.length] in Hnext. rewrite Nat.add_succ_r. apply Hnext.
Qed.

Lemma digits_last ds :
  is_digits ds = true -> exists body d, ds = body ++ [d] /\ d <> ord " ".
Proof.
  intros H. unfold is_digits in H. apply andb_true_iff in H. destruct H as [Hn Hd].
  assert (Hne : ds <> []) by (destruct ds; [discriminate | congruence]).
  destruct (exists_last Hne) as [body [z E]]. exists body, z. split; [exact E|].
  rewrite E, forallb_app in Hd. apply andb_true_iff in Hd. destruct Hd as [_ Hz].
  cbn [forallb] in Hz. rewrite andb_true_r in Hz. pose proof (ascii_digit_range z Hz).
  unfold ord. simpl. lia.
Qed.

Lemma validate_array_rest rest : forall s i line start_col d depth,
  forallb is_digits rest = true ->
  skipn (S i) s = array_rest rest ->
  nth_error s i = Some d -> d <> ord " " ->
  forall n, Parser.validate_loop n s (S i) line start_col
              (ord "[") (ord "]") false false false depth = Ok tt.
Proof.
  induction rest as [|ds rest IH]; intros s i line start_col d depth Hall Hs Hd Hdn n.
  - destruct n as [|n]; [reflexivity|].
    cbn [array_rest lit map list_ascii_of_string] in Hs.
    cbn [Parser.validate_loop].
    rewrite (nth_error_at_skipn _ _ _ _ Hs). cbv zeta.
    change (ord "]" =? ord "'") with false. change (ord "]" =? DQUOTE) with false.
    change (ord "]" =? ord "[") with false. change (ord "]" =? ord "]") with true.
    cbv beta iota.
    replace (S i - 1)%nat with i by lia. rewrite Hd.
    unfold Lexer.ch_is at 1. apply Z.eqb_neq in Hdn. rewrite Hdn, andb_false_r.
    destruct n as [|n]; [reflexivity|].
    cbn [Parser.validate_loop].
    rewrite (nth_error_skipn_nil _ _ (skipn_next _ _ _ _ Hs)). reflexivity.
  - destruct n as [|n]; [reflexivity|].
    cbn [forallb] in Hall. apply andb_true_iff in Hall. destruct Hall as [Hds Hall].
    cbn [array_rest lit map list_ascii_of_string app] in Hs.
    pose proof (skipn_next _ _ _ _ Hs) as Hs1.
    pose proof (skipn_next _ _ _ _ Hs1) as Hs2.
    destruct (is_digits_head ds Hds) as [x [r [Ex Hx]]].
    pose proof (ascii_digit_range x Hx) as Rx.
    destruct (digits_last ds Hds) as [body [z [Ez Hz]]].
    pose proof Hds as Hds'. unfold is_digits in Hds'. apply andb_true_iff in Hds'.
    destruct Hds' as [_ Hdall].
    cbn [Parser.validate_loop].
    rewrite (nth_error_at_skipn _ _ _ _ Hs). cbv zeta.
    change (ord "," =? ord "'") with false. change (ord "," =? DQUOTE) with false.
    change (ord "," =? ord "[") with false. change (ord "," =? ord "]") with false.
    change (ord "," =? ord ",") with true.
    cbv beta iota.
    replace (S i - 1)%nat with i by lia. rewrite Hd.
    unfold Lexer.ch_is at 1. apply Z.eqb_neq in Hdn. rewrite Hdn, andb_false_r.
    replace (S i + 1)%nat with (S (S i)) by lia.
    replace (S i + 2)%nat with (S (S (S i))) by lia.
    rewrite (nth_error_at_skipn _ _ _ _ Hs1).
    change (negb (ord " " =? ord " ")) with false. cbn [andb].
    assert (H3 : nth_error s (S (S (S i))) = Some x).
    { eapply nth_error_at_skipn. rewrite Hs2, Ex. reflexivity. }
    rewrite H3. unfold Lexer.ch_is.
    replace (x =? ord " ") with false
      by (symmetry; apply Z.eqb_neq; unfold ord; simpl; lia).
    rewrite andb_false_r.
    (* the space, the digits, and on *)
    destruct n as [|n]; [reflexivity|].
    rewrite (validate_array_step n s (S (S i)) line start_col depth (ord " ")
               (nth_error_at_skipn _ _ _ _ Hs1)) by discriminate.
    eapply (validate_array_digits ds) with (tail := array_rest rest).
    + exact Hdall.
    + exact Hs2.
    + intros m.
      replace (List.length ds + S (S (S i)))%nat
        with (S (List.length body + S (S (S i))))
        by (rewrite Ez, length_app; cbn [List.length]; lia).
      eapply IH with (d := z).
      * exact Hall.
      * replace (S (List.length body + S (S (S i))))
          with (List.length ds + S (S (S i)))%nat
          by (rewrite Ez, length_app; cbn [List.length]; lia).
        apply skipn_past. exact Hs2.
      * rewrite Nat.add_comm.
        erewrite (nth_error_in_skipn s (S (S (S i))) ds (array_rest rest))
          by (try exact Hs2; rewrite Ez, length_app; cbn [List.length]; lia).
        rewrite Ez, nth_error_app2 by lia. rewrite Nat.sub_diag. reflexivity.
      * exact Hz.
Qed.

Lemma validate_loop_array ds rest line start_col :
  forallb is_digits (ds :: rest) = true ->
  forall n, Parser.validate_loop n (inline_array (ds :: rest)) 0 line start_col
              (ord "[") (ord "]") false false false 0 = Ok tt.
Proof.
  intros Hall n. cbn [forallb] in Hall. apply andb_true_iff in Hall.
  destruct Hall as [Hds Hall].
  set (s := inline_array (ds :: rest)).
  assert (Hs : skipn 0 s = ord "[" :: ds ++ array_rest rest)
    by (unfold s; rewrite inline_array_cons; reflexivity).
  pose proof (skipn_next _ _ _ _ Hs) as Hs1.
  destruct (is_digits_head ds Hds) as [x [r [Ex Hx]]].
  pose proof (ascii_digit_range x Hx) as Rx.
  destruct (digits_last ds Hds) as [body [z [Ez Hz]]].
  pose proof Hds as Hds'. unfold is_digits in Hds'. apply andb_true_iff in Hds'.
  destruct Hds' as [_ Hdall].
  destruct n as [|n]; [reflexivity|].
  cbn [Parser.validate_loop].
  rewrite (nth_error_at_skipn _ _ _ _ Hs). cbv zeta.
  change (ord "[" =? ord "'") with false. change (ord "[" =? DQUOTE) with false.
  change (ord "[" =? ord "[") with true.
  cbv beta iota. cbn [Nat.add].
  assert (H1 : nth_error s 1 = Some x).
  { eapply nth_error_at_skipn. rewrite Hs1, Ex. reflexivity. }
  rewrite H1. unfold Lexer.ch_is.
  replace (x =? ord " ") with false
    by (symmetry; apply Z.eqb_neq; unfold ord; simpl; lia).
  eapply (validate_array_digits ds) with (tail := array_rest rest).
  - exact Hdall.
  - exact Hs1.
  - intros m.
    replace (List.length ds + 1)%nat with (S (List.length body + 1))
      by (rewrite Ez, length_app; cbn [List.length]; lia).
    eapply validate_array_rest with (d := z).
    + exact Hall.
    + replace (S (List.length body + 1)) with (List.length ds + 1)%nat
        by (rewrite Ez, length_app; cbn [List.length]; lia).
      apply skipn_past. exact Hs1.
    + rewrite Nat.add_comm.
      erewrite (nth_error_in_skipn s 1 ds (array_rest rest))
        by (try exact Hs1; rewrite Ez, length_app; cbn [List.length]; lia).
      rewrite Ez, nth_error_app2 by lia. rewrite Nat.sub_diag. reflexivity.
    + exact Hz.
Qed.

(** [validate_inline_syntax] at the opening bracket of the array. *)
Lemma validate_inline_array ds rest src toks pos :
  forallb is_digits (ds :: rest) = true ->
  Parser.validate_inline_syntax 1 1 (ord "[") (ord "]")
    (Parser.mk src [inline_array (ds :: rest)] toks pos)
  = Ok (tt, Parser.mk src [inline_array (ds :: rest)] toks pos).
Proof.
  intros Hall. unfold Parser.validate_inline_syntax.
  erewrite bind_Ok by reflexivity.
  cbn [Parser.source_lines List.length Z.of_nat Z.leb Z.compare Pos.compare
       Pos.compare_cont Pos.of_succ_nat Z.sub Z.add Z.opp Z.pos_sub Z.to_nat nth].
  cbv zeta.
  replace (1 <=? Z.of_nat (List.length (inline_array (ds :: rest)))) with true.
  2:{ symmetry. apply Z.leb_le. rewrite inline_array_cons. cbn [List.length]. lia. }
  cbn [skipn].
  rewrite (validate_loop_array ds rest 1 1 Hall). reflexivity.
Qed.

(** *** The parser *)

Lemma parse_inline_item (last : bool) n f lbracket items src lines toks pos l c v c' tail :
  skipn pos toks
  = Token.mk INT (VInt n) l c
    :: Token.mk (if last then RBRACKET else COMMA) v 1 c' :: tail ->
  Parser.parse_inline_array_loop (S (S f)) lbracket items (Parser.mk src lines toks pos)
  = Parser.parse_inline_array_loop (S f) lbracket (items ++ [VInt n])
      (Parser.mk src lines toks ((if last then 1 else 2) + pos)).
Proof.
  intros Ht. pose proof (skipn_tokens_next _ _ _ _ Ht) as Ht1.
  cbn [Parser.parse_inline_array_loop].
  erewrite bind_Ok by (eapply parser_peek; exact Ht). tok_norm. cbv beta iota.
  erewrite bind_Ok.
  2:{ cbn [Parser.parse_inline_value].
      erewrite bind_Ok by (eapply parser_peek; exact Ht). tok_norm.
      erewrite bind_Ok by (eapply parser_advance; exact Ht). reflexivity. }
  cbv zeta.
  erewrite bind_Ok by (eapply parser_peek; exact Ht1). tok_norm.
  destruct last; cbv beta iota.
  - reflexivity.
  - erewrite bind_Ok by (eapply parser_advance; exact Ht1). reflexivity.
Qed.

Lemma parse_array_close f lbracket items src lines toks pos v l c tail :
  skipn pos toks = Token.mk RBRACKET v l c :: tail ->
  Parser.parse_inline_array_loop (S f) lbracket items (Parser.mk src lines toks pos)
  = Ok (items, Parser.mk src lines toks pos).
Proof.
  intros Ht. cbn [Parser.parse_inline_array_loop].
  erewrite bind_Ok by (eapply parser_peek; exact Ht). reflexivity.
Qed.

(** The loop of [parse_inline_array] over the items, up to the closing
    bracket. *)
Lemma parse_inline_items rest : forall ds c c' items pos f lbracket src lines toks tail,
  skipn pos toks
  = Token.mk INT (VInt (int_of_decimal ds)) 1 c :: array_rest_tokens c' rest ++ tail ->
  Parser.parse_inline_array_loop (List.length rest + 2 + f) lbracket items
    (Parser.mk src lines toks pos)
  = Ok (items ++ int_items (ds :: rest),
        Parser.mk src lines toks (2 * List.length rest + 1 + pos)).
Proof.
  induction rest as [|ds' rest IH];
    intros ds c c' items pos f lbracket src lines toks tail Ht.
  - cbn [array_rest_tokens app] in Ht.
    cbn [List.length Nat.add Nat.mul].
    rewrite (parse_inline_item true _ f lbracket items src lines toks pos _ _ _ _ tail Ht).
    eapply parse_array_close. eapply skipn_tokens_next. exact Ht.
  - cbn [array_rest_tokens app] in Ht.
    change (List.length (ds' :: rest) + 2 + f)%nat with (S (List.length rest + 2 + f)).
    replace (S (List.length rest + 2 + f)) with (S (S (List.length rest + 1 + f))) by lia.
    rewrite (parse_inline_item false _ _ lbracket items src lines toks pos _ _ _ _ _ Ht).
    replace (S (List.length rest + 1 + f)) with (List.length rest + 2 + f)%nat by lia.
    do 2 (apply skipn_tokens_next in Ht).
    rewrite (IH ds' _ _ (items ++ [VInt (int_of_decimal ds)]) (2 + pos)%nat f lbracket
               src lines toks tail Ht).
    cbn [int_items map List.length]. rewrite <- app_assoc. cbn [app].
    f_equal. f_equal. f_equal. lia.
Qed.

Lemma array_rest_tokens_last rest : forall c,
  exists front c',
    array_rest_tokens c rest = front ++ [Token.mk RBRACKET (VStr (lit "]")) 1 c']
    /\ List.length front = (2 * List.length rest)%nat.
Proof.
  induction rest as [|ds rest IH]; intros c.
  - exists [], c. split; reflexivity.
  - destruct (IH (c + 2 + Z.of_nat (List.length ds))) as [front [c' [E Hlen]]].
    exists (Token.mk COMMA (VStr (lit ",")) 1 c
            :: Token.mk INT (VInt (int_of_decimal ds)) 1 (c + 2) :: front), c'.
    split.
    + cbn [array_rest_tokens]. rewrite E. reflexivity.
    + cbn [List.length]. rewrite Hlen. lia.
Qed.

(** [Parser.parse] on the tokens of an inline array. *)
Lemma parse_inline_array_document ds rest f :
  forallb is_digits (ds :: rest) = true ->
  exists st,
    Parser.parse (List.length rest + 4 + f)
      (Parser.mk (inline_array (ds :: rest)) [inline_array (ds :: rest)]
         (inline_array_tokens ds rest) 0)
    = Ok (VList (int_items (ds :: rest)), st).
Proof.
  intros Hall.
  set (src := inline_array (ds :: rest)).
  set (c := 1 + Z.of_nat (List.length src)).
  destruct (array_rest_tokens_last rest (2 + Z.of_nat (List.length ds)))
    as [front [c' [Efront Hfront]]].
  set (tail := [Token.mk NEWLINE (VStr [NL]) 1 c; Token.mk EOF VNone 1 c]).
  set (toks := inline_array_tokens ds rest).
  assert (Ht0 : skipn 0 toks
                = Token.mk INDENT (VInt 0) 1 1 :: Token.mk LBRACKET (VStr (lit "[")) 1 1
                  :: Token.mk INT (VInt (int_of_decimal ds)) 1 2
                  :: array_rest_tokens (2 + Z.of_nat (List.length ds)) rest ++ tail)
    by reflexivity.
  pose proof (skipn_tokens_next _ _ _ _ Ht0) as Ht1.
  pose proof (skipn_tokens_next _ _ _ _ Ht1) as Ht2.
  assert (Hend : skipn (S (2 * List.length rest + 1 + 2)) toks = tail
                 /\ skipn (2 * List.length rest + 1 + 2) toks
                    = Token.mk RBRACKET (VStr (lit "]")) 1 c' :: tail).
  { assert (E : toks = (Token.mk INDENT (VInt 0) 1 1 :: Token.mk LBRACKET (VStr (lit "[")) 1 1
                        :: Token.mk INT (VInt (int_of_decimal ds)) 1 2 :: front)
                       ++ Token.mk RBRACKET (VStr (lit "]")) 1 c' :: tail).
    { unfold toks, inline_array_tokens. fold src. fold c. fold tail.
      rewrite Efront. cbn [app]. rewrite <- !app_assoc. reflexivity. }
    assert (Hl : (2 * List.length rest + 1 + 2
                  = List.length (Token.mk INDENT (VInt 0) 1 1
                                 :: Token.mk LBRACKET (VStr (lit "[")) 1 1
                                 :: Token.mk INT (VInt (int_of_decimal ds)) 1 2 :: front)
                    + 0)%nat).
    { cbn [List.length]. rewrite Hfront. lia. }
    assert (H : skipn (2 * List.length rest + 1 + 2) toks
                = Token.mk RBRACKET (VStr (lit "]")) 1 c' :: tail).
    { rewrite Hl, E. rewrite skipn_app, skipn_all2 by lia.
      rewrite Nat.add_0_r, Nat.sub_diag. reflexivity. }
    split; [eapply skipn_tokens_next; exact H | exact H]. }
  destruct Hend as [Hend1 Hend0].
  replace (List.length rest + 4 + f)%nat with (S (S (List.length rest + 2 + f))) by lia.
  eexists. unfold Parser.parse.
  erewrite bind_Ok by reflexivity. cbv zeta.
  erewrite bind_Ok.
  2:{ cbn [Parser.skip_leading_newlines].
      erewrite bind_Ok by (eapply parser_kind_is; exact Ht0). tok_norm. reflexivity. }
  erewrite bind_Ok by (eapply parser_peek; exact Ht0). tok_norm.
  erewrite bind_Ok.
  2:{ change (0 <? 0) with false. cbv beta iota.
      erewrite bind_Ok by reflexivity.
      erewrite bind_Ok by (eapply parser_advance; exact Ht0). reflexivity. }
  erewrite bind_Ok by (eapply parser_kind_is; exact Ht1). tok_norm.
  erewrite bind_Ok.
  2:{ cbn [Parser.parse_value].
      erewrite bind_Ok by (eapply parser_peek; exact Ht1). tok_norm.
      erewrite bind_Ok.
      2:{ cbn [Parser.parse_inline_array].
          erewrite bind_Ok by (eapply parser_peek; exact Ht1).
          erewrite bind_Ok.
          2:{ unfold Parser.expect.
              erewrite bind_Ok by (eapply parser_peek; exact Ht1). tok_norm.
              eapply parser_advance; exact Ht1. }
          erewrite bind_Ok by (eapply parser_kind_is; exact Ht2). tok_norm.
          erewrite bind_Ok by reflexivity.
          erewrite bind_Ok by (apply validate_inline_array; exact Hall).
          erewrite bind_Ok.
          2:{ eapply (parse_inline_items rest ds) with (tail := tail). exact Ht2. }
          erewrite bind_Ok.
          2:{ unfold Parser.expect.
              erewrite bind_Ok by (eapply parser_peek; exact Hend0). tok_norm.
              eapply parser_advance; exact Hend0. }
          reflexivity. }
      reflexivity. }
  erewrite bind_Ok.
  2:{ cbn [Parser.skip_newlines].
      erewrite bind_Ok by (eapply parser_peek; exact Hend1). tok_norm.
      erewrite bind_Ok by (eapply parser_advance; exact Hend1).
      erewrite bind_Ok by (eapply parser_peek; eapply skipn_tokens_next; exact Hend1).
      tok_norm. reflexivity. }
  erewrite bind_Ok
    by (eapply parser_kind_is; eapply skipn_tokens_next; exact Hend1).
  tok_norm. reflexivity.
Qed.

(** [loads] on an inline array: its integers in order. *)
Lemma loads_inline_array host ds rest :
  forallb is_digits (ds :: rest) = true ->
  loads host (inline_array (ds :: rest)) = Ok (VList (int_items (ds :: rest))).
Proof.
  intros Hall. unfold loads, Lexer.__init__.
  rewrite (inline_array_validates ds rest Hall).
  destruct (tokenize_inline_array host ds rest Hall) as [st Htok]. rewrite Htok.
  rewrite (split_nl_plain _ (inline_array_plain ds rest Hall)).
  destruct (array_rest_tokens_last rest (2 + Z.of_nat (List.length ds)))
    as [front [c' [Efront Hfront]]].
  replace (Parser.fuel_for _)
    with (List.length rest + 4 + (7 * List.length rest + 36))%nat.
  2:{ unfold Parser.fuel_for, inline_array_tokens. cbv zeta. rewrite Efront.
      cbn [app List.length]. rewrite !length_app.
      cbn [List.length]. rewrite Hfront. lia. }
  destruct (parse_inline_array_document ds rest (7 * List.length rest + 36) Hall)
    as [st' Hp].
  match goal with
  | |- context [Parser.parse ?n ?s] =>
      replace (Parser.parse n s) with (Ok (VList (int_items (ds :: rest)), st'))
        by (symmetry; exact Hp)
  end.
  reflexivity.
Qed.

Lemma loads_empty_array host : loads host (lit "[]") = Ok (VList []).
Proof. vm_compute. reflexivity. Qed.

(** X17.  [loads (dumps a, indent = False)] is [a] for every array [a]
    of non-negative integers, the empty array included: [dumps] writes
    [[1, 20, 3]], and [loads] reads the items back in order. *)
Theorem inline_array_round_trip :
  forall host ns,
    forallb (fun n => 0 <=? n) ns = true ->
    loads host (Dumper.dumps host (VList (map VInt ns)) false) = Ok (VList (map VInt ns)).
Proof.
  intros host ns Hns. unfold Dumper.dumps. cbn [negb Dumper._format_value orb].
  rewrite map_map. cbn [Dumper._format_value].
  change (loads host (inline_array (map str_of_int ns)) = Ok (VList (map VInt ns))).
  destruct ns as [|n ns'].
  - exact (loads_empty_array host).
  - assert (Hall : forallb is_digits (map str_of_int (n :: ns')) = true).
    { apply forallb_forall. intros ds Hds. apply in_map_iff in Hds.
      destruct Hds as [m [E Hin]]. subst ds.
      rewrite forallb_forall in Hns. specialize (Hns m Hin). apply Z.leb_le in Hns.
      apply (str_of_int_digits m Hns). }
    change (map str_of_int (n :: ns')) with (str_of_int n :: map str_of_int ns') in *.
    rewrite (loads_inline_array host _ _ Hall).
    f_equal. f_equal.
    change (str_of_int n :: map str_of_int ns') with (map str_of_int (n :: ns')).
    unfold int_items. rewrite map_map. apply map_ext_in.
    intros m Hin. rewrite forallb_forall in Hns. specialize (Hns m Hin).
    apply Z.leb_le in Hns. destruct (str_of_int_digits m Hns) as [Hd Hv].
    rewrite int_of_decimal_digits, Hv by exact Hd. reflexivity.
Qed.

Lemma inline_array_round_trip_witness :
  loads ascii_host (Dumper.dumps ascii_host (VList [VInt 1; VInt 20; VInt 0]) false)
  = Ok (VList [VInt 1; VInt 20; VInt 0]).
Proof. exact (inline_array_round_trip ascii_host [1; 20; 0] eq_refl). Defined.

(** ** Block arrays of integers *)

Lemma block_array_cons ds ds' rest :
  block_array (ds :: ds' :: rest) = item_text ds ++ NL :: block_array (ds' :: rest).
Proof. reflexivity. Qed.

Lemma last_cons_str (l : list str) : forall a d, last (a :: l) d = last l a.
Proof.
  induction l as [|b l IH]; intros a d; [reflexivity|].
  change (last (a :: b :: l) d) with (last (b :: l) d). rewrite !IH. reflexivity.
Qed.

Lemma item_text_length ds : List.length (item_text ds) = (2 + List.length ds)%nat.
Proof. reflexivity. Qed.

Lemma block_array_length ds rest :
  (List.length (item_text ds) <= List.length (block_array (ds :: rest)))%nat.
Proof.
  destruct rest as [|ds' rest]; [cbn; lia|].
  rewrite block_array_cons, length_app. lia.
Qed.

(** *** The tokens *)

Section BlockArrayLexer.

Variable host : Host.

(** A dash with a space after it is the [DASH] of an array item. *)
Lemma scan_dash f toks src p l c als cli lt r :
  skipn p src = ord "-" :: ord " " :: r ->
  Lexer.scan host f toks (Lexer.mk src p l c als cli lt)
  = Ok (Lexer.Continue (toks ++ [Token.mk DASH (VStr (lit "-")) l c]),
        Lexer.mk src (S p) l (c + 1) als cli (Some (Token.mk DASH (VStr (lit "-")) l c))).
Proof.
  intros Hs.
  assert (E : Lexer.scan host f toks (Lexer.mk src p l c als cli lt)
              = Lexer.minus host f toks (Lexer.mk src p l c als cli lt)).
  { unfold Lexer.scan. erewrite bind_Ok by (eapply peek_at; exact Hs). reflexivity. }
  assert (E' : Lexer.minus host f toks (Lexer.mk src p l c als cli lt)
               = Lexer.punctuation toks DASH (ord "-") (Lexer.mk src p l c als cli lt)).
  { unfold Lexer.minus. erewrite bind_Ok by (eapply peek1_at; exact Hs). reflexivity. }
  rewrite E, E'.
  unfold Lexer.punctuation.
  erewrite bind_Ok by reflexivity. lex_norm.
  erewrite bind_Ok by reflexivity. lex_norm.
  erewrite bind_Ok by (eapply advance_at; [exact Hs | discriminate]).
  reflexivity.
Qed.

(** The digits of an item, up to the end of its line. *)
Lemma scan_number_line f toks src p l c als cli lt ds tail :
  is_digits ds = true ->
  skipn p src = ds ++ tail ->
  tail = [] \/ (exists r, tail = NL :: r) ->
  Lexer.scan host (List.length ds + S f) toks (Lexer.mk src p l c als cli lt)
  = Ok (Lexer.Continue (toks ++ [Token.mk INT (VInt (int_of_decimal ds)) l c]),
        Lexer.mk src (List.length ds + p) l (c + Z.of_nat (List.length ds)) als cli
          (Some (Token.mk INT (VInt (int_of_decimal ds)) l c))).
Proof.
  intros Hds Hs [E | [r E]]; subst tail.
  - rewrite app_nil_r in Hs. apply scan_number_end; assumption.
  - eapply scan_number with (x := NL); [exact Hds | reflexivity | exact Hs].
Qed.

(** The passes of [tokenize]'s loop over the line of an item, up to the
    end of the line. *)
Lemma tokenize_item ds fuel toks src p l cli lt tail :
  is_digits ds = true ->
  skipn p src = item_text ds ++ tail ->
  tail = [] \/ (exists r, tail = NL :: r) ->
  (List.length ds + 4 <= fuel)%nat ->
  Lexer.tokenize_loop host fuel toks (Lexer.mk src p l 1 true cli lt)
  = Lexer.tokenize_loop host (fuel - 3) (toks ++ item_tokens l ds)
      (Lexer.mk src (List.length (item_text ds) + p) l
         (3 + Z.of_nat (List.length ds)) false 0
         (Some (Token.mk INT (VInt (int_of_decimal ds)) l 3))).
Proof.
  intros Hds Hs Htail Hfuel.
  unfold item_text in Hs. cbn [lit map list_ascii_of_string app] in Hs.
  do 3 (destruct fuel as [|fuel]; [lia|]).
  replace (S (S (S fuel)) - 3)%nat with fuel by lia.
  (* INDENT and the dash *)
  erewrite tokenize_loop_step.
  2:{ lex_norm. exact Hs. }
  2:{ eapply line_start_token; [exact Hs | discriminate ..]. }
  2:{ eapply scan_dash. exact Hs. }
  (* the space *)
  pose proof (skipn_next _ _ _ _ Hs) as Hs1.
  erewrite tokenize_loop_step.
  2:{ lex_norm. exact Hs1. }
  2:{ apply line_start_inside. }
  2:{ eapply scan_space; exact Hs1. }
  (* the digits *)
  pose proof (skipn_next _ _ _ _ Hs1) as Hs2.
  destruct (is_digits_head ds Hds) as [d [ds' [Ed Hd]]].
  erewrite tokenize_loop_step.
  2:{ lex_norm. rewrite Hs2, Ed. reflexivity. }
  2:{ apply line_start_inside. }
  2:{ replace fuel with (List.length ds + S (fuel - List.length ds - 1))%nat by lia.
      eapply scan_number_line; [exact Hds | exact Hs2 | exact Htail]. }
  unfold item_tokens. rewrite item_text_length. rewrite <- !app_assoc. cbn [app].
  replace (List.length ds + S (S p))%nat with (2 + List.length ds + p)%nat by lia.
  replace (1 + 1 + 1 + Z.of_nat (List.length ds)) with (3 + Z.of_nat (List.length ds)) by lia.
  reflexivity.
Qed.

Lemma tokenize_block_items rest : forall ds fuel toks src p l cli lt,
  forallb is_digits (ds :: rest) = true ->
  skipn p src = block_array (ds :: rest) ->
  (List.length (block_array (ds :: rest)) + 5 <= fuel)%nat ->
  exists p' lt',
    Lexer.tokenize_loop host fuel toks (Lexer.mk src p l 1 true cli lt)
    = Ok (toks ++ open_array_tokens l ds rest,
          Lexer.mk src p' (l + Z.of_nat (List.length rest))
            (3 + Z.of_nat (List.length (last rest ds))) false 0 lt').
Proof.
  induction rest as [|ds' rest IH]; intros ds fuel toks src p l cli lt Hall Hs Hfuel;
    pose proof Hall as Hall'; cbn [forallb] in Hall'; apply andb_true_iff in Hall';
    destruct Hall' as [Hds Hrest].
  - change (block_array [ds]) with (item_text ds) in Hs, Hfuel.
    rewrite item_text_length in Hfuel.
    rewrite (tokenize_item ds fuel toks src p l cli lt [])
      by (try exact Hds; try (rewrite app_nil_r; exact Hs); try (left; reflexivity); lia).
    destruct (fuel - 3)%nat as [|g] eqn:Eg; [lia|].
    rewrite tokenize_loop_end.
    2:{ lex_norm. apply skipn_past. rewrite app_nil_r. exact Hs. }
    eexists _, _. cbn [open_array_tokens List.length Z.of_nat last].
    rewrite Z.add_0_r. reflexivity.
  - rewrite block_array_cons in Hs, Hfuel. rewrite length_app in Hfuel.
    cbn [List.length] in Hfuel. rewrite item_text_length in Hfuel.
    rewrite (tokenize_item ds fuel toks src p l cli lt (NL :: block_array (ds' :: rest)))
      by (try exact Hds; try exact Hs; try (right; eexists; reflexivity); lia).
    pose proof (skipn_past _ _ _ _ Hs) as Hs1.
    pose proof (digits_length_pos ds Hds) as Hlong.
    destruct (fuel - 3)%nat as [|g] eqn:Eg; [lia|].
    erewrite tokenize_loop_step.
    2:{ lex_norm. exact Hs1. }
    2:{ apply line_start_inside. }
    2:{ eapply scan_newline; exact Hs1. }
    destruct (IH ds' g
                ((toks ++ item_tokens l ds) ++ [item_newline l ds]) src
                (S (List.length (item_text ds) + p)) (l + 1) 0
                (Some (item_newline l ds)) Hrest (skipn_next _ _ _ _ Hs1))
      as [p' [lt' H2]]; [lia|].
    unfold item_newline in H2. rewrite H2. exists p', lt'.
    rewrite (last_cons_str rest ds' ds).
    cbn [open_array_tokens List.length]. unfold item_newline.
    rewrite <- !app_assoc. cbn [app].
    f_equal. f_equal. f_equal. lia.
Qed.

End BlockArrayLexer.

Lemma open_array_tokens_newline rest : forall l ds,
  open_array_tokens l ds rest
  ++ [Token.mk NEWLINE (VStr [NL]) (l + Z.of_nat (List.length rest))
        (3 + Z.of_nat (List.length (last rest ds)))]
  = block_array_tokens l (ds :: rest).
Proof.
  induction rest as [|ds' rest IH]; intros l ds.
  - cbn [open_array_tokens block_array_tokens List.length Z.of_nat last].
    rewrite Z.add_0_r. reflexivity.
  - cbn [open_array_tokens]. rewrite <- app_assoc. cbn [app].
    replace (l + Z.of_nat (List.length (ds' :: rest)))
      with (l + 1 + Z.of_nat (List.length rest)) by (cbn [List.length]; lia).
    rewrite (last_cons_str rest ds' ds).
    rewrite IH. reflexivity.
Qed.

(** The tokens [tokenize] yields for a block array: the [NEWLINE] of the
    last line is made up at the end of the input. *)
Lemma tokenize_block_array host ds rest :
  forallb is_digits (ds :: rest) = true ->
  exists st,
    Lexer.tokenize host (Lexer.fuel_for (block_array (ds :: rest)))
      (Lexer.mk (block_array (ds :: rest)) 0 1 1 true 0 None)
    = Ok (block_array_tokens 1 (ds :: rest)
          ++ [Token.mk EOF VNone (1 + Z.of_nat (List.length rest))
                (3 + Z.of_nat (List.length (last rest ds)))], st).
Proof.
  intros Hall. unfold Lexer.tokenize. lex_norm.
  pose proof (block_array_length ds rest) as Hlen. rewrite item_text_length in Hlen.
  destruct (tokenize_block_items host rest ds (Lexer.fuel_for (block_array (ds :: rest))) []
              (block_array (ds :: rest)) 0 1 0 None Hall eq_refl)
    as [p' [lt' H]]; [unfold Lexer.fuel_for; lia|].
  eexists.
  erewrite bind_Ok by exact H.
  erewrite bind_Ok by reflexivity. lex_norm. cbn [negb].
  erewrite bind_Ok.
  2:{ erewrite bind_Ok by reflexivity. reflexivity. }
  erewrite bind_Ok by reflexivity. lex_norm.
  erewrite bind_Ok by reflexivity.
  cbn [app]. rewrite open_array_tokens_newline. reflexivity.
Qed.

(** *** The validator *)

Lemma item_text_plain ds : is_digits ds = true -> forallb plain (item_text ds) = true.
Proof.
  intros H. unfold is_digits in H. apply andb_true_iff in H. destruct H as [_ H].
  unfold item_text. cbn [lit map list_ascii_of_string app forallb].
  rewrite (digits_plain ds H). reflexivity.
Qed.

Lemma item_text_end ds : is_digits ds = true -> endswith_space (item_text ds) = false.
Proof.
  intros H. destruct (digits_last ds H) as [body [z [E Hz]]].
  unfold item_text. rewrite E, app_assoc, endswith_space_snoc.
  apply Z.eqb_neq. exact Hz.
Qed.

Lemma check_code_points_block_array rest : forall ds l,
  forallb is_digits (ds :: rest) = true ->
  Lexer.check_code_points (block_array (ds :: rest)) l 1 = Ok tt.
Proof.
  induction rest as [|ds' rest IH]; intros ds l Hall;
    cbn [forallb] in Hall; apply andb_true_iff in Hall; destruct Hall as [Hds Hall].
  - apply check_code_points_plain. apply item_text_plain. exact Hds.
  - rewrite block_array_cons.
    rewrite check_code_points_app by (apply item_text_plain; exact Hds).
    cbn [Lexer.check_code_points].
    change (negb (Lexer._is_allowed_code_point NL)) with false. cbv beta iota.
    change (NL =? 0x0A) with true. cbv beta iota.
    apply IH. exact Hall.
Qed.

Lemma split_nl_block_array rest : forall ds,
  forallb is_digits (ds :: rest) = true ->
  split_nl (block_array (ds :: rest)) = map item_text (ds :: rest).
Proof.
  unfold split_nl.
  induction rest as [|ds' rest IH]; intros ds Hall;
    cbn [forallb] in Hall; apply andb_true_iff in Hall; destruct Hall as [Hds Hall].
  - apply (split_nl_plain (item_text ds)). apply item_text_plain. exact Hds.
  - rewrite block_array_cons.
    rewrite split_nl_aux_line by (apply item_text_plain; exact Hds).
    cbn [rev app]. rewrite IH by exact Hall. reflexivity.
Qed.

Lemma block_array_validates ds rest :
  forallb is_digits (ds :: rest) = true ->
  Lexer._validate_source (block_array (ds :: rest)) = Ok tt.
Proof.
  intros Hall. unfold Lexer._validate_source.
  assert (Hbom : (3 <=? List.length (block_array (ds :: rest)))%nat
                 && (match block_array (ds :: rest) with c :: _ => c =? 0xFEFF | [] => false end
                     || str_eqb (firstn 3 (block_array (ds :: rest))) [0xEF; 0xBB; 0xBF])
                 = false).
  { assert (E : exists r, block_array (ds :: rest) = ord "-" :: r).
    { destruct rest as [|ds' rest]; eexists; reflexivity. }
    destruct E as [r E]. rewrite E. cbn [firstn].
    change (ord "-" =? 0xFEFF) with false.
    rewrite str_eqb_head_neq by discriminate. apply andb_false_r. }
  rewrite Hbom.
  rewrite check_code_points_block_array by exact Hall.
  rewrite split_nl_block_array by exact Hall.
  apply check_trailing_spaces_ok.
  apply forallb_forall. intros s Hs. apply in_map_iff in Hs. destruct Hs as [d0 [E Hin]].
  subst s. apply negb_true_iff. apply item_text_end.
  rewrite forallb_forall in Hall. apply Hall. exact Hin.
Qed.

(** *** The parser *)

(** One pass of the loop of [parse_block_array] over the line of an item,
    with or without the line's [INDENT] before it. *)
Lemma parse_array_line (with_indent : bool) ds f items src (lines : list str) toks pos i v c tail :
  is_digits ds = true ->
  nth_error lines i = Some (item_text ds) ->
  skipn pos toks
  = (if with_indent then [Token.mk INDENT (VInt 0) (Z.of_nat i + 1) 1] else [])
    ++ Token.mk DASH (VStr (lit "-")) (Z.of_nat i + 1) 1
       :: Token.mk INT (VInt (int_of_decimal ds)) (Z.of_nat i + 1) 3
       :: Token.mk NEWLINE v (Z.of_nat i + 1) c :: tail ->
  Parser.parse_block_array_loop (S (S (S f))) 0 items (Parser.mk src lines toks pos)
  = Parser.parse_block_array_loop (S (S f)) 0 (items ++ [VInt (int_of_decimal ds)])
      (Parser.mk src lines toks ((if with_indent then 4 else 3) + pos)).
Proof.
  intros Hds Hline Ht.
  destruct (is_digits_head ds Hds) as [d [ds' [Ed Hd]]].
  pose proof (ascii_digit_range d Hd) as Rd.
  assert (H1 : nth_error (item_text ds) 1 = Some (ord " ")) by reflexivity.
  assert (H2 : nth_error (item_text ds) 2 = Some d) by (rewrite Ed; reflexivity).
  set (pos1 := if with_indent then S pos else pos).
  assert (Hd0 : skipn pos1 toks
                = Token.mk DASH (VStr (lit "-")) (Z.of_nat i + 1) 1
                  :: Token.mk INT (VInt (int_of_decimal ds)) (Z.of_nat i + 1) 3
                  :: Token.mk NEWLINE v (Z.of_nat i + 1) c :: tail).
  { unfold pos1. destruct with_indent; [|exact Ht].
    cbn [app] in Ht. eapply skipn_tokens_next. exact Ht. }
  pose proof (skipn_tokens_next _ _ _ _ Hd0) as Hd1.
  pose proof (skipn_tokens_next _ _ _ _ Hd1) as Hd2.
  cbn [Parser.parse_block_array_loop].
  (* the optional INDENT, then the dash *)
  assert (Hstart :
            forall A (k : option Token.t -> M Parser.t A),
              (token <- Parser.peek 0 ;;
               r <- (if Kind_eqb (Token.kind token) INDENT then
                       let indent := int_value (Token.value token) in
                       if indent <? 0 then ret None
                       else if (0 <? indent) && Lexer.nonempty_list items then ret None
                       else Parser.advance ;;; token <- Parser.peek 0 ;; ret (Some token)
                     else ret (Some token)) ;;
               k r) (Parser.mk src lines toks pos)
              = k (Some (Token.mk DASH (VStr (lit "-")) (Z.of_nat i + 1) 1))
                  (Parser.mk src lines toks pos1)).
  { intros A k. unfold pos1 in *. destruct with_indent; cbn [app] in Ht.
    - erewrite bind_Ok by (eapply parser_peek; exact Ht). tok_norm.
      change (0 <? 0) with false. cbv beta iota zeta. cbn [andb].
      erewrite bind_Ok.
      2:{ erewrite bind_Ok by (eapply parser_advance; exact Ht).
          erewrite bind_Ok by (eapply parser_peek; exact Hd0).
          reflexivity. }
      reflexivity.
    - erewrite bind_Ok by (eapply parser_peek; exact Ht). tok_norm.
      erewrite bind_Ok by reflexivity. reflexivity. }
  rewrite Hstart. cbv beta iota. tok_norm. cbv beta iota.
  erewrite bind_Ok by (eapply parser_advance; exact Hd0).
  erewrite bind_Ok.
  2:{ change (1 + 1) with (Z.of_nat 1 + 1).
      eapply parser_char_at; [exact Hline | exact H1]. }
  change (negb (Lexer.ch_is (Some (ord " ")) (ord " "))) with false. tok_norm.
  erewrite bind_Ok by reflexivity.
  erewrite bind_Ok.
  2:{ change (1 + 1 + 1) with (Z.of_nat 2 + 1).
      eapply parser_char_at; [exact Hline | exact H2]. }
  replace (Lexer.ch_is (Some d) (ord " ")) with false
    by (symmetry; apply Z.eqb_neq; unfold ord; simpl; lia).
  tok_norm.
  erewrite bind_Ok by reflexivity.
  erewrite bind_Ok.
  2:{ cbn [Parser.parse_array_item].
      erewrite bind_Ok by (eapply parser_peek; exact Hd1). tok_norm.
      cbn [Parser.parse_inline_value].
      erewrite bind_Ok by (eapply parser_peek; exact Hd1). tok_norm.
      erewrite bind_Ok by (eapply parser_advance; exact Hd1). reflexivity. }
  erewrite bind_Ok by (eapply parser_kind_is; exact Hd2). tok_norm.
  erewrite bind_Ok.
  2:{ erewrite bind_Ok by (eapply parser_advance; exact Hd2). reflexivity. }
  unfold pos1. destruct with_indent; reflexivity.
Qed.

Lemma parse_array_end f items src lines toks pos l c :
  skipn pos toks = [Token.mk EOF VNone l c] ->
  Parser.parse_block_array_loop (S f) 0 items (Parser.mk src lines toks pos)
  = Ok (items, Parser.mk src lines toks pos).
Proof.
  intros Hs. cbn [Parser.parse_block_array_loop].
  erewrite bind_Ok by (eapply parser_peek; exact Hs). tok_norm.
  erewrite bind_Ok by reflexivity. reflexivity.
Qed.

Lemma block_array_tokens_length l items :
  List.length (block_array_tokens l items) = (4 * List.length items)%nat.
Proof.
  revert l. induction items as [|ds rest IH]; intros l; [reflexivity|].
  cbn [block_array_tokens item_tokens app List.length]. rewrite IH. lia.
Qed.

(** The loop of [parse_block_array] over the lines from the second on. *)
Lemma parse_array_lines rest : forall i items f src (lines : list str) toks pos l c,
  forallb is_digits rest = true ->
  (forall j ds, nth_error rest j = Some ds ->
                nth_error lines (i + j) = Some (item_text ds)) ->
  skipn pos toks = block_array_tokens (Z.of_nat i + 1) rest ++ [Token.mk EOF VNone l c] ->
  Parser.parse_block_array_loop (List.length rest + 3 + f) 0 items
    (Parser.mk src lines toks pos)
  = Ok (items ++ int_items rest, Parser.mk src lines toks (4 * List.length rest + pos)).
Proof.
  induction rest as [|ds rest IH]; intros i items f src lines toks pos l c Hall Hlines Ht.
  - cbn [block_array_tokens app] in Ht. cbn [List.length Nat.add Nat.mul int_items map].
    rewrite app_nil_r. eapply parse_array_end. exact Ht.
  - cbn [forallb] in Hall. apply andb_true_iff in Hall. destruct Hall as [Hds Hall].
    cbn [block_array_tokens item_tokens app] in Ht. unfold item_newline in Ht.
    replace (List.length (ds :: rest) + 3 + f)%nat
      with (S (S (S (List.length rest + 1 + f)))) by (cbn [List.length]; lia).
    erewrite (parse_array_line true ds _ items src lines toks pos i);
      [| exact Hds
       | replace i with (i + 0)%nat by lia; apply Hlines; reflexivity
       | cbn [app]; exact Ht].
    replace (S (S (List.length rest + 1 + f))) with (List.length rest + 3 + f)%nat by lia.
    erewrite (IH (S i) _ f src lines toks).
    + cbn [int_items map List.length]. rewrite <- app_assoc. cbn [app].
      f_equal. f_equal. f_equal. lia.
    + exact Hall.
    + intros j ds0 Hj. replace (S i + j)%nat with (i + S j)%nat by lia.
      apply Hlines. exact Hj.
    + do 4 (apply skipn_tokens_next in Ht).
      replace (Z.of_nat (S i) + 1) with (Z.of_nat i + 1 + 1) by lia. exact Ht.
Qed.

(** [Parser.parse] on the tokens of a block array. *)
Lemma parse_block_array_document ds rest f src (lines : list str) l c :
  forallb is_digits (ds :: rest) = true ->
  (forall j ds', nth_error (ds :: rest) j = Some ds' ->
                 nth_error lines j = Some (item_text ds')) ->
  exists st,
    Parser.parse (List.length rest + 6 + f)
      (Parser.mk src lines (block_array_tokens 1 (ds :: rest) ++ [Token.mk EOF VNone l c]) 0)
    = Ok (VList (int_items (ds :: rest)), st).
Proof.
  intros Hall Hlines.
  pose proof Hall as Hall'. cbn [forallb] in Hall'. apply andb_true_iff in Hall'.
  destruct Hall' as [Hds Hrest].
  set (toks := block_array_tokens 1 (ds :: rest) ++ [Token.mk EOF VNone l c]).
  assert (Hs0 : skipn 0 toks
                = Token.mk INDENT (VInt 0) (Z.of_nat 0 + 1) 1
                  :: Token.mk DASH (VStr (lit "-")) (Z.of_nat 0 + 1) 1
                  :: Token.mk INT (VInt (int_of_decimal ds)) (Z.of_nat 0 + 1) 3
                  :: Token.mk NEWLINE (VStr [NL]) (Z.of_nat 0 + 1)
                       (3 + Z.of_nat (List.length ds))
                  :: block_array_tokens (Z.of_nat 1 + 1) rest ++ [Token.mk EOF VNone l c])
    by reflexivity.
  pose proof (skipn_tokens_next _ _ _ _ Hs0) as Hs1.
  replace (List.length rest + 6 + f)%nat
    with (S (S (S (S (S (List.length rest + 1 + f)))))) by lia.
  set (g := (List.length rest + 1 + f)%nat).
  eexists. unfold Parser.parse.
  erewrite bind_Ok by reflexivity. cbv zeta.
  erewrite bind_Ok.
  2:{ cbn [Parser.skip_leading_newlines].
      erewrite bind_Ok by (eapply parser_kind_is; exact Hs0). tok_norm. reflexivity. }
  erewrite bind_Ok by (eapply parser_peek; exact Hs0). tok_norm.
  erewrite bind_Ok.
  2:{ change (0 <? 0) with false. cbv beta iota.
      erewrite bind_Ok by reflexivity.
      erewrite bind_Ok by (eapply parser_advance; exact Hs0). reflexivity. }
  erewrite bind_Ok by (eapply parser_kind_is; exact Hs1). tok_norm.
  erewrite bind_Ok.
  2:{ cbn [Parser.parse_value].
      erewrite bind_Ok by (eapply parser_peek; exact Hs1). tok_norm.
      erewrite bind_Ok.
      2:{ cbn [Parser.parse_block_array].
          erewrite (parse_array_line false ds g [] src lines toks 1 0);
            [| exact Hds | apply Hlines; reflexivity | cbn [app]; exact Hs1].
          unfold g.
          replace (S (S (List.length rest + 1 + f))) with (List.length rest + 3 + f)%nat by lia.
          eapply (parse_array_lines rest 1).
          - exact Hrest.
          - intros j ds' Hj. apply Hlines. exact Hj.
          - do 3 (apply skipn_tokens_next in Hs1). exact Hs1. }
      reflexivity. }
  assert (Hend : skipn (4 * List.length rest + ((if false then 4 else 3) + 1)) toks
                 = [Token.mk EOF VNone l c]).
  { unfold toks.
    replace (4 * List.length rest + ((if false then 4 else 3) + 1))%nat
      with (List.length (block_array_tokens 1 (ds :: rest)) + 0)%nat
      by (rewrite block_array_tokens_length; cbn [List.length]; lia).
    rewrite skipn_app, skipn_all2 by lia.
    replace (List.length (block_array_tokens 1 (ds :: rest)) + 0
             - List.length (block_array_tokens 1 (ds :: rest)))%nat with 0%nat by lia.
    reflexivity. }
  erewrite bind_Ok.
  2:{ cbn [Parser.skip_newlines].
      erewrite bind_Ok by (eapply parser_peek; exact Hend).
      tok_norm. reflexivity. }
  erewrite bind_Ok by (eapply parser_kind_is; exact Hend). tok_norm.
  reflexivity.
Qed.

(** [loads] on a block array: its integers in order. *)
Lemma loads_block_array host ds rest :
  forallb is_digits (ds :: rest) = true ->
  loads host (block_array (ds :: rest)) = Ok (VList (int_items (ds :: rest))).
Proof.
  intros Hall. unfold loads, Lexer.__init__.
  rewrite (block_array_validates ds rest Hall).
  destruct (tokenize_block_array host ds rest Hall) as [st Htok]. rewrite Htok.
  rewrite (split_nl_block_array rest ds Hall).
  replace (Parser.fuel_for _)
    with (List.length rest + 6 + (15 * List.length rest + 30))%nat.
  2:{ unfold Parser.fuel_for. rewrite length_app, block_array_tokens_length.
      cbn [List.length]. lia. }
  destruct (parse_block_array_document ds rest (15 * List.length rest + 30)
              (block_array (ds :: rest)) (map item_text (ds :: rest))
              (1 + Z.of_nat (List.length rest))
              (3 + Z.of_nat (List.length (last rest ds))) Hall) as [st' Hp].
  { intros j ds' Hj. rewrite nth_error_map, Hj. reflexivity. }
  rewrite Hp. reflexivity.
Qed.

(** *** What [dumps] writes *)

Lemma dumps_block_int_array host n ns :
  Dumper._format_value host (VList (map VInt (n :: ns))) 0 false
  = block_array (map str_of_int (n :: ns)).
Proof.
  cbn [map Dumper._format_value orb Lexer.nonempty_list negb].
  unfold block_array. f_equal.
  change (VInt n :: map VInt ns) with (map VInt (n :: ns)).
  change (str_of_int n :: map str_of_int ns) with (map str_of_int (n :: ns)).
  generalize (n :: ns). clear n ns.
  induction l as [|n ns IH]; [reflexivity|].
  cbn [map flat_map Dumper.nonempty_dict Dumper.nonempty_array orb app
       Dumper._format_value].
  rewrite IH. reflexivity.
Qed.

(** X18.  [loads (dumps a)], with the default [indent = True], is [a] for
    every array [a] of non-negative integers: [dumps] writes one
    [- digits] line per item, no newline after the last, and [loads]
    reads the items back in order. *)
Theorem block_array_round_trip :
  forall host ns,
    forallb (fun n => 0 <=? n) ns = true ->
    loads host (Dumper.dumps host (VList (map VInt ns)) true) = Ok (VList (map VInt ns)).
Proof.
  intros host ns Hns. unfold Dumper.dumps. cbn [negb].
  destruct ns as [|n ns'].
  - exact (loads_empty_array host).
  - rewrite dumps_block_int_array.
    assert (Hall : forallb is_digits (map str_of_int (n :: ns')) = true).
    { apply forallb_forall. intros ds Hds. apply in_map_iff in Hds.
      destruct Hds as [m [E Hin]]. subst ds.
      rewrite forallb_forall in Hns. specialize (Hns m Hin). apply Z.leb_le in Hns.
      apply (str_of_int_digits m Hns). }
    change (map str_of_int (n :: ns')) with (str_of_int n :: map str_of_int ns') in *.
    rewrite (loads_block_array host _ _ Hall).
    f_equal. f_equal.
    change (str_of_int n :: map str_of_int ns') with (map str_of_int (n :: ns')).
    unfold int_items. rewrite map_map. apply map_ext_in.
    intros m Hin. rewrite forallb_forall in Hns. specialize (Hns m Hin).
    apply Z.leb_le in Hns. destruct (str_of_int_digits m Hns) as [Hd Hv].
    rewrite int_of_decimal_digits, Hv by exact Hd. reflexivity.
Qed.

Lemma block_array_round_trip_witness :
  loads ascii_host (Dumper.dumps ascii_host (VList [VInt 1; VInt 20; VInt 0]) true)
  = Ok (VList [VInt 1; VInt 20; VInt 0]).
Proof. exact (block_array_round_trip ascii_host [1; 20; 0] eq_refl). Defined.

(** ** Control characters in strings *)

Lemma format_04x_control_nat n :
  (n < 32)%nat ->
  match format_04x (Z.of_nat n) with
  | [z1; z2; a; b] => (z1 =? ord "0") && (z2 =? ord "0") && plain a && plain b
  | _ => false
  end = true.
Proof.
  intros Hn.
  do 32 (destruct n as [|n]; [vm_compute; reflexivity|]).
  lia.
Qed.

Lemma format_04x_control c :
  0 <= c < 32 ->
  exists a b, format_04x c = [ord "0"; ord "0"; a; b]
              /\ plain a = true /\ plain b = true.
Proof.
  intros R. assert (Hn : (Z.to_nat c < 32)%nat) by lia.
  pose proof (format_04x_control_nat (Z.to_nat c) Hn) as H.
  rewrite Z2Nat.id in H by lia.
  destruct (format_04x c) as [|z1 [|z2 [|a [|b [|x r]]]]]; try discriminate H.
  apply andb_true_iff in H. destruct H as [H Hb].
  apply andb_true_iff in H. destruct H as [H Ha].
  apply andb_true_iff in H. destruct H as [H1 H2].
  apply Z.eqb_eq in H1, H2. subst z1 z2. exists a, b. repeat split; assumption.
Qed.

Lemma raw_control_range c : raw_control c = true -> 0 <= c < 32 /\ escaped_control c = false.
Proof.
  unfold raw_control. intros H. apply andb_true_iff in H. destruct H as [H He].
  apply andb_true_iff in H. destruct H as [H0 H1].
  apply Z.leb_le in H0. apply Z.ltb_lt in H1. apply negb_true_iff in He.
  split; [lia | exact He].
Qed.

(** How [_escape_double_quoted] writes such a character. *)
Lemma escape_raw_control c s :
  raw_control c = true ->
  Dumper._escape_double_quoted (c :: s)
  = lit "\u" ++ format_04x c ++ Dumper._escape_double_quoted s.
Proof.
  intros H. destruct (raw_control_range c H) as [R He].
  unfold escaped_control in He.
  apply orb_false_iff in He. destruct He as [He Hff].
  apply orb_false_iff in He. destruct He as [He Hbs].
  apply orb_false_iff in He. destruct He as [He Htab].
  apply orb_false_iff in He. destruct He as [Hnl Hcr].
  unfold Dumper._escape_double_quoted. cbn [flat_map].
  replace (c =? DQUOTE) with false by (symmetry; apply Z.eqb_neq; unfold DQUOTE; lia).
  replace (c =? ord "\") with false
    by (symmetry; apply Z.eqb_neq; unfold ord; simpl; lia).
  rewrite Hnl, Hcr, Htab, Hbs, Hff.
  replace (c <? 32) with true by (symmetry; apply Z.ltb_lt; lia).
  rewrite <- app_assoc. reflexivity.
Qed.

Lemma escape_double_quoted_dumped s :
  forallb dumped_char s = true ->
  forallb plain (Dumper._escape_double_quoted s) = true.
Proof.
  induction s as [|x s IH]; intros Hall; [reflexivity|].
  cbn [forallb] in Hall. apply andb_true_iff in Hall. destruct Hall as [Hx Hall].
  unfold dumped_char in Hx. apply orb_true_iff in Hx. destruct Hx as [Hx|Hx].
  - destruct (escape_text_char x s Hx) as [[E [Hp _]] | [e [E [_ [_ Hp]]]]]; rewrite E.
    + cbn [forallb]. rewrite Hp, (IH Hall). reflexivity.
    + cbn [forallb]. rewrite Hp, (IH Hall). reflexivity.
  - rewrite (escape_raw_control x s Hx).
    destruct (raw_control_range x Hx) as [R _].
    destruct (format_04x_control x R) as [a [b [E [Ha Hb]]]]. rewrite E.
    cbn [lit map list_ascii_of_string app forallb]. rewrite Ha, Hb, (IH Hall). reflexivity.
Qed.

(** *** The lexer on what [dumps] writes *)

(** The loop of [_read_double_quoted_string] over escaped text, whatever
    follows it. *)
Lemma double_quoted_chars_prefix s : forall f chars src p l c als cli lt tail,
  forallb text_char s = true ->
  skipn p src = Dumper._escape_double_quoted s ++ tail ->
  Lexer.double_quoted_chars (List.length s + f) chars (Lexer.mk src p l c als cli lt)
  = Lexer.double_quoted_chars f (chars ++ s)
      (Lexer.mk src (List.length (Dumper._escape_double_quoted s) + p) l
         (c + Z.of_nat (List.length (Dumper._escape_double_quoted s))) als cli lt).
Proof.
  induction s as [|x s IH]; intros f chars src p l c als cli lt tail Hall Hs.
  - cbn [List.length Nat.add Dumper._escape_double_quoted flat_map Z.of_nat].
    rewrite app_nil_r, Z.add_0_r. reflexivity.
  - cbn [forallb] in Hall. apply andb_true_iff in Hall. destruct Hall as [Hx Hall].
    change (List.length (x :: s) + f)%nat with (S (List.length s + f)).
    destruct (escape_text_char x s Hx) as [[E [Hp [N1 N2]]] | [e [E [He [Hn _]]]]];
      rewrite E in Hs |- *; cbn [app] in Hs.
    + rewrite (double_quoted_plain _ _ _ _ _ _ _ _ _ _ _ Hp N1 N2 Hs).
      rewrite (IH _ _ _ _ _ _ _ _ _ tail Hall (skipn_next _ _ _ _ Hs)).
      rewrite <- app_assoc. cbn [app List.length].
      f_equal. f_equal; lia.
    + rewrite (double_quoted_escape _ _ _ _ _ _ _ _ _ _ _ _ He Hn Hs).
      rewrite (IH _ _ _ _ _ _ _ _ _ tail Hall
                 (skipn_next _ _ _ _ (skipn_next _ _ _ _ Hs))).
      rewrite <- app_assoc. cbn [app List.length].
      f_equal. f_equal; lia.
Qed.

(** [\u] without an opening brace after it. *)
Lemma double_quoted_bad_escape f chars src p l c als cli lt x r :
  x <> ord "{" ->
  skipn p src = ord "\" :: ord "u" :: x :: r ->
  Lexer.double_quoted_chars (S f) chars (Lexer.mk src p l c als cli lt)
  = Raise (YaySyntaxError (lit "Bad escaped character") l (c + 1 + 1)).
Proof.
  intros Hx Hs.
  pose proof (skipn_next _ _ _ _ Hs) as Hs1.
  pose proof (skipn_next _ _ _ _ Hs1) as Hs2.
  cbn [Lexer.double_quoted_chars].
  erewrite bind_Ok by (eapply peek_at; exact Hs). cbv beta iota.
  change (ord "\" =? DQUOTE) with false. change (ord "\" =? ord "\") with true.
  cbv beta iota.
  erewrite bind_Ok by (eapply advance_at; [exact Hs | discriminate]).
  erewrite bind_Ok by (eapply peek_at; exact Hs1).
  cbv beta iota. change (Lexer.simple_escape (ord "u")) with (@None Z).
  cbv beta iota. change (ord "u" =? ord "u") with true. cbv beta iota.
  erewrite bind_Ok by (eapply advance_at; [exact Hs1 | discriminate]).
  erewrite bind_Ok by (eapply peek_at; exact Hs2).
  unfold Lexer.ch_is. apply Z.eqb_neq in Hx. rewrite Hx. reflexivity.
Qed.

Section ControlCharacter.

Variable host : Host.
Variables (pre post : str) (c : Z).
Hypothesis pre_text : forallb text_char pre = true.
Hypothesis c_control : raw_control c = true.
Hypothesis post_dumped : forallb dumped_char post = true.

Lemma dumps_control_string indent :
  Dumper.dumps host (VStr (pre ++ c :: post)) indent
  = DQUOTE :: Dumper._escape_double_quoted pre
    ++ lit "\u" ++ format_04x c ++ Dumper._escape_double_quoted post ++ [DQUOTE].
Proof.
  destruct (raw_control_range c c_control) as [R _].
  unfold Dumper.dumps. cbn [Dumper._format_value]. unfold Dumper.format_str.
  replace (Dumper._needs_double_quote (pre ++ c :: post)) with true.
  2:{ symmetry. unfold Dumper._needs_double_quote. rewrite existsb_app.
      cbn [existsb].
      replace (c <? 32) with true by (symmetry; apply Z.ltb_lt; lia).
      rewrite !orb_true_r. reflexivity. }
  unfold dq, Dumper._escape_double_quoted. rewrite flat_map_app.
  fold (Dumper._escape_double_quoted pre).
  change (flat_map _ (c :: post)) with (Dumper._escape_double_quoted (c :: post)).
  rewrite (escape_raw_control c post c_control).
  cbn [app]. rewrite <- !app_assoc. reflexivity.
Qed.

Lemma control_string_validates indent :
  Lexer._validate_source (Dumper.dumps host (VStr (pre ++ c :: post)) indent) = Ok tt.
Proof.
  rewrite dumps_control_string.
  destruct (raw_control_range c c_control) as [R _].
  destruct (format_04x_control c R) as [a [b [E [Ha Hb]]]].
  apply validate_plain.
  - cbn [forallb]. rewrite !forallb_app.
    rewrite (escape_double_quoted_dumped pre).
    2:{ apply forallb_forall. intros x Hx. unfold dumped_char.
        rewrite forallb_forall in pre_text. rewrite (pre_text x Hx). reflexivity. }
    rewrite E. cbn [lit map list_ascii_of_string forallb]. rewrite Ha, Hb.
    rewrite (escape_double_quoted_dumped post post_dumped). reflexivity.
  - split; discriminate.
  - change (DQUOTE :: ?x) with ([DQUOTE] ++ x).
    rewrite !app_assoc. rewrite endswith_space_snoc. reflexivity.
Qed.

Lemma tokenize_control_string indent fuel :
  (List.length pre + 3 <= fuel)%nat ->
  Lexer.tokenize host fuel
    (Lexer.mk (Dumper.dumps host (VStr (pre ++ c :: post)) indent) 0 1 1 true 0 None)
  = Raise (YaySyntaxError (lit "Bad escaped character") 1
             (4 + Z.of_nat (List.length (Dumper._escape_double_quoted pre)))).
Proof.
  intros Hfuel. rewrite dumps_control_string.
  destruct (raw_control_range c c_control) as [R _].
  destruct (format_04x_control c R) as [a [b [E [Ha Hb]]]]. rewrite E.
  set (src := DQUOTE :: _).
  assert (Hs0 : skipn 0 src
                = DQUOTE :: Dumper._escape_double_quoted pre
                  ++ ord "\" :: ord "u" :: ord "0" :: ord "0" :: a :: b
                     :: Dumper._escape_double_quoted post ++ [DQUOTE]) by reflexivity.
  pose proof (skipn_next _ _ _ _ Hs0) as Hs1.
  do 2 (destruct fuel as [|fuel]; [lia|]).
  unfold Lexer.tokenize. lex_norm.
  erewrite bind_Raise; [reflexivity|].
  cbn [Lexer.tokenize_loop].
  erewrite bind_Ok by reflexivity. lex_norm.
  replace (0 <? List.length src)%nat with true
    by (symmetry; apply Nat.ltb_lt; unfold src; simpl; lia).
  erewrite bind_Ok.
  2:{ eapply line_start_token; [exact Hs0 | discriminate ..]. }
  cbv beta iota.
  erewrite bind_Raise; [reflexivity|].
  erewrite scan_quote by (try (left; reflexivity); exact Hs0).
  erewrite bind_Raise; [reflexivity|].
  unfold Lexer.read_string.
  erewrite bind_Ok by reflexivity. lex_norm. cbv zeta.
  erewrite bind_Ok by (eapply advance_at; [exact Hs0 | discriminate]).
  change (DQUOTE =? DQUOTE) with true. cbv beta iota.
  unfold Lexer._read_double_quoted_string.
  erewrite bind_Raise; [reflexivity|].
  replace (S fuel) with (List.length pre + S (S fuel - List.length pre - 1))%nat by lia.
  rewrite (double_quoted_chars_prefix pre _ _ _ _ _ _ _ _ _ _ pre_text Hs1).
  rewrite (double_quoted_bad_escape _ _ _ _ _ _ _ _ _ (ord "0") _)
    by (try discriminate; apply skipn_past; exact Hs1).
  f_equal. f_equal. lia.
Qed.

Lemma loads_control_string indent :
  loads host (Dumper.dumps host (VStr (pre ++ c :: post)) indent)
  = Raise (YaySyntaxError (lit "Bad escaped character") 1
             (4 + Z.of_nat (List.length (Dumper._escape_double_quoted pre)))).
Proof.
  unfold loads, Lexer.__init__. rewrite control_string_validates.
  rewrite tokenize_control_string; [reflexivity|].
  unfold Lexer.fuel_for. rewrite dumps_control_string.
  cbn [List.length]. rewrite length_app.
  assert (H : (List.length pre <= List.length (Dumper._escape_double_quoted pre))%nat)
    by (apply escape_double_quoted_longer; exact pre_text).
  lia.
Qed.

End ControlCharacter.

(** X19.  A string with a control character other than newline, carriage
    return, tab, backspace and form feed is not read back: [dumps] writes
    the character as [\u] and four hexadecimal digits, and [loads] rejects
    that text with [Bad escaped character] at the column after the [u],
    since the lexer reads [\u] only before an opening brace. *)
Theorem control_character_is_not_read_back :
  forall host pre c post indent,
    forallb text_char pre = true ->
    raw_control c = true ->
    forallb dumped_char post = true ->
    loads host (Dumper.dumps host (VStr (pre ++ c :: post)) indent)
    = Raise (YaySyntaxError (lit "Bad escaped character") 1
               (4 + Z.of_nat (List.length (Dumper._escape_double_quoted pre)))).
Proof.
  intros host pre c post indent Hpre Hc Hpost.
  apply loads_control_string; assumption.
Qed.

Lemma control_character_is_not_read_back_witness :
  loads ascii_host (Dumper.dumps ascii_host (VStr (lit "a" ++ 1 :: lit "b")) true)
  = Raise (YaySyntaxError (lit "Bad escaped character") 1 5).
Proof.
  exact (control_character_is_not_read_back ascii_host (lit "a") 1 (lit "b") true
           eq_refl eq_refl eq_refl).
Defined.

(** ** A space after the opening bracket *)

Lemma spaced_array_cons ds rest :
  spaced_array (ds :: rest) = ord "[" :: ord " " :: ds ++ array_rest rest.
Proof. unfold spaced_array. rewrite array_rest_join. reflexivity. Qed.

Lemma spaced_array_plain ds rest :
  forallb is_digits (ds :: rest) = true -> forallb plain (spaced_array (ds :: rest)) = true.
Proof.
  intros Hall. cbn [forallb] in Hall. apply andb_true_iff in Hall. destruct Hall as [Hds Hall].
  unfold is_digits in Hds. apply andb_true_iff in Hds. destruct Hds as [_ Hds].
  rewrite spaced_array_cons. cbn [forallb].
  rewrite forallb_app, (digits_plain ds Hds), (array_rest_plain rest Hall). reflexivity.
Qed.

Lemma spaced_array_validates ds rest :
  forallb is_digits (ds :: rest) = true ->
  Lexer._validate_source (spaced_array (ds :: rest)) = Ok tt.
Proof.
  intros Hall. apply validate_plain.
  - apply spaced_array_plain. exact Hall.
  - rewrite spaced_array_cons. split; discriminate.
  - unfold spaced_array. rewrite app_assoc.
    change (lit "]") with [ord "]"]. rewrite endswith_space_snoc. reflexivity.
Qed.

(** The lexer skips the space: the tokens are those of the array without
    it, one column further. *)
Lemma tokenize_spaced_array host ds rest :
  forallb is_digits (ds :: rest) = true ->
  exists toks st,
    Lexer.tokenize host (Lexer.fuel_for (spaced_array (ds :: rest)))
      (Lexer.mk (spaced_array (ds :: rest)) 0 1 1 true 0 None)
    = Ok (Token.mk INDENT (VInt 0) 1 1 :: Token.mk LBRACKET (VStr (lit "[")) 1 1
          :: Token.mk INT (VInt (int_of_decimal ds)) 1 3 :: toks, st).
Proof.
  intros Hall. cbn [forallb] in Hall. apply andb_true_iff in Hall.
  destruct Hall as [Hds Hall].
  pose proof (digits_length_pos ds Hds) as Hlong.
  pose proof (array_rest_length_pos rest) as Hpos.
  set (src := spaced_array (ds :: rest)).
  assert (Hs : skipn 0 src = ord "[" :: ord " " :: ds ++ array_rest rest)
    by (unfold src; rewrite spaced_array_cons; reflexivity).
  assert (Hlen : List.length src
                 = (2 + List.length ds + List.length (array_rest rest))%nat).
  { unfold src. rewrite spaced_array_cons. cbn [List.length]. rewrite length_app. lia. }
  unfold Lexer.tokenize. lex_norm. unfold Lexer.fuel_for.
  set (fuel := (2 * List.length src + 4)%nat).
  assert (Hf : (List.length ds + List.length (array_rest rest) + 7 <= fuel)%nat)
    by (unfold fuel; lia).
  clearbody fuel.
  do 3 (destruct fuel as [|fuel]; [lia|]).
  assert (Hloop : exists p' c' lt',
             Lexer.tokenize_loop host (S (S (S fuel))) [] (Lexer.mk src 0 1 1 true 0 None)
             = Ok ([Token.mk INDENT (VInt 0) 1 1; Token.mk LBRACKET (VStr [ord "["]) 1 1;
                    Token.mk INT (VInt (int_of_decimal ds)) 1 3]
                   ++ array_rest_tokens (3 + Z.of_nat (List.length ds)) rest,
                   Lexer.mk src p' 1 c' false 0 lt')).
  { erewrite tokenize_loop_step.
    2:{ lex_norm. exact Hs. }
    2:{ eapply line_start_token; [exact Hs | discriminate ..]. }
    2:{ eapply scan_bracket with (x := ord "[") (k := LBRACKET);
          [left; split; reflexivity | exact Hs]. }
    pose proof (skipn_next _ _ _ _ Hs) as Hs1.
    erewrite tokenize_loop_step.
    2:{ lex_norm. exact Hs1. }
    2:{ apply line_start_inside. }
    2:{ eapply scan_space; exact Hs1. }
    pose proof (skipn_next _ _ _ _ Hs1) as Hs2.
    destruct (array_rest_head rest) as [x [r [Ex Hx]]]. rewrite Ex in Hs2.
    destruct (is_digits_head ds Hds) as [d [ds' [Ed Hd]]].
    erewrite tokenize_loop_step.
    2:{ lex_norm. rewrite Hs2, Ed. reflexivity. }
    2:{ apply line_start_inside. }
    2:{ replace fuel with (List.length ds + S (fuel - List.length ds - 1))%nat by lia.
        eapply scan_item; [exact Hds | exact Hx | exact Hs2]. }
    rewrite <- Ex in Hs2.
    destruct (tokenize_array_rest host rest fuel
                [Token.mk INDENT (VInt 0) 1 1; Token.mk LBRACKET (VStr [ord "["]) 1 1;
                 Token.mk INT (VInt (int_of_decimal ds)) 1 (1 + 1 + 1)] src
                (List.length ds + 2)%nat
                (1 + 1 + 1 + Z.of_nat (List.length ds)) 0
                (Some (Token.mk INT (VInt (int_of_decimal ds)) 1 (1 + 1 + 1))) Hall
                (skipn_past _ _ _ _ Hs2))
      as [p' [lt' H2]]; [lia|].
    cbn [app]. rewrite H2. eexists p', _, lt'. reflexivity. }
  destruct Hloop as [p' [c' [lt' Hloop]]].
  eexists _, _.
  erewrite bind_Ok by exact Hloop.
  erewrite bind_Ok by reflexivity. lex_norm. cbn [negb].
  erewrite bind_Ok.
  2:{ erewrite bind_Ok by reflexivity. reflexivity. }
  erewrite bind_Ok by reflexivity. lex_norm.
  erewrite bind_Ok by reflexivity.
  cbn [app]. rewrite <- ?app_assoc. cbn [app]. reflexivity.
Qed.

(** [parse_inline_array] stops at the space, before it reads an item. *)
Lemma parse_spaced_array f src rest_line (lines : list str) n toks :
  lines = (ord "[" :: ord " " :: rest_line) :: nil ->
  exists e,
    e = YaySyntaxError (lit "Unexpected space after " ++ dq (lit "[")) 1 2 /\
    Parser.parse (S (S f))
      (Parser.mk src lines
         (Token.mk INDENT (VInt 0) 1 1 :: Token.mk LBRACKET (VStr (lit "[")) 1 1
          :: Token.mk INT (VInt n) 1 3 :: toks) 0)
    = Raise e.
Proof.
  intros Hlines. eexists. split; [reflexivity|].
  set (tokens := Token.mk INDENT (VInt 0) 1 1 :: _).
  assert (Ht0 : skipn 0 tokens
                = Token.mk INDENT (VInt 0) 1 1 :: Token.mk LBRACKET (VStr (lit "[")) 1 1
                  :: Token.mk INT (VInt n) 1 3 :: toks) by reflexivity.
  pose proof (skipn_tokens_next _ _ _ _ Ht0) as Ht1.
  pose proof (skipn_tokens_next _ _ _ _ Ht1) as Ht2.
  unfold Parser.parse.
  erewrite bind_Ok by reflexivity. cbv zeta.
  erewrite bind_Ok.
  2:{ cbn [Parser.skip_leading_newlines].
      erewrite bind_Ok by (eapply parser_kind_is; exact Ht0). tok_norm. reflexivity. }
  erewrite bind_Ok by (eapply parser_peek; exact Ht0). tok_norm.
  erewrite bind_Ok.
  2:{ change (0 <? 0) with false. cbv beta iota.
      erewrite bind_Ok by reflexivity.
      erewrite bind_Ok by (eapply parser_advance; exact Ht0). reflexivity. }
  erewrite bind_Ok by (eapply parser_kind_is; exact Ht1). tok_norm.
  erewrite bind_Raise; [reflexivity|].
  cbn [Parser.parse_value].
  erewrite bind_Ok by (eapply parser_peek; exact Ht1). tok_norm.
  erewrite bind_Raise; [reflexivity|].
  cbn [Parser.parse_inline_array].
  erewrite bind_Ok by (eapply parser_peek; exact Ht1).
  erewrite bind_Ok.
  2:{ unfold Parser.expect.
      erewrite bind_Ok by (eapply parser_peek; exact Ht1). tok_norm.
      eapply parser_advance; exact Ht1. }
  erewrite bind_Ok by (eapply parser_kind_is; exact Ht2). tok_norm.
  erewrite bind_Ok by reflexivity.
  erewrite bind_Raise; [reflexivity|].
  unfold Parser.validate_inline_syntax.
  erewrite bind_Ok by reflexivity.
  rewrite Hlines.
  cbn [Parser.source_lines List.length Z.of_nat Z.leb Z.compare Pos.compare
       Pos.compare_cont Pos.of_succ_nat Z.sub Z.add Z.opp Z.pos_sub Z.to_nat nth].
  cbv zeta.
  replace (1 <=? Z.pos (Pos.succ (Pos.of_succ_nat (List.length rest_line)))) with true
    by (symmetry; apply Z.leb_le; lia).
  cbn [skipn Parser.validate_loop nth_error]. reflexivity.
Qed.

(** X20.  An inline array of integers with a space after its opening
    bracket is rejected with [Unexpected space after "["] at line 1,
    column 2, the column of the space. *)
Theorem space_after_opening_bracket :
  forall host items,
    items <> [] ->
    forallb is_digits items = true ->
    loads host (spaced_array items)
    = Raise (YaySyntaxError (lit "Unexpected space after " ++ dq (lit "[")) 1 2).
Proof.
  intros host items Hne Hall. destruct items as [|ds rest]; [congruence|].
  unfold loads, Lexer.__init__.
  rewrite (spaced_array_validates ds rest Hall).
  destruct (tokenize_spaced_array host ds rest Hall) as [toks [st Htok]]. rewrite Htok.
  rewrite (split_nl_plain _ (spaced_array_plain ds rest Hall)).
  replace (Parser.fuel_for _) with (S (S (4 * List.length toks + 26)))
    by (unfold Parser.fuel_for; cbn [List.length]; lia).
  destruct (parse_spaced_array (4 * List.length toks + 26) (spaced_array (ds :: rest))
              (ds ++ array_rest rest) [spaced_array (ds :: rest)] (int_of_decimal ds) toks)
    as [e [Ee Hp]].
  { rewrite spaced_array_cons. reflexivity. }
  subst e.
  match goal with
  | |- context [Parser.parse ?n ?s] =>
      replace (Parser.parse n s)
        with (@Raise (Value * Parser.t)
                (YaySyntaxError (lit "Unexpected space after " ++ dq (lit "[")) 1 2))
        by (symmetry; exact Hp)
  end.
  reflexivity.
Qed.

Lemma space_after_opening_bracket_witness :
  loads ascii_host (lit "[ 1, 20]")
  = Raise (YaySyntaxError (lit "Unexpected space after " ++ dq (lit "[")) 1 2).
Proof.
  exact (space_after_opening_bracket ascii_host [lit "1"; lit "20"]
           ltac:(discriminate) eq_refl).
Defined.

(** ** A second value *)

Section TwoNumbers.

Variable host : Host.
Variables (a b : str).
Hypothesis a_digits : is_digits a = true.
Hypothesis b_digits : is_digits b = true.

Lemma two_numbers_validate : Lexer._validate_source (a ++ NL :: b) = Ok tt.
Proof.
  pose proof a_digits as Ha. unfold is_digits in Ha. apply andb_true_iff in Ha.
  destruct Ha as [_ Ha].
  pose proof b_digits as Hb. unfold is_digits in Hb. apply andb_true_iff in Hb.
  destruct Hb as [_ Hb].
  destruct (is_digits_head a a_digits) as [d [a' [Ea Hd]]].
  pose proof (ascii_digit_range d Hd) as Rd.
  destruct (digits_last a a_digits) as [abody [az [Eaz Haz]]].
  destruct (digits_last b b_digits) as [bbody [bz [Ebz Hbz]]].
  unfold Lexer._validate_source.
  replace ((3 <=? List.length (a ++ NL :: b))%nat
           && (match a ++ NL :: b with c :: _ => c =? 0xFEFF | [] => false end
               || str_eqb (firstn 3 (a ++ NL :: b)) [0xEF; 0xBB; 0xBF])) with false.
  2:{ symmetry. rewrite Ea. cbn [app firstn].
      replace (d =? 0xFEFF) with false by (symmetry; apply Z.eqb_neq; lia).
      rewrite str_eqb_head_neq by lia. apply andb_false_r. }
  rewrite check_code_points_app by (apply digits_plain; exact Ha).
  cbn [Lexer.check_code_points].
  change (negb (Lexer._is_allowed_code_point NL)) with false. cbv beta iota.
  change (NL =? 0x0A) with true. cbv beta iota.
  rewrite check_code_points_plain by (apply digits_plain; exact Hb).
  unfold split_nl. rewrite split_nl_aux_line by (apply digits_plain; exact Ha).
  cbn [rev app].
  change (split_nl_aux b []) with (split_nl b).
  rewrite split_nl_plain by (apply digits_plain; exact Hb).
  apply check_trailing_spaces_ok. cbn [forallb].
  rewrite Eaz at 1. rewrite Ebz at 1. rewrite !endswith_space_snoc.
  apply Z.eqb_neq in Haz, Hbz. rewrite Haz, Hbz. reflexivity.
Qed.

Lemma two_numbers_lines : split_nl (a ++ NL :: b) = [a; b].
Proof.
  pose proof a_digits as Ha. unfold is_digits in Ha. apply andb_true_iff in Ha.
  destruct Ha as [_ Ha].
  pose proof b_digits as Hb. unfold is_digits in Hb. apply andb_true_iff in Hb.
  destruct Hb as [_ Hb].
  unfold split_nl. rewrite split_nl_aux_line by (apply digits_plain; exact Ha).
  cbn [rev app]. change (split_nl_aux b []) with (split_nl b).
  rewrite split_nl_plain by (apply digits_plain; exact Hb). reflexivity.
Qed.

Lemma tokenize_two_numbers :
  exists st,
    Lexer.tokenize host (Lexer.fuel_for (a ++ NL :: b))
      (Lexer.mk (a ++ NL :: b) 0 1 1 true 0 None)
    = Ok ([Token.mk INDENT (VInt 0) 1 1;
           Token.mk INT (VInt (int_of_decimal a)) 1 1;
           Token.mk NEWLINE (VStr [NL]) 1 (1 + Z.of_nat (List.length a));
           Token.mk INDENT (VInt 0) (1 + 1) 1;
           Token.mk INT (VInt (int_of_decimal b)) (1 + 1) 1;
           Token.mk NEWLINE (VStr [NL]) (1 + 1) (1 + Z.of_nat (List.length b));
           Token.mk EOF VNone (1 + 1) (1 + Z.of_nat (List.length b))], st).
Proof.
  destruct (is_digits_head a a_digits) as [d [a' [Ea Hd]]].
  pose proof (ascii_digit_range d Hd) as Rd.
  destruct (is_digits_head b b_digits) as [e [b' [Eb He]]].
  pose proof (ascii_digit_range e He) as Re.
  pose proof (digits_length_pos a a_digits) as La.
  pose proof (digits_length_pos b b_digits) as Lb.
  set (src := a ++ NL :: b).
  assert (Hs : skipn 0 src = a ++ NL :: b) by reflexivity.
  assert (Hlen : List.length src = (List.length a + S (List.length b))%nat)
    by (unfold src; rewrite length_app; reflexivity).
  unfold Lexer.tokenize. lex_norm. unfold Lexer.fuel_for.
  set (fuel := (2 * List.length src + 4)%nat).
  assert (Hf : (List.length a + List.length b + 5 <= fuel)%nat) by (unfold fuel; lia).
  clearbody fuel.
  do 4 (destruct fuel as [|fuel]; [lia|]).
  eexists.
  erewrite bind_Ok.
  2:{ (* the first number *)
      erewrite tokenize_loop_step.
      2:{ lex_norm. rewrite Hs, Ea. reflexivity. }
      2:{ eapply line_start_token;
            [rewrite Hs, Ea; reflexivity | unfold ord, TAB, NL; simpl; lia ..]. }
      2:{ replace (S (S (S fuel)))
            with (List.length a + S (S (S (S fuel)) - List.length a - 1))%nat by lia.
          eapply scan_number with (x := NL); [exact a_digits | reflexivity | exact Hs]. }
      (* the newline *)
      pose proof (skipn_past _ _ _ _ Hs) as Hs1.
      erewrite tokenize_loop_step.
      2:{ lex_norm. exact Hs1. }
      2:{ apply line_start_inside. }
      2:{ eapply scan_newline; exact Hs1. }
      (* the second number *)
      pose proof (skipn_next _ _ _ _ Hs1) as Hs2.
      erewrite tokenize_loop_step.
      2:{ lex_norm. rewrite Hs2, Eb. reflexivity. }
      2:{ eapply line_start_token;
            [rewrite Hs2, Eb; reflexivity | unfold ord, TAB, NL; simpl; lia ..]. }
      2:{ replace (S fuel)
            with (List.length b + S (S fuel - List.length b - 1))%nat by lia.
          eapply scan_number_end; [exact b_digits | exact Hs2]. }
      apply tokenize_loop_end. lex_norm.
      apply skipn_past. rewrite app_nil_r. exact Hs2. }
  erewrite bind_Ok by reflexivity. lex_norm. cbn [negb].
  erewrite bind_Ok.
  2:{ erewrite bind_Ok by reflexivity. reflexivity. }
  erewrite bind_Ok by reflexivity. lex_norm.
  erewrite bind_Ok by reflexivity.
  cbn [app]. reflexivity.
Qed.

Lemma loads_two_numbers :
  loads host (a ++ NL :: b) = Raise (YaySyntaxError (lit "Unexpected extra content") 2 1).
Proof.
  unfold loads, Lexer.__init__. rewrite two_numbers_validate.
  destruct tokenize_two_numbers as [st Htok]. rewrite Htok.
  rewrite two_numbers_lines.
  vm_compute. reflexivity.
Qed.

End TwoNumbers.

(** X21.  A document holds one value: an integer on the first line and
    another on the second is rejected with [Unexpected extra content] at
    line 2, column 1. *)
Theorem second_value_is_rejected :
  forall host a b,
    is_digits a = true ->
    is_digits b = true ->
    loads host (a ++ NL :: b) = Raise (YaySyntaxError (lit "Unexpected extra content") 2 1).
Proof. intros host a b Ha Hb. apply loads_two_numbers; assumption. Qed.

Lemma second_value_is_rejected_witness :
  loads ascii_host (lit "12" ++ NL :: lit "7")
  = Raise (YaySyntaxError (lit "Unexpected extra content") 2 1).
Proof.
  exact (second_value_is_rejected ascii_host (lit "12") (lit "7") eq_refl eq_refl).
Defined.

(** ** A block string on one line *)

(** [read_to_eol] over text that the input ends in. *)
Lemma read_to_eol_end text : forall f chars src p l c als cli lt,
  forallb plain text = true ->
  skipn p src = text ->
  Lexer.read_to_eol (List.length text + S f) chars (Lexer.mk src p l c als cli lt)
  = Ok (chars ++ text,
        Lexer.mk src (List.length text + p) l (c + Z.of_nat (List.length text)) als cli lt).
Proof.
  induction text as [|x text IH]; intros f chars src p l c als cli lt Hall Hs.
  - cbn [List.length Nat.add Lexer.read_to_eol Z.of_nat].
    erewrite bind_Ok by (eapply peek_end; exact Hs).
    rewrite app_nil_r, Z.add_0_r. reflexivity.
  - cbn [forallb] in Hall. apply andb_true_iff in Hall. destruct Hall as [Hx Hall].
    pose proof (plain_not_newline x Hx) as Hn.
    change (List.length (x :: text) + S f)%nat with (S (List.length text + S f)).
    cbn [Lexer.read_to_eol].
    erewrite bind_Ok by (eapply peek_at; exact Hs).
    unfold Lexer.is_empty, Lexer.ch_is.
    replace (x =? NL) with false by (symmetry; apply Z.eqb_neq; exact Hn).
    cbn [negb andb].
    erewrite bind_Ok by (eapply advance_at; [exact Hs | exact Hn]).
    rewrite (IH f (chars ++ [x]) src (S p) l (c + 1) als cli lt Hall
               (skipn_next _ _ _ _ Hs)).
    rewrite <- app_assoc. cbn [app List.length].
    f_equal. f_equal. f_equal; lia.
Qed.

Lemma scan_backtick host f toks src p l c als cli lt r :
  skipn p src = ord "`" :: r ->
  Lexer.scan host f toks (Lexer.mk src p l c als cli lt)
  = (tok <- Lexer._read_backtick_block_string f ;; Lexer.yield_continue toks tok)
      (Lexer.mk src p l c als cli lt).
Proof.
  intros Hs. unfold Lexer.scan.
  erewrite bind_Ok by (eapply peek_at; exact Hs). reflexivity.
Qed.

Section BlockLine.

Variable host : Host.
Variable text : str.
Hypothesis text_plain : forallb plain text = true.
Hypothesis text_nonempty : text <> [].
Hypothesis text_end : endswith_space text = false.

Lemma block_line_validates : Lexer._validate_source (block_line text) = Ok tt.
Proof.
  apply validate_plain.
  - unfold block_line. cbn [lit map list_ascii_of_string app forallb].
    rewrite text_plain. reflexivity.
  - split; discriminate.
  - unfold block_line. rewrite endswith_space_app by exact text_nonempty. exact text_end.
Qed.

Lemma read_block_line f l c als lt :
  Lexer._read_backtick_block_string (List.length text + S f)
    (Lexer.mk (block_line text) 0 l c als 0 lt)
  = Ok (Token.mk STRING (VStr (text ++ [NL])) l c,
        Lexer.mk (block_line text) (List.length text + 2) l
          (c + 1 + 1 + Z.of_nat (List.length text)) als 0 lt).
Proof.
  set (src := block_line text).
  assert (Hs : skipn 0 src = ord "`" :: ord " " :: text) by reflexivity.
  pose proof (skipn_next _ _ _ _ Hs) as Hs1.
  pose proof (skipn_next _ _ _ _ Hs1) as Hs2.
  unfold Lexer._read_backtick_block_string.
  erewrite bind_Ok by reflexivity. lex_norm. cbv zeta.
  erewrite bind_Ok by (eapply advance_at; [exact Hs | discriminate]).
  erewrite bind_Ok by (eapply peek_at; exact Hs1).
  change (Lexer.ch_is (Some (ord " ")) NL) with false.
  change (Lexer.ch_is (Some (ord " ")) (ord " ")) with true. cbv beta iota.
  erewrite bind_Ok by (eapply advance_at; [exact Hs1 | discriminate]).
  unfold Lexer._read_block_string_content.
  erewrite bind_Ok by reflexivity. lex_norm. cbv zeta.
  erewrite bind_Ok.
  2:{ erewrite bind_Ok by (eapply read_to_eol_end; [exact text_plain | exact Hs2]).
      erewrite bind_Ok.
      2:{ unfold Lexer.eat_newline.
          erewrite bind_Ok.
          2:{ eapply peek_end. apply skipn_past. rewrite app_nil_r. exact Hs2. }
          reflexivity. }
      reflexivity. }
  erewrite bind_Ok.
  2:{ replace (List.length text + S f)%nat with (S (List.length text + f)) by lia.
      cbn [Lexer.block_string_lines].
      erewrite bind_Ok by reflexivity. lex_norm.
      replace (List.length text + 2 <? List.length src)%nat with false.
      2:{ symmetry. apply Nat.ltb_ge. unfold src, block_line.
          cbn [lit map list_ascii_of_string app List.length]. lia. }
      reflexivity. }
  destruct text as [|x r] eqn:E; [congruence|].
  cbn [app]. reflexivity.
Qed.

Lemma tokenize_block_line :
  exists st,
    Lexer.tokenize host (Lexer.fuel_for (block_line text))
      (Lexer.mk (block_line text) 0 1 1 true 0 None)
    = Ok ([Token.mk INDENT (VInt 0) 1 1;
           Token.mk STRING (VStr (text ++ [NL])) 1 1;
           Token.mk NEWLINE (VStr [NL]) 1 (1 + 1 + 1 + Z.of_nat (List.length text));
           Token.mk EOF VNone 1 (1 + 1 + 1 + Z.of_nat (List.length text))], st).
Proof.
  set (src := block_line text).
  assert (Hs : skipn 0 src = ord "`" :: ord " " :: text) by reflexivity.
  assert (Hlen : List.length src = (2 + List.length text)%nat) by reflexivity.
  unfold Lexer.tokenize. lex_norm. unfold Lexer.fuel_for.
  set (fuel := (2 * List.length src + 4)%nat).
  assert (Hf : (List.length text + 3 <= fuel)%nat) by (unfold fuel; lia).
  clearbody fuel.
  do 2 (destruct fuel as [|fuel]; [lia|]).
  eexists.
  erewrite bind_Ok.
  2:{ erewrite tokenize_loop_step.
      2:{ lex_norm. exact Hs. }
      2:{ eapply line_start_token; [exact Hs | discriminate ..]. }
      2:{ erewrite scan_backtick by exact Hs.
          replace (S fuel) with (List.length text + S (S fuel - List.length text - 1))%nat
            by lia.
          erewrite bind_Ok by (apply read_block_line).
          reflexivity. }
      apply tokenize_loop_end. lex_norm.
      replace (List.length text + 2)%nat with (List.length src) by (rewrite Hlen; lia).
      apply skipn_all. }
  erewrite bind_Ok by reflexivity. lex_norm. cbn [negb].
  erewrite bind_Ok.
  2:{ erewrite bind_Ok by reflexivity. reflexivity. }
  erewrite bind_Ok by reflexivity. lex_norm.
  erewrite bind_Ok by reflexivity.
  reflexivity.
Qed.

Lemma loads_block_line : loads host (block_line text) = Ok (VStr (text ++ [NL])).
Proof.
  unfold loads, Lexer.__init__. rewrite block_line_validates.
  destruct tokenize_block_line as [st Htok]. rewrite Htok.
  destruct (parse_string (block_line text) (split_nl (block_line text)) (text ++ [NL])
              (1 + 1 + 1 + Z.of_nat (List.length text))) as [st' Hp].
  change (Parser.fuel_for _) with 32%nat. rewrite Hp. reflexivity.
Qed.

End BlockLine.

(** X22.  A backtick, a space and a line of text is a block string: [loads]
    returns the text with a newline after it, for every text of allowed
    characters that is not empty and does not end in a space.  Nothing in
    the text is an escape or a quote. *)
Theorem one_line_block_string :
  forall host text,
    forallb plain text = true ->
    text <> [] ->
    endswith_space text = false ->
    loads host (block_line text) = Ok (VStr (text ++ [NL])).
Proof. intros host text H1 H2 H3. apply loads_block_line; assumption. Qed.

Lemma one_line_block_string_witness :
  loads ascii_host (block_line (lit "it's \n"))
  = Ok (VStr (lit "it's \n" ++ [NL])).
Proof.
  exact (one_line_block_string ascii_host (lit "it's \n") eq_refl
           ltac:(discriminate) eq_refl).
Defined.

(** ** Keys that are keywords *)

Lemma keyword_cases k :
  is_keyword k = true ->
  k = lit "null" \/ k = lit "true" \/ k = lit "false" \/ k = lit "infinity" \/ k = lit "nan".
Proof.
  unfold is_keyword. intros H.
  repeat (apply orb_true_iff in H; destruct H as [H|H]);
    apply str_eqb_eq in H; tauto.
Qed.

Lemma keyword_chars k :
  is_keyword k = true ->
  forallb key_char k = true /\ (exists x r, k = x :: r /\ key_start x = true).
Proof.
  intros H. destruct (keyword_cases k H) as [E|[E|[E|[E|E]]]]; subst k;
    (split; [reflexivity | eexists _, _; split; reflexivity]).
Qed.

(** [dumps] writes such a key bare. *)
Lemma keyword_is_simple_key host k :
  is_keyword k = true -> Dumper._is_simple_key host k = true.
Proof.
  intros H. destruct (keyword_cases k H) as [E|[E|[E|[E|E]]]]; subst k; reflexivity.
Qed.

(** The lexer reads it as a value: [null], a boolean or a float. *)
Lemma read_identifier_keyword host k f src p l c als cli lt rest :
  is_keyword k = true ->
  skipn p src = k ++ ord ":" :: rest ->
  exists kind v,
    (kind = NULL \/ kind = BOOL \/ kind = FLOAT) /\
    Lexer.read_identifier host (List.length k + S f) (Lexer.mk src p l c als cli lt)
    = Ok (Token.mk kind v l c,
          Lexer.mk src (List.length k + p) l (c + Z.of_nat (List.length k)) als cli lt).
Proof.
  intros Hk Hs. destruct (keyword_chars k Hk) as [Hall _].
  unfold Lexer.read_identifier.
  destruct (keyword_cases k Hk) as [E|[E|[E|[E|E]]]]; subst k;
    eexists _, _;
    (split;
     [| erewrite bind_Ok by reflexivity; lex_norm;
        erewrite bind_Ok by (eapply identifier_chars_key; eassumption);
        reflexivity]); tauto.
Qed.

Section KeywordKey.

Variable host : Host.
Variables (k ds : str).
Hypothesis k_keyword : is_keyword k = true.
Hypothesis ds_digits : is_digits ds = true.

Lemma keyword_entry_plain : forallb plain (k ++ lit ": " ++ ds) = true.
Proof.
  destruct (keyword_chars k k_keyword) as [Hall _].
  pose proof ds_digits as Hd. unfold is_digits in Hd. apply andb_true_iff in Hd.
  destruct Hd as [_ Hd].
  rewrite forallb_app. cbn [lit map list_ascii_of_string app forallb].
  rewrite (digits_plain ds Hd), andb_true_r.
  apply forallb_forall. intros x Hx. apply key_char_plain.
  rewrite forallb_forall in Hall. apply Hall. exact Hx.
Qed.

Lemma keyword_entry_validates : Lexer._validate_source (k ++ lit ": " ++ ds) = Ok tt.
Proof.
  apply validate_plain.
  - exact keyword_entry_plain.
  - destruct (keyword_cases k k_keyword) as [E|[E|[E|[E|E]]]]; subst k;
      split; discriminate.
  - destruct (digits_last ds ds_digits) as [body [z [E Hz]]].
    rewrite E, !app_assoc, endswith_space_snoc. apply Z.eqb_neq. exact Hz.
Qed.

Lemma tokenize_keyword_entry :
  exists kind v st,
    (kind = NULL \/ kind = BOOL \/ kind = FLOAT) /\
    Lexer.tokenize host (Lexer.fuel_for (k ++ lit ": " ++ ds))
      (Lexer.mk (k ++ lit ": " ++ ds) 0 1 1 true 0 None)
    = Ok ([Token.mk INDENT (VInt 0) 1 1;
           Token.mk kind v 1 1;
           Token.mk COLON (VStr (lit ":")) 1 (1 + Z.of_nat (List.length k));
           Token.mk INT (VInt (int_of_decimal ds)) 1 (1 + Z.of_nat (List.length k) + 1 + 1);
           Token.mk NEWLINE (VStr [NL]) 1
             (1 + Z.of_nat (List.length k) + 1 + 1 + Z.of_nat (List.length ds));
           Token.mk EOF VNone 1
             (1 + Z.of_nat (List.length k) + 1 + 1 + Z.of_nat (List.length ds))], st).
Proof.
  destruct (keyword_chars k k_keyword) as [Hall [x [r [Ek Hx]]]].
  pose proof (key_start_range x Hx) as Rx.
  destruct (is_digits_head ds ds_digits) as [d [ds' [Ed Hd]]].
  pose proof (digits_length_pos ds ds_digits) as Lds.
  set (src := k ++ lit ": " ++ ds).
  assert (Hs : skipn 0 src = k ++ ord ":" :: ord " " :: ds) by reflexivity.
  assert (Hlen : List.length src = (List.length k + 2 + List.length ds)%nat).
  { unfold src. rewrite !length_app. cbn [lit map list_ascii_of_string List.length]. lia. }
  destruct (read_identifier_keyword host k
              (2 * List.length src + 2 - List.length k)
              src 0 1 1 false 0 (Some (Token.mk INDENT (VInt 0) 1 1))
              (ord " " :: ds) k_keyword Hs) as [kind [v [Hkind Hread]]].
  exists kind, v. eexists. split; [exact Hkind|].
  unfold Lexer.tokenize. lex_norm. unfold Lexer.fuel_for.
  replace (2 * List.length src + 4)%nat
    with (S (S (S (S (S (2 * List.length src - 1)))))) by lia.
  erewrite bind_Ok.
  2:{ (* INDENT and the keyword *)
      erewrite tokenize_loop_step.
      2:{ lex_norm. rewrite Hs, Ek. reflexivity. }
      2:{ eapply line_start_token;
            [rewrite Hs, Ek; reflexivity | unfold ord, TAB, NL; simpl; lia ..]. }
      2:{ erewrite scan_key by (try exact Hx; rewrite Hs, Ek; reflexivity).
          replace (S (S (S (S (2 * List.length src - 1)))))
            with (List.length k + S (2 * List.length src + 2 - List.length k))%nat by lia.
          erewrite bind_Ok by exact Hread.
          reflexivity. }
      (* the colon *)
      pose proof (skipn_past _ _ _ _ Hs) as Hs2.
      erewrite tokenize_loop_step.
      2:{ lex_norm. exact Hs2. }
      2:{ apply line_start_inside. }
      2:{ eapply scan_punctuation with (x := ord ":"); [reflexivity | exact Hs2]. }
      (* the space *)
      pose proof (skipn_next _ _ _ _ Hs2) as Hs3.
      erewrite tokenize_loop_step.
      2:{ lex_norm. exact Hs3. }
      2:{ apply line_start_inside. }
      2:{ eapply scan_space; exact Hs3. }
      (* the digits *)
      pose proof (skipn_next _ _ _ _ Hs3) as Hs4.
      erewrite tokenize_loop_step.
      2:{ lex_norm. rewrite Hs4, Ed. reflexivity. }
      2:{ apply line_start_inside. }
      2:{ replace (S (2 * List.length src - 1))
            with (List.length ds + S (S (2 * List.length src - 1) - List.length ds - 1))%nat
            by lia.
          eapply scan_number_end; [exact ds_digits | exact Hs4]. }
      apply tokenize_loop_end. lex_norm.
      apply skipn_past. rewrite app_nil_r. exact Hs4. }
  erewrite bind_Ok by reflexivity. lex_norm. cbn [negb].
  erewrite bind_Ok.
  2:{ erewrite bind_Ok by reflexivity. reflexivity. }
  erewrite bind_Ok by reflexivity. lex_norm.
  erewrite bind_Ok by reflexivity.
  cbn [app]. reflexivity.
Qed.

Lemma loads_keyword_entry :
  loads host (k ++ lit ": " ++ ds)
  = Raise (YaySyntaxError (lit "Unexpected extra content") 1
             (1 + Z.of_nat (List.length k))).
Proof.
  unfold loads, Lexer.__init__. rewrite keyword_entry_validates.
  destruct tokenize_keyword_entry as [kind [v [st [Hkind Htok]]]]. rewrite Htok.
  destruct Hkind as [E|[E|E]]; subst kind; vm_compute; reflexivity.
Qed.

End KeywordKey.

(** X23.  An object whose key is one of the words [null], [true], [false],
    [infinity] and [nan] is not read back: [dumps] writes the key bare,
    the lexer reads it as a value, and [loads] rejects the colon after it
    with [Unexpected extra content] at the column of the colon. *)
Theorem keyword_key_is_not_read_back :
  forall host k n,
    is_keyword k = true ->
    0 <= n ->
    loads host (Dumper.dumps host (VDict [(k, VInt n)]) true)
    = Raise (YaySyntaxError (lit "Unexpected extra content") 1
               (1 + Z.of_nat (List.length k))).
Proof.
  intros host k n Hk Hn.
  assert (E : Dumper.dumps host (VDict [(k, VInt n)]) true = k ++ lit ": " ++ str_of_int n).
  { unfold Dumper.dumps.
    cbn [negb Dumper._format_value orb Lexer.nonempty_list flat_map fst snd
         Dumper.nonempty_dict Dumper.nonempty_array app join].
    unfold Dumper.key_str. rewrite (keyword_is_simple_key host k Hk). reflexivity. }
  rewrite E. apply loads_keyword_entry; [exact Hk|].
  apply (str_of_int_digits n Hn).
Qed.

Lemma keyword_key_is_not_read_back_witness :
  loads ascii_host (Dumper.dumps ascii_host (VDict [(lit "true", VInt 7)]) true)
  = Raise (YaySyntaxError (lit "Unexpected extra content") 1 5).
Proof.
  exact (keyword_key_is_not_read_back ascii_host (lit "true") 7 eq_refl
           ltac:(discriminate)).
Defined.
